(** * Sequence: the block-structured sample sequence of [src/Sequence.cpp]

    A shallow embedding of class [Sequence] and the properties of its
    edit operations.

    Conventions of the embedding.
    - [sampleCount] (a signed 64-bit count) and [size_t] values are
      integers of [Z]; indices into the block array are [nat].  Where
      nothing guards the operands, the arithmetic wraps as the machine
      does: the conversion [as_size_t], the differences and sums of the
      loader and the sum of [AppendBlockFile] ([wrap64]), the [size_t]
      difference and sum in the loop of [SetSamples] ([size_t_sub],
      [size_t_add]).  Elsewhere sums and differences are the
      mathematical ones: they are those of the machine as long as every
      count stays between [-2^63] and [2^63 - 1] and every piece that
      [Blockify] cuts is shorter than [2^31] samples, and the theorems
      about a new count or about the pieces assume these bounds.  The
      guard [Overflows] is modelled exactly, double rounding included.
    - A sample is the integer of its bit pattern; silence is 0.
    - A [samplePtr] into a [SampleBuffer] is a list of samples and an
      offset counted in samples (the source multiplies by the sample size
      to get bytes).
    - [wxASSERT], an out-of-range index, a null [BlockFilePtr] that is
      dereferenced, a division by zero and a loop that does not end have
      the outcome [Undefined].
    - Every call into the block store (creating, copying or reading a
      block file) may throw; the [n]-th call of a run throws exactly when
      [io_fails n] holds. *)

From Stdlib Require Import ZArith Lia String.
From stdpp Require Import base list.

Open Scope Z_scope.

(** ** Outcomes and the two state monads *)

Inductive exn := InconsistencyException | FileException.

Inductive res (A : Type) :=
| Ret (a : A)
| Throw (e : exn)
| Undefined.
Arguments Ret {A} a.
Arguments Throw {A} e.
Arguments Undefined {A}.

Definition res_bind {A B} (m : res A) (k : A -> res B) : res B :=
  match m with
  | Ret a => k a
  | Throw e => Throw e
  | Undefined => Undefined
  end.

(** A computation over a state [S]: the state is returned also when the
    computation throws, it is what the caller of the method observes. *)
Definition St (S A : Type) := S -> res A * S.

Definition ret {S A} (a : A) : St S A := fun s => (Ret a, s).

Definition bind {S A B} (m : St S A) (k : A -> St S B) : St S B :=
  fun s => match m s with
           | (Ret a, s') => k a s'
           | (Throw e, s') => (Throw e, s')
           | (Undefined, s') => (Undefined, s')
           end.

Definition throw {S A} (e : exn) : St S A := fun s => (Throw e, s).
Definition undefined {S A} : St S A := fun s => (Undefined, s).
Definition liftR {S A} (r : res A) : St S A := fun s => (r, s).
Definition wxASSERT {S} (b : bool) : St S unit :=
  if b then ret tt else undefined.
Definition get {S} : St S S := fun s => (Ret s, s).
Definition put {S} (s : S) : St S unit := fun _ => (Ret tt, s).

(** [finally]: the cleanup runs when the scope is left, by return or by
    exception alike.  The sources set a success flag as the last statement
    of the guarded scope; the cleanup is given that flag, which is true
    exactly when the scope was left by running to its end. *)
Definition completed {A} (r : res A) : bool :=
  match r with Ret _ => true | _ => false end.

Definition finally {S A} (m : St S A) (cleanup : bool -> S -> S) : St S A :=
  fun s => let (r, s') := m s in (r, cleanup (completed r) s').

Notation "'let*' x ':=' m 'in' k" := (bind m (fun x => k))
  (at level 10, x name, m at level 100, k at level 200).
Notation "'let+' x ':=' m 'in' k" := (res_bind m (fun x => k))
  (at level 10, x name, m at level 100, k at level 200).
Notation "m1 ';;' m2" := (bind m1 (fun _ => m2))
  (at level 100, m2 at level 200, right associativity).

Definition assertR (b : bool) : res unit := if b then Ret tt else Undefined.

(** ** Data model *)

Definition sampleFormat := Z.
Abbreviation Sample := Z (only parsing).

Inductive BlockFile :=
| SimpleBlockFile (format : sampleFormat) (data : list Sample)
| SilentBlockFile (len : N).

Definition BlockFilePtr := option BlockFile.

Definition GetLength (f : BlockFile) : Z :=
  match f with
  | SimpleBlockFile _ data => Z.of_nat (length data)
  | SilentBlockFile len => Z.of_N len
  end.

Record SeqBlock := mkSeqBlock { SeqBlock_f : BlockFilePtr; SeqBlock_start : Z }.

(** [SeqBlock::Plus] *)
Definition Plus (b : SeqBlock) (delta : Z) : SeqBlock :=
  mkSeqBlock (SeqBlock_f b) (SeqBlock_start b + delta).

Abbreviation BlockArray := (list SeqBlock).

Record Sequence := mkSequence {
  mSampleFormat : sampleFormat;
  mMinSamples : Z;
  mMaxSamples : Z;
  mBlock : BlockArray;
  mNumSamples : Z;
  mErrorOpening : bool
}.

Definition set_mSampleFormat (v : sampleFormat) (s : Sequence) : Sequence :=
  mkSequence v (mMinSamples s) (mMaxSamples s) (mBlock s) (mNumSamples s)
    (mErrorOpening s).
Definition set_mMinSamples (v : Z) (s : Sequence) : Sequence :=
  mkSequence (mSampleFormat s) v (mMaxSamples s) (mBlock s) (mNumSamples s)
    (mErrorOpening s).
Definition set_mMaxSamples (v : Z) (s : Sequence) : Sequence :=
  mkSequence (mSampleFormat s) (mMinSamples s) v (mBlock s) (mNumSamples s)
    (mErrorOpening s).
Definition set_mBlock (v : BlockArray) (s : Sequence) : Sequence :=
  mkSequence (mSampleFormat s) (mMinSamples s) (mMaxSamples s) v
    (mNumSamples s) (mErrorOpening s).
Definition set_mNumSamples (v : Z) (s : Sequence) : Sequence :=
  mkSequence (mSampleFormat s) (mMinSamples s) (mMaxSamples s) (mBlock s) v
    (mErrorOpening s).
Definition set_mErrorOpening (v : bool) (s : Sequence) : Sequence :=
  mkSequence (mSampleFormat s) (mMinSamples s) (mMaxSamples s) (mBlock s)
    (mNumSamples s) v.

(** The state of a method call: the object and the number of block-store
    calls made so far. *)
Record World := mkWorld { this : Sequence; calls : nat }.

Definition L := St nat.
Definition M := St World.

Definition liftL {A} (m : L A) : M A :=
  fun w => let (r, n) := m (calls w) in (r, mkWorld (this w) n).
Definition getThis : M Sequence := fun w => (Ret (this w), w).
Definition modifyThis (g : Sequence -> Sequence) : M unit :=
  fun w => (Ret tt, mkWorld (g (this w)) (calls w)).

(** Length of the file of a block, 0 for a missing file; the quantity
    the invariants speak about. *)
Definition blockLen (b : SeqBlock) : Z :=
  match SeqBlock_f b with Some f => GetLength f | None => 0 end.

Definition deref {S} (p : BlockFilePtr) : St S BlockFile :=
  match p with Some f => ret f | None => undefined end.

(** ** Double precision on integers

    [sampleCount::as_double] and the cast [(double)len] round an integer
    to the nearest double, ties to even; the sum of two doubles is the
    exact sum rounded the same way. *)

Definition round_double (z : Z) : Z :=
  let a := Z.abs z in
  let e := Z.log2 a in
  if e <? 53 then z
  else
    let ulp := 2 ^ (e - 52) in
    let q := a / ulp in
    let r := a mod ulp in
    let q' := if (ulp <? 2 * r) || ((ulp =? 2 * r) && Z.odd q)
              then q + 1 else q in
    Z.sgn z * (q' * ulp).

Definition as_double (v : Z) : Z := round_double v.
Definition double_add (a b : Z) : Z := round_double (a + b).

(** [Overflows]: the comparison converts the constant
    [wxLL(9223372036854775807)] to double. *)
Definition Overflows (numSamples : Z) : bool :=
  round_double 9223372036854775807 <? numSamples.

(** A value of the signed 64-bit type of [sampleCount]: its sums and
    differences, and the conversion of a [size_t] to it, are taken modulo
    [2^64]. *)
Definition wrap64 (v : Z) : Z := (v + 2 ^ 63) mod 2 ^ 64 - 2 ^ 63.

(** Modelled from the spec: [sampleCount::as_size_t] is declared outside
    [src/].  The specification says of a count that it is a signed
    64-bit integer, and no more about this conversion to the unsigned
    64-bit [size_t]: a count that is not negative is kept, and for a
    negative count [v] the value is the one that C++ defines for the
    conversion of a signed integer to an unsigned type, [2^64 + v].  The
    call sites say in comments why they take the count to be
    non-negative, and make no test of it. *)
Definition as_size_tR (v : Z) : res Z :=
  Ret (if 0 <=? v then v else v + 2 ^ 64).
Definition as_size_t {S} (v : Z) : St S Z := liftR (as_size_tR v).

(** The difference and the sum of two [size_t], which are 64-bit
    unsigned integers: a difference below 0 and a sum of [2^64] or more
    wrap around. *)
Definition size_t_sub (a b : Z) : Z :=
  if a <? b then a - b + 2 ^ 64 else a - b.
Definition size_t_add (a b : Z) : Z :=
  if 2 ^ 64 <=? a + b then a + b - 2 ^ 64 else a + b.

(** Modelled from the spec: [limitSampleBufferSize] is declared outside
    [src/]; it is the buffer size capped by a sample count,
    [min(bufferSize, max(0, limit))]. *)
Definition limitSampleBufferSize (bufferSize limit : Z) : Z :=
  Z.min bufferSize (Z.max 0 limit).

Section Model.

(** The environment of the class: the sample size of a format and the
    conversion of one sample (both declared outside [src/]), the static
    member [sMaxDiskBlockSize], the fault plan of the block store, and the
    double-precision product [size_t(frac * (hi - lo))] of [FindBlock],
    given the numerator and the denominator of [frac] and [hi - lo]. *)
Variable SAMPLE_SIZE : sampleFormat -> Z.
Variable convert : sampleFormat -> sampleFormat -> Sample -> Sample.
Variable sMaxDiskBlockSize : Z.
Variable io_fails : nat -> bool.
Variable guess_offset : Z -> Z -> nat -> nat.

(** ** Buffers and the block store *)

Definition CopySamples (srcFormat dstFormat : sampleFormat)
    (src : list Sample) : list Sample :=
  map (convert srcFormat dstFormat) src.

(** [SampleBuffer buffer(size, format)] *)
Definition SampleBuffer (size : Z) : list Sample :=
  replicate (Z.to_nat size) 0.

(** Storing [data] at [buffer + off]; storing outside the buffer is
    undefined. *)
Definition buf_store {S} (buffer : list Sample) (off : Z)
    (data : list Sample) : St S (list Sample) :=
  if (0 <=? off) && (off + Z.of_nat (length data) <=? Z.of_nat (length buffer))
  then ret (take (Z.to_nat off) buffer ++ data
            ++ drop (Z.to_nat off + length data) buffer)
  else undefined.

(** [ClearSamples(buffer, format, start, len)] *)
Definition ClearSamples {S} (buffer : list Sample) (start len : Z)
    : St S (list Sample) :=
  buf_store buffer start (replicate (Z.to_nat len) 0).

Definition store_call : L unit :=
  fun n => if io_fails n then (Throw FileException, S n) else (Ret tt, S n).

(** The samples of a block file, read in [format]. *)
Definition block_data (f : BlockFile) (format : sampleFormat) : list Sample :=
  match f with
  | SimpleBlockFile fmt data => CopySamples fmt format data
  | SilentBlockFile len => replicate (N.to_nat len) 0
  end.

(** [BlockFile::ReadData] with [mayThrow = true]: throws, or reads all
    [len] samples. *)
Definition ReadData (f : BlockFile) (format : sampleFormat)
    (start len : Z) : L (list Sample) :=
  store_call;;
  ret (take (Z.to_nat len) (drop (Z.to_nat start) (block_data f format))).

(** [DirManager::NewSimpleBlockFile(buffer, len, format)]: the file holds
    the first [len] samples at [buffer]. *)
Definition NewSimpleBlockFile (buffer : list Sample) (len : Z)
    (format : sampleFormat) : L BlockFilePtr :=
  store_call;;
  ret (Some (SimpleBlockFile format (resize (Z.to_nat len) 0 buffer))).

(** [DirManager::CopyBlockFile]: a handle to the same samples, by
    reference count or by a copy of the file. *)
Definition CopyBlockFile (b : BlockFilePtr) : L BlockFilePtr :=
  store_call;; ret b.

(** [make_blockfile<SilentBlockFile>(len)] *)
Definition newSilentBlockFile (len : Z) : BlockFilePtr :=
  Some (SilentBlockFile (Z.to_N len)).

(** ** Construction *)

(** [Sequence::Sequence(projDirManager, format)] *)
Definition Sequence_new (format : sampleFormat) : Sequence :=
  let minSamples := sMaxDiskBlockSize / SAMPLE_SIZE format / 2 in
  {| mSampleFormat := format;
     mMinSamples := minSamples;
     mMaxSamples := minSamples * 2;
     mBlock := [];
     mNumSamples := 0;
     mErrorOpening := false |}.

Definition GetMaxBlockSize (s : Sequence) : Z := mMaxSamples s.
Definition GetIdealBlockSize (s : Sequence) : Z := mMaxSamples s.

(** ** Consistency check *)

(** The loop of [ConsistencyCheck]: [None] when [bError] was set, else
    the final [pos]. *)
Fixpoint ConsistencyCheck_loop (blocks : BlockArray) (maxSamples pos : Z)
    : option Z :=
  match blocks with
  | [] => Some pos
  | seqBlock :: rest =>
      if negb (pos =? SeqBlock_start seqBlock) then None
      else match SeqBlock_f seqBlock with
           | Some f =>
               let length := GetLength f in
               if maxSamples <? length then None
               else ConsistencyCheck_loop rest maxSamples (pos + length)
           | None => None
           end
  end.

(** [bError] at the end of the static [Sequence::ConsistencyCheck]. *)
Definition ConsistencyCheck_bError (block : BlockArray) (maxSamples : Z)
    (from : nat) (numSamples : Z) : bool :=
  let pos := match block !! from with
             | Some b => SeqBlock_start b
             | None => numSamples
             end in
  if (from =? 0)%nat && negb (pos =? 0) then true
  else match ConsistencyCheck_loop (drop from block) maxSamples pos with
       | None => true
       | Some pos' => negb (pos' =? numSamples)
       end.

Definition ConsistencyCheck (block : BlockArray) (maxSamples : Z)
    (from : nat) (numSamples : Z) (mayThrow : bool) : res unit :=
  if ConsistencyCheck_bError block maxSamples from numSamples
  then if mayThrow then Throw InconsistencyException else Undefined
  else Ret tt.

(** [Sequence::CommitChangesIfConsistent] *)
Definition CommitChangesIfConsistent (newBlock : BlockArray)
    (numSamples : Z) : M unit :=
  let* s := getThis in
  liftR (ConsistencyCheck newBlock (mMaxSamples s) 0 numSamples true);;
  modifyThis (fun s => set_mNumSamples numSamples (set_mBlock newBlock s)).

(** ** Block locator *)

(** The [while (true)] loop of [FindBlock]; [fuel] bounds the number of
    iterations. *)
Fixpoint FindBlock_loop (fuel : nat) (block : BlockArray) (pos : Z)
    (lo hi : nat) (loSamples hiSamples : Z) : res nat :=
  match fuel with
  | O => Undefined
  | S fuel' =>
      let guess :=
        Nat.min (hi - 1)
          (lo + guess_offset (pos - loSamples) (hiSamples - loSamples)
                  (hi - lo)) in
      match block !! guess with
      | None => Undefined
      | Some b =>
          match SeqBlock_f b with
          | None => Undefined
          | Some f =>
              let+ _ := assertR (0 <? GetLength f) in
              let+ _ := assertR ((lo <=? guess)%nat && (guess <? hi)%nat
                                 && (lo <? hi)%nat) in
              if pos <? SeqBlock_start b then
                let+ _ := assertR (negb (lo =? guess)%nat) in
                FindBlock_loop fuel' block pos lo guess loSamples
                  (SeqBlock_start b)
              else
                let nextStart := SeqBlock_start b + GetLength f in
                if pos <? nextStart then Ret guess
                else
                  let+ _ := assertR (guess <? hi - 1)%nat in
                  FindBlock_loop fuel' block pos (guess + 1) hi nextStart
                    hiSamples
          end
      end
  end.

(** [Sequence::FindBlock].  Every iteration that passes its assertions
    shrinks [hi - lo], so [numBlocks + 1] iterations are never used up. *)
Definition FindBlock (s : Sequence) (pos : Z) : res nat :=
  let+ _ := assertR ((0 <=? pos) && (pos <? mNumSamples s)) in
  if pos =? 0 then Ret O
  else
    let numBlocks := length (mBlock s) in
    let+ rval := FindBlock_loop (S numBlocks) (mBlock s) pos 0 numBlocks 0
                   (mNumSamples s) in
    let+ _ := assertR
      ((rval <? numBlocks)%nat &&
       match mBlock s !! rval with
       | Some b => (SeqBlock_start b <=? pos) && (pos <? SeqBlock_start b + blockLen b)
       | None => false
       end) in
    Ret rval.

(** ** Reading samples *)

Definition at_index {S} (block : BlockArray) (i : nat) : St S SeqBlock :=
  match block !! i with Some b => ret b | None => undefined end.

(** [Sequence::Read] with [mayThrow = true], storing at [buffer + off]. *)
Definition Read (buffer : list Sample) (off : Z) (format : sampleFormat)
    (b : SeqBlock) (blockRelativeStart len : Z) : L (list Sample) :=
  let* f := deref (SeqBlock_f b) in
  wxASSERT (blockRelativeStart + len <=? GetLength f);;
  let* data := ReadData f format blockRelativeStart len in
  buf_store buffer off data.

(** The [while (len)] loop of [Sequence::Get(int b, ...)] over the blocks
    from index [b] on. *)
Fixpoint Get_loop (rest : BlockArray) (buffer : list Sample) (off : Z)
    (format : sampleFormat) (start len : Z) : L (list Sample) :=
  if len =? 0 then ret buffer
  else match rest with
       | [] => undefined
       | block :: rest' =>
           let* bstart := as_size_t (start - SeqBlock_start block) in
           let* f := deref (SeqBlock_f block) in
           let blen := Z.min len (GetLength f - bstart) in
           let* buffer := Read buffer off format block bstart blen in
           Get_loop rest' buffer (off + blen) format (start + blen)
             (len - blen)
       end.

(** [Sequence::Get(int b, samplePtr buffer, format, start, len, true)] *)
Definition Get (s : Sequence) (b : nat) (buffer : list Sample) (off : Z)
    (format : sampleFormat) (start len : Z) : L (list Sample) :=
  Get_loop (drop b (mBlock s)) buffer off format start len.

(** ** Blockify *)

(** The [for] loop of [Blockify].  The source holds [newLen] in an [int]
    and the products in [size_t]: the values here are theirs as long as
    a piece is shorter than [2^31] samples and [num * len] is below
    [2^64]. *)
Fixpoint Blockify_loop (n : nat) (i num : Z) (format : sampleFormat)
    (blist : BlockArray) (start : Z) (buffer : list Sample) (len : Z)
    : L BlockArray :=
  match n with
  | O => ret blist
  | S n' =>
      let offset := i * len / num in
      let newLen := (i + 1) * len / num - offset in
      let bufStart := drop (Z.to_nat offset) buffer in
      let* file := NewSimpleBlockFile bufStart newLen format in
      Blockify_loop n' (i + 1) num format
        (blist ++ [mkSeqBlock file (start + offset)]) start buffer len
  end.

(** [Sequence::Blockify] *)
Definition Blockify (maxSamples : Z) (format : sampleFormat)
    (blist : BlockArray) (start : Z) (buffer : list Sample) (len : Z)
    : L BlockArray :=
  if len <=? 0 then ret blist
  else if maxSamples =? 0 then undefined
  else
    let num := (len + (maxSamples - 1)) / maxSamples in
    Blockify_loop (Z.to_nat num) 0 num format blist start buffer len.

(** ** Paste *)

(** [Sequence::AppendBlock], on the caller's array and count. *)
Definition AppendBlock (block : BlockArray) (numSamples : Z) (b : SeqBlock)
    : L (BlockArray * Z) :=
  let* f := deref (SeqBlock_f b) in
  if Overflows (double_add (as_double numSamples) (as_double (GetLength f)))
  then throw InconsistencyException
  else
    let* file := CopyBlockFile (SeqBlock_f b) in
    let* nf := deref file in
    ret (block ++ [mkSeqBlock file numSamples], numSamples + GetLength nf).

Fixpoint AppendBlock_each (srcBlock : BlockArray) (newBlock : BlockArray)
    (samples : Z) : L (BlockArray * Z) :=
  match srcBlock with
  | [] => ret (newBlock, samples)
  | b :: rest =>
      let* r := AppendBlock newBlock samples b in
      AppendBlock_each rest (fst r) (snd r)
  end.

(** [for (i = from; i < numBlocks; i++) mBlock[i].start += delta] *)
Definition shift_from (from : nat) (delta : Z) (block : BlockArray)
    : BlockArray :=
  take from block ++ map (fun b => Plus b delta) (drop from block).

(** The middle blocks of a large paste, copied by reference. *)
Fixpoint Paste_copy_middle (middle : BlockArray) (s : Z)
    (newBlock : BlockArray) : L BlockArray :=
  match middle with
  | [] => ret newBlock
  | block :: rest =>
      let* file := CopyBlockFile (SeqBlock_f block) in
      Paste_copy_middle rest s
        (newBlock ++ [mkSeqBlock file (SeqBlock_start block + s)])
  end.

(** [Sequence::Paste].  [mNumSamples + addedLen] and the shifted starts
    are those of the 64-bit count as long as the new count is at most
    [2^63 - 1]. *)
Definition Paste (s : Z) (src : Sequence) : M unit :=
  let* t := getThis in
  if (s <? 0) || (mNumSamples t <? s) then throw InconsistencyException
  else if Overflows (double_add (as_double (mNumSamples t))
                       (as_double (mNumSamples src)))
  then throw InconsistencyException
  else if negb (mSampleFormat src =? mSampleFormat t)
  then throw InconsistencyException
  else
    let srcBlock := mBlock src in
    let addedLen := mNumSamples src in
    let srcNumBlocks := length srcBlock in
    if (addedLen =? 0) || (srcNumBlocks =? 0)%nat then ret tt
    else
      let numBlocks := length (mBlock t) in
      let* appendHere :=
        if (numBlocks =? 0)%nat then ret true
        else if s =? mNumSamples t then
          let* back := at_index (mBlock t) (numBlocks - 1) in
          let* f := deref (SeqBlock_f back) in
          ret (mMinSamples t <=? GetLength f)
        else ret false in
      if appendHere : bool then
        let* r := liftL (AppendBlock_each srcBlock (mBlock t)
                           (mNumSamples t)) in
        CommitChangesIfConsistent (fst r) (snd r)
      else
        let* b := if s =? mNumSamples t then ret (numBlocks - 1)%nat
                  else liftR (FindBlock t s) in
        wxASSERT (b <? numBlocks)%nat;;
        let* pBlock := at_index (mBlock t) b in
        let* pf := deref (SeqBlock_f pBlock) in
        let length := GetLength pf in
        let largerBlockLen := addedLen + length in
        if largerBlockLen <=? mMaxSamples t then
          let block := pBlock in
          let* sz := as_size_t largerBlockLen in
          let buffer := SampleBuffer sz in
          let* sAddedLen := as_size_t addedLen in
          let* splitPoint := as_size_t (s - SeqBlock_start block) in
          let* buffer := liftL (Read buffer 0 (mSampleFormat t) block 0
                                  splitPoint) in
          let* buffer := liftL (Get src 0 buffer splitPoint
                                  (mSampleFormat t) 0 sAddedLen) in
          let* buffer := liftL (Read buffer (splitPoint + sAddedLen)
                                  (mSampleFormat t) block splitPoint
                                  (length - splitPoint)) in
          let* file := liftL (NewSimpleBlockFile buffer sz
                                (mSampleFormat t)) in
          modifyThis (fun t =>
            set_mBlock (<[b := mkSeqBlock file (SeqBlock_start block)]>
                          (mBlock t)) t);;
          modifyThis (fun t =>
            set_mBlock (shift_from (b + 1) addedLen (mBlock t)) t);;
          modifyThis (fun t =>
            set_mNumSamples (mNumSamples t + addedLen) t);;
          let* t' := getThis in
          liftR (ConsistencyCheck (mBlock t') (mMaxSamples t') 0
                   (mNumSamples t') false)
        else
          let newBlock := take b (mBlock t) in
          let* splitBlock := at_index (mBlock t) b in
          let* sf := deref (SeqBlock_f splitBlock) in
          let splitLen := GetLength sf in
          let* splitPoint := as_size_t (s - SeqBlock_start splitBlock) in
          let* newBlock :=
            if (srcNumBlocks <=? 4)%nat then
              let* sAddedLen := as_size_t addedLen in
              let sum := splitLen + sAddedLen in
              let sumBuffer := SampleBuffer sum in
              let* sumBuffer := liftL (Read sumBuffer 0 (mSampleFormat t)
                                         splitBlock 0 splitPoint) in
              let* sumBuffer := liftL (Get src 0 sumBuffer splitPoint
                                         (mSampleFormat t) 0 sAddedLen) in
              let* sumBuffer := liftL (Read sumBuffer
                                         (splitPoint + sAddedLen)
                                         (mSampleFormat t) splitBlock
                                         splitPoint
                                         (splitLen - splitPoint)) in
              liftL (Blockify (mMaxSamples t) (mSampleFormat t) newBlock
                       (SeqBlock_start splitBlock) sumBuffer sum)
            else
              let* src0 := at_index srcBlock 0 in
              let* src0f := deref (SeqBlock_f src0) in
              let* src1 := at_index srcBlock 1 in
              let* src1f := deref (SeqBlock_f src1) in
              let srcFirstTwoLen := GetLength src0f + GetLength src1f in
              let leftLen := splitPoint + srcFirstTwoLen in
              let* penultimate := at_index srcBlock (srcNumBlocks - 2) in
              let* penf := deref (SeqBlock_f penultimate) in
              let* srcLast := at_index srcBlock (srcNumBlocks - 1) in
              let* lastf := deref (SeqBlock_f srcLast) in
              let srcLastTwoLen := GetLength penf + GetLength lastf in
              let rightSplit := splitLen - splitPoint in
              let rightLen := rightSplit + srcLastTwoLen in
              let sampleBuffer := SampleBuffer (Z.max leftLen rightLen) in
              let* sampleBuffer := liftL (Read sampleBuffer 0
                                            (mSampleFormat t) splitBlock 0
                                            splitPoint) in
              let* sampleBuffer := liftL (Get src 0 sampleBuffer splitPoint
                                            (mSampleFormat t) 0
                                            srcFirstTwoLen) in
              let* newBlock := liftL (Blockify (mMaxSamples t)
                                        (mSampleFormat t) newBlock
                                        (SeqBlock_start splitBlock)
                                        sampleBuffer leftLen) in
              let* newBlock := liftL (Paste_copy_middle
                                        (take (srcNumBlocks - 4)
                                           (drop 2 srcBlock))
                                        s newBlock) in
              let lastStart := SeqBlock_start penultimate in
              let* sampleBuffer := liftL (Get src (srcNumBlocks - 2)
                                            sampleBuffer 0
                                            (mSampleFormat t) lastStart
                                            srcLastTwoLen) in
              let* sampleBuffer := liftL (Read sampleBuffer srcLastTwoLen
                                            (mSampleFormat t) splitBlock
                                            splitPoint rightSplit) in
              liftL (Blockify (mMaxSamples t) (mSampleFormat t) newBlock
                       (s + lastStart) sampleBuffer rightLen) in
          let newBlock :=
            newBlock ++ map (fun blk => Plus blk addedLen)
                          (drop (b + 1) (mBlock t)) in
          CommitChangesIfConsistent newBlock (mNumSamples t + addedLen).

(** ** Delete *)

(** [Sequence::Delete] *)
Definition Delete (start len : Z) : M unit :=
  if len =? 0 then ret tt
  else
    let* t := getThis in
    if (len <? 0) || (start <? 0) || (mNumSamples t <=? start)
    then throw InconsistencyException
    else
      let numBlocks := length (mBlock t) in
      let* b0 := liftR (FindBlock t start) in
      let* b1 := liftR (FindBlock t (start + len - 1)) in
      let format := mSampleFormat t in
      let scratchSize := mMaxSamples t + mMinSamples t in
      let* within :=
        if (b0 =? b1)%nat then
          let* pBlock := at_index (mBlock t) b0 in
          let* pf := deref (SeqBlock_f pBlock) in
          ret (mMinSamples t <=? GetLength pf - len)
        else ret false in
      if within : bool then
        let* b := at_index (mBlock t) b0 in
        let* bf := deref (SeqBlock_f b) in
        let length := GetLength bf in
        let* pos := as_size_t (start - SeqBlock_start b) in
        wxASSERT (len <? length);;
        let* newLen := as_size_t (length - len) in
        let scratch := SampleBuffer scratchSize in
        let* scratch := liftL (Read scratch 0 format b 0 pos) in
        let* from := as_size_t (pos + len) in
        let* scratch := liftL (Read scratch pos format b from
                                 (newLen - pos)) in
        let* newFile := liftL (NewSimpleBlockFile scratch newLen format) in
        modifyThis (fun t =>
          set_mBlock (<[b0 := mkSeqBlock newFile (SeqBlock_start b)]>
                        (mBlock t)) t);;
        modifyThis (fun t =>
          set_mBlock (shift_from (b0 + 1) (- len) (mBlock t)) t);;
        modifyThis (fun t => set_mNumSamples (mNumSamples t - len) t);;
        let* t' := getThis in
        liftR (ConsistencyCheck (mBlock t') (mMaxSamples t') 0
                 (mNumSamples t') false)
      else
        let newBlock := take b0 (mBlock t) in
        let* preBlock := at_index (mBlock t) b0 in
        let* preBufferLen := as_size_t (start - SeqBlock_start preBlock) in
        (* the pair is the new array and the scratch buffer, if allocated *)
        let* pre :=
          if negb (preBufferLen =? 0) then
            if (mMinSamples t <=? preBufferLen) || (b0 =? 0)%nat then
              let scratch := SampleBuffer scratchSize in
              let* scratch := liftL (Read scratch 0 format preBlock 0
                                       preBufferLen) in
              let* pFile := liftL (NewSimpleBlockFile scratch preBufferLen
                                     format) in
              ret (newBlock ++ [mkSeqBlock pFile (SeqBlock_start preBlock)],
                   Some scratch)
            else
              let* prepreBlock := at_index (mBlock t) (b0 - 1) in
              let* ppf := deref (SeqBlock_f prepreBlock) in
              let prepreLen := GetLength ppf in
              let sum := prepreLen + preBufferLen in
              let scratch := SampleBuffer scratchSize in
              let* scratch := liftL (Read scratch 0 format prepreBlock 0
                                       prepreLen) in
              let* scratch := liftL (Read scratch prepreLen format preBlock
                                       0 preBufferLen) in
              let newBlock := take (length newBlock - 1) newBlock in
              let* newBlock := liftL (Blockify (mMaxSamples t) format
                                        newBlock
                                        (SeqBlock_start prepreBlock)
                                        scratch sum) in
              ret (newBlock, Some scratch)
          else ret (newBlock, None) in
        let newBlock := fst pre in
        let scratch : option (list Sample) := snd pre in
        let* postBlock := at_index (mBlock t) b1 in
        let* postf := deref (SeqBlock_f postBlock) in
        let* postBufferLen :=
          as_size_t (SeqBlock_start postBlock + GetLength postf
                     - (start + len)) in
        (* the pair is the new array and the value of [b1] *)
        let* post :=
          if negb (postBufferLen =? 0) then
            if (mMinSamples t <=? postBufferLen)
               || (b1 =? numBlocks - 1)%nat then
              let scratch := match scratch with
                             | Some buf => buf
                             | None => SampleBuffer postBufferLen
                             end in
              let* pos := as_size_t (start + len
                                     - SeqBlock_start postBlock) in
              let* scratch := liftL (Read scratch 0 format postBlock pos
                                       postBufferLen) in
              let* file := liftL (NewSimpleBlockFile scratch postBufferLen
                                    format) in
              ret (newBlock ++ [mkSeqBlock file start], b1)
            else
              let* postpostBlock := at_index (mBlock t) (b1 + 1) in
              let* ppf := deref (SeqBlock_f postpostBlock) in
              let postpostLen := GetLength ppf in
              let sum := postpostLen + postBufferLen in
              let scratch := match scratch with
                             | Some buf => buf
                             | None => SampleBuffer sum
                             end in
              let* pos := as_size_t (start + len
                                     - SeqBlock_start postBlock) in
              let* scratch := liftL (Read scratch 0 format postBlock pos
                                       postBufferLen) in
              let* scratch := liftL (Read scratch postBufferLen format
                                       postpostBlock 0 postpostLen) in
              let* newBlock := liftL (Blockify (mMaxSamples t) format
                                        newBlock start scratch sum) in
              ret (newBlock, (b1 + 1)%nat)
          else ret (newBlock, b1) in
        let newBlock :=
          fst post ++ map (fun blk => Plus blk (- len))
                        (drop (snd post + 1) (mBlock t)) in
        CommitChangesIfConsistent newBlock (mNumSamples t - len).

(** ** SetSamples *)

(** The [while (len != 0)] loop of [SetSamples] over the blocks from index
    [b] on, followed by the copy of the blocks that are left.  A null
    [buffer] is [None].  [bstart], [fileLength] and [blen] are [size_t],
    and so are their difference and their sum. *)
Fixpoint SetSamples_loop (rest : BlockArray) (t : Sequence)
    (buffer : option (list Sample)) (format : sampleFormat)
    (temp scratch : list Sample) (newBlock : BlockArray) (start len : Z)
    : L BlockArray :=
  if len =? 0 then ret (newBlock ++ rest)
  else match rest with
       | [] => undefined
       | block :: rest' =>
           let* bstart := as_size_t (start - SeqBlock_start block) in
           let* f := deref (SeqBlock_f block) in
           let fileLength := GetLength f in
           let blen := limitSampleBufferSize (size_t_sub fileLength bstart)
                         len in
           (* the pair is [useBuffer] and [temp] *)
           let* ub :=
             match buffer with
             | Some buf =>
                 if negb (format =? mSampleFormat t) then
                   let* temp := buf_store temp 0
                                  (CopySamples format (mSampleFormat t)
                                     (resize (Z.to_nat blen) 0 buf)) in
                   ret (Some temp, temp)
                 else ret (Some buf, temp)
             | None => ret (None, temp)
             end in
           let useBuffer : option (list Sample) := fst ub in
           let temp := snd ub in
           if negb ((fileLength <=? mMaxSamples t)
                    && (size_t_add bstart blen <=? fileLength))
           then throw InconsistencyException
           else
             (* the pair is the new file and [scratch] *)
             let* nf :=
               if (0 <? bstart) || (blen <? fileLength) then
                 let* scratch := Read scratch 0 (mSampleFormat t) block 0
                                   fileLength in
                 let* scratch :=
                   match useBuffer with
                   | Some u => buf_store scratch bstart
                                 (resize (Z.to_nat blen) 0 u)
                   | None => ClearSamples scratch bstart blen
                   end in
                 let* file := NewSimpleBlockFile scratch fileLength
                                (mSampleFormat t) in
                 ret (file, scratch)
               else
                 match useBuffer with
                 | Some u =>
                     let* file := NewSimpleBlockFile u fileLength
                                    (mSampleFormat t) in
                     ret (file, scratch)
                 | None => ret (newSilentBlockFile fileLength, scratch)
                 end in
             let buffer := option_map (drop (Z.to_nat blen)) buffer in
             SetSamples_loop rest' t buffer format temp (snd nf)
               (newBlock ++ [mkSeqBlock (fst nf) (SeqBlock_start block)])
               (start + blen) (len - blen)
       end.

(** [Sequence::SetSamples] *)
Definition SetSamples (buffer : option (list Sample)) (format : sampleFormat)
    (start len : Z) : M unit :=
  let* t := getThis in
  if (start <? 0) || (mNumSamples t <=? start)
     || (mNumSamples t <? start + len)
  then throw InconsistencyException
  else
    let scratch := SampleBuffer (mMaxSamples t) in
    let temp :=
      match buffer with
      | Some _ =>
          if negb (format =? mSampleFormat t)
          then SampleBuffer (limitSampleBufferSize (mMaxSamples t) len)
          else []
      | None => []
      end in
    let* b := liftR (FindBlock t start) in
    let newBlock := take b (mBlock t) in
    let* newBlock := liftL (SetSamples_loop (drop b (mBlock t)) t buffer
                              format temp scratch newBlock start len) in
    CommitChangesIfConsistent newBlock (mNumSamples t).

(** ** Append *)

(** [Sequence::AppendBlocksIfConsistent] *)
Definition AppendBlocksIfConsistent (additionalBlocks : BlockArray)
    (replaceLast : bool) (numSamples : Z) : M unit :=
  match additionalBlocks with
  | [] => ret tt
  | _ :: _ =>
      let* t := getThis in
      let tmp : option SeqBlock :=
        if replaceLast then last (mBlock t) else None in
      match tmp with
      | Some _ =>
          modifyThis (fun t =>
            set_mBlock (take (length (mBlock t) - 1) (mBlock t)) t)
      | None => ret tt
      end;;
      let* t1 := getThis in
      let prevSize := length (mBlock t1) in
      finally
        (modifyThis (fun t =>
           set_mBlock (mBlock t ++ additionalBlocks) t);;
         let* t2 := getThis in
         liftR (ConsistencyCheck (mBlock t2) (mMaxSamples t2) prevSize
                  numSamples true);;
         modifyThis (set_mNumSamples numSamples))
        (fun consistent w =>
           if consistent then w
           else
             let resized := take prevSize (mBlock (this w)) in
             let restored := match tmp with
                             | Some b => resized ++ [b]
                             | None => resized
                             end in
             mkWorld (set_mBlock restored (this w)) (calls w))
  end.

(** The [while (len)] loop of [Append]; [fuel] bounds the number of
    iterations.  [newNumSamples + addedLen] is the sum of the 64-bit
    count as long as it is at most [2^63 - 1]. *)
Fixpoint Append_loop (fuel : nat) (t : Sequence) (buffer : list Sample)
    (format : sampleFormat) (buffer2 : list Sample) (newBlock : BlockArray)
    (newNumSamples len : Z) : L (BlockArray * Z) :=
  if len =? 0 then ret (newBlock, newNumSamples)
  else match fuel with
       | O => undefined
       | S fuel' =>
           let idealSamples := GetIdealBlockSize t in
           let addedLen := Z.min idealSamples len in
           (* the pair is the new file and [buffer2] *)
           let* pf :=
             if format =? mSampleFormat t then
               let* file := NewSimpleBlockFile buffer addedLen
                              (mSampleFormat t) in
               ret (file, buffer2)
             else
               let* buffer2 := buf_store buffer2 0
                                 (CopySamples format (mSampleFormat t)
                                    (resize (Z.to_nat addedLen) 0 buffer)) in
               let* file := NewSimpleBlockFile buffer2 addedLen
                              (mSampleFormat t) in
               ret (file, buffer2) in
           Append_loop fuel' t (drop (Z.to_nat addedLen) buffer) format
             (snd pf) (newBlock ++ [mkSeqBlock (fst pf) newNumSamples])
             (newNumSamples + addedLen) (len - addedLen)
       end.

(** [Sequence::Append], without the block-file log.  Each iteration of
    the second loop takes at least one sample when the block size is
    positive, so [len] iterations are never used up. *)
Definition Append (buffer : list Sample) (format : sampleFormat) (len : Z)
    : M unit :=
  if len =? 0 then ret tt
  else
    let* t := getThis in
    if Overflows (double_add (as_double (mNumSamples t)) (as_double len))
    then throw InconsistencyException
    else
      let newNumSamples := mNumSamples t in
      let numBlocks := length (mBlock t) in
      let buffer2 := SampleBuffer (mMaxSamples t) in
      let* enlarge :=
        if (0 <? numBlocks)%nat then
          let* pLastBlock := at_index (mBlock t) (numBlocks - 1) in
          let* lf := deref (SeqBlock_f pLastBlock) in
          ret (GetLength lf <? mMinSamples t)
        else ret false in
      if enlarge : bool then
        let* lastBlock := at_index (mBlock t) (numBlocks - 1) in
        let* lf := deref (SeqBlock_f lastBlock) in
        let length := GetLength lf in
        let addLen := Z.min (mMaxSamples t - length) len in
        let* buffer2 := liftL (Read buffer2 0 (mSampleFormat t) lastBlock 0
                                 length) in
        let* buffer2 := buf_store buffer2 length
                          (CopySamples format (mSampleFormat t)
                             (resize (Z.to_nat addLen) 0 buffer)) in
        let newLastBlockLen := length + addLen in
        let* file := liftL (NewSimpleBlockFile buffer2 newLastBlockLen
                              (mSampleFormat t)) in
        let newBlock := [mkSeqBlock file (SeqBlock_start lastBlock)] in
        let len := len - addLen in
        let newNumSamples := newNumSamples + addLen in
        let buffer := drop (Z.to_nat addLen) buffer in
        let* r := liftL (Append_loop (Z.to_nat len) t buffer format buffer2
                           newBlock newNumSamples len) in
        AppendBlocksIfConsistent (fst r) true (snd r)
      else
        let* r := liftL (Append_loop (Z.to_nat len) t buffer format buffer2
                           [] newNumSamples len) in
        AppendBlocksIfConsistent (fst r) false (snd r).

(** ** Format conversion *)

Fixpoint ConvertToSampleFormat_loop (blocks : BlockArray)
    (oldFormat format : sampleFormat) (maxSamples : Z)
    (bufferOld bufferNew : list Sample) (newBlockArray : BlockArray)
    : L BlockArray :=
  match blocks with
  | [] => ret newBlockArray
  | oldSeqBlock :: rest =>
      let* oldBlockFile := deref (SeqBlock_f oldSeqBlock) in
      let len := GetLength oldBlockFile in
      let* bufferOld := Read bufferOld 0 oldFormat oldSeqBlock 0 len in
      let* bufferNew := buf_store bufferNew 0
                          (CopySamples oldFormat format
                             (resize (Z.to_nat len) 0 bufferOld)) in
      let blockstart := SeqBlock_start oldSeqBlock in
      let* newBlockArray := Blockify maxSamples format newBlockArray
                              blockstart bufferNew len in
      ConvertToSampleFormat_loop rest oldFormat format maxSamples bufferOld
        bufferNew newBlockArray
  end.

(** [Sequence::ConvertToSampleFormat] *)
Definition ConvertToSampleFormat (format : sampleFormat) : M bool :=
  let* t := getThis in
  if format =? mSampleFormat t then ret false
  else if (length (mBlock t) =? 0)%nat then
    modifyThis (set_mSampleFormat format);; ret true
  else
    let oldFormat := mSampleFormat t in
    modifyThis (set_mSampleFormat format);;
    let oldMinSamples := mMinSamples t in
    let oldMaxSamples := mMaxSamples t in
    modifyThis (fun t =>
      set_mMinSamples (sMaxDiskBlockSize / SAMPLE_SIZE (mSampleFormat t) / 2)
        t);;
    modifyThis (fun t => set_mMaxSamples (mMinSamples t * 2) t);;
    finally
      (let* t1 := getThis in
       let bufferOld := SampleBuffer oldMaxSamples in
       let bufferNew := SampleBuffer oldMaxSamples in
       let* newBlockArray :=
         liftL (ConvertToSampleFormat_loop (mBlock t1) oldFormat format
                  (mMaxSamples t1) bufferOld bufferNew []) in
       CommitChangesIfConsistent newBlockArray (mNumSamples t1);;
       ret true)
      (fun bSuccess w =>
         if bSuccess then w
         else mkWorld (set_mMinSamples oldMinSamples
                         (set_mMaxSamples oldMaxSamples
                            (set_mSampleFormat oldFormat (this w))))
                (calls w)).

(** ** Loading: the end of the [sequence] tag *)

(** First loop of [HandleXMLEndTag]: a missing block file is replaced by
    silence; the flag tells whether that happened.  [len] is a
    [sampleCount]: the difference of two stored values, compared with
    [mMaxSamples] as a [sampleCount] and converted with [as_size_t]. *)
Fixpoint HandleXMLEndTag_missing (blocks : BlockArray)
    (numSamples maxSamples : Z) : res (BlockArray * bool) :=
  match blocks with
  | [] => Ret ([], false)
  | block :: rest =>
      match SeqBlock_f block with
      | Some _ =>
          let+ r := HandleXMLEndTag_missing rest numSamples maxSamples in
          Ret (block :: fst r, snd r)
      | None =>
          let len := match rest with
                     | next :: _ =>
                         wrap64 (SeqBlock_start next - SeqBlock_start block)
                     | [] => wrap64 (numSamples - SeqBlock_start block)
                     end in
          let len := if wrap64 maxSamples <? len then wrap64 maxSamples
                     else len in
          let+ n := as_size_tR len in
          let+ r := HandleXMLEndTag_missing rest numSamples maxSamples in
          Ret (mkSeqBlock (newSilentBlockFile n) (SeqBlock_start block)
                 :: fst r, true)
      end
  end.

(** Second loop: the starts are made contiguous; the result is the
    array, the running [numSamples] (a [sampleCount], to which the
    [size_t] lengths are added) and whether a start was moved. *)
Fixpoint HandleXMLEndTag_starts (blocks : BlockArray) (numSamples : Z)
    : res (BlockArray * Z * bool) :=
  match blocks with
  | [] => Ret ([], numSamples, false)
  | block :: rest =>
      match SeqBlock_f block with
      | None => Undefined
      | Some f =>
          let moved := negb (SeqBlock_start block =? numSamples) in
          let+ r := HandleXMLEndTag_starts rest
                      (wrap64 (numSamples + GetLength f)) in
          Ret (mkSeqBlock (Some f) numSamples :: fst (fst r), snd (fst r),
               moved || snd r)
      end
  end.

(** [Sequence::HandleXMLEndTag] *)
Definition HandleXMLEndTag (tag : string) (s : Sequence) : res Sequence :=
  if negb (String.eqb tag "sequence") then Ret s
  else
    let+ r1 := HandleXMLEndTag_missing (mBlock s) (mNumSamples s)
                 (mMaxSamples s) in
    let s := set_mErrorOpening (mErrorOpening s || snd r1)
               (set_mBlock (fst r1) s) in
    let+ r2 := HandleXMLEndTag_starts (mBlock s) 0 in
    let numSamples := snd (fst r2) in
    let s := set_mErrorOpening (mErrorOpening s || snd r2)
               (set_mBlock (fst (fst r2)) s) in
    if negb (mNumSamples s =? numSamples)
    then Ret (set_mErrorOpening true (set_mNumSamples numSamples s))
    else Ret s.

(** ** Reading by position *)

Definition at_indexR (block : BlockArray) (i : nat) : res SeqBlock :=
  match block !! i with Some b => Ret b | None => Undefined end.

Definition derefR (p : BlockFilePtr) : res BlockFile :=
  match p with Some f => Ret f | None => Undefined end.

(** [Sequence::Get(buffer, format, start, len, true)], the overload that
    looks the block up; the result is the value returned and the buffer.
    With [mayThrow = true] every [Read] returns [true]. *)
Definition Get_range (s : Sequence) (buffer : list Sample)
    (format : sampleFormat) (start len : Z) : L (bool * list Sample) :=
  if start =? mNumSamples s then ret (len =? 0, buffer)
  else if (start <? 0) || (mNumSamples s <? start)
          || (mNumSamples s <? start + len)
  then throw InconsistencyException
  else
    let* b := liftR (FindBlock s start) in
    let* buffer := Get s b buffer 0 format start len in
    ret (true, buffer).

(** [Sequence::GetBlockStart] *)
Definition GetBlockStart (s : Sequence) (position : Z) : res Z :=
  let+ b := FindBlock s position in
  let+ block := at_indexR (mBlock s) b in
  Ret (SeqBlock_start block).

(** The [while] loop of [GetBestBlockSize] over the blocks after the one
    that holds [start]; the file of the next block is looked at only when
    the first two tests of the condition hold. *)
Fixpoint GetBestBlockSize_loop (rest : BlockArray)
    (minSamples maxSamples result : Z) : res Z :=
  if result <? minSamples then
    match rest with
    | next :: rest' =>
        let+ f := derefR (SeqBlock_f next) in
        let length := GetLength f in
        if length + result <=? maxSamples
        then GetBestBlockSize_loop rest' minSamples maxSamples
               (result + length)
        else Ret result
    | [] => Ret result
    end
  else Ret result.

(** [Sequence::GetBestBlockSize] *)
Definition GetBestBlockSize (s : Sequence) (start : Z) : res Z :=
  if (start <? 0) || (mNumSamples s <=? start) then Ret (mMaxSamples s)
  else
    let+ b := FindBlock s start in
    let+ block := at_indexR (mBlock s) b in
    let+ f := derefR (SeqBlock_f block) in
    let+ result := as_size_tR (SeqBlock_start block + GetLength f - start) in
    let+ result := GetBestBlockSize_loop (drop (b + 1) (mBlock s))
                     (mMinSamples s) (mMaxSamples s) result in
    let+ _ := assertR ((0 <? result) && (result <=? mMaxSamples s)) in
    Ret result.

(** [Sequence::GetIdealAppendLen]; the difference is not negative when the
    last block is not longer than [maxSamples]. *)
Definition GetIdealAppendLen (s : Sequence) : res Z :=
  let max := GetMaxBlockSize s in
  if (length (mBlock s) =? 0)%nat then Ret max
  else
    let+ back := at_indexR (mBlock s) (length (mBlock s) - 1) in
    let+ f := derefR (SeqBlock_f back) in
    let lastBlockLen := GetLength f in
    if lastBlockLen =? max then Ret max else Ret (max - lastBlockLen).

(** ** Appending a block file *)

(** [Sequence::AppendBlockFile], without [VERY_SLOW_CHECKING].  No guard
    stands before the sum, which is that of the 64-bit count. *)
Definition AppendBlockFile (blockFile : BlockFilePtr) : M unit :=
  modifyThis (fun t =>
    set_mBlock (mBlock t ++ [mkSeqBlock blockFile (mNumSamples t)]) t);;
  let* f := deref blockFile in
  modifyThis (fun t =>
    set_mNumSamples (wrap64 (mNumSamples t + GetLength f)) t).

(** ** Silence *)

(** [Sequence::SetSilence] *)
Definition SetSilence (s0 len : Z) : M unit :=
  let* t := getThis in
  SetSamples None (mSampleFormat t) s0 len.

(** The loop [while (len >= idealSamples)] of [InsertSilence]; the result
    is the array, [pos] and what is left of [len].  [fuel] bounds the
    number of iterations. *)
Fixpoint InsertSilence_loop (fuel : nat) (silentFile : BlockFilePtr)
    (idealSamples : Z) (block : BlockArray) (pos len : Z)
    : res (BlockArray * Z * Z) :=
  if idealSamples <=? len then
    match fuel with
    | O => Undefined
    | S fuel' =>
        InsertSilence_loop fuel' silentFile idealSamples
          (block ++ [mkSeqBlock silentFile pos]) (pos + idealSamples)
          (len - idealSamples)
    end
  else Ret (block, pos, len).

(** [Sequence::InsertSilence].  A silent block file takes no space on
    disk: making one is not a call into the block store.  With a positive
    block size the loop takes less than [len] iterations. *)
Definition InsertSilence (s0 len : Z) : M unit :=
  let* t := getThis in
  if Overflows (double_add (as_double (mNumSamples t)) (as_double len))
  then throw InconsistencyException
  else if len <=? 0 then ret tt
  else
    let sTrack := Sequence_new (mSampleFormat t) in
    let idealSamples := GetIdealBlockSize t in
    let* nBlocks := if idealSamples =? 0 then undefined
                    else ret ((len + idealSamples - 1) / idealSamples) in
    let* _ := as_size_t nBlocks in
    let silentFile := if idealSamples <=? len
                      then newSilentBlockFile idealSamples else None in
    let* r := liftR (InsertSilence_loop (Z.to_nat len) silentFile
                       idealSamples [] 0 len) in
    let block := fst (fst r) in
    let pos := snd (fst r) in
    let len := snd r in
    let* r2 :=
      if negb (len =? 0) then
        let* n := as_size_t len in
        ret (block ++ [mkSeqBlock (newSilentBlockFile n) pos], pos + len)
      else ret (block, pos) in
    let sTrack := set_mNumSamples (snd r2) (set_mBlock (fst r2) sTrack) in
    Paste s0 sTrack.

(** ** Copies *)

(** A method called on another object than [this]: the result and the
    object after the call. *)
Definition on_object {A} (m : M A) (obj : Sequence) : L (A * Sequence) :=
  fun n => match m (mkWorld obj n) with
           | (Ret a, w) => (Ret (a, this w), calls w)
           | (Throw e, w) => (Throw e, calls w)
           | (Undefined, w) => (Undefined, calls w)
           end.

(** [Sequence::Sequence(orig, projDirManager)] *)
Definition Sequence_copy (orig : Sequence) : L Sequence :=
  let obj := {| mSampleFormat := mSampleFormat orig;
                mMinSamples := mMinSamples orig;
                mMaxSamples := mMaxSamples orig;
                mBlock := [];
                mNumSamples := 0;
                mErrorOpening := false |} in
  let* r := on_object (Paste 0 orig) obj in
  ret (snd r).

(** [Sequence::Copy], a [const] method of [t] that returns the copy.  The
    block files of the model are not alias files, so the two assertions
    test the block length.  [b0] is an [int] that may become [-1].  The
    last check uses the default of [mayThrow], which is declared outside
    [src/]: it is the argument [mayThrow]. *)
Definition Copy (mayThrow : bool) (t : Sequence) (s0 s1 : Z) : L Sequence :=
  let dest := Sequence_new (mSampleFormat t) in
  if (s1 <=? s0) || (mNumSamples t <=? s0) || (s1 <? 0) then ret dest
  else
    let numBlocks := length (mBlock t) in
    let* b0 := liftR (FindBlock t s0) in
    let* b1 := liftR (FindBlock t (s1 - 1)) in
    wxASSERT (b0 <? numBlocks)%nat;;
    wxASSERT (b1 <? numBlocks)%nat;;
    wxASSERT (b0 <=? b1)%nat;;
    let buffer := SampleBuffer (mMaxSamples t) in
    let* block0 := at_index (mBlock t) b0 in
    (* the first block: the buffer, [dest] and [b0] *)
    let* first :=
      if negb (s0 =? SeqBlock_start block0) then
        let* file := deref (SeqBlock_f block0) in
        let* blocklen :=
          as_size_t (Z.min s1 (SeqBlock_start block0 + GetLength file) - s0) in
        wxASSERT (blocklen <=? mMaxSamples t);;
        let* buffer := Get t b0 buffer 0 (mSampleFormat t) s0 blocklen in
        let* d := on_object (Append buffer (mSampleFormat t) blocklen) dest in
        ret (buffer, snd d, Z.of_nat b0)
      else ret (buffer, dest, Z.of_nat b0 - 1) in
    let buffer := fst (fst first) in
    let dest := snd (fst first) in
    let b0 := snd first in
    (* the blocks in the middle *)
    let from := Z.to_nat (b0 + 1) in
    let* r := AppendBlock_each (take (b1 - from) (drop from (mBlock t)))
                (mBlock dest) (mNumSamples dest) in
    let dest := set_mNumSamples (snd r) (set_mBlock (fst r) dest) in
    (* the last block *)
    let* dest :=
      if b0 <? Z.of_nat b1 then
        let* block := at_index (mBlock t) b1 in
        let* blocklen := as_size_t (s1 - SeqBlock_start block) in
        let* file := deref (SeqBlock_f block) in
        wxASSERT (blocklen <=? mMaxSamples t);;
        if blocklen <? GetLength file then
          let* buffer := Get t b1 buffer 0 (mSampleFormat t)
                           (SeqBlock_start block) blocklen in
          let* d := on_object (Append buffer (mSampleFormat t) blocklen)
                      dest in
          ret (snd d)
        else
          let* r := AppendBlock (mBlock dest) (mNumSamples dest) block in
          ret (set_mNumSamples (snd r) (set_mBlock (fst r) dest))
      else ret dest in
    liftR (ConsistencyCheck (mBlock dest) (mMaxSamples dest) 0
             (mNumSamples dest) mayThrow);;
    ret dest.

End Model.

(** ** The invariants of the specification *)

Definition sumLen (block : BlockArray) : Z :=
  foldr (fun b acc => blockLen b + acc) 0 block.

(** I1: the first block, if any, starts at 0. *)
Definition I1 (s : Sequence) : Prop :=
  forall b, mBlock s !! 0%nat = Some b -> SeqBlock_start b = 0.

(** I2: each later block starts where the previous one ends. *)
Definition I2 (s : Sequence) : Prop :=
  forall (i : nat) b b',
    mBlock s !! i = Some b -> mBlock s !! S i = Some b' ->
    SeqBlock_start b' = SeqBlock_start b + blockLen b.

(** I3: [numSamples] is the sum of the block lengths. *)
Definition I3 (s : Sequence) : Prop := mNumSamples s = sumLen (mBlock s).

(** I4: no block is longer than [maxSamples]. *)
Definition I4 (s : Sequence) : Prop :=
  forall b, b ∈ mBlock s -> blockLen b <= mMaxSamples s.

(** I5: no block has length 0 (so that no block file is missing). *)
Definition I5 (s : Sequence) : Prop :=
  forall b, b ∈ mBlock s -> blockLen b <> 0.

Definition Invariants (s : Sequence) : Prop :=
  I1 s /\ I2 s /\ I3 s /\ I4 s /\ I5 s.

(** The same facts in the shape the proofs use: the starts form a chain
    from [pos]. *)
Fixpoint chained (pos : Z) (block : BlockArray) : Prop :=
  match block with
  | [] => True
  | b :: rest => SeqBlock_start b = pos /\ chained (pos + blockLen b) rest
  end.

Definition goodBlock (maxSamples : Z) (b : SeqBlock) : Prop :=
  0 < blockLen b <= maxSamples.

(** The samples of a sequence, read in its own format. *)
Definition blockSamples (convert : sampleFormat -> sampleFormat -> Sample -> Sample)
    (format : sampleFormat) (b : SeqBlock) : list Sample :=
  match SeqBlock_f b with
  | Some f => block_data convert f format
  | None => []
  end.

Definition samplesOf (convert : sampleFormat -> sampleFormat -> Sample -> Sample)
    (format : sampleFormat) (block : BlockArray) : list Sample :=
  concat (map (blockSamples convert format) block).

Definition samples (convert : sampleFormat -> sampleFormat -> Sample -> Sample)
    (s : Sequence) : list Sample :=
  samplesOf convert (mSampleFormat s) (mBlock s).

(** The samples that [SetSamples] writes: the first [len] samples of the
    buffer converted from [src] to [dst], or silence for a null buffer. *)
Definition written
    (convert : sampleFormat -> sampleFormat -> Sample -> Sample)
    (buffer : option (list Sample)) (src dst : sampleFormat) (len : Z)
    : list Sample :=
  match buffer with
  | Some buf => map (convert src dst) (take (Z.to_nat len) buf)
  | None => replicate (Z.to_nat len) 0
  end.

(** The arguments of [Paste] that the specification calls valid, with
    source blocks that fit the block size of the destination. *)
Definition pasteValid (s : Z) (src t : Sequence) : Prop :=
  0 <= s <= mNumSamples t /\
  mSampleFormat src = mSampleFormat t /\
  mNumSamples t + mNumSamples src <= 2 ^ 63 - 1 /\
  Forall (fun b => blockLen b <= mMaxSamples t) (mBlock src).

(** [CopySamples] between equal formats copies the samples as they are. *)
Definition same_format_copy
    (convert : sampleFormat -> sampleFormat -> Sample -> Sample) : Prop :=
  forall f x, convert f f x = x.

(** What a [Paste] that returns has done; the samples are compared when
    reading a block in its own format gives the samples written. *)
Definition pastePost
    (convert : sampleFormat -> sampleFormat -> Sample -> Sample)
    (s : Z) (src t t' : Sequence) : Prop :=
  Invariants t' /\
  mSampleFormat t' = mSampleFormat t /\
  mMinSamples t' = mMinSamples t /\
  mMaxSamples t' = mMaxSamples t /\
  mNumSamples t' = mNumSamples t + mNumSamples src /\
  (same_format_copy convert ->
   samples convert t'
   = take (Z.to_nat s) (samples convert t) ++ samples convert src
     ++ drop (Z.to_nat s) (samples convert t)).

(** What a [Delete] that returns has done, in the same way. *)
Definition deletePost
    (convert : sampleFormat -> sampleFormat -> Sample -> Sample)
    (start len : Z) (t t' : Sequence) : Prop :=
  Invariants t' /\
  mSampleFormat t' = mSampleFormat t /\
  mMinSamples t' = mMinSamples t /\
  mMaxSamples t' = mMaxSamples t /\
  mNumSamples t' = mNumSamples t - len /\
  (same_format_copy convert ->
   samples convert t'
   = take (Z.to_nat start) (samples convert t)
     ++ drop (Z.to_nat (start + len)) (samples convert t)).

(** The arguments of [Delete] that the specification calls valid, on a
    sequence with a positive minimum block size. *)
Definition deleteValid (start len : Z) (t : Sequence) : Prop :=
  0 <= start /\ 0 <= len /\ start + len <= mNumSamples t /\
  0 < mMinSamples t.

(** The gap that the loader fills at index [i] when the block file there
    is missing: up to the next block's stored start, or up to the stored
    sample count for the last block. *)
Definition gapAt (block : BlockArray) (numSamples : Z) (i : nat) : Z :=
  match block !! i with
  | Some b =>
      match block !! S i with
      | Some next => SeqBlock_start next - SeqBlock_start b
      | None => numSamples - SeqBlock_start b
      end
  | None => 0
  end.

(** The length of the silent block that the loader puts in place of a
    missing file with gap [gap]: the gap as a [sampleCount], capped at
    [maxSamples], converted with [as_size_t]. *)
Definition silenceLen (gap maxSamples : Z) : Z :=
  let len := wrap64 gap in
  let len := if wrap64 maxSamples <? len then wrap64 maxSamples else len in
  if 0 <=? len then len else len + 2 ^ 64.

(** ** Specifications of computations

    [wp m s Q]: the outcome and the final state of [m] run from [s]
    satisfy [Q]. *)
Definition wp {S A} (m : St S A) (s : S) (Q : res A -> S -> Prop) : Prop :=
  Q (fst (m s)) (snd (m s)).

Definition has_fault (io_fails : nat -> bool) : Prop :=
  exists k, io_fails k = true.

(** The shape of the specification of a helper whose arguments are
    valid when [pre] holds: it returns a value with [post]; for valid
    arguments an exception is a fault of the block store, and the outcome
    is never undefined. *)
Definition okL (io_fails : nat -> bool) {S A} (pre : Prop) (post : A -> Prop)
    : res A -> S -> Prop :=
  fun r _ =>
    match r with
    | Ret v => post v
    | Throw e => pre -> e = FileException /\ has_fault io_fails
    | Undefined => ~ pre
    end.

(** The shape of the specification of a method called on [t0] with
    arguments that are valid when [valid] holds: it returns with [post];
    when it throws the object is [t0] again, and for valid arguments the
    exception is a fault of the block store; its outcome is undefined only
    for arguments that are not valid. *)
Definition okM (io_fails : nat -> bool) {A} (t0 : Sequence) (valid : Prop)
    (post : A -> Sequence -> Prop) : res A -> World -> Prop :=
  fun r w =>
    match r with
    | Ret v => post v (this w)
    | Throw e =>
        this w = t0 /\ (valid -> e = FileException /\ has_fault io_fails)
    | Undefined => ~ valid
    end.

(** [len] samples of [l] from index [start] on. *)
Definition slice (l : list Sample) (start len : Z) : list Sample :=
  take (Z.to_nat len) (drop (Z.to_nat start) l).

(** What [Copy] has put into the copy [dest], made as [d0], when it has
    come to position [cur] of the sequence [t] that it copies from
    [s0] on. *)
Definition copyPost
    (convert : sampleFormat -> sampleFormat -> Sample -> Sample)
    (t : Sequence) (s0 cur : Z) (d0 dest : Sequence) : Prop :=
  Invariants dest /\
  mSampleFormat dest = mSampleFormat t /\
  mMinSamples dest = mMinSamples d0 /\
  mMaxSamples dest = mMaxSamples d0 /\
  mNumSamples dest = cur - s0 /\
  (same_format_copy convert ->
   samples convert dest = slice (samples convert t) s0 (cur - s0)).

(** The buffer after [data] was stored at offset [off]. *)
Definition overlay (buffer : list Sample) (off : Z) (data : list Sample)
    : list Sample :=
  take (Z.to_nat off) buffer ++ data
  ++ drop (Z.to_nat off + length data) buffer.

(** What the consistency check accepts. *)
Definition consistent (block : BlockArray) (maxSamples pos numSamples : Z)
    : Prop :=
  chained pos block /\ numSamples = pos + sumLen block /\
  Forall (fun b => is_Some (SeqBlock_f b) /\ blockLen b <= maxSamples) block.

(** Start and length of a block: what the invariants depend on. *)
Definition shape (b : SeqBlock) : Z * Z := (SeqBlock_start b, blockLen b).

(** The blocks that [Blockify] appends. *)
Definition Blockify_piece (format : sampleFormat) (start : Z)
    (buffer : list Sample) (len num i : Z) : SeqBlock :=
  let offset := i * len / num in
  let newLen := (i + 1) * len / num - offset in
  mkSeqBlock
    (Some (SimpleBlockFile format
             (resize (Z.to_nat newLen) 0 (drop (Z.to_nat offset) buffer))))
    (start + offset).

Definition Blockify_pieces (maxSamples : Z) (format : sampleFormat)
    (start : Z) (buffer : list Sample) (len : Z) : BlockArray :=
  let num := (len + (maxSamples - 1)) / maxSamples in
  map (Blockify_piece format start buffer len num) (seqZ 0 num).

(** The block that holds position [pos]. *)
Definition holds (block : BlockArray) (pos : Z) (i : nat) : Prop :=
  exists b, block !! i = Some b /\
    SeqBlock_start b <= pos < SeqBlock_start b + blockLen b.

(** ** Reachable sequences

    The sequences that the constructor and the four edit operations make.
    A call counts when it returns or throws; a call whose outcome is
    undefined (a failed assertion, a loop without end) makes nothing.  The
    faults of the block store and the number of earlier store calls are
    free at every call; the length of [Append] is a [size_t]; the source
    of a [Paste] is such a sequence too.  The count after an [Append] or
    a [Paste] is at most [2^63 - 1]: these are the calls whose sum, which
    the model takes in [Z], is the sum of the 64-bit count. *)
Definition completes {A} (m : M A) (w : World) : Prop :=
  fst (m w) <> Undefined.

Section Reachable.

Variable SAMPLE_SIZE : sampleFormat -> Z.
Variable convert : sampleFormat -> sampleFormat -> Sample -> Sample.
Variable sMaxDiskBlockSize : Z.
Variable guess_offset : Z -> Z -> nat -> nat.

Inductive reachable : Sequence -> Prop :=
| reachable_new (format : sampleFormat) :
    reachable (Sequence_new SAMPLE_SIZE sMaxDiskBlockSize format)
| reachable_Append (s : Sequence) (io_fails : nat -> bool) (n : nat)
      (buffer : list Sample) (format : sampleFormat) (len : Z) :
    reachable s -> 0 <= len -> mNumSamples s + len <= 2 ^ 63 - 1 ->
    completes (Append convert io_fails buffer format len) (mkWorld s n) ->
    reachable
      (this (snd (Append convert io_fails buffer format len (mkWorld s n))))
| reachable_Paste (s : Sequence) (io_fails : nat -> bool) (n : nat)
      (offset : Z) (src : Sequence) :
    reachable s -> reachable src ->
    mNumSamples s + mNumSamples src <= 2 ^ 63 - 1 ->
    completes (Paste convert io_fails guess_offset offset src)
      (mkWorld s n) ->
    reachable
      (this (snd (Paste convert io_fails guess_offset offset src
                    (mkWorld s n))))
| reachable_Delete (s : Sequence) (io_fails : nat -> bool) (n : nat)
      (start len : Z) :
    reachable s ->
    completes (Delete convert io_fails guess_offset start len)
      (mkWorld s n) ->
    reachable
      (this (snd (Delete convert io_fails guess_offset start len
                    (mkWorld s n))))
| reachable_SetSamples (s : Sequence) (io_fails : nat -> bool) (n : nat)
      (buffer : option (list Sample)) (format : sampleFormat)
      (start len : Z) :
    reachable s ->
    completes (SetSamples convert io_fails guess_offset buffer format start
                 len) (mkWorld s n) ->
    reachable
      (this (snd (SetSamples convert io_fails guess_offset buffer format
                    start len (mkWorld s n)))).

End Reachable.

(** ** The constructor as the specification words it

    "maxSamples: derived as diskBlockBytes / SAMPLE_SIZE(format), clamped
    to [1024, 64·2^20]". *)
Definition spec_maxSamples (diskBlockBytes sampleSize : Z) : Z :=
  Z.max 1024 (Z.min (64 * 2 ^ 20) (diskBlockBytes / sampleSize)).

(** ** Concrete environments and sequences for the examples *)

Module Examples.

Definition SAMPLE_SIZE (f : sampleFormat) : Z := 4.
Definition convert (src dst : sampleFormat) (x : Sample) : Sample := x.
Definition io_ok (n : nat) : bool := false.
Definition io_broken (n : nat) : bool := true.
Definition guess_offset (num den : Z) (width : nat) : nat :=
  Z.to_nat (num * Z.of_nat width / den).

(** One block of ten samples, blocks of at most 16. *)
Definition ten : Sequence :=
  {| mSampleFormat := 0; mMinSamples := 8; mMaxSamples := 16;
     mBlock := [mkSeqBlock
                  (Some (SimpleBlockFile 0 [1; 2; 3; 4; 5; 6; 7; 8; 9; 10]))
                  0];
     mNumSamples := 10; mErrorOpening := false |}.

(** Three blocks of eight samples. *)
Definition three_blocks : Sequence :=
  {| mSampleFormat := 0; mMinSamples := 8; mMaxSamples := 16;
     mBlock := [mkSeqBlock
                  (Some (SimpleBlockFile 0 [1; 2; 3; 4; 5; 6; 7; 8])) 0;
                mkSeqBlock
                  (Some (SimpleBlockFile 0 [11; 12; 13; 14; 15; 16; 17; 18]))
                  8;
                mkSeqBlock
                  (Some (SimpleBlockFile 0 [21; 22; 23; 24; 25; 26; 27; 28]))
                  16];
     mNumSamples := 24; mErrorOpening := false |}.

(** A sequence of 2^63 - 1 samples held by one block without storage. *)
Definition full : Sequence :=
  {| mSampleFormat := 0; mMinSamples := 8; mMaxSamples := 16;
     mBlock := [mkSeqBlock (Some (SilentBlockFile 9223372036854775807)) 0];
     mNumSamples := 9223372036854775807; mErrorOpening := false |}.

(** A block list as the XML reader leaves it before the end tag: the
    second block file failed to load and the third start is wrong. *)
Definition loaded : Sequence :=
  {| mSampleFormat := 0; mMinSamples := 8; mMaxSamples := 16;
     mBlock := [mkSeqBlock (Some (SimpleBlockFile 0 [1; 2; 3; 4])) 0;
                mkSeqBlock None 4;
                mkSeqBlock (Some (SimpleBlockFile 0 [5; 6])) 30];
     mNumSamples := 40; mErrorOpening := false |}.

(** A block list that the XML reader admits, where the second block
    file failed to load and its stored start lies above the start of the
    third block. *)
Definition backwards : Sequence :=
  {| mSampleFormat := 0; mMinSamples := 8; mMaxSamples := 16;
     mBlock := [mkSeqBlock (Some (SimpleBlockFile 0 [1; 2; 3; 4])) 0;
                mkSeqBlock None 10;
                mkSeqBlock (Some (SimpleBlockFile 0 [5; 6])) 4];
     mNumSamples := 12; mErrorOpening := false |}.

End Examples.

(** * Properties *)

Section Properties.

Variable SAMPLE_SIZE : sampleFormat -> Z.
Variable convert : sampleFormat -> sampleFormat -> Sample -> Sample.
Variable sMaxDiskBlockSize : Z.
Variable io_fails : nat -> bool.
Variable guess_offset : Z -> Z -> nat -> nat.

Set Default Proof Using "Type".
Set Proof Using Clear Unused.

(** ** Rules for [wp] *)

Lemma wp_bind {S A B} (m : St S A) (k : A -> St S B) (s : S)
    (Q : res B -> S -> Prop) :
  wp m s (fun r s' =>
            match r with
            | Ret a => wp (k a) s' Q
            | Throw e => Q (Throw e) s'
            | Undefined => Q Undefined s'
            end) ->
  wp (bind m k) s Q.
Proof. unfold wp, bind. destruct (m s) as [[a|e|] s']; cbn; auto. Qed.

Lemma wp_conseq {S A} (m : St S A) (s : S) (Q Q' : res A -> S -> Prop) :
  wp m s Q -> (forall r s', Q r s' -> Q' r s') -> wp m s Q'.
Proof. unfold wp. auto. Qed.

Lemma wp_liftL {A} (m : L A) (w : World) (Q : res A -> World -> Prop) :
  wp m (calls w) (fun r n => Q r (mkWorld (this w) n)) -> wp (liftL m) w Q.
Proof. unfold wp, liftL. destruct (m (calls w)). auto. Qed.

(** A helper of the [L] level inside a helper of the same level. *)
Lemma okL_bind {A B} (m : L A) (k : A -> L B) (n : nat)
    (pre pre' : Prop) (post : A -> Prop) (post' : B -> Prop) :
  wp m n (okL io_fails pre post) ->
  (pre' -> pre) ->
  (forall a n', post a -> wp (k a) n' (okL io_fails pre' post')) ->
  wp (bind m k) n (okL io_fails pre' post').
Proof.
  intros Hm Hpre Hk. apply wp_bind. unfold wp in *.
  destruct (m n) as [[a|e|] n']; cbn in *; [by apply Hk|auto|auto].
Qed.

Lemma okL_conseq {A} (m : L A) (n : nat) (pre pre' : Prop)
    (post post' : A -> Prop) :
  wp m n (okL io_fails pre post) ->
  (pre' -> pre) ->
  (forall a, post a -> post' a) ->
  wp m n (okL io_fails pre' post').
Proof.
  intros Hm Hpre Hpost. unfold wp in *.
  destruct (m n) as [[a|e|] n']; cbn in *; auto.
Qed.

(** A helper of the [L] level inside a method. *)
Lemma okM_liftL {A B} (m : L A) (k : A -> M B) (w : World)
    (pre valid : Prop) (post : A -> Prop) (post' : B -> Sequence -> Prop)
    (t0 : Sequence) :
  this w = t0 ->
  wp m (calls w) (okL io_fails pre post) ->
  (valid -> pre) ->
  (forall a n', post a ->
     wp (k a) (mkWorld t0 n') (okM io_fails t0 valid post')) ->
  wp (bind (liftL m) k) w (okM io_fails t0 valid post').
Proof.
  intros Ht Hm Hpre Hk. apply wp_bind, wp_liftL. unfold wp in *.
  destruct (m (calls w)) as [[a|e|] n']; cbn in *.
  - rewrite Ht. by apply Hk.
  - split; [done|]. auto.
  - auto.
Qed.

(** Steps that do not touch the state. *)
Lemma wp_ret {S A} (a : A) (s : S) (Q : res A -> S -> Prop) :
  Q (Ret a) s -> wp (ret a) s Q.
Proof. done. Qed.

Lemma wp_tail {S A} (m : St S A) (s : S) (Q : res A -> S -> Prop) :
  wp (bind m ret) s Q -> wp m s Q.
Proof. unfold wp, bind, ret. by destruct (m s) as [[a|e|] s']. Qed.

Lemma wp_liftR_bind {S A B} (r : res A) (k : A -> St S B) (s : S)
    (Q : res B -> S -> Prop) :
  match r with
  | Ret a => wp (k a) s Q
  | Throw e => Q (Throw e) s
  | Undefined => Q Undefined s
  end ->
  wp (bind (liftR r) k) s Q.
Proof. intros H. apply wp_bind. unfold wp, liftR. cbn. by destruct r. Qed.

Lemma wp_deref_bind {S B} (p : BlockFilePtr) (k : BlockFile -> St S B)
    (s : S) (Q : res B -> S -> Prop) :
  (p = None -> Q Undefined s) ->
  (forall f, p = Some f -> wp (k f) s Q) ->
  wp (bind (deref p) k) s Q.
Proof.
  intros H1 H2. apply wp_bind. destruct p as [f|]; cbn.
  - by apply H2.
  - by apply H1.
Qed.

Lemma wp_at_index_bind {S B} (bl : BlockArray) (i : nat)
    (k : SeqBlock -> St S B) (s : S) (Q : res B -> S -> Prop) :
  (bl !! i = None -> Q Undefined s) ->
  (forall b, bl !! i = Some b -> wp (k b) s Q) ->
  wp (bind (at_index bl i) k) s Q.
Proof.
  intros H1 H2. apply wp_bind. unfold at_index.
  destruct (bl !! i) as [b|]; cbn.
  - by apply H2.
  - by apply H1.
Qed.

Lemma wp_as_size_t_bind {S B} (v : Z) (k : Z -> St S B) (s : S)
    (Q : res B -> S -> Prop) :
  (v < 0 -> wp (k (v + 2 ^ 64)) s Q) ->
  (0 <= v -> wp (k v) s Q) ->
  wp (bind (as_size_t v) k) s Q.
Proof.
  intros H1 H2. apply wp_bind. unfold as_size_t, as_size_tR, liftR.
  destruct (Z.leb_spec 0 v); cbn.
  - by apply H2.
  - by apply H1.
Qed.

Lemma wp_as_size_t_bind_any {S B} (v : Z) (k : Z -> St S B) (s : S)
    (Q : res B -> S -> Prop) :
  (forall u, wp (k u) s Q) -> wp (bind (as_size_t v) k) s Q.
Proof. intros H. apply wp_as_size_t_bind; intros _; apply H. Qed.

Lemma wp_wxASSERT_bind {S B} (c : bool) (k : unit -> St S B) (s : S)
    (Q : res B -> S -> Prop) :
  (c = false -> Q Undefined s) ->
  (c = true -> wp (k tt) s Q) ->
  wp (bind (wxASSERT c) k) s Q.
Proof.
  intros H1 H2. apply wp_bind. destruct c; cbn.
  - by apply H2.
  - by apply H1.
Qed.

Lemma wp_buf_store_bind {S B} (buffer : list Sample) (off : Z)
    (data : list Sample) (k : list Sample -> St S B) (s : S)
    (Q : res B -> S -> Prop) :
  (~ (0 <= off /\ off + Z.of_nat (length data) <= Z.of_nat (length buffer)) ->
   Q Undefined s) ->
  (0 <= off -> off + Z.of_nat (length data) <= Z.of_nat (length buffer) ->
   wp (k (overlay buffer off data)) s Q) ->
  wp (bind (buf_store buffer off data) k) s Q.
Proof.
  intros H1 H2. apply wp_bind. unfold buf_store.
  destruct (Z.leb_spec 0 off); cbn.
  - destruct (Z.leb_spec (off + Z.of_nat (length data))
                (Z.of_nat (length buffer))); cbn.
    + by apply H2.
    + apply H1. lia.
  - apply H1. lia.
Qed.

Lemma wp_getThis_bind {B} (k : Sequence -> M B) (w : World)
    (Q : res B -> World -> Prop) :
  wp (k (this w)) w Q -> wp (bind getThis k) w Q.
Proof. intros H. by apply wp_bind. Qed.

Lemma wp_modifyThis_bind {B} (g : Sequence -> Sequence) (k : unit -> M B)
    (w : World) (Q : res B -> World -> Prop) :
  wp (k tt) (mkWorld (g (this w)) (calls w)) Q ->
  wp (bind (modifyThis g) k) w Q.
Proof. intros H. by apply wp_bind. Qed.

Lemma store_call_spec (n : nat) :
  wp (store_call io_fails) n (okL io_fails True (fun _ => True)).
Proof.
  unfold wp, store_call. destruct (io_fails n) eqn:E; cbn; [|done].
  intros _. split; [done|]. by exists n.
Qed.

(** ** Construction *)

(** C8, as amended: a new sequence has [maxSamples] equal to
    [maxDiskBlockSize / SAMPLE_SIZE(f)] rounded down to an even number,
    without any clamping, and [minSamples] equal to [maxSamples / 2]. *)
Theorem Sequence_new_block_sizes (format : sampleFormat) :
  let q := sMaxDiskBlockSize / SAMPLE_SIZE format in
  let s := Sequence_new SAMPLE_SIZE sMaxDiskBlockSize format in
  mMaxSamples s = q - q mod 2 /\
  mMinSamples s = mMaxSamples s / 2 /\
  mBlock s = [] /\ mNumSamples s = 0.
Proof.
  cbn. repeat split.
  - pose proof (Z.div_mod (sMaxDiskBlockSize / SAMPLE_SIZE format) 2). lia.
  - symmetry. apply Z.div_mul. lia.
Qed.

(** ** Guards of the edit operations *)

(** C10: [SetSamples] throws [InconsistencyException] and leaves the
    sequence as it was whenever [start >= numSamples], whatever [len] is
    (also 0); on a sequence without samples every call throws. *)
Theorem SetSamples_rejects_start_past_end
    (buffer : option (list Sample)) (format : sampleFormat)
    (start len : Z) (w : World) :
  mNumSamples (this w) <= start \/ mNumSamples (this w) = 0 ->
  SetSamples convert io_fails guess_offset buffer format start len w
  = (Throw InconsistencyException, w).
Proof.
  intros H. unfold SetSamples, bind, getThis, throw.
  destruct (start <? 0) eqn:Hneg; [reflexivity|].
  replace (mNumSamples (this w) <=? start) with true by lia.
  reflexivity.
Qed.

(** The guard of [Delete]: a zero length is a no-op; a negative length, a
    negative start or a start at or past the end is rejected with the
    sequence unchanged. *)
Lemma Delete_guard (start len : Z) (w : World) :
  (len = 0 ->
   Delete convert io_fails guess_offset start len w = (Ret tt, w)) /\
  (len <> 0 -> len < 0 \/ start < 0 \/ mNumSamples (this w) <= start ->
   Delete convert io_fails guess_offset start len w
   = (Throw InconsistencyException, w)).
Proof.
  unfold Delete. split.
  - intros ->. reflexivity.
  - intros Hlen H. destruct (Z.eqb_spec len 0) as [|_]; [done|].
    unfold bind, getThis, throw.
    replace ((len <? 0) || (start <? 0) || (mNumSamples (this w) <=? start))
      with true; [reflexivity|].
    symmetry. rewrite !orb_true_iff. lia.
Qed.

(** C3, the run that breaks the claim: on a sequence of ten samples
    [Delete(5, 10)] has [start + len > numSamples], yet the guard lets it
    pass; [FindBlock(14)] is then called outside its domain and no
    [InconsistencyException] is thrown. *)
Theorem Delete_past_end_not_rejected (n : nat) :
  Delete convert io_fails guess_offset 5 10 (mkWorld Examples.ten n)
  = (Undefined, mkWorld Examples.ten n).
Proof. reflexivity. Qed.

(** ** Format conversion *)

Lemma set_fields_restore (t : Sequence) (format : sampleFormat) (a b : Z)
    (t' : Sequence) :
  t' = set_mMaxSamples b (set_mMinSamples a (set_mSampleFormat format t)) ->
  set_mMinSamples (mMinSamples t)
    (set_mMaxSamples (mMaxSamples t)
       (set_mSampleFormat (mSampleFormat t) t')) = t.
Proof. intros ->. destruct t. reflexivity. Qed.

(** C5: when [ConvertToSampleFormat] to a different format throws, the
    sequence is left with the format, [maxSamples] and [minSamples] (and
    the blocks and the sample count) it had before the call; a conversion
    to the current format returns [false] and changes nothing. *)
Theorem ConvertToSampleFormat_rollback (format : sampleFormat) (w : World) :
  let r := ConvertToSampleFormat SAMPLE_SIZE convert sMaxDiskBlockSize
             io_fails format w in
  (format <> mSampleFormat (this w) ->
   forall e, fst r = Throw e ->
     mSampleFormat (this (snd r)) = mSampleFormat (this w) /\
     mMaxSamples (this (snd r)) = mMaxSamples (this w) /\
     mMinSamples (this (snd r)) = mMinSamples (this w) /\
     this (snd r) = this w) /\
  (format = mSampleFormat (this w) -> r = (Ret false, w)).
Proof.
  cbv zeta. unfold ConvertToSampleFormat, bind, getThis. split.
  - intros Hne e. destruct (Z.eqb_spec format (mSampleFormat (this w))) as [|_];
      [done|].
    destruct (length (mBlock (this w)) =? 0)%nat; [discriminate|].
    unfold modifyThis, finally, bind, getThis, liftL, CommitChangesIfConsistent,
      liftR, bind, getThis, modifyThis, ret. cbn [this calls].
    set (t1 := set_mMaxSamples _ _).
    assert (Ht1 : set_mMinSamples (mMinSamples (this w))
                    (set_mMaxSamples (mMaxSamples (this w))
                       (set_mSampleFormat (mSampleFormat (this w)) t1))
                  = this w).
    { eapply set_fields_restore. reflexivity. }
    destruct (ConvertToSampleFormat_loop _ _ _ _ _ _ _ _ _) as [[nb|e'|] n'];
      cbn [this calls fst snd completed].
    + destruct (ConsistencyCheck _ _ _ _ _); cbn; [discriminate| |discriminate].
      intros _. rewrite Ht1. done.
    + intros _. rewrite Ht1. done.
    + discriminate.
  - intros ->. rewrite Z.eqb_refl. reflexivity.
Qed.

(** ** Blockify *)

Lemma div_step_bounds (a len num : Z) :
  0 < num ->
  let x := a / num in
  let y := (a + len) / num in
  len - num < num * (y - x) < len + num.
Proof.
  intros Hnum x y.
  pose proof (Z.div_mod a num ltac:(lia)) as Ha.
  pose proof (Z.mod_pos_bound a num Hnum) as Ha'.
  pose proof (Z.div_mod (a + len) num ltac:(lia)) as Hb.
  pose proof (Z.mod_pos_bound (a + len) num Hnum) as Hb'.
  fold x in Ha. fold y in Hb. nia.
Qed.

Lemma piece_length_bounds (len num i : Z) :
  0 < num ->
  let newLen := (i + 1) * len / num - i * len / num in
  len - num < num * newLen < len + num /\
  len / num <= newLen <= len / num + 1.
Proof.
  intros Hnum newLen.
  pose proof (div_step_bounds (i * len) len num Hnum) as H. cbv zeta in H.
  replace (i * len + len) with ((i + 1) * len) in H by lia.
  fold newLen in H. split; [done|].
  pose proof (Z.div_mod len num ltac:(lia)) as Hq.
  pose proof (Z.mod_pos_bound len num Hnum) as Hq'. nia.
Qed.

Lemma Blockify_num_bounds (maxSamples len : Z) :
  0 < len -> 1 <= maxSamples ->
  let num := (len + (maxSamples - 1)) / maxSamples in
  1 <= num <= len /\ (num - 1) * maxSamples < len <= num * maxSamples.
Proof.
  intros Hlen Hmax num.
  pose proof (Z.div_mod (len + (maxSamples - 1)) maxSamples ltac:(lia)) as Hd.
  pose proof (Z.mod_pos_bound (len + (maxSamples - 1)) maxSamples ltac:(lia)).
  fold num in Hd. nia.
Qed.

Lemma blockLen_piece (format : sampleFormat) (start : Z)
    (buffer : list Sample) (len num i : Z) :
  0 <= (i + 1) * len / num - i * len / num ->
  blockLen (Blockify_piece format start buffer len num i)
  = (i + 1) * len / num - i * len / num.
Proof.
  intros H. unfold Blockify_piece, blockLen. cbn. rewrite length_resize. lia.
Qed.

Lemma Blockify_loop_spec (k : nat) (i num : Z) (format : sampleFormat)
    (blist : BlockArray) (start : Z) (buffer : list Sample) (len : Z)
    (n : nat) :
  wp (Blockify_loop io_fails k i num format blist start buffer len) n
    (okL io_fails True
       (fun out => out = blist ++ map (Blockify_piece format start buffer len num)
                                    (seqZ i (Z.of_nat k)))).
Proof.
  revert i blist n. induction k as [|k IH]; intros i blist n.
  - cbn. by rewrite app_nil_r.
  - cbn [Blockify_loop]. unfold NewSimpleBlockFile.
    eapply okL_bind.
    { eapply okL_bind; [apply store_call_spec|done|].
      intros _ n' _. apply wp_ret.
      instantiate (1 := fun file => file = SeqBlock_f (Blockify_piece format start buffer len num i)).
      instantiate (1 := True). reflexivity. }
    { done. }
    intros file n' ->. eapply okL_conseq; [apply IH|done|].
    intros out ->.
    rewrite <- app_assoc. f_equal.
    replace (Z.of_nat (S k)) with (Z.succ (Z.of_nat k)) by lia.
    rewrite (seqZ_cons i) by lia. rewrite Z.pred_succ. cbn [map app].
    replace (Z.succ i) with (i + 1) by lia. reflexivity.
Qed.

Lemma Blockify_spec (maxSamples : Z) (format : sampleFormat)
    (blist : BlockArray) (start : Z) (buffer : list Sample) (len : Z)
    (n : nat) :
  wp (Blockify io_fails maxSamples format blist start buffer len) n
    (okL io_fails (len <= 0 \/ maxSamples <> 0)
       (fun out =>
          if len <=? 0 then out = blist
          else maxSamples <> 0 /\
               out = blist ++ Blockify_pieces maxSamples format start buffer
                                len)).
Proof.
  unfold Blockify. destruct (Z.leb_spec len 0) as [Hl|Hl].
  - done.
  - destruct (Z.eqb_spec maxSamples 0) as [Hm|Hm].
    + cbn. lia.
    + eapply okL_conseq; [apply Blockify_loop_spec|done|].
      intros out ->. split; [done|].
      unfold Blockify_pieces. f_equal. f_equal. unfold seqZ.
      by rewrite Nat2Z.id.
Qed.

Lemma GetLength_nonneg (f : BlockFile) : 0 <= GetLength f.
Proof. destruct f; cbn; lia. Qed.

Lemma blockLen_nonneg (b : SeqBlock) : 0 <= blockLen b.
Proof. unfold blockLen. destruct (SeqBlock_f b); [apply GetLength_nonneg|lia]. Qed.

Lemma sumLen_app (a b : BlockArray) : sumLen (a ++ b) = sumLen a + sumLen b.
Proof. induction a as [|x a IH]; cbn; [done|]. fold (sumLen (a ++ b)) (sumLen a). lia. Qed.

Lemma sumLen_cons (x : SeqBlock) (a : BlockArray) :
  sumLen (x :: a) = blockLen x + sumLen a.
Proof. reflexivity. Qed.

Lemma sumLen_nonneg (a : BlockArray) : 0 <= sumLen a.
Proof.
  induction a as [|x a IH]; [done|]. rewrite sumLen_cons.
  pose proof (blockLen_nonneg x). lia.
Qed.

Lemma chained_app (pos : Z) (a b : BlockArray) :
  chained pos (a ++ b) <-> chained pos a /\ chained (pos + sumLen a) b.
Proof.
  revert pos. induction a as [|x a IH]; intros pos; cbn [app chained].
  - cbn. rewrite Z.add_0_r. tauto.
  - rewrite IH, sumLen_cons, Z.add_assoc. tauto.
Qed.

Lemma piece_length_nonneg (len num i : Z) :
  0 < num -> 0 <= len -> 0 <= (i + 1) * len / num - i * len / num.
Proof.
  intros Hnum Hlen.
  assert (i * len / num <= (i + 1) * len / num); [|lia].
  apply Z.div_le_mono; lia.
Qed.

Lemma pieces_chained (format : sampleFormat) (start : Z)
    (buffer : list Sample) (len num : Z) (k : nat) (i : Z) :
  0 < num -> 0 <= len ->
  chained (start + i * len / num)
    (map (Blockify_piece format start buffer len num) (seqZ i (Z.of_nat k)))
  /\ sumLen (map (Blockify_piece format start buffer len num)
               (seqZ i (Z.of_nat k)))
     = (i + Z.of_nat k) * len / num - i * len / num.
Proof.
  intros Hnum Hlen. revert i. induction k as [|k IH]; intros i.
  - change (Z.of_nat 0) with 0. rewrite seqZ_nil, Z.add_0_r by lia. cbn.
    split; [done|lia].
  - replace (Z.of_nat (S k)) with (Z.succ (Z.of_nat k)) by lia.
    rewrite (seqZ_cons i) by lia. rewrite Z.pred_succ. cbn [map chained].
    rewrite sumLen_cons, blockLen_piece by (by apply piece_length_nonneg).
    replace (Z.succ i) with (i + 1) by lia.
    destruct (IH (i + 1)) as [Hc Hs]. rewrite Hs. split; [split|].
    + reflexivity.
    + replace (start + i * len / num
               + ((i + 1) * len / num - i * len / num))
        with (start + (i + 1) * len / num) by lia. done.
    + replace (i + 1 + Z.of_nat k) with (i + Z.succ (Z.of_nat k)) by lia. lia.
Qed.

Lemma Blockify_pieces_structure (maxSamples : Z) (format : sampleFormat)
    (start : Z) (buffer : list Sample) (len : Z) :
  0 < len -> 1 <= maxSamples ->
  let pieces := Blockify_pieces maxSamples format start buffer len in
  chained start pieces /\ sumLen pieces = len /\
  Forall (goodBlock maxSamples) pieces.
Proof.
  intros Hlen Hmax pieces. unfold pieces, Blockify_pieces.
  set (num := (len + (maxSamples - 1)) / maxSamples).
  destruct (Blockify_num_bounds maxSamples len Hlen Hmax) as [Hn1 Hn2].
  fold num in Hn1, Hn2.
  destruct (pieces_chained format start buffer len num (Z.to_nat num) 0)
    as [Hc Hs]; [lia..|].
  rewrite Z2Nat.id in Hc, Hs by lia.
  rewrite Z.mul_0_l, Z.div_0_l, Z.add_0_r in Hc by lia.
  rewrite Z.add_0_l, Z.mul_0_l, Z.div_0_l, Z.sub_0_r in Hs by lia.
  rewrite Z.mul_comm, Z.div_mul in Hs by lia.
  split; [done|]. split; [done|].
  apply Forall_forall. intros b Hb.
  apply list_elem_of_fmap in Hb as (i & -> & Hi).
  apply elem_of_seqZ in Hi. unfold goodBlock.
  rewrite blockLen_piece by (apply piece_length_nonneg; lia).
  destruct (piece_length_bounds len num i ltac:(lia)) as [Hb1 Hb2]. nia.
Qed.

(** C7: for [totalLen > 0] and [1 <= maxSamples <= 2^31 - 1], with a
    block store that does not fail, a product [num * totalLen] that fits
    the 64-bit [size_t] and starts that fit the 64-bit [sampleCount],
    [Blockify] appends exactly [num = ceil(totalLen / maxSamples)] blocks;
    block [i] starts at [startOffset + i*totalLen/num] and has length
    [(i+1)*totalLen/num - i*totalLen/num]; the lengths differ by at most
    1, each is positive and at most [maxSamples], and they sum to
    [totalLen].  Every product, start and piece length of the loop then
    lies in the range of its machine type ([size_t], [sampleCount] and
    [int]). *)
Theorem Blockify_balanced (maxSamples : Z) (format : sampleFormat)
    (blist : BlockArray) (start : Z) (buffer : list Sample) (len : Z)
    (n : nat) :
  0 < len -> 1 <= maxSamples -> (forall k, io_fails k = false) ->
  maxSamples <= 2 ^ 31 - 1 ->
  len * ((len + (maxSamples - 1)) / maxSamples) <= 2 ^ 64 - 1 ->
  - 2 ^ 63 <= start -> start + len <= 2 ^ 63 - 1 ->
  let num := (len + (maxSamples - 1)) / maxSamples in
  exists added n',
    Blockify io_fails maxSamples format blist start buffer len n
    = (Ret (blist ++ added), n') /\
    Z.of_nat (length added) = num /\
    (num - 1) * maxSamples < len <= num * maxSamples /\
    len + (maxSamples - 1) <= 2 ^ 64 - 1 /\
    (forall i, 0 <= i < num ->
       exists b, added !! Z.to_nat i = Some b /\
         SeqBlock_start b = start + i * len / num /\
         blockLen b = (i + 1) * len / num - i * len / num /\
         (i + 1) * len <= 2 ^ 64 - 1 /\
         - 2 ^ 63 <= SeqBlock_start b <= 2 ^ 63 - 1 /\
         0 < blockLen b <= 2 ^ 31 - 1) /\
    (forall b b', b ∈ added -> b' ∈ added -> blockLen b - blockLen b' <= 1) /\
    (forall b, b ∈ added -> 0 < blockLen b <= maxSamples) /\
    sumLen added = len.
Proof.
  intros Hlen Hmax Hio Hint Hprod Hlo Hhi num.
  pose proof (Blockify_spec maxSamples format blist start buffer len n) as Hwp.
  unfold wp in Hwp.
  destruct (Blockify io_fails maxSamples format blist start buffer len n)
    as [[out|e|] n'] eqn:E; cbn in Hwp.
  2:{ destruct Hwp as [_ [k Hk]]; [lia|]. by rewrite Hio in Hk. }
  2:{ exfalso. apply Hwp. lia. }
  destruct (Z.leb_spec len 0) as [|_]; [lia|]. destruct Hwp as [_ ->].
  destruct (Blockify_num_bounds maxSamples len Hlen Hmax) as [Hn1 Hn2].
  fold num in Hn1, Hn2, Hprod.
  destruct (Blockify_pieces_structure maxSamples format start buffer len
              Hlen Hmax) as (_ & Hsum & Hgood).
  exists (Blockify_pieces maxSamples format start buffer len), n'.
  split; [done|]. unfold Blockify_pieces in *. fold num in Hsum, Hgood |- *.
  split; [rewrite length_map, length_seqZ; lia|]. split; [done|].
  split; [nia|].
  split; [|split; [|split; [|done]]].
  - intros i Hi.
    pose proof (piece_length_nonneg len num i ltac:(lia) ltac:(lia)) as Hp.
    destruct (piece_length_bounds len num i ltac:(lia)) as [Hb1 Hb2].
    assert (Hoff : 0 <= i * len / num <= len).
    { split; [apply Z.div_pos; nia|].
      apply Z.div_le_upper_bound; [lia|]. nia. }
    eexists. split.
    + rewrite list_lookup_fmap, lookup_seqZ_lt by lia. cbn. reflexivity.
    + rewrite Z2Nat.id, Z.add_0_l by lia. split; [reflexivity|].
      rewrite blockLen_piece by done. split; [done|].
      split; [nia|]. cbn [Blockify_piece SeqBlock_start].
      split; [lia|]. nia.
  - intros b b' Hb Hb'.
    apply list_elem_of_fmap in Hb as (i & -> & Hi).
    apply list_elem_of_fmap in Hb' as (i' & -> & Hi').
    rewrite !blockLen_piece by (apply piece_length_nonneg; lia).
    destruct (piece_length_bounds len num i ltac:(lia)) as [_ H1].
    destruct (piece_length_bounds len num i' ltac:(lia)) as [_ H2]. lia.
  - intros b Hb. rewrite Forall_forall in Hgood. by apply Hgood.
Qed.

(** ** Loading *)

Lemma wrap64_small (v : Z) :
  - 2 ^ 63 <= v <= 2 ^ 63 - 1 -> wrap64 v = v.
Proof.
  intros H. unfold wrap64. rewrite Z.mod_small; lia.
Qed.

Lemma wrap64_range (v : Z) : - 2 ^ 63 <= wrap64 v <= 2 ^ 63 - 1.
Proof.
  unfold wrap64. pose proof (Z.mod_pos_bound (v + 2 ^ 63) (2 ^ 64)). lia.
Qed.

Lemma silenceLen_small (gap maxSamples : Z) :
  0 <= gap <= 2 ^ 63 - 1 -> 0 <= maxSamples <= 2 ^ 63 - 1 ->
  silenceLen gap maxSamples = Z.min gap maxSamples.
Proof.
  intros Hg Hm. unfold silenceLen. rewrite !wrap64_small by lia.
  destruct (Z.ltb_spec maxSamples gap), (Z.leb_spec 0 (Z.min gap maxSamples));
    try lia.
  - destruct (Z.leb_spec 0 maxSamples); lia.
  - destruct (Z.leb_spec 0 gap); lia.
Qed.

Lemma HandleXMLEndTag_missing_spec (blocks : BlockArray)
    (numSamples maxSamples : Z) :
  exists r, HandleXMLEndTag_missing blocks numSamples maxSamples = Ret r /\
    length (fst r) = length blocks /\
    (forall (i : nat) b, blocks !! i = Some b ->
       exists b', fst r !! i = Some b' /\
         SeqBlock_start b' = SeqBlock_start b /\
         SeqBlock_f b' =
           match SeqBlock_f b with
           | Some f => Some f
           | None => newSilentBlockFile
                       (silenceLen (gapAt blocks numSamples i) maxSamples)
           end) /\
    (snd r = false -> fst r = blocks) /\
    ((exists (i : nat) b, blocks !! i = Some b /\ SeqBlock_f b = None) ->
     snd r = true).
Proof.
  induction blocks as [|b rest IH].
  - eexists. split; [reflexivity|]. cbn. split; [done|].
    split; [|split; [done|]].
    + intros i b Hb. destruct i; discriminate.
    + intros (i & b & Hb & _). destruct i; discriminate.
  - destruct IH as (r' & Hr' & Hl & Hi & He & Hm).
    cbn [HandleXMLEndTag_missing]. rewrite Hr'.
    destruct (SeqBlock_f b) as [f|] eqn:Hf.
    + cbn [res_bind]. eexists. split; [reflexivity|]. cbn [fst snd].
      split; [cbn; lia|]. split; [|split].
      * intros [|i] b0 Hb0; cbn in Hb0.
        -- injection Hb0 as <-. exists b. rewrite Hf. done.
        -- destruct (Hi i b0 Hb0) as (b' & H1 & H2 & H3). exists b'.
           split; [done|]. split; [done|]. rewrite H3. unfold gapAt. cbn.
           done.
      * intros H0. f_equal. by apply He.
      * intros ([|i] & b0 & Hb0 & Hf0); cbn in Hb0.
        -- injection Hb0 as <-. congruence.
        -- apply Hm. by exists i, b0.
    + unfold as_size_tR. cbn [res_bind]. eexists. split; [reflexivity|].
      cbn [fst snd]. split; [cbn; lia|]. split; [|done].
      intros [|i] b0 Hb0; cbn in Hb0.
      * injection Hb0 as <-. eexists. split; [reflexivity|]. rewrite Hf.
        split; [done|]. cbn [SeqBlock_f]. f_equal.
        unfold silenceLen, gapAt. cbn. by destruct rest.
      * destruct (Hi i b0 Hb0) as (b' & H1 & H2 & H3). exists b'.
        split; [done|]. split; [done|]. rewrite H3. unfold gapAt. cbn.
        done.
Qed.

Lemma HandleXMLEndTag_starts_spec (blocks : BlockArray) (pos : Z) :
  Forall (fun b => is_Some (SeqBlock_f b)) blocks ->
  exists r, HandleXMLEndTag_starts blocks pos = Ret r /\
    map SeqBlock_f (fst (fst r)) = map SeqBlock_f blocks /\
    (snd r = false -> fst (fst r) = blocks) /\
    (- 2 ^ 63 <= pos -> pos + sumLen blocks <= 2 ^ 63 - 1 ->
     chained pos (fst (fst r)) /\ snd (fst r) = pos + sumLen blocks).
Proof.
  intros HF. revert pos. induction HF as [|b rest [f Hf] _ IH]; intros pos.
  - eexists. split; [reflexivity|]. cbn. repeat split; lia.
  - cbn [HandleXMLEndTag_starts]. rewrite Hf.
    destruct (IH (wrap64 (pos + GetLength f))) as (r & Hr & Hm & He & Hc).
    rewrite Hr. cbn [res_bind]. eexists. split; [reflexivity|].
    assert (Hbl : blockLen b = GetLength f) by (unfold blockLen; by rewrite Hf).
    cbn [fst snd map chained sumLen foldr SeqBlock_f SeqBlock_start].
    fold (sumLen rest). rewrite Hbl.
    change (blockLen {| SeqBlock_f := Some f; SeqBlock_start := pos |})
      with (GetLength f).
    split; [by rewrite Hm, Hf|]. split.
    + intros Hmv.
      apply orb_false_iff in Hmv as [Hmv1 Hmv2].
      rewrite (He Hmv2). destruct b as [bf bs]. cbn in *. subst bf.
      f_equal. f_equal. apply negb_false_iff in Hmv1. lia.
    + intros Hlo Hhi.
      pose proof (GetLength_nonneg f) as Hf0.
      pose proof (sumLen_nonneg rest) as Hr0.
      rewrite wrap64_small in Hc by lia.
      destruct Hc as [Hc Hs]; [lia..|]. split; [done|lia].
Qed.

Lemma sumLen_same_files (l l' : BlockArray) :
  map SeqBlock_f l = map SeqBlock_f l' -> sumLen l = sumLen l'.
Proof.
  revert l'. induction l as [|a l IH]; intros [|a' l'] H; try done.
  cbn in H. injection H as Ha Hl. cbn. unfold blockLen at 1 3.
  rewrite Ha. f_equal. by apply IH.
Qed.

(** X30: at the end of the [sequence] tag the call returns.
    Every block then has a file: the files present are kept and a
    missing one is replaced by a silent block file; [errorOpening] is
    set whenever a file was missing, or the blocks or the sample count
    were changed, and stays set.  When the stored starts, the stored
    sample count and [maxSamples] lie in [0, 2^63 - 1] and no missing
    block has a start above the next start (above the stored count, for
    the last block), the silence is as long as the gap, at most
    [maxSamples].  When the lengths of the resulting blocks sum to at
    most [2^63 - 1], the starts are contiguous from 0 and [numSamples]
    is that sum. *)
Theorem HandleXMLEndTag_repairs (s : Sequence) :
  exists s', HandleXMLEndTag "sequence" s = Ret s' /\
    mSampleFormat s' = mSampleFormat s /\
    mMinSamples s' = mMinSamples s /\
    mMaxSamples s' = mMaxSamples s /\
    length (mBlock s') = length (mBlock s) /\
    Forall (fun b => is_Some (SeqBlock_f b)) (mBlock s') /\
    (forall (i : nat) b, mBlock s !! i = Some b ->
       exists b', mBlock s' !! i = Some b' /\
         match SeqBlock_f b with
         | Some f => SeqBlock_f b' = Some f
         | None => exists n, SeqBlock_f b' = Some (SilentBlockFile n)
         end) /\
    (Forall (fun b => 0 <= SeqBlock_start b <= 2 ^ 63 - 1) (mBlock s) ->
     0 <= mNumSamples s <= 2 ^ 63 - 1 ->
     0 <= mMaxSamples s <= 2 ^ 63 - 1 ->
     (forall (i : nat) b, mBlock s !! i = Some b -> SeqBlock_f b = None ->
        0 <= gapAt (mBlock s) (mNumSamples s) i) ->
     forall (i : nat) b b', mBlock s !! i = Some b -> SeqBlock_f b = None ->
       mBlock s' !! i = Some b' ->
       SeqBlock_f b' =
         Some (SilentBlockFile
                 (Z.to_N (Z.min (gapAt (mBlock s) (mNumSamples s) i)
                            (mMaxSamples s)))) /\
       blockLen b' =
         Z.min (gapAt (mBlock s) (mNumSamples s) i) (mMaxSamples s)) /\
    (sumLen (mBlock s') <= 2 ^ 63 - 1 ->
     chained 0 (mBlock s') /\ mNumSamples s' = sumLen (mBlock s')) /\
    ((exists (i : nat) b, mBlock s !! i = Some b /\ SeqBlock_f b = None) \/
     mBlock s' <> mBlock s \/ mNumSamples s' <> mNumSamples s ->
     mErrorOpening s' = true) /\
    (mErrorOpening s = true -> mErrorOpening s' = true).
Proof.
  unfold HandleXMLEndTag. cbn [String.eqb Ascii.eqb Bool.eqb negb].
  destruct (HandleXMLEndTag_missing_spec (mBlock s) (mNumSamples s)
              (mMaxSamples s)) as (r1 & Hr1 & Hl & Hi & He1 & Hm1).
  rewrite Hr1. cbn [res_bind]. cbn [mBlock set_mErrorOpening set_mBlock].
  assert (HF1 : Forall (fun b => is_Some (SeqBlock_f b)) (fst r1)).
  { apply Forall_lookup. intros i b' Hb'.
    destruct (lookup_lt_is_Some_2 (mBlock s) i) as [b Hb].
    { rewrite <- Hl. by eapply lookup_lt_Some. }
    destruct (Hi i b Hb) as (b2 & H1 & _ & H3). rewrite Hb' in H1.
    injection H1 as <-. rewrite H3. destruct (SeqBlock_f b); by eexists. }
  destruct (HandleXMLEndTag_starts_spec (fst r1) 0 HF1)
    as (r2 & Hr2 & Hm & He2 & Hc).
  rewrite Hr2. cbn [res_bind].
  cbn [mNumSamples mBlock mErrorOpening set_mErrorOpening set_mBlock
         set_mNumSamples mSampleFormat mMinSamples mMaxSamples].
  pose proof (sumLen_same_files _ _ Hm) as Hsum.
  assert (Hfiles : forall (i : nat) b, mBlock s !! i = Some b ->
    exists b', fst (fst r2) !! i = Some b' /\
      SeqBlock_f b' =
        match SeqBlock_f b with
        | Some f => Some f
        | None => newSilentBlockFile
                    (silenceLen (gapAt (mBlock s) (mNumSamples s) i)
                       (mMaxSamples s))
        end).
  { intros i b Hb. destruct (Hi i b Hb) as (b1 & H1 & _ & H3).
    assert (Hmi : map SeqBlock_f (fst (fst r2)) !! i = Some (SeqBlock_f b1)).
    { rewrite Hm. rewrite list_lookup_fmap, H1. done. }
    rewrite list_lookup_fmap in Hmi.
    destruct (fst (fst r2) !! i) as [b2|]; [|done].
    exists b2. split; [done|]. cbn in Hmi. injection Hmi as ->. done. }
  assert (HF2 : Forall (fun b => is_Some (SeqBlock_f b)) (fst (fst r2))).
  { apply Forall_lookup. intros i b2 Hb2.
    assert (Hmi : map SeqBlock_f (fst r1) !! i = Some (SeqBlock_f b2)).
    { rewrite <- Hm, list_lookup_fmap, Hb2. done. }
    rewrite list_lookup_fmap in Hmi.
    destruct (fst r1 !! i) as [b1|] eqn:Hb1; [|done].
    cbn in Hmi. injection Hmi as <-.
    rewrite Forall_lookup in HF1. by eapply HF1. }
  assert (Hlen2 : length (fst (fst r2)) = length (mBlock s)).
  { rewrite <- Hl. rewrite <- (length_map SeqBlock_f).
    rewrite Hm. by rewrite length_map. }
  assert (Hkept : forall (i : nat) b, mBlock s !! i = Some b ->
    exists b', fst (fst r2) !! i = Some b' /\
      match SeqBlock_f b with
      | Some f => SeqBlock_f b' = Some f
      | None => exists n, SeqBlock_f b' = Some (SilentBlockFile n)
      end).
  { intros i b Hb. destruct (Hfiles i b Hb) as (b' & Hb' & Hf').
    exists b'. split; [done|]. destruct (SeqBlock_f b); [done|].
    by eexists. }
  assert (Hsil : Forall (fun b => 0 <= SeqBlock_start b <= 2 ^ 63 - 1)
                   (mBlock s) ->
    0 <= mNumSamples s <= 2 ^ 63 - 1 ->
    0 <= mMaxSamples s <= 2 ^ 63 - 1 ->
    (forall (i : nat) b, mBlock s !! i = Some b -> SeqBlock_f b = None ->
       0 <= gapAt (mBlock s) (mNumSamples s) i) ->
    forall (i : nat) b b', mBlock s !! i = Some b -> SeqBlock_f b = None ->
      fst (fst r2) !! i = Some b' ->
      SeqBlock_f b' =
        Some (SilentBlockFile
                (Z.to_N (Z.min (gapAt (mBlock s) (mNumSamples s) i)
                           (mMaxSamples s)))) /\
      blockLen b' =
        Z.min (gapAt (mBlock s) (mNumSamples s) i) (mMaxSamples s)).
  { intros Hst Hn Hmax Hgap i b b' Hb Hf Hb'.
    destruct (Hfiles i b Hb) as (b2 & Hb2 & Hf2). rewrite Hb' in Hb2.
    injection Hb2 as <-. rewrite Hf in Hf2.
    assert (Hg : 0 <= gapAt (mBlock s) (mNumSamples s) i <= 2 ^ 63 - 1).
    { split; [by eapply Hgap|]. unfold gapAt. rewrite Hb.
      rewrite Forall_lookup in Hst. pose proof (Hst i b Hb).
      destruct (mBlock s !! S i) as [nx|] eqn:Hnx.
      - pose proof (Hst (S i) nx Hnx). lia.
      - lia. }
    rewrite silenceLen_small in Hf2 by done.
    unfold newSilentBlockFile in Hf2. split; [done|].
    unfold blockLen. rewrite Hf2. cbn. lia. }
  assert (Hch : sumLen (fst (fst r2)) <= 2 ^ 63 - 1 ->
    chained 0 (fst (fst r2)) /\ snd (fst r2) = sumLen (fst (fst r2))).
  { intros Hb. rewrite Hsum in Hb. destruct Hc as [Hc Hs]; [lia..|].
    split; [done|]. rewrite Hs, Hsum. lia. }
  destruct (Z.eqb_spec (mNumSamples s) (snd (fst r2))) as [Heq|Hneq];
    cbn [negb]; eexists; (split; [reflexivity|]);
    cbn [mNumSamples mBlock mErrorOpening set_mErrorOpening set_mBlock
           set_mNumSamples mSampleFormat mMinSamples mMaxSamples].
  - do 6 (split; [done|]). split; [done|]. split.
    { intros Hb. destruct (Hch Hb) as [H1 H2]. split; [done|]. congruence. }
    split.
    + intros [Hmiss|[Hb|Hn]]; [| |done].
      * rewrite (Hm1 Hmiss). by rewrite orb_true_r.
      * destruct (snd r1) eqn:E1; [by rewrite orb_true_r|].
        destruct (snd r2) eqn:E2; [by rewrite orb_true_r|].
        exfalso. apply Hb. rewrite (He2 eq_refl). by apply He1.
    + intros ->. done.
  - do 6 (split; [done|]). split; [done|]. split; [done|]. done.
Qed.

(** Another tag is left alone. *)
Lemma HandleXMLEndTag_other_tag (tag : string) (s : Sequence) :
  tag <> "sequence"%string -> HandleXMLEndTag tag s = Ret s.
Proof.
  intros H. unfold HandleXMLEndTag.
  destruct (String.eqb_spec tag "sequence"); done.
Qed.

(** ** The invariants as a chain *)

Lemma chained_lookup_iff (pos : Z) (bl : BlockArray) :
  chained pos bl <->
  (forall b, bl !! 0%nat = Some b -> SeqBlock_start b = pos) /\
  (forall (i : nat) b b', bl !! i = Some b -> bl !! S i = Some b' ->
     SeqBlock_start b' = SeqBlock_start b + blockLen b).
Proof.
  revert pos. induction bl as [|x bl IH]; intros pos.
  - cbn. split; [|done]. intros _. split; intros; discriminate.
  - cbn [chained]. rewrite IH. split.
    + intros (Hx & H0 & Hi). split.
      * intros b [= <-]. done.
      * intros [|i] b b' Hb Hb'; cbn in Hb, Hb'.
        -- injection Hb as <-. rewrite Hx. by apply H0.
        -- by eapply Hi.
    + intros (H0 & Hi). split; [by apply H0|]. split.
      * intros b Hb. rewrite (Hi 0%nat x b eq_refl Hb), (H0 x eq_refl). done.
      * intros i b b' Hb Hb'. by apply (Hi (S i) b b').
Qed.

Lemma Invariants_chain (s : Sequence) :
  Invariants s <->
  chained 0 (mBlock s) /\ mNumSamples s = sumLen (mBlock s) /\
  Forall (goodBlock (mMaxSamples s)) (mBlock s).
Proof.
  unfold Invariants, I1, I2, I3, I4, I5. rewrite chained_lookup_iff.
  rewrite Forall_forall. unfold goodBlock. split.
  - intros (H1 & H2 & H3 & H4 & H5). repeat split; try done.
    + pose proof (blockLen_nonneg x). specialize (H5 x H). lia.
    + by apply H4.
  - intros ((H1 & H2) & H3 & H4). repeat split; try done.
    + intros b Hb. by apply H4.
    + intros b Hb. specialize (H4 b Hb). lia.
Qed.

Lemma chained_start (pos : Z) (bl : BlockArray) (i : nat) (b : SeqBlock) :
  chained pos bl -> bl !! i = Some b ->
  SeqBlock_start b = pos + sumLen (take i bl).
Proof.
  revert pos i. induction bl as [|x bl IH]; intros pos i Hc Hb; [done|].
  destruct Hc as [Hx Hc]. destruct i as [|i]; cbn in Hb.
  - injection Hb as <-. cbn. lia.
  - cbn [take]. rewrite sumLen_cons, (IH _ _ Hc Hb). lia.
Qed.

Lemma sumLen_take_le (bl : BlockArray) (i j : nat) :
  (i <= j)%nat -> sumLen (take i bl) <= sumLen (take j bl).
Proof.
  revert i j. induction bl as [|x bl IH]; intros i j Hij.
  - by rewrite !take_nil.
  - destruct i as [|i]; cbn [take].
    + apply sumLen_nonneg.
    + destruct j as [|j]; [lia|]. cbn [take]. rewrite !sumLen_cons.
      specialize (IH i j ltac:(lia)). lia.
Qed.

Lemma sumLen_take_S (bl : BlockArray) (i : nat) (b : SeqBlock) :
  bl !! i = Some b -> sumLen (take (S i) bl) = sumLen (take i bl) + blockLen b.
Proof.
  intros Hb. rewrite (take_S_r _ _ _ Hb), sumLen_app. cbn. lia.
Qed.

Lemma chained_ordered (pos : Z) (bl : BlockArray) (i j : nat) (b b' : SeqBlock) :
  chained pos bl -> (i < j)%nat -> bl !! i = Some b -> bl !! j = Some b' ->
  SeqBlock_start b + blockLen b <= SeqBlock_start b'.
Proof.
  intros Hc Hij Hb Hb'.
  rewrite (chained_start _ _ _ _ Hc Hb), (chained_start _ _ _ _ Hc Hb').
  pose proof (sumLen_take_le bl (S i) j ltac:(lia)) as H.
  rewrite (sumLen_take_S _ _ _ Hb) in H. lia.
Qed.

Lemma holds_unique (p0 : Z) (bl : BlockArray) (pos : Z) (i j : nat) :
  chained p0 bl -> holds bl pos i -> holds bl pos j -> i = j.
Proof.
  intros Hc (b & Hb & Hr) (b' & Hb' & Hr').
  destruct (Nat.lt_trichotomy i j) as [H|[H|H]]; [|done|].
  - pose proof (chained_ordered _ _ _ _ _ _ Hc H Hb Hb'). lia.
  - pose proof (chained_ordered _ _ _ _ _ _ Hc H Hb' Hb). lia.
Qed.

Lemma holds_exists (p0 : Z) (bl : BlockArray) (pos : Z) :
  chained p0 bl -> p0 <= pos < p0 + sumLen bl -> exists i, holds bl pos i.
Proof.
  revert p0. induction bl as [|x bl IH]; intros p0 Hc Hr.
  - cbn in Hr. lia.
  - destruct Hc as [Hx Hc]. rewrite sumLen_cons in Hr.
    destruct (Z.lt_ge_cases pos (p0 + blockLen x)) as [Hlt|Hge].
    + exists 0%nat, x. split; [done|]. lia.
    + destruct (IH _ Hc ltac:(lia)) as (i & b & Hb & Hbr).
      exists (S i), b. done.
Qed.

(** ** Block locator *)

Lemma FindBlock_loop_spec (p0 : Z) (bl : BlockArray) (pos : Z) (target : nat) :
  chained p0 bl -> Forall (fun b => 0 < blockLen b) bl ->
  holds bl pos target ->
  forall (fuel lo hi : nat) (loSamples hiSamples : Z),
    (lo <= target < hi)%nat -> (hi <= length bl)%nat -> (hi - lo < fuel)%nat ->
    FindBlock_loop guess_offset fuel bl pos lo hi loSamples hiSamples
    = Ret target.
Proof.
  intros Hc Hpos (bt & Hbt & Hrt).
  induction fuel as [|fuel IH]; intros lo hi loS hiS Hr Hhi Hfuel; [lia|].
  cbn [FindBlock_loop].
  set (guess := Nat.min (hi - 1) (lo + guess_offset (pos - loS) (hiS - loS) (hi - lo))).
  assert (Hg : (lo <= guess < hi)%nat) by lia.
  destruct (lookup_lt_is_Some_2 bl guess ltac:(lia)) as [b Hb].
  rewrite Hb.
  assert (Hbpos : 0 < blockLen b).
  { rewrite Forall_forall in Hpos. apply Hpos. by eapply list_elem_of_lookup_2. }
  unfold blockLen in Hbpos. destruct (SeqBlock_f b) as [f|] eqn:Hf; [|lia].
  replace (0 <? GetLength f) with true by lia. cbn [assertR res_bind].
  replace ((lo <=? guess)%nat && (guess <? hi)%nat && (lo <? hi)%nat) with true.
  2:{ symmetry. rewrite !andb_true_iff, Nat.leb_le, !Nat.ltb_lt. lia. }
  cbn [assertR res_bind].
  assert (Hbl : blockLen b = GetLength f) by (unfold blockLen; by rewrite Hf).
  destruct (Z.ltb_spec pos (SeqBlock_start b)) as [Hlt|Hge].
  - (* the target lies before the guess *)
    assert (Htg : (target < guess)%nat).
    { destruct (Nat.lt_trichotomy target guess) as [H|[H|H]]; [done| |].
      - subst. rewrite Hb in Hbt. injection Hbt as <-. lia.
      - pose proof (chained_ordered _ _ _ _ _ _ Hc H Hb Hbt). 
        pose proof (blockLen_nonneg b). lia. }
    replace (lo =? guess)%nat with false by (symmetry; apply Nat.eqb_neq; lia).
    cbn [negb assertR res_bind]. apply IH; lia.
  - destruct (Z.ltb_spec pos (SeqBlock_start b + GetLength f)) as [Hlt2|Hge2].
    + f_equal. eapply holds_unique; [done| |by exists bt].
      exists b. rewrite Hbl. done.
    + assert (Htg : (guess < target)%nat).
      { destruct (Nat.lt_trichotomy target guess) as [H|[H|H]]; [|subst|done].
        - pose proof (chained_ordered _ _ _ _ _ _ Hc H Hbt Hb). lia.
        - rewrite Hb in Hbt. injection Hbt as <-. lia. }
      replace (guess <? hi - 1)%nat with true by (symmetry; apply Nat.ltb_lt; lia).
      cbn [assertR res_bind]. apply IH; lia.
Qed.

Lemma FindBlock_holds (s : Sequence) (pos : Z) (target : nat) :
  chained 0 (mBlock s) -> mNumSamples s = sumLen (mBlock s) ->
  Forall (fun b => 0 < blockLen b) (mBlock s) ->
  0 <= pos < mNumSamples s ->
  holds (mBlock s) pos target ->
  FindBlock guess_offset s pos = Ret target.
Proof.
  intros Hc Hn Hpos Hr Ht. unfold FindBlock.
  replace ((0 <=? pos) && (pos <? mNumSamples s)) with true.
  2:{ symmetry. rewrite andb_true_iff, Z.leb_le, Z.ltb_lt. lia. }
  cbn [assertR res_bind]. destruct (Z.eqb_spec pos 0) as [->|Hne].
  - f_equal. eapply holds_unique; [done| |done].
    destruct (mBlock s) as [|x bl] eqn:E; [cbn in Hn; lia|].
    exists x. split; [done|]. destruct Hc as [-> _].
    apply Forall_cons in Hpos as [Hx _]. lia.
  - destruct Ht as (bt & Hbt & Hrt).
    rewrite (FindBlock_loop_spec 0 (mBlock s) pos target Hc Hpos).
    + cbn [res_bind]. rewrite Hbt.
      replace ((target <? length (mBlock s))%nat
               && ((SeqBlock_start bt <=? pos)
                   && (pos <? SeqBlock_start bt + blockLen bt))) with true.
      { done. }
      symmetry. rewrite !andb_true_iff, Nat.ltb_lt, Z.leb_le, Z.ltb_lt.
      apply lookup_lt_Some in Hbt. lia.
    + by exists bt.
    + apply lookup_lt_Some in Hbt. lia.
    + lia.
    + lia.
Qed.

Lemma Invariants_positive (s : Sequence) :
  Invariants s -> Forall (fun b => 0 < blockLen b) (mBlock s).
Proof.
  intros H. apply Invariants_chain in H as (_ & _ & H).
  eapply Forall_impl; [exact H|]. unfold goodBlock. intros b. cbn. lia.
Qed.

(** C2: on a sequence that satisfies the invariants, for every position
    [0 <= pos < numSamples], [FindBlock] returns the one index [i] with
    [blocks[i].start <= pos < blocks[i].start + length]; [FindBlock(0)]
    is 0 and [FindBlock(numSamples - 1)] is the index of the last
    block. *)
Theorem FindBlock_correct (s : Sequence) (pos : Z) :
  Invariants s -> 0 <= pos < mNumSamples s ->
  (exists i, FindBlock guess_offset s pos = Ret i /\
     holds (mBlock s) pos i /\
     forall j, holds (mBlock s) pos j -> j = i) /\
  FindBlock guess_offset s 0 = Ret 0%nat /\
  FindBlock guess_offset s (mNumSamples s - 1)
  = Ret (length (mBlock s) - 1)%nat.
Proof.
  intros HI Hr. pose proof (Invariants_positive s HI) as Hpos.
  apply Invariants_chain in HI as (Hc & Hn & Hgood).
  split; [|split].
  - destruct (holds_exists 0 (mBlock s) pos Hc ltac:(lia)) as [i Hi].
    exists i. split; [by apply FindBlock_holds|]. split; [done|].
    intros j Hj. by eapply holds_unique.
  - reflexivity || (unfold FindBlock;
      replace ((0 <=? 0) && (0 <? mNumSamples s)) with true; [done|];
      symmetry; rewrite andb_true_iff, Z.leb_le, Z.ltb_lt; lia).
  - apply FindBlock_holds; try done; [lia|].
    destruct (mBlock s) as [|x bl] eqn:E using rev_ind; [cbn in Hn; lia|].
    clear IHbl. rewrite length_app. cbn [length].
    replace (length bl + 1 - 1)%nat with (length bl) by lia.
    exists x. split; [by rewrite lookup_app_r, Nat.sub_diag by lia|].
    rewrite (chained_start 0 (bl ++ [x]) (length bl) x Hc)
      by (by rewrite lookup_app_r, Nat.sub_diag by lia).
    rewrite take_app_length. rewrite Hn, sumLen_app. cbn.
    apply Forall_app in Hpos as [_ Hx]. apply Forall_cons in Hx as [Hx _].
    lia.
Qed.

(** ** Buffers and block contents *)

Lemma length_blockSamples (format : sampleFormat) (b : SeqBlock) :
  Z.of_nat (length (blockSamples convert format b)) = blockLen b.
Proof.
  unfold blockSamples, blockLen. destruct (SeqBlock_f b) as [[fmt data|len]|];
    cbn; [|rewrite length_replicate|]; [|lia|done].
  unfold CopySamples. by rewrite length_map.
Qed.

Lemma length_samplesOf (format : sampleFormat) (bl : BlockArray) :
  Z.of_nat (length (samplesOf convert format bl)) = sumLen bl.
Proof.
  unfold samplesOf. induction bl as [|x bl IH]; [done|]. cbn [map concat].
  rewrite length_app, sumLen_cons, Nat2Z.inj_add, IH, length_blockSamples.
  done.
Qed.

Lemma length_slice (l : list Sample) (start len : Z) :
  0 <= start -> 0 <= len -> start + len <= Z.of_nat (length l) ->
  Z.of_nat (length (slice l start len)) = len.
Proof.
  intros H1 H2 H3. unfold slice. rewrite length_take, length_drop. lia.
Qed.

Lemma length_overlay (buffer : list Sample) (off : Z) (data : list Sample) :
  0 <= off -> off + Z.of_nat (length data) <= Z.of_nat (length buffer) ->
  length (overlay buffer off data) = length buffer.
Proof.
  intros H1 H2. unfold overlay.
  rewrite !length_app, length_take, length_drop. lia.
Qed.

Lemma take_overlay_end (buffer : list Sample) (off : Z) (data : list Sample)
    (n : nat) :
  0 <= off -> off + Z.of_nat (length data) <= Z.of_nat (length buffer) ->
  n = (Z.to_nat off + length data)%nat ->
  take n (overlay buffer off data) = take (Z.to_nat off) buffer ++ data.
Proof.
  intros H1 H2 ->. unfold overlay. rewrite app_assoc.
  rewrite take_app_length'; [done|]. rewrite length_app, length_take. lia.
Qed.

Lemma slice_0_all (l : list Sample) (len : Z) :
  len = Z.of_nat (length l) -> slice l 0 len = l.
Proof.
  intros ->. unfold slice. change (Z.to_nat 0) with 0%nat. cbn [drop]. rewrite Nat2Z.id.
  apply firstn_all.
Qed.

Lemma length_SampleBuffer (size : Z) :
  Z.of_nat (length (SampleBuffer size)) = Z.max 0 size.
Proof. unfold SampleBuffer. rewrite length_replicate. lia. Qed.

(** ** The block store and [Read] *)

Lemma NewSimpleBlockFile_spec (buffer : list Sample) (len : Z)
    (format : sampleFormat) (n : nat) :
  wp (NewSimpleBlockFile io_fails buffer len format) n
    (okL io_fails True
       (fun p => p = Some (SimpleBlockFile format
                             (resize (Z.to_nat len) 0 buffer)))).
Proof.
  unfold NewSimpleBlockFile. eapply okL_bind; [apply store_call_spec|done|].
  intros _ n' _. by apply wp_ret.
Qed.

Lemma CopyBlockFile_spec (b : BlockFilePtr) (n : nat) :
  wp (CopyBlockFile io_fails b) n (okL io_fails True (fun p => p = b)).
Proof.
  unfold CopyBlockFile. eapply okL_bind; [apply store_call_spec|done|].
  intros _ n' _. by apply wp_ret.
Qed.

Lemma ReadData_spec (f : BlockFile) (format : sampleFormat) (start len : Z)
    (n : nat) :
  wp (ReadData convert io_fails f format start len) n
    (okL io_fails True
       (fun d => d = slice (block_data convert f format) start len)).
Proof.
  unfold ReadData. eapply okL_bind; [apply store_call_spec|done|].
  intros _ n' _. by apply wp_ret.
Qed.

Lemma Read_spec (buffer : list Sample) (off : Z) (format : sampleFormat)
    (b : SeqBlock) (start len : Z) (n : nat) :
  0 <= start -> 0 <= len ->
  wp (Read convert io_fails buffer off format b start len) n
    (okL io_fails
       (is_Some (SeqBlock_f b) /\ start + len <= blockLen b /\
        0 <= off /\ off + len <= Z.of_nat (length buffer))
       (fun buffer' =>
          is_Some (SeqBlock_f b) /\ start + len <= blockLen b /\
          0 <= off /\ off + len <= Z.of_nat (length buffer) /\
          buffer' = overlay buffer off
                      (slice (blockSamples convert format b) start len))).
Proof.
  intros Hs Hl. unfold Read. apply wp_deref_bind.
  { intros Hf. cbn. intros ([f Hf'] & _). congruence. }
  intros f Hf.
  assert (Hbl : blockLen b = GetLength f) by (unfold blockLen; by rewrite Hf).
  assert (Hbs : blockSamples convert format b = block_data convert f format)
    by (unfold blockSamples; by rewrite Hf).
  apply wp_wxASSERT_bind.
  { intros Hc. cbn. intros (_ & H & _). lia. }
  intros Hc. apply Z.leb_le in Hc.
  eapply okL_bind; [apply ReadData_spec|done|].
  intros d n' ->. rewrite <- Hbs.
  assert (Hlen : Z.of_nat (length (slice (blockSamples convert format b)
                                     start len)) = len).
  { apply length_slice; [done..|]. rewrite length_blockSamples. lia. }
  apply wp_tail, wp_buf_store_bind.
  { intros Hn. cbn. intros (_ & _ & H1 & H2). apply Hn. lia. }
  intros H1 H2. apply wp_ret. cbn. rewrite Hlen in H2.
  repeat split; try done. lia.
Qed.

(** [Get] from the start of a block: the samples of the blocks, in
    order. *)
Lemma overlay_nil (buffer : list Sample) (off : Z) :
  overlay buffer off [] = buffer.
Proof. unfold overlay. cbn. rewrite Nat.add_0_r. apply take_drop. Qed.

Lemma Get_loop_spec (rest : BlockArray) (buffer : list Sample) (off : Z)
    (format : sampleFormat) (p start len : Z) (n : nat) :
  chained p rest -> Forall (fun b => is_Some (SeqBlock_f b)) rest ->
  0 <= off -> 0 <= len -> len = 0 \/ start = p ->
  wp (Get_loop convert io_fails rest buffer off format start len) n
    (okL io_fails
       (len <= sumLen rest /\ off + len <= Z.of_nat (length buffer))
       (fun buffer' =>
          (len <> 0 ->
           len <= sumLen rest /\ off + len <= Z.of_nat (length buffer)) /\
          buffer' = overlay buffer off
                      (take (Z.to_nat len)
                         (concat (map (blockSamples convert format) rest))))).
Proof.
  revert buffer off p start len n.
  induction rest as [|block rest IH];
    intros buffer off p start len n Hc HF Hoff Hlen Hst.
  - cbn [Get_loop]. destruct (Z.eqb_spec len 0) as [->|Hne].
    + apply wp_ret. cbn. by rewrite overlay_nil.
    + cbn. lia.
  - cbn [Get_loop]. destruct Hc as [Hstart Hc].
    apply Forall_cons in HF as [[f Hf] HF].
    destruct (Z.eqb_spec len 0) as [->|Hne].
    { apply wp_ret. cbn. by rewrite overlay_nil. }
    destruct Hst as [Hst|Hst]; [done|]. subst start.
    rewrite Hstart, Z.sub_diag. apply wp_as_size_t_bind; [lia|]. intros _.
    rewrite Hf. cbn [deref]. apply wp_bind. cbn [ret wp fst snd].
    assert (Hbl : blockLen block = GetLength f)
      by (unfold blockLen; by rewrite Hf).
    pose proof (GetLength_nonneg f) as Hfl. rewrite Z.sub_0_r.
    set (blen := Z.min len (GetLength f)).
    assert (Hblen : blen = Z.min len (GetLength f)) by done. clearbody blen.
    eapply okL_bind; [apply Read_spec; lia| |].
    { intros (H1 & H2). rewrite sumLen_cons in H1.
      split; [by eexists|]. lia. }
    intros buffer1 n1 (_ & _ & _ & Hfit & ->).
    set (data := slice (blockSamples convert format block) 0 blen).
    assert (Hdl : Z.of_nat (length data) = blen).
    { apply length_slice; [lia..|]. rewrite length_blockSamples. lia. }
    eapply okL_conseq.
    { apply (IH (overlay buffer off data) (off + blen) (p + blockLen block)
               (p + blen) (len - blen)); [done|done|lia|lia|lia]. }
    + intros (H1 & H2). rewrite sumLen_cons in H1.
      pose proof (sumLen_nonneg rest). rewrite length_overlay by lia. lia.
    + intros buffer2 (Hl2 & ->).
      rewrite (length_overlay buffer off data) in Hl2 by lia.
      rewrite sumLen_cons. pose proof (sumLen_nonneg rest).
      split; [intros _; destruct (decide (len - blen = 0)); lia|].
      cbn [map concat]. pose proof (length_blockSamples format block) as Hbsl.
      destruct (Z.le_gt_cases len (GetLength f)) as [Hle|Hgt].
      * (* all the samples come from this block *)
        assert (blen = len) by lia.
        replace (len - blen) with 0 by lia. change (Z.to_nat 0) with 0%nat.
        cbn [take]. rewrite overlay_nil.
        rewrite take_app_le by lia. unfold data, slice.
        change (Z.to_nat 0) with 0%nat. cbn [drop].
        by replace blen with len.
      * assert (blen = GetLength f) by lia.
        rewrite take_app_ge by lia.
        replace (Z.to_nat len - length (blockSamples convert format block))%nat
          with (Z.to_nat (len - blen)) by lia.
        assert (Hd : data = blockSamples convert format block).
        { unfold data. apply slice_0_all. lia. }
        rewrite Hd in *. clear data Hd.
        set (B := blockSamples convert format block) in *.
        set (R := take (Z.to_nat (len - blen)) _) in *.
        assert (HRl : (length R <= Z.to_nat (len - blen))%nat)
          by (unfold R; rewrite length_take; lia).
        assert (Hfit2 : (Z.to_nat off + length B + length R <= length buffer)%nat)
          by lia.
        unfold overlay. rewrite length_app.
        replace (Z.to_nat (off + blen)) with (Z.to_nat off + length B)%nat by lia.
        rewrite take_app_ge by (rewrite length_take; lia).
        rewrite length_take.
        replace (Z.to_nat off `min` length buffer)%nat with (Z.to_nat off) by lia.
        rewrite <- !app_assoc. f_equal.
        replace (Z.to_nat off + length B - Z.to_nat off)%nat with (length B) by lia.
        rewrite take_app_length. f_equal. f_equal.
        rewrite !drop_app_ge by (rewrite ?length_app, length_take; lia).
        rewrite length_take, drop_drop. f_equal. lia.
Qed.

(** ** The consistency check *)

Lemma ConsistencyCheck_loop_spec (bl : BlockArray) (maxSamples pos : Z) :
  match ConsistencyCheck_loop bl maxSamples pos with
  | Some pos' => consistent bl maxSamples pos pos'
  | None => forall n, ~ consistent bl maxSamples pos n
  end.
Proof.
  revert pos. induction bl as [|b bl IH]; intros pos; cbn [ConsistencyCheck_loop].
  - unfold consistent. cbn. split; [done|]. split; [lia|done].
  - destruct (Z.eqb_spec pos (SeqBlock_start b)) as [Hs|Hs]; cbn [negb].
    2:{ intros n ([H _] & _). congruence. }
    destruct (SeqBlock_f b) as [f|] eqn:Hf.
    2:{ intros n (_ & _ & H). apply Forall_cons in H as [[[f Hf'] _] _].
        congruence. }
    assert (Hbl : blockLen b = GetLength f) by (unfold blockLen; by rewrite Hf).
    destruct (Z.ltb_spec maxSamples (GetLength f)) as [Hm|Hm].
    { intros n (_ & _ & H). apply Forall_cons in H as [[_ H] _]. lia. }
    specialize (IH (pos + GetLength f)).
    destruct (ConsistencyCheck_loop bl maxSamples (pos + GetLength f)) as [pos'|].
    + destruct IH as (Hc & Hn & HF). unfold consistent. cbn [chained].
      rewrite sumLen_cons, Hbl. repeat split; try done; [lia|].
      apply Forall_cons. split; [|done]. split; [by eexists|lia].
    + intros n (Hc & Hn & HF). apply (IH n). destruct Hc as [_ Hc].
      apply Forall_cons in HF as [_ HF]. rewrite sumLen_cons in Hn.
      rewrite Hbl in Hc, Hn. unfold consistent. repeat split; try done. lia.
Qed.

Lemma consistent_unique (bl : BlockArray) (maxSamples pos n n' : Z) :
  consistent bl maxSamples pos n -> consistent bl maxSamples pos n' -> n = n'.
Proof. intros (_ & -> & _) (_ & -> & _). done. Qed.

(** The check of a whole array passes exactly on the consistent ones. *)
Lemma ConsistencyCheck_0 (bl : BlockArray) (maxSamples numSamples : Z) :
  ConsistencyCheck_bError bl maxSamples 0 numSamples = false
  <-> consistent bl maxSamples 0 numSamples.
Proof.
  unfold ConsistencyCheck_bError. rewrite drop_0. cbn [Nat.eqb andb].
  set (pos := match bl !! 0%nat with
              | Some b => SeqBlock_start b
              | None => numSamples
              end).
  pose proof (ConsistencyCheck_loop_spec bl maxSamples pos) as Hl.
  destruct (Z.eqb_spec pos 0) as [Hp|Hp]; cbn [negb].
  - rewrite Hp in *.
    destruct (ConsistencyCheck_loop bl maxSamples 0) as [pos'|].
    + rewrite negb_false_iff, Z.eqb_eq. split.
      * by intros <-.
      * intros H. by eapply consistent_unique.
    + split; [done|]. intros H. by apply Hl in H.
  - split; [done|]. intros (Hc & Hn & _). exfalso. apply Hp. unfold pos.
    destruct bl as [|b bl]; cbn in *; [lia|]. by destruct Hc.
Qed.

(** The check of the blocks from index [from > 0] on. *)
Lemma ConsistencyCheck_from (bl : BlockArray) (maxSamples : Z) (from : nat)
    (numSamples : Z) (b : SeqBlock) :
  from <> 0%nat -> bl !! from = Some b ->
  ConsistencyCheck_bError bl maxSamples from numSamples = false
  <-> consistent (drop from bl) maxSamples (SeqBlock_start b) numSamples.
Proof.
  intros Hfrom Hb. unfold ConsistencyCheck_bError. rewrite Hb.
  replace (from =? 0)%nat with false by (symmetry; by apply Nat.eqb_neq).
  cbn [andb].
  pose proof (ConsistencyCheck_loop_spec (drop from bl) maxSamples
                (SeqBlock_start b)) as Hl.
  destruct (ConsistencyCheck_loop _ _ _) as [pos'|].
  - rewrite negb_false_iff, Z.eqb_eq. split.
    + by intros <-.
    + intros H. by eapply consistent_unique.
  - split; [done|]. intros H. by apply Hl in H.
Qed.

Lemma Invariants_consistent (s : Sequence) :
  Invariants s <->
  consistent (mBlock s) (mMaxSamples s) 0 (mNumSamples s) /\
  Forall (fun b => 0 < blockLen b) (mBlock s).
Proof.
  rewrite Invariants_chain. unfold consistent, goodBlock.
  rewrite Z.add_0_l, !Forall_forall. split.
  - intros (Hc & Hn & HF). repeat split; try done.
    + specialize (HF x H). unfold blockLen in HF.
      destruct (SeqBlock_f x); [by eexists|lia].
    + by apply HF.
    + intros b Hb. by apply HF.
  - intros ((Hc & Hn & HF) & Hp). repeat split; try done.
    + by apply Hp.
    + by apply HF.
Qed.

(** The commit at the end of a method that rebuilt the array. *)
Lemma okM_commit (newBlock : BlockArray) (numSamples : Z) (w : World)
    (t0 : Sequence) (valid : Prop) (post : unit -> Sequence -> Prop) :
  this w = t0 ->
  (valid -> consistent newBlock (mMaxSamples t0) 0 numSamples) ->
  (consistent newBlock (mMaxSamples t0) 0 numSamples ->
   post tt (set_mNumSamples numSamples (set_mBlock newBlock t0))) ->
  wp (CommitChangesIfConsistent newBlock numSamples) w
    (okM io_fails t0 valid post).
Proof.
  intros Ht Hv Hp. unfold CommitChangesIfConsistent.
  apply wp_getThis_bind. rewrite Ht. apply wp_liftR_bind.
  unfold ConsistencyCheck.
  destruct (ConsistencyCheck_bError newBlock (mMaxSamples t0) 0 numSamples)
    eqn:E.
  - cbn. split; [done|]. intros H. apply Hv, ConsistencyCheck_0 in H.
    congruence.
  - apply ConsistencyCheck_0 in E. unfold wp, modifyThis. cbn. rewrite Ht.
    by apply Hp.
Qed.

(** ** Blocks of the same shape *)

Lemma shape_chained (bl bl' : BlockArray) (pos : Z) :
  map shape bl = map shape bl' -> chained pos bl -> chained pos bl'.
Proof.
  revert bl' pos. induction bl as [|b bl IH]; intros [|b' bl'] pos H Hc;
    try done.
  cbn in H. injection H as H1 H2 H. destruct Hc as [Hs Hc]. cbn [chained].
  split; [congruence|]. rewrite <- H2. by apply IH.
Qed.

Lemma shape_sumLen (bl bl' : BlockArray) :
  map shape bl = map shape bl' -> sumLen bl = sumLen bl'.
Proof.
  revert bl'. induction bl as [|b bl IH]; intros [|b' bl'] H; try done.
  cbn in H. injection H as H1 H2 H. rewrite !sumLen_cons, H2. f_equal.
  by apply IH.
Qed.

Lemma shape_good (bl bl' : BlockArray) (maxSamples : Z) :
  map shape bl = map shape bl' ->
  Forall (goodBlock maxSamples) bl -> Forall (goodBlock maxSamples) bl'.
Proof.
  revert bl'. induction bl as [|b bl IH]; intros [|b' bl'] H HF; try done.
  cbn in H. injection H as H1 H2 H. apply Forall_cons in HF as [Hb HF].
  apply Forall_cons. split; [|by apply IH]. unfold goodBlock in *. by rewrite <- H2.
Qed.

(** ** SetSamples keeps the shape of the blocks *)

Lemma blockLen_resized (format : sampleFormat) (len start : Z)
    (buffer : list Sample) :
  0 <= len ->
  blockLen (mkSeqBlock
              (Some (SimpleBlockFile format (resize (Z.to_nat len) 0 buffer)))
              start) = len.
Proof. intros H. unfold blockLen. cbn. rewrite length_resize. lia. Qed.

Lemma blockLen_silent (len start : Z) :
  0 <= len -> blockLen (mkSeqBlock (newSilentBlockFile len) start) = len.
Proof. intros H. unfold blockLen. cbn. lia. Qed.

Lemma okL_undefined {A} (n : nat) (post : A -> Prop) :
  wp (@undefined nat A) n (okL io_fails False post).
Proof. cbn. tauto. Qed.

Lemma okL_throw {A} (e : exn) (n : nat) (post : A -> Prop) :
  wp (@throw nat A e) n (okL io_fails False post).
Proof. cbn. tauto. Qed.

Lemma SetSamples_loop_spec (rest : BlockArray) (t : Sequence)
    (buffer : option (list Sample)) (format : sampleFormat)
    (temp scratch : list Sample) (newBlock : BlockArray) (start len : Z)
    (n : nat) :
  wp (SetSamples_loop convert io_fails rest t buffer format temp scratch
        newBlock start len) n
    (okL io_fails False
       (fun out => exists mid,
          out = newBlock ++ mid /\ map shape mid = map shape rest)).
Proof.
  revert buffer temp scratch newBlock start len n.
  induction rest as [|block rest IH];
    intros buffer temp scratch newBlock start len n; cbn [SetSamples_loop].
  - destruct (len =? 0); [|apply okL_undefined].
    apply wp_ret. cbn. by exists [].
  - destruct (len =? 0).
    { apply wp_ret. cbn. by eexists. }
    apply wp_as_size_t_bind_any. intros bstart.
    apply wp_deref_bind; [cbn; tauto|]. intros f Hf.
    assert (Hbl : blockLen block = GetLength f)
      by (unfold blockLen; by rewrite Hf).
    pose proof (GetLength_nonneg f) as Hfl.
    eapply okL_bind with (post := fun _ => True); [|done|].
    { destruct buffer as [buf|]; [|by apply wp_ret].
      destruct (negb (format =? mSampleFormat t)); [|by apply wp_ret].
      apply wp_buf_store_bind; [cbn; tauto|]. intros _ _. by apply wp_ret. }
    intros ub n1 _.
    destruct (negb _); [apply okL_throw|].
    eapply okL_bind
      with (post := fun nf =>
              blockLen (mkSeqBlock (fst nf) (SeqBlock_start block))
              = GetLength f); [|done|].
    { destruct (_ || _).
      - eapply okL_bind; [apply Read_spec; lia|done|]. intros scr n2 _.
        eapply okL_bind with (post := fun _ => True); [|done|].
        { destruct (fst ub).
          - apply wp_tail, wp_buf_store_bind; [cbn; tauto|]. intros _ _.
            by apply wp_ret.
          - unfold ClearSamples. apply wp_tail, wp_buf_store_bind; [cbn; tauto|].
            intros _ _. by apply wp_ret. }
        intros scr2 n3 _.
        eapply okL_bind; [apply NewSimpleBlockFile_spec|done|].
        intros file n4 ->. apply wp_ret. cbn [okL fst].
        by apply blockLen_resized.
      - destruct (fst ub).
        + eapply okL_bind; [apply NewSimpleBlockFile_spec|done|].
          intros file n4 ->. apply wp_ret. cbn [okL fst].
          by apply blockLen_resized.
        + apply wp_ret. cbn [okL fst]. by apply blockLen_silent. }
    intros nf n2 Hnf. eapply okL_conseq; [apply IH|done|].
    intros out (mid & -> & Hmid). eexists. rewrite <- app_assoc.
    split; [reflexivity|]. cbn [map app]. f_equal; [|done].
    unfold shape. cbn [SeqBlock_start]. by rewrite Hnf, Hbl.
Qed.

Lemma Invariants_same_shape (t : Sequence) (bl : BlockArray) :
  map shape bl = map shape (mBlock t) ->
  Invariants t -> Invariants (set_mNumSamples (mNumSamples t) (set_mBlock bl t)).
Proof.
  intros Hs HI. apply Invariants_chain in HI as (Hc & Hn & HG).
  apply Invariants_chain. cbn. symmetry in Hs.
  split; [by eapply shape_chained|]. split.
  - rewrite Hn. by apply shape_sumLen.
  - by eapply shape_good.
Qed.

(** [SetSamples] keeps the invariants, and leaves the sequence as it was
    when it throws. *)
Lemma SetSamples_spec (buffer : option (list Sample)) (format : sampleFormat)
    (start len : Z) (w : World) :
  Invariants (this w) ->
  wp (SetSamples convert io_fails guess_offset buffer format start len) w
    (okM io_fails (this w) False (fun _ t' => Invariants t')).
Proof.
  intros HI. unfold SetSamples. apply wp_getThis_bind.
  destruct (_ || _); [cbn; tauto|].
  apply wp_liftR_bind. destruct (FindBlock guess_offset (this w) start) as [b| |];
    [|cbn; tauto..].
  eapply okM_liftL; [done|apply SetSamples_loop_spec|done|].
  intros newBlock n' (mid & -> & Hmid).
  apply okM_commit; [done|done|]. intros _.
  apply Invariants_same_shape; [|done].
  rewrite map_app, Hmid, <- map_app, take_drop. done.
Qed.

(** ** Append *)

Lemma Append_loop_stuck (fuel : nat) (t : Sequence) (buffer : list Sample)
    (format : sampleFormat) (buffer2 : list Sample) (newBlock : BlockArray)
    (newNumSamples len : Z) (n : nat) :
  mMaxSamples t <= 0 -> 0 < len ->
  wp (Append_loop convert io_fails fuel t buffer format buffer2 newBlock
        newNumSamples len) n
    (okL io_fails False (fun _ => False)).
Proof.
  intros Hmax. revert buffer buffer2 newBlock newNumSamples len n.
  induction fuel as [|fuel IH];
    intros buffer buffer2 newBlock newNumSamples len n Hlen;
    cbn [Append_loop]; (destruct (Z.eqb_spec len 0); [lia|]).
  - apply okL_undefined.
  - eapply okL_bind with (post := fun _ => True); [|done|].
    { destruct (format =? mSampleFormat t).
      - eapply okL_bind; [apply NewSimpleBlockFile_spec|done|].
        intros file n1 _. by apply wp_ret.
      - apply wp_buf_store_bind; [cbn; tauto|]. intros _ _.
        eapply okL_bind; [apply NewSimpleBlockFile_spec|done|].
        intros file n1 _. by apply wp_ret. }
    intros pf n1 _. apply IH. unfold GetIdealBlockSize. lia.
Qed.

Lemma Append_loop_spec (fuel : nat) (t : Sequence) (buffer : list Sample)
    (format : sampleFormat) (buffer2 : list Sample) (newBlock : BlockArray)
    (newNumSamples len : Z) (n : nat) :
  0 <= len ->
  wp (Append_loop convert io_fails fuel t buffer format buffer2 newBlock
        newNumSamples len) n
    (okL io_fails False
       (fun r => exists added,
          fst r = newBlock ++ added /\ chained newNumSamples added /\
          snd r = newNumSamples + sumLen added /\
          Forall (goodBlock (mMaxSamples t)) added)).
Proof.
  destruct (Z.le_gt_cases (mMaxSamples t) 0) as [Hmax|Hmax].
  { intros Hlen. destruct (Z.eq_dec len 0) as [->|Hz].
    - destruct fuel; apply wp_ret; cbn; exists []; rewrite app_nil_r; cbn;
        repeat split; try done; lia.
    - eapply okL_conseq; [apply Append_loop_stuck; lia|done|done]. }
  revert buffer buffer2 newBlock newNumSamples len n.
  induction fuel as [|fuel IH];
    intros buffer buffer2 newBlock newNumSamples len n Hlen;
    cbn [Append_loop]; (destruct (Z.eqb_spec len 0) as [Hz|Hz];
      [apply wp_ret; cbn; exists []; rewrite app_nil_r; cbn;
       repeat split; try done; lia|]).
  - apply okL_undefined.
  -     unfold GetIdealBlockSize.
    set (addedLen := Z.min (mMaxSamples t) len).
    assert (Ha : addedLen = Z.min (mMaxSamples t) len) by done.
    clearbody addedLen.
    eapply okL_bind
      with (post := fun pf =>
              blockLen (mkSeqBlock (fst pf) newNumSamples) = addedLen);
      [|done|].
    { destruct (format =? mSampleFormat t).
      - eapply okL_bind; [apply NewSimpleBlockFile_spec|done|].
        intros file n1 ->. apply wp_ret. cbn [okL fst].
        apply blockLen_resized. lia.
      - apply wp_buf_store_bind; [cbn; tauto|]. intros _ _.
        eapply okL_bind; [apply NewSimpleBlockFile_spec|done|].
        intros file n1 ->. apply wp_ret. cbn [okL fst].
        apply blockLen_resized. lia. }
    intros pf n1 Hpf. eapply okL_conseq; [apply IH; lia|done|].
    intros r (added & H1 & H2 & H3 & H4).
    exists (mkSeqBlock (fst pf) newNumSamples :: added).
    rewrite H1, <- app_assoc. split; [done|]. cbn [chained SeqBlock_start].
    rewrite sumLen_cons, Hpf. split; [done|]. split; [lia|].
    apply Forall_cons. split; [|done]. unfold goodBlock. rewrite Hpf. lia.
Qed.

(** [AppendBlocksIfConsistent]: the new blocks replace or follow the last
    one, or the sequence is left as it was. *)
Lemma AppendBlocksIfConsistent_spec (additional : BlockArray)
    (replaceLast : bool) (numSamples : Z) (w : World) :
  let t := this w in
  let init := if replaceLast then take (length (mBlock t) - 1) (mBlock t)
              else mBlock t in
  wp (AppendBlocksIfConsistent additional replaceLast numSamples) w
    (fun r w' =>
       match r with
       | Ret _ => this w' = t \/
                  this w' = set_mNumSamples numSamples
                              (set_mBlock (init ++ additional) t)
       | Throw _ => this w' = t
       | Undefined => True
       end).
Proof.
  cbv zeta. unfold AppendBlocksIfConsistent.
  destruct additional as [|a additional]; [by left|].
  apply wp_getThis_bind.
  set (tmp := if replaceLast then last (mBlock (this w)) else None).
  set (init := if replaceLast then take (length (mBlock (this w)) - 1)
                                    (mBlock (this w))
               else mBlock (this w)).
  assert (Hrestore : match tmp with
                     | Some b => init ++ [b]
                     | None => init
                     end = mBlock (this w)).
  { unfold tmp, init. destruct replaceLast; [|done].
    destruct (mBlock (this w)) as [|x l] eqn:E using rev_ind; [done|].
    rewrite last_snoc, length_app. cbn [length].
    replace (length l + 1 - 1)%nat with (length l) by lia.
    by rewrite take_app_length. }
  assert (Hinit : match tmp with
                  | Some _ => take (length (mBlock (this w)) - 1)
                                (mBlock (this w))
                  | None => mBlock (this w)
                  end = init).
  { unfold tmp, init. destruct replaceLast; [|done].
    destruct (mBlock (this w)) as [|x l] eqn:E using rev_ind; [done|].
    by rewrite last_snoc. }
  unfold wp, bind, finally, modifyThis, getThis, liftR, ret.
  destruct tmp as [b|]; cbn [this calls fst snd mBlock set_mBlock];
    rewrite Hinit;
    (destruct (ConsistencyCheck _ _ _ _ _); cbn [fst snd completed this calls];
     [right; by destruct (this w)| |done]);
    cbn [mBlock set_mBlock]; rewrite take_app_length, Hrestore;
    by destruct (this w).
Qed.

(** [Append] keeps the invariants, and leaves the sequence as it was when
    it throws. *)
Lemma Append_spec (buffer : list Sample) (format : sampleFormat) (len : Z)
    (w : World) :
  Invariants (this w) -> 0 <= len ->
  wp (Append convert io_fails buffer format len) w
    (okM io_fails (this w) False (fun _ t' => Invariants t')).
Proof.
  intros HI Hlen. unfold Append.
  destruct (Z.eqb_spec len 0) as [|Hne]; [by apply wp_ret|].
  apply wp_getThis_bind. destruct (Overflows _); [cbn; tauto|].
  pose proof HI as HI'. apply Invariants_chain in HI' as (Hc & Hn & HG).
  assert (Hcommit : forall (additional : BlockArray) (replaceLast : bool)
                      (num' : Z) (w' : World),
    this w' = this w ->
    Invariants (set_mNumSamples num'
                  (set_mBlock
                     ((if replaceLast
                       then take (length (mBlock (this w)) - 1)
                              (mBlock (this w))
                       else mBlock (this w)) ++ additional) (this w))) ->
    wp (AppendBlocksIfConsistent additional replaceLast num') w'
      (okM io_fails (this w) False (fun _ t' => Invariants t'))).
  { intros additional replaceLast num' w' Hw' Hinv.
    eapply wp_conseq; [apply AppendBlocksIfConsistent_spec|].
    cbv zeta. rewrite Hw'. intros [[]|e|] w2; cbn; [|tauto..].
    intros [->| ->]; done. }
  eapply (wp_bind _ _ _ _).
  match goal with
  | |- wp ?m w _ =>
      assert (Hen : exists c, m w = (Ret c, w) \/ m w = (Undefined, w))
  end.
  { destruct (0 <? length (mBlock (this w)))%nat; [|by eexists; left].
    unfold bind, at_index, deref, ret.
    destruct (mBlock (this w) !! _) as [b|]; [|by exists true; right].
    destruct (SeqBlock_f b); [by eexists; left|by exists true; right]. }
  destruct Hen as [c [Hen|Hen]]; unfold wp at 1; rewrite Hen; cbn [fst snd];
    [|cbn; tauto].
  destruct c.
  - (* the last block is enlarged *)
    apply wp_at_index_bind; [cbn; tauto|]. intros lastBlock Hlast.
    apply wp_deref_bind; [cbn; tauto|]. intros lf Hlf.
    assert (Hbl : blockLen lastBlock = GetLength lf)
      by (unfold blockLen; by rewrite Hlf).
    pose proof (GetLength_nonneg lf) as Hlfl.
    eapply okM_liftL; [done|apply Read_spec; lia|done|].
    intros buffer2 n1 _.
    apply wp_buf_store_bind; [cbn; tauto|]. intros _ _.
    eapply okM_liftL; [done|apply NewSimpleBlockFile_spec|done|].
    intros file n2 ->.
    eapply okM_liftL; [done|apply Append_loop_spec|done|].
    { lia. }
    intros r n3 (added & H1 & H2 & H3 & H4). apply Hcommit; [done|].
    rewrite H1, H3.
    set (addLen := Z.min (mMaxSamples (this w) - GetLength lf) len) in *.
    assert (Hbl' : mBlock (this w)
                   = take (length (mBlock (this w)) - 1) (mBlock (this w))
                     ++ [lastBlock]).
    { rewrite <- (take_drop (length (mBlock (this w)) - 1) (mBlock (this w)))
        at 1.
      f_equal. apply lookup_lt_Some in Hlast as Hlt.
      rewrite (drop_S _ _ _ Hlast).
      rewrite drop_ge by lia. done. }
    set (init := take (length (mBlock (this w)) - 1) (mBlock (this w))) in *.
    rewrite Hbl' in Hc, Hn, HG. apply chained_app in Hc as [Hc1 Hc2].
    destruct Hc2 as [Hs _]. rewrite sumLen_app in Hn. cbn in Hn.
    apply Forall_app in HG as [HG1 HG2]. apply Forall_cons in HG2 as [HGl _].
    unfold goodBlock in HGl. rewrite Hbl in HGl, Hn.
    assert (Hal : 0 <= addLen) by (unfold addLen; lia).
    apply Invariants_chain. cbn [mBlock mNumSamples mMaxSamples set_mBlock
                                   set_mNumSamples].
    split; [|split].
    + apply chained_app. split; [done|]. cbn [app chained SeqBlock_start].
      split; [done|]. rewrite blockLen_resized by lia.
      replace (0 + sumLen init + (GetLength lf + addLen))
        with (mNumSamples (this w) + addLen) by lia. done.
    + rewrite sumLen_app. cbn [app]. rewrite sumLen_cons.
      rewrite blockLen_resized by lia. lia.
    + apply Forall_app. split; [done|]. cbn [app]. apply Forall_cons.
      split; [|done]. unfold goodBlock. rewrite blockLen_resized by lia.
      unfold addLen. lia.
  - eapply okM_liftL; [done|apply Append_loop_spec|done|]; [done|].
    intros r n3 (added & H1 & H2 & H3 & H4). apply Hcommit; [done|].
    cbn [app] in H1. rewrite H1, H3.
    apply Invariants_chain. cbn [mBlock mNumSamples mMaxSamples set_mBlock
                                   set_mNumSamples].
    split; [|split].
    + apply chained_app. split; [done|]. rewrite Z.add_0_l, <- Hn. done.
    + rewrite sumLen_app. lia.
    + apply Forall_app. done.
Qed.

(** ** The overflow guard on sums that fit *)

Lemma round_double_near (z : Z) :
  0 <= z < 2 ^ 63 ->
  z - 512 <= round_double z <= z + 512 /\
  0 <= round_double z <= 2 ^ 63.
Proof.
  intros Hz. unfold round_double. rewrite Z.abs_eq by lia.
  destruct (Z.ltb_spec (Z.log2 z) 53) as [He|He]; [lia|].
  assert (Hpos : 0 < z).
  { destruct (Z.eq_dec z 0) as [->|]; [cbn in He; lia|lia]. }
  pose proof (Z.log2_spec z Hpos) as [Hlo Hhi].
  assert (He2 : Z.log2 z < 63) by (apply Z.log2_lt_pow2; lia).
  set (e := Z.log2 z) in *. set (ulp := 2 ^ (e - 52)).
  assert (Hulp : 0 < ulp <= 1024).
  { unfold ulp. split; [apply Z.pow_pos_nonneg; lia|].
    change 1024 with (2 ^ 10). apply Z.pow_le_mono_r; lia. }
  assert (Hdiv : 2 ^ 63 = ulp * 2 ^ (63 - (e - 52))).
  { unfold ulp. rewrite <- Z.pow_add_r by lia. f_equal. lia. }
  pose proof (Z.div_mod z ulp ltac:(lia)) as Hdm.
  pose proof (Z.mod_pos_bound z ulp ltac:(lia)) as Hr.
  pose proof (Z.div_pos z ulp ltac:(lia) ltac:(lia)) as Hq0.
  set (q := z / ulp) in *. set (r := z mod ulp) in *.
  rewrite Z.sgn_pos by lia.
  assert (Hq : q + 1 <= 2 ^ (63 - (e - 52))) by nia.
  destruct ((ulp <? 2 * r) || ((ulp =? 2 * r) && Z.odd q)) eqn:Hc.
  - assert (ulp <= 2 * r).
    { apply orb_true_iff in Hc as [Hc|Hc]; [lia|].
      apply andb_true_iff in Hc as [Hc _]. lia. }
    split; [nia|]. rewrite Hdiv. nia.
  - apply orb_false_iff in Hc as [Hc _].
    split; [nia|]. rewrite Hdiv. nia.
Qed.

Lemma round_double_at_bound (z : Z) :
  2 ^ 63 <= z <= 2 ^ 63 + 1023 -> round_double z = 2 ^ 63.
Proof.
  intros Hz. unfold round_double. rewrite Z.abs_eq by lia.
  assert (He : Z.log2 z = 63).
  { apply Z.log2_unique; [lia|]. change (2 ^ (63 + 1)) with (2 ^ 63 * 2). lia. }
  rewrite He. change (63 <? 53) with false. cbv iota.
  change (2 ^ (63 - 52)) with 2048.
  assert (Hq : z / 2048 = 2 ^ 52).
  { symmetry. apply Z.div_unique with (r := z - 2 ^ 63); [lia|].
    change (2 ^ 63) with (2048 * 2 ^ 52). lia. }
  assert (Hr : z mod 2048 = z - 2 ^ 63).
  { symmetry. apply Z.mod_unique with (q := 2 ^ 52); [lia|].
    change (2 ^ 63) with (2048 * 2 ^ 52). lia. }
  rewrite Hq, Hr.
  replace (2048 <? 2 * (z - 2 ^ 63)) with false by lia.
  replace (2048 =? 2 * (z - 2 ^ 63)) with false by lia.
  cbn [orb andb]. rewrite Z.sgn_pos by lia. reflexivity.
Qed.

(** A sum that does not exceed [2^63 - 1] passes the guard. *)
Lemma Overflows_false (a b : Z) :
  0 <= a -> 0 <= b -> a + b <= 2 ^ 63 - 1 ->
  Overflows (double_add (as_double a) (as_double b)) = false.
Proof.
  intros Ha Hb Hab. unfold Overflows, double_add, as_double.
  change (round_double 9223372036854775807) with (2 ^ 63).
  destruct (round_double_near a ltac:(lia)) as [Ha1 Ha2].
  destruct (round_double_near b ltac:(lia)) as [Hb1 Hb2].
  apply Z.ltb_ge.
  destruct (Z.lt_ge_cases (round_double a + round_double b) (2 ^ 63)) as [H|H].
  - destruct (round_double_near (round_double a + round_double b) ltac:(lia))
      as [_ H2]. lia.
  - rewrite round_double_at_bound by lia. lia.
Qed.

(** ** Samples of block arrays *)

Lemma samplesOf_app (format : sampleFormat) (a b : BlockArray) :
  samplesOf convert format (a ++ b)
  = samplesOf convert format a ++ samplesOf convert format b.
Proof. unfold samplesOf. by rewrite map_app, concat_app. Qed.

Lemma samplesOf_cons (format : sampleFormat) (x : SeqBlock) (a : BlockArray) :
  samplesOf convert format (x :: a)
  = blockSamples convert format x ++ samplesOf convert format a.
Proof. reflexivity. Qed.

Lemma samplesOf_Plus (format : sampleFormat) (d : Z) (a : BlockArray) :
  samplesOf convert format (map (fun b => Plus b d) a)
  = samplesOf convert format a.
Proof.
  unfold samplesOf. rewrite map_map. done.
Qed.

Lemma sumLen_Plus (d : Z) (a : BlockArray) :
  sumLen (map (fun b => Plus b d) a) = sumLen a.
Proof.
  induction a as [|x a IH]; [done|]. cbn [map]. rewrite !sumLen_cons, IH. done.
Qed.

Lemma chained_Plus (pos d : Z) (a : BlockArray) :
  chained pos a -> chained (pos + d) (map (fun b => Plus b d) a).
Proof.
  revert pos. induction a as [|x a IH]; intros pos Hc; [done|].
  destruct Hc as [Hx Hc]. cbn [map chained]. split; [cbn; lia|].
  change (blockLen (Plus x d)) with (blockLen x).
  replace (pos + d + blockLen x) with (pos + blockLen x + d) by lia.
  by apply IH.
Qed.

Lemma Forall_Plus (P : SeqBlock -> Prop) (d : Z) (a : BlockArray) :
  (forall b, P b -> P (Plus b d)) ->
  Forall P a -> Forall P (map (fun b => Plus b d) a).
Proof.
  intros HP HF. apply Forall_fmap. eapply Forall_impl; [exact HF|]. done.
Qed.

Lemma block_split (bl : BlockArray) (i : nat) (b : SeqBlock) :
  bl !! i = Some b -> bl = take i bl ++ b :: drop (S i) bl.
Proof.
  intros Hb. rewrite <- (take_drop i bl) at 1. f_equal. by apply drop_S.
Qed.

Lemma chained_take (pos : Z) (bl : BlockArray) (i : nat) :
  chained pos bl -> chained pos (take i bl).
Proof.
  intros Hc. rewrite <- (take_drop i bl) in Hc. by apply chained_app in Hc as [H _].
Qed.

Lemma chained_drop (pos : Z) (bl : BlockArray) (i : nat) :
  chained pos bl -> chained (pos + sumLen (take i bl)) (drop i bl).
Proof.
  intros Hc. rewrite <- (take_drop i bl) in Hc at 1.
  by apply chained_app in Hc as [_ H].
Qed.

Lemma sumLen_take_drop (bl : BlockArray) (i : nat) :
  sumLen bl = sumLen (take i bl) + sumLen (drop i bl).
Proof. by rewrite <- sumLen_app, take_drop. Qed.

(** The samples before and after a position inside block [i]. *)
Lemma take_samples_at (format : sampleFormat) (bl : BlockArray) (i : nat)
    (b : SeqBlock) (k : Z) :
  chained 0 bl -> bl !! i = Some b -> 0 <= k <= blockLen b ->
  take (Z.to_nat (SeqBlock_start b + k)) (samplesOf convert format bl)
  = samplesOf convert format (take i bl)
    ++ slice (blockSamples convert format b) 0 k.
Proof.
  intros Hc Hb Hk. rewrite (block_split bl i b Hb) at 1.
  rewrite samplesOf_app, samplesOf_cons.
  pose proof (chained_start 0 bl i b Hc Hb) as Hs.
  pose proof (length_samplesOf format (take i bl)) as Hl.
  pose proof (sumLen_nonneg (take i bl)).
  rewrite take_app_ge by lia.
  replace (Z.to_nat (SeqBlock_start b + k)
           - length (samplesOf convert format (take i bl)))%nat
    with (Z.to_nat k) by lia.
  f_equal. pose proof (length_blockSamples format b).
  rewrite take_app_le by lia. unfold slice.
  change (Z.to_nat 0) with 0%nat. done.
Qed.

Lemma drop_samples_at (format : sampleFormat) (bl : BlockArray) (i : nat)
    (b : SeqBlock) (k : Z) :
  chained 0 bl -> bl !! i = Some b -> 0 <= k <= blockLen b ->
  drop (Z.to_nat (SeqBlock_start b + k)) (samplesOf convert format bl)
  = slice (blockSamples convert format b) k (blockLen b - k)
    ++ samplesOf convert format (drop (S i) bl).
Proof.
  intros Hc Hb Hk. rewrite (block_split bl i b Hb) at 1.
  rewrite samplesOf_app, samplesOf_cons.
  pose proof (chained_start 0 bl i b Hc Hb) as Hs.
  pose proof (length_samplesOf format (take i bl)) as Hl.
  pose proof (sumLen_nonneg (take i bl)).
  rewrite drop_app_ge by lia.
  replace (Z.to_nat (SeqBlock_start b + k)
           - length (samplesOf convert format (take i bl)))%nat
    with (Z.to_nat k) by lia.
  pose proof (length_blockSamples format b).
  rewrite drop_app_le by lia. f_equal. unfold slice.
  rewrite take_ge; [done|]. rewrite length_drop. lia.
Qed.

(** Three stores that fill a buffer from its start. *)
Lemma overlay3 (buffer A B C : list Sample) :
  (length A + length B + length C <= length buffer)%nat ->
  take (length A + length B + length C)
    (overlay
       (overlay (overlay buffer 0 A) (Z.of_nat (length A)) B)
       (Z.of_nat (length A + length B)) C)
  = A ++ B ++ C.
Proof.
  intros H.
  assert (H1 : length (overlay buffer 0 A) = length buffer)
    by (apply length_overlay; lia).
  assert (H2 : length (overlay (overlay buffer 0 A) (Z.of_nat (length A)) B)
               = length buffer)
    by (rewrite length_overlay; lia).
  rewrite take_overlay_end by lia. rewrite Nat2Z.id.
  rewrite take_overlay_end by lia. rewrite Nat2Z.id.
  rewrite (take_overlay_end _ 0 A) by lia.
  change (Z.to_nat 0) with 0%nat. cbn [take app]. by rewrite <- app_assoc.
Qed.

Lemma overlay2 (buffer A B : list Sample) :
  (length A + length B <= length buffer)%nat ->
  take (length A + length B)
    (overlay (overlay buffer 0 A) (Z.of_nat (length A)) B)
  = A ++ B.
Proof.
  intros H.
  assert (H1 : length (overlay buffer 0 A) = length buffer)
    by (apply length_overlay; lia).
  rewrite take_overlay_end by lia. rewrite Nat2Z.id.
  rewrite (take_overlay_end _ 0 A) by lia.
  change (Z.to_nat 0) with 0%nat. done.
Qed.

Lemma overlay1 (buffer A : list Sample) :
  (length A <= length buffer)%nat ->
  take (length A) (overlay buffer 0 A) = A.
Proof.
  intros H. rewrite (take_overlay_end _ 0 A) by lia.
  change (Z.to_nat 0) with 0%nat. done.
Qed.

(** ** Contents of new block files

    A block written in a format and read in the same format gives the
    samples written, when [CopySamples] between equal formats copies the
    samples as they are. *)

Section SameFormat.

Hypothesis convert_same : same_format_copy convert.

Lemma CopySamples_same (format : sampleFormat) (l : list Sample) :
  CopySamples convert format format l = l.
Proof using convert_same.
  unfold CopySamples. induction l as [|x l IH]; [done|]. cbn.
  by rewrite (convert_same _ _), IH.
Qed.

Lemma blockSamples_new (format : sampleFormat) (buffer : list Sample)
    (len start : Z) :
  0 <= len <= Z.of_nat (length buffer) ->
  blockSamples convert format
    (mkSeqBlock
       (Some (SimpleBlockFile format (resize (Z.to_nat len) 0 buffer))) start)
  = take (Z.to_nat len) buffer.
Proof using convert_same.
  intros H. unfold blockSamples. cbn. rewrite CopySamples_same.
  apply resize_le. lia.
Qed.

Lemma slice_app (l : list Sample) (a n1 n2 : Z) :
  0 <= a -> 0 <= n1 -> 0 <= n2 ->
  slice l a n1 ++ slice l (a + n1) n2 = slice l a (n1 + n2).
Proof.
  intros Ha H1 H2. unfold slice.
  rewrite !Z2Nat.inj_add by lia. rewrite <- drop_drop.
  apply take_take_drop.
Qed.

Lemma pieces_samples_range (format : sampleFormat) (start : Z)
    (buffer : list Sample) (len num : Z) (k : nat) (i : Z) :
  0 < num -> 0 <= len -> 0 <= i ->
  (i + Z.of_nat k) * len / num <= Z.of_nat (length buffer) ->
  samplesOf convert format
    (map (Blockify_piece format start buffer len num) (seqZ i (Z.of_nat k)))
  = slice buffer (i * len / num)
      ((i + Z.of_nat k) * len / num - i * len / num).
Proof using convert_same.
  intros Hnum Hlen. revert i. induction k as [|k IH]; intros i Hi Hfit.
  - change (Z.of_nat 0) with 0. rewrite seqZ_nil by lia.
    rewrite Z.add_0_r, Z.sub_diag. done.
  - replace (Z.of_nat (S k)) with (Z.succ (Z.of_nat k)) in * by lia.
    rewrite (seqZ_cons i) by lia. rewrite Z.pred_succ. cbn [map].
    rewrite samplesOf_cons. replace (Z.succ i) with (i + 1) by lia.
    assert (Hmono : (i + 1) * len / num <= (i + Z.succ (Z.of_nat k)) * len / num).
    { apply Z.div_le_mono; [lia|]. apply Z.mul_le_mono_nonneg_r; lia. }
    assert (H0 : 0 <= i * len / num)
      by (apply Z.div_pos; [apply Z.mul_nonneg_nonneg|]; lia).
    pose proof (piece_length_nonneg len num i Hnum Hlen) as Hp.
    rewrite IH; [|lia|].
    2:{ replace (i + 1 + Z.of_nat k) with (i + Z.succ (Z.of_nat k)) by lia. done. }
    unfold Blockify_piece. unfold blockSamples at 1. cbn [SeqBlock_f block_data].
    rewrite CopySamples_same.
    rewrite resize_le by (rewrite length_drop; lia).
    change (take (Z.to_nat ((i + 1) * len / num - i * len / num))
              (drop (Z.to_nat (i * len / num)) buffer))
      with (slice buffer (i * len / num)
              ((i + 1) * len / num - i * len / num)).
    replace ((i + 1) * len / num)
      with (i * len / num + ((i + 1) * len / num - i * len / num)) at 2 by lia.
    rewrite slice_app; [|lia..|].
    2:{ replace (i + 1 + Z.of_nat k) with (i + Z.succ (Z.of_nat k)) by lia. lia. }
    f_equal. replace (i + 1 + Z.of_nat k) with (i + Z.succ (Z.of_nat k)) by lia.
    lia.
Qed.

Lemma Blockify_pieces_samples (maxSamples : Z) (format : sampleFormat)
    (start : Z) (buffer : list Sample) (len : Z) :
  0 < len -> 1 <= maxSamples -> len <= Z.of_nat (length buffer) ->
  samplesOf convert format
    (Blockify_pieces maxSamples format start buffer len)
  = take (Z.to_nat len) buffer.
Proof using convert_same.
  intros Hlen Hmax Hfit. unfold Blockify_pieces.
  set (num := (len + (maxSamples - 1)) / maxSamples).
  destruct (Blockify_num_bounds maxSamples len Hlen Hmax) as [Hn1 Hn2].
  fold num in Hn1, Hn2.
  pose proof (pieces_samples_range format start buffer len num (Z.to_nat num) 0)
    as H.
  rewrite Z2Nat.id in H by lia.
  rewrite Z.add_0_l, Z.mul_0_l, Z.div_0_l, Z.sub_0_r in H by lia.
  rewrite (Z.mul_comm num len), Z.div_mul in H by lia.
  rewrite H by lia. unfold slice. change (Z.to_nat 0) with 0%nat. done.
Qed.

End SameFormat.

(** ** Paste *)

Lemma AppendBlock_each_spec (srcBlock newBlock : BlockArray)
    (samples0 p0 : Z) (n : nat) :
  chained p0 srcBlock ->
  wp (AppendBlock_each io_fails srcBlock newBlock samples0) n
    (okL io_fails
       (Forall (fun b => is_Some (SeqBlock_f b)) srcBlock /\
        0 <= samples0 /\ samples0 + sumLen srcBlock <= 2 ^ 63 - 1)
       (fun r =>
          fst r = newBlock ++ map (fun b => Plus b (samples0 - p0)) srcBlock /\
          snd r = samples0 + sumLen srcBlock)).
Proof.
  revert newBlock samples0 p0 n.
  induction srcBlock as [|b rest IH]; intros newBlock samples0 p0 n Hc.
  - apply wp_ret. cbn. rewrite app_nil_r. split; [done|lia].
  - cbn [AppendBlock_each]. destruct Hc as [Hs Hc].
    eapply okL_bind
      with (pre := is_Some (SeqBlock_f b) /\ 0 <= samples0 /\
                   samples0 + blockLen b <= 2 ^ 63 - 1)
           (post := fun r => fst r = newBlock ++ [Plus b (samples0 - p0)] /\
                             snd r = samples0 + blockLen b).
    + unfold AppendBlock. apply wp_deref_bind.
      { intros Hf. cbn. intros ([f Hf'] & _). congruence. }
      intros f Hf.
      assert (Hbl : blockLen b = GetLength f)
        by (unfold blockLen; by rewrite Hf).
      destruct (Overflows _) eqn:Hov.
      { cbn. intros (_ & H1 & H2).
        rewrite Overflows_false in Hov; [done|lia| |lia].
        apply GetLength_nonneg. }
      eapply okL_bind; [apply CopyBlockFile_spec|done|].
      intros file n1 ->. rewrite Hf. cbn [deref]. apply wp_bind.
      cbn [ret wp fst snd]. apply wp_ret. cbn. rewrite Hbl.
      split; [|done]. f_equal. f_equal. unfold Plus. rewrite Hf. f_equal. lia.
    + intros (HF & H1 & H2). apply Forall_cons in HF as [HF1 HF2].
      rewrite sumLen_cons in H2. pose proof (sumLen_nonneg rest).
      split; [done|]. lia.
    + intros r n1 (Hr1 & Hr2). rewrite Hr1, Hr2.
      eapply okL_conseq; [apply (IH _ _ (p0 + blockLen b)); done| |].
      * intros (HF & H1 & H2). apply Forall_cons in HF as [HF1 HF2].
        rewrite sumLen_cons in H2. pose proof (blockLen_nonneg b).
        split; [done|]. lia.
      * intros r' (Hr1' & Hr2'). rewrite Hr1', Hr2', sumLen_cons.
        split; [|lia]. rewrite <- app_assoc. cbn [map app]. f_equal. f_equal.
        apply map_ext. intros x. f_equal. lia.
Qed.

Lemma Paste_copy_middle_spec (middle : BlockArray) (s : Z)
    (newBlock : BlockArray) (n : nat) :
  wp (Paste_copy_middle io_fails middle s newBlock) n
    (okL io_fails True
       (fun out => out = newBlock ++ map (fun b => Plus b s) middle)).
Proof.
  revert newBlock n. induction middle as [|b rest IH]; intros newBlock n.
  - apply wp_ret. cbn. by rewrite app_nil_r.
  - cbn [Paste_copy_middle].
    eapply okL_bind; [apply CopyBlockFile_spec|done|].
    intros file n1 ->. eapply okL_conseq; [apply IH|done|].
    intros out ->. rewrite <- app_assoc. done.
Qed.

Lemma shift_from_insert (bl : BlockArray) (i : nat) (nb : SeqBlock) (d : Z) :
  (i < length bl)%nat ->
  shift_from (i + 1) d (<[i := nb]> bl)
  = take i bl ++ nb :: map (fun b => Plus b d) (drop (S i) bl).
Proof.
  intros Hi. unfold shift_from. rewrite Nat.add_1_r.
  rewrite insert_take_drop by done.
  rewrite (cons_middle nb), app_assoc.
  rewrite take_app_length', drop_app_length'
    by (rewrite length_app, length_take; cbn; lia).
  rewrite <- app_assoc. done.
Qed.

(** The array after the block at index [b] was replaced by [mid] and the
    later blocks were moved by [d]. *)
Lemma rebuilt_chained (bl : BlockArray) (b : nat) (blk : SeqBlock)
    (mid : BlockArray) (d : Z) :
  chained 0 bl -> bl !! b = Some blk ->
  chained (SeqBlock_start blk) mid -> sumLen mid = blockLen blk + d ->
  chained 0 (take b bl ++ mid ++ map (fun x => Plus x d) (drop (S b) bl)) /\
  sumLen (take b bl ++ mid ++ map (fun x => Plus x d) (drop (S b) bl))
  = sumLen bl + d.
Proof.
  intros Hc Hb Hm Hs.
  pose proof (chained_start 0 bl b blk Hc Hb) as Hst.
  pose proof (chained_drop 0 bl (S b) Hc) as Hd.
  rewrite (sumLen_take_S bl b blk Hb) in Hd. split.
  - apply chained_app. split; [by apply chained_take|].
    apply chained_app. rewrite <- Hst. split; [done|].
    rewrite Hs.
    replace (SeqBlock_start blk + (blockLen blk + d))
      with (0 + (sumLen (take b bl) + blockLen blk) + d) by lia.
    by apply chained_Plus.
  - rewrite !sumLen_app, sumLen_Plus, Hs.
    rewrite (sumLen_take_drop bl (S b)), (sumLen_take_S bl b blk Hb). lia.
Qed.

Lemma Forall_positive_some (bl : BlockArray) :
  Forall (fun b => 0 < blockLen b) bl ->
  Forall (fun b => is_Some (SeqBlock_f b)) bl.
Proof.
  intros H. eapply Forall_impl; [exact H|]. intros b Hb. cbn beta in Hb.
  unfold blockLen in Hb.
  destruct (SeqBlock_f b); [by eexists|lia].
Qed.

Lemma Paste_rebuild (t src : Sequence) (s sp : Z) (b : nat) (blk : SeqBlock)
    (mid : BlockArray) :
  Invariants t -> Invariants src -> mSampleFormat src = mSampleFormat t ->
  mBlock t !! b = Some blk -> s = SeqBlock_start blk + sp ->
  0 <= sp <= blockLen blk ->
  chained (SeqBlock_start blk) mid ->
  sumLen mid = blockLen blk + mNumSamples src ->
  Forall (fun x => 0 < blockLen x) mid ->
  (same_format_copy convert ->
   samplesOf convert (mSampleFormat t) mid
   = slice (blockSamples convert (mSampleFormat t) blk) 0 sp
     ++ samplesOf convert (mSampleFormat t) (mBlock src)
     ++ slice (blockSamples convert (mSampleFormat t) blk) sp
          (blockLen blk - sp)) ->
  let newBlock :=
    take b (mBlock t) ++ mid
    ++ map (fun x => Plus x (mNumSamples src)) (drop (S b) (mBlock t)) in
  let numSamples := mNumSamples t + mNumSamples src in
  (Forall (fun x => blockLen x <= mMaxSamples t) mid ->
   consistent newBlock (mMaxSamples t) 0 numSamples) /\
  (consistent newBlock (mMaxSamples t) 0 numSamples ->
   pastePost convert s src t
     (set_mNumSamples numSamples (set_mBlock newBlock t))).
Proof.
  intros HI HIs Hfmt Hb Hs Hsp Hcm Hsm Hpm Hcontent newBlock numSamples.
  pose proof (Invariants_positive t HI) as Hpos.
  apply Invariants_chain in HI as (Hc & Hn & HG).
  destruct (rebuilt_chained (mBlock t) b blk mid (mNumSamples src) Hc Hb Hcm Hsm)
    as [Hc' Hs'].
  fold newBlock in Hc', Hs'.
  assert (HposN : Forall (fun x => 0 < blockLen x) newBlock).
  { unfold newBlock. rewrite !Forall_app. split; [by apply Forall_take|].
    split; [done|]. apply Forall_Plus; [done|]. by apply Forall_drop. }
  split.
  - intros Hmax. unfold consistent. split; [done|]. split; [unfold numSamples; lia|].
    unfold newBlock. rewrite !Forall_app. 
    assert (HG' : Forall (fun b0 => is_Some (SeqBlock_f b0)
                                    /\ blockLen b0 <= mMaxSamples t) (mBlock t)).
    { apply Forall_and. split; [by apply Forall_positive_some|].
      eapply Forall_impl; [exact HG|]. unfold goodBlock. intros x. cbn. lia. }
    split; [by apply Forall_take|]. split.
    + apply Forall_and. split; [by apply Forall_positive_some|done].
    + apply Forall_Plus; [done|]. by apply Forall_drop.
  - intros Hcons. unfold pastePost. split.
    { apply Invariants_consistent. done. }
    do 4 (split; [done|]). intros Hid. unfold samples.
    cbn [mSampleFormat mBlock set_mNumSamples set_mBlock]. rewrite Hfmt.
    unfold newBlock. rewrite !samplesOf_app, samplesOf_Plus, (Hcontent Hid).
    rewrite Hs.
    rewrite (take_samples_at _ _ b blk sp Hc Hb Hsp).
    rewrite (drop_samples_at _ _ b blk sp Hc Hb Hsp).
    by rewrite <- !app_assoc.
Qed.

(** The buffer lemmas with the offsets as the code computes them. *)
Lemma overlay3_at (buffer A B C : list Sample) (o1 o2 n : Z) :
  o1 = Z.of_nat (length A) -> o2 = o1 + Z.of_nat (length B) ->
  n = o2 + Z.of_nat (length C) -> n <= Z.of_nat (length buffer) ->
  take (Z.to_nat n) (overlay (overlay (overlay buffer 0 A) o1 B) o2 C)
  = A ++ B ++ C.
Proof.
  intros -> -> -> H.
  replace (Z.to_nat _) with (length A + length B + length C)%nat by lia.
  rewrite <- Nat2Z.inj_add. apply overlay3. lia.
Qed.

Lemma overlay2_at (buffer A B : list Sample) (o1 n : Z) :
  o1 = Z.of_nat (length A) -> n = o1 + Z.of_nat (length B) ->
  n <= Z.of_nat (length buffer) ->
  take (Z.to_nat n) (overlay (overlay buffer 0 A) o1 B) = A ++ B.
Proof.
  intros -> -> H.
  replace (Z.to_nat _) with (length A + length B)%nat by lia.
  apply overlay2. lia.
Qed.

Lemma overlay1_at (buffer A : list Sample) (n : Z) :
  n = Z.of_nat (length A) -> n <= Z.of_nat (length buffer) ->
  take (Z.to_nat n) (overlay buffer 0 A) = A.
Proof.
  intros -> H. rewrite Nat2Z.id. apply overlay1. lia.
Qed.

Lemma Get_spec (src : Sequence) (b : nat) (buffer : list Sample) (off : Z)
    (format : sampleFormat) (start len : Z) (n : nat) :
  chained 0 (mBlock src) ->
  Forall (fun x => is_Some (SeqBlock_f x)) (mBlock src) ->
  0 <= off -> 0 <= len -> start = sumLen (take b (mBlock src)) ->
  wp (Get convert io_fails src b buffer off format start len) n
    (okL io_fails
       (len <= sumLen (drop b (mBlock src)) /\
        off + len <= Z.of_nat (length buffer))
       (fun buffer' =>
          (len <> 0 ->
           len <= sumLen (drop b (mBlock src)) /\
           off + len <= Z.of_nat (length buffer)) /\
          buffer' = overlay buffer off
                      (take (Z.to_nat len)
                         (samplesOf convert format (drop b (mBlock src)))))).
Proof.
  intros Hc HF Hoff Hlen ->. unfold Get.
  apply (Get_loop_spec _ _ _ _ (sumLen (take b (mBlock src)))); try done.
  - by apply (chained_drop 0).
  - by apply Forall_drop.
  - by right.
Qed.

(** A part of a method that leaves the object alone, followed by the rest
    of the method. *)
Lemma okM_bind {A B} (m : M A) (k : A -> M B) (w : World) (t0 : Sequence)
    (valid : Prop) (postA : A -> Prop) (post' : B -> Sequence -> Prop) :
  wp m w (okM io_fails t0 valid (fun a t' => t' = t0 /\ postA a)) ->
  (forall a w', this w' = t0 -> postA a ->
     wp (k a) w' (okM io_fails t0 valid post')) ->
  wp (bind m k) w (okM io_fails t0 valid post').
Proof.
  intros Hm Hk. apply wp_bind. unfold wp in *.
  destruct (m w) as [[a|e|] w']; cbn in *; [|done..].
  destruct Hm as [Ht Ha]. by apply Hk.
Qed.

Lemma okM_liftL_tail {A} (m : L A) (w : World) (pre valid : Prop)
    (post : A -> Prop) (post' : A -> Sequence -> Prop) (t0 : Sequence) :
  this w = t0 ->
  wp m (calls w) (okL io_fails pre post) ->
  (valid -> pre) ->
  (forall a, post a -> post' a t0) ->
  wp (liftL m) w (okM io_fails t0 valid post').
Proof.
  intros Ht Hm Hpre Hk. apply wp_tail.
  eapply okM_liftL; [done|exact Hm|done|].
  intros a n' Ha. apply wp_ret. cbn. by apply Hk.
Qed.

Lemma split_ends (l : BlockArray) :
  (4 <= length l)%nat ->
  l = take 2 l ++ take (length l - 4) (drop 2 l) ++ drop (length l - 2) l.
Proof.
  intros H. rewrite <- (take_drop 2 l) at 1. f_equal.
  rewrite <- (take_drop (length l - 4) (drop 2 l)) at 1. f_equal.
  rewrite drop_drop. f_equal. lia.
Qed.

Lemma take_samplesOf_take (format : sampleFormat) (bl : BlockArray) (k : nat) :
  take (Z.to_nat (sumLen (take k bl))) (samplesOf convert format bl)
  = samplesOf convert format (take k bl).
Proof.
  rewrite <- (take_drop k bl) at 2. rewrite samplesOf_app.
  apply take_app_length'.
  pose proof (length_samplesOf format (take k bl)). lia.
Qed.

(** The step [block[i]] followed by [block[i].f->GetLength()], for a block
    that is known to be there. *)
Ltac wp_block Hlk HF f Hlen :=
  apply wp_at_index_bind; [by rewrite Hlk|];
  let x := fresh in
  let Hx := fresh in
  intros x Hx; rewrite Hlk in Hx; injection Hx as <-;
  let Hp := fresh "Hp" in
  pose proof (Forall_lookup_1 _ _ _ _ HF Hlk) as Hp; cbn beta in Hp;
  apply wp_deref_bind;
  [let Hn := fresh in
   intros Hn; unfold blockLen in Hp; rewrite Hn in Hp; lia|];
  let Hf := fresh "Hf" in
  intros f Hf;
  match type of Hlk with
  | _ = Some ?blk =>
      assert (Hlen : blockLen blk = GetLength f)
        by (unfold blockLen; by rewrite Hf)
  end;
  rewrite <- ?Hlen.

(** [Paste] on sequences that satisfy the invariants: when it returns, the
    invariants hold again, the block sizes and the format are the same and
    the samples of the source stand at offset [s]; when it throws, the
    sequence is as it was; for valid arguments it throws only on a fault of
    the block store. *)
Lemma Paste_spec (s : Z) (src : Sequence) (w : World) :
  Invariants (this w) -> Invariants src ->
  wp (Paste convert io_fails guess_offset s src) w
    (okM io_fails (this w) (pasteValid s src (this w))
       (fun _ t' => pastePost convert s src (this w) t')).
Proof.
  intros HI HIs. unfold Paste. apply wp_getThis_bind.
  destruct (Z.ltb_spec s 0) as [Hs0|Hs0].
  { cbn. split; [done|]. unfold pasteValid. lia. }
  destruct (Z.ltb_spec (mNumSamples (this w)) s) as [Hs1|Hs1].
  { cbn. split; [done|]. unfold pasteValid. lia. }
  cbn [orb].
  pose proof HI as HI'. apply Invariants_chain in HI' as (Hc & Hn & HG).
  pose proof HIs as HIs'. apply Invariants_chain in HIs' as (Hcs & Hns & HGs).
  pose proof (Invariants_positive _ HI) as Hpos.
  pose proof (Invariants_positive _ HIs) as Hposs.
  pose proof (sumLen_nonneg (mBlock (this w))) as Hnn.
  pose proof (sumLen_nonneg (mBlock src)) as Hnns.
  destruct (Overflows _) eqn:Hov.
  { cbn. split; [done|]. intros (_ & _ & Hsum & _).
    rewrite Overflows_false in Hov; [done|lia..]. }
  destruct (Z.eqb_spec (mSampleFormat src) (mSampleFormat (this w)))
    as [Hfmt|Hfmt]; cbn [negb].
  2: { cbn. split; [done|]. unfold pasteValid. tauto. }
  cbv zeta.
  destruct ((mNumSamples src =? 0) || (length (mBlock src) =? 0)%nat) eqn:Hz.
  { apply wp_ret. cbn.
    assert (Hs0' : mNumSamples src = 0).
    { apply orb_true_iff in Hz as [Hz|Hz]; [lia|].
      apply Nat.eqb_eq, nil_length_inv in Hz. rewrite Hns, Hz. done. }
    unfold pastePost. split; [done|]. do 3 (split; [done|]).
    split; [lia|]. intros _.
    assert (Hnil : samples convert src = []).
    { apply nil_length_inv. pose proof (length_samplesOf (mSampleFormat src) (mBlock src)).
      unfold samples. lia. }
    rewrite Hnil. cbn [app]. by rewrite take_drop. }
  apply orb_false_iff in Hz as [Hz1 Hz2].
  apply Z.eqb_neq in Hz1. apply Nat.eqb_neq in Hz2.
  eapply (wp_bind _ _ _ _).
  match goal with
  | |- wp ?m w _ =>
      assert (Hen : exists c, m w = (Ret c, w) /\
                (c = true -> s = mNumSamples (this w)) /\
                (c = false -> mBlock (this w) <> []))
  end.
  { destruct (Nat.eqb_spec (length (mBlock (this w))) 0) as [Hl|Hl].
    { exists true. cbn. split; [done|]. split; [|done]. intros _.
      apply nil_length_inv in Hl. rewrite Hl in Hn. cbn in Hn. lia. }
    assert (Hne : mBlock (this w) <> []) by (by intros E; rewrite E in Hl).
    destruct (Z.eqb_spec s (mNumSamples (this w))) as [Hsn|Hsn].
    - unfold bind, at_index, deref, ret.
      destruct (lookup_lt_is_Some_2 (mBlock (this w))
                  (length (mBlock (this w)) - 1)) as [bk Hbk]; [lia|].
      rewrite Hbk. cbn.
      pose proof (Forall_lookup_1 _ _ _ _ Hpos Hbk) as Hp. cbn in Hp.
      unfold blockLen in Hp. destruct (SeqBlock_f bk); [|lia].
      eexists. split; [done|]. done.
    - exists false. cbn. done. }
  destruct Hen as (c & Hen & Hct & Hcf). unfold wp at 1. rewrite Hen.
  cbn [fst snd]. destruct c.
  - (* the source blocks are appended *)
    specialize (Hct eq_refl). clear Hcf.
    eapply okM_liftL; [done|by apply (AppendBlock_each_spec _ _ _ 0)| |].
    { intros (_ & _ & Hsum & _). split; [by apply Forall_positive_some|]. lia. }
    intros r n1 [Hr1 Hr2]. rewrite Hr1, Hr2, Z.sub_0_r.
    apply okM_commit; [done| |].
    + intros (_ & _ & _ & Hfit). unfold consistent. rewrite chained_app.
      split; [split; [done|]|].
      { rewrite <- Hn. replace (mNumSamples (this w)) with (0 + mNumSamples (this w)) at 1 by lia.
        apply chained_Plus. done. }
      rewrite sumLen_app, sumLen_Plus. split; [lia|].
      rewrite Forall_app. split.
      * apply Forall_and. split; [by apply Forall_positive_some|].
        eapply Forall_impl; [exact HG|]. unfold goodBlock. intros x. cbn. lia.
      * apply Forall_Plus; [done|]. apply Forall_and.
        split; [by apply Forall_positive_some|done].
    + intros Hcons. unfold pastePost. split.
      { apply Invariants_consistent. split; [done|].
        cbn. rewrite Forall_app. split; [done|]. by apply Forall_Plus. }
      do 3 (split; [done|]). split; [cbn; lia|]. intros _.
      unfold samples. cbn [mSampleFormat mBlock set_mNumSamples set_mBlock].
      rewrite samplesOf_app, samplesOf_Plus, Hfmt.
      pose proof (length_samplesOf (mSampleFormat (this w)) (mBlock (this w))).
      rewrite take_ge, drop_ge by lia. by rewrite app_nil_r.
  - specialize (Hcf eq_refl). clear Hct.
    assert (Hadd : 0 < mNumSamples src) by lia.
    eapply (wp_bind _ _ _ _).
    match goal with
    | |- wp ?m w _ =>
        assert (Hen' : exists b blk, m w = (Ret b, w) /\
                  mBlock (this w) !! b = Some blk /\
                  SeqBlock_start blk <= s <= SeqBlock_start blk + blockLen blk)
    end.
    { destruct (Z.eqb_spec s (mNumSamples (this w))) as [Hsn|Hsn].
      - destruct (lookup_lt_is_Some_2 (mBlock (this w))
                    (length (mBlock (this w)) - 1)) as [bk Hbk].
        { destruct (mBlock (this w)); [done|cbn; lia]. }
        exists (length (mBlock (this w)) - 1)%nat, bk.
        split; [done|]. split; [done|].
        pose proof (chained_start _ _ _ _ Hc Hbk) as Hst.
        pose proof (sumLen_take_S _ _ _ Hbk) as HS.
        replace (S (length (mBlock (this w)) - 1)) with (length (mBlock (this w)))
          in HS by (apply lookup_lt_Some in Hbk; lia).
        rewrite firstn_all in HS. pose proof (blockLen_nonneg bk). lia.
      - destruct (holds_exists 0 (mBlock (this w)) s Hc ltac:(lia))
          as [i Hi].
        pose proof Hi as (bk & Hbk & Hr).
        exists i, bk. split; [|split; [done|lia]].
        assert (Hrange : 0 <= s < mNumSamples (this w)) by lia.
        unfold liftR. by rewrite (FindBlock_holds _ _ i Hc Hn Hpos Hrange Hi). }
    destruct Hen' as (b & blk & Hen' & Hb & Hsb). unfold wp at 1.
    rewrite Hen'. cbn [fst snd]. clear Hen Hen'.
    pose proof (lookup_lt_Some _ _ _ Hb) as Hblt.
    apply wp_wxASSERT_bind.
    { intros Hf. apply Nat.ltb_ge in Hf. lia. }
    intros _.
    apply wp_at_index_bind; [by rewrite Hb|].
    intros blk' Hblk'. rewrite Hb in Hblk'. injection Hblk' as <-.
    pose proof (Forall_lookup_1 _ _ _ _ Hpos Hb) as Hbp. cbn beta in Hbp.
    pose proof (Forall_lookup_1 _ _ _ _ HG Hb) as Hbg. unfold goodBlock in Hbg.
    apply wp_deref_bind.
    { intros Hnone. unfold blockLen in Hbp. rewrite Hnone in Hbp. lia. }
    intros pf Hpf.
    assert (Hbl : blockLen blk = GetLength pf)
      by (unfold blockLen; by rewrite Hpf).
    assert (Hsome : is_Some (SeqBlock_f blk)) by (by eexists).
    cbv zeta. rewrite <- Hbl.
    set (sp := s - SeqBlock_start blk).
    assert (Hsp : 0 <= sp <= blockLen blk) by (unfold sp; lia).
    assert (Hssp : s = SeqBlock_start blk + sp) by (unfold sp; lia).
    pose proof (Paste_rebuild (this w) src s sp b blk) as Hreb.
    specialize (fun mid => Hreb mid HI HIs Hfmt Hb Hssp Hsp).
    cbv zeta in Hreb.
    set (B := blockSamples convert (mSampleFormat (this w)) blk) in *.
    set (SRC := samplesOf convert (mSampleFormat (this w)) (mBlock src)) in *.
    assert (HlenB : Z.of_nat (length B) = blockLen blk)
      by apply length_blockSamples.
    assert (HlenS : Z.of_nat (length SRC) = mNumSamples src)
      by (rewrite Hns; apply length_samplesOf).
    destruct (Z.leb_spec (mNumSamples src + blockLen blk)
                (mMaxSamples (this w))) as [Hfit|Hfit].
    + (* the split block can hold the source: it is replaced *)
      apply wp_as_size_t_bind; [lia|]. intros _.
      apply wp_as_size_t_bind; [lia|]. intros _.
      apply wp_as_size_t_bind; [lia|]. intros _.
      set (sz := mNumSamples src + blockLen blk) in *.
      pose proof (length_SampleBuffer sz) as Hbuf0.
      eapply okM_liftL; [done|apply Read_spec; lia| |].
      { intros _. split; [done|]. lia. }
      intros buffer1 n1 (_ & _ & _ & _ & ->).
      fold B.
      assert (HlA : Z.of_nat (length (slice B 0 sp)) = sp)
        by (apply length_slice; lia).
      assert (HlC : Z.of_nat (length (slice B sp (blockLen blk - sp)))
                    = blockLen blk - sp) by (apply length_slice; lia).
      set (A := slice B 0 sp) in *.
      set (C := slice B sp (blockLen blk - sp)) in *.
      assert (Hl1 : length (overlay (SampleBuffer sz) 0 A)
                    = length (SampleBuffer sz)) by (apply length_overlay; lia).
      assert (Htake : take (Z.to_nat (mNumSamples src))
                        (samplesOf convert (mSampleFormat (this w))
                           (drop 0 (mBlock src))) = SRC).
      { rewrite drop_0. apply take_ge. fold SRC. lia. }
      eapply okM_liftL;
        [done
        |apply Get_spec; [done|by apply Forall_positive_some|lia|lia|done]
        | |].
      { intros _. rewrite drop_0. lia. }
      intros buffer2 n2 (_ & ->). rewrite Htake.
      assert (Hl2 : length (overlay (overlay (SampleBuffer sz) 0 A) sp SRC)
                    = length (SampleBuffer sz))
        by (rewrite length_overlay; lia).
      eapply okM_liftL; [done|apply Read_spec; lia| |].
      { intros _. split; [done|]. lia. }
      intros buffer3 n3 (_ & _ & _ & _ & ->). fold B C.
      eapply okM_liftL; [done|apply NewSimpleBlockFile_spec|done|].
      intros file n4 ->.
      apply wp_modifyThis_bind, wp_modifyThis_bind, wp_modifyThis_bind.
      apply wp_getThis_bind. cbn [this calls mBlock mNumSamples mMaxSamples
        set_mBlock set_mNumSamples].
      rewrite shift_from_insert by done.
      set (buffer3 := overlay _ (sp + mNumSamples src) C).
      set (nb := mkSeqBlock _ (SeqBlock_start blk)).
      assert (Hnbl : blockLen nb = sz) by (apply blockLen_resized; lia).
      destruct (Hreb [nb]) as [Hcons Hpost].
      { done. }
      { change (sumLen [nb]) with (blockLen nb + 0). lia. }
      { apply Forall_singleton. lia. }
      { intros Hid. rewrite samplesOf_cons. unfold samplesOf at 1.
        cbn [map concat].
        rewrite app_nil_r. unfold nb. rewrite (blockSamples_new Hid).
        - apply overlay3_at; lia.
        - unfold buffer3. rewrite length_overlay; lia. }
      specialize (Hcons ltac:(apply Forall_singleton; lia)).
      apply ConsistencyCheck_0 in Hcons as Hcheck. cbn [app] in Hcheck.
      unfold liftR, ConsistencyCheck, wp. rewrite Hcheck. cbn.
      by apply Hpost.
    + (* the split block and the source are cut into new blocks *)
      apply wp_at_index_bind; [by rewrite Hb|].
      intros blk' Hblk'. rewrite Hb in Hblk'. injection Hblk' as <-.
      apply wp_deref_bind; [by rewrite Hpf|].
      intros sf Hsf. rewrite Hpf in Hsf. injection Hsf as <-.
      rewrite <- Hbl.
      apply wp_as_size_t_bind; [lia|]. intros _. fold sp.
      assert (HlA : Z.of_nat (length (slice B 0 sp)) = sp)
        by (apply length_slice; lia).
      assert (HlC : Z.of_nat (length (slice B sp (blockLen blk - sp)))
                    = blockLen blk - sp) by (apply length_slice; lia).
      set (A := slice B 0 sp) in *.
      set (C := slice B sp (blockLen blk - sp)) in *.
      assert (Hmax : 1 <= mMaxSamples (this w)) by lia.
      set (P := fun nbk : BlockArray =>
        exists mid, nbk = take b (mBlock (this w)) ++ mid /\
          chained (SeqBlock_start blk) mid /\
          sumLen mid = blockLen blk + mNumSamples src /\
          Forall (fun x => 0 < blockLen x) mid /\
          (same_format_copy convert ->
           samplesOf convert (mSampleFormat (this w)) mid = A ++ SRC ++ C) /\
          (pasteValid s src (this w) ->
           Forall (fun x => blockLen x <= mMaxSamples (this w)) mid)).
      apply (okM_bind _ _ _ _ _ P).
      2: { intros nbk w' Hw' (mid & -> & Hm1 & Hm2 & Hm3 & Hm4 & Hm5).
           destruct (Hreb mid Hm1 Hm2 Hm3 Hm4) as [Hcons Hpost].
           rewrite <- app_assoc.
           replace (b + 1)%nat with (S b) by lia.
           apply okM_commit; [done| |done].
           intros Hv. by apply Hcons, Hm5. }
      destruct (Nat.leb_spec (length (mBlock src)) 4) as [Hsmall|Hlarge].
      * (* a small source: one buffer holds everything *)
        apply wp_as_size_t_bind; [lia|]. intros _.
        set (sum := blockLen blk + mNumSamples src).
        pose proof (length_SampleBuffer sum) as Hbuf0.
        eapply okM_liftL; [done|apply Read_spec; lia| |].
        { intros _. split; [done|]. lia. }
        intros buffer1 n1 (_ & _ & _ & _ & ->). fold B A.
        assert (Hl1 : length (overlay (SampleBuffer sum) 0 A)
                      = length (SampleBuffer sum))
          by (apply length_overlay; lia).
        assert (Htake : take (Z.to_nat (mNumSamples src))
                          (samplesOf convert (mSampleFormat (this w))
                             (drop 0 (mBlock src))) = SRC).
        { rewrite drop_0. apply take_ge. fold SRC. lia. }
        eapply okM_liftL;
          [done
          |apply Get_spec; [done|by apply Forall_positive_some|lia|lia|done]
          | |].
        { intros _. rewrite drop_0. lia. }
        intros buffer2 n2 (_ & ->). rewrite Htake.
        assert (Hl2 : length (overlay (overlay (SampleBuffer sum) 0 A) sp SRC)
                      = length (SampleBuffer sum))
          by (rewrite length_overlay; lia).
        eapply okM_liftL; [done|apply Read_spec; lia| |].
        { intros _. split; [done|]. lia. }
        intros buffer3 n3 (_ & _ & _ & _ & ->). fold B C.
        set (buffer3 := overlay _ (sp + mNumSamples src) C).
        assert (Hl3 : length buffer3 = length (SampleBuffer sum))
          by (unfold buffer3; rewrite length_overlay; lia).
        eapply okM_liftL_tail; [done|apply Blockify_spec|intros _; lia|].
        intros out Hout. split; [done|].
        destruct (Z.leb_spec sum 0) as [|_]; [lia|]. destruct Hout as [_ ->].
        destruct (Blockify_pieces_structure (mMaxSamples (this w))
                    (mSampleFormat (this w)) (SeqBlock_start blk) buffer3 sum)
          as (Hp1 & Hp2 & Hp3); [lia|done|].
        eexists. split; [done|]. split; [done|]. split; [done|].
        split; [|split].
        -- eapply Forall_impl; [exact Hp3|]. unfold goodBlock. intros x. cbn. lia.
        -- intros Hid. rewrite (Blockify_pieces_samples Hid); [|lia|done|lia].
           apply overlay3_at; lia.
        -- intros _. eapply Forall_impl; [exact Hp3|].
           unfold goodBlock. intros x. cbn. lia.
      * (* a large source: its middle blocks are shared *)
        set (m := length (mBlock src)) in *.
        destruct (lookup_lt_is_Some_2 (mBlock src) 0) as [src0 H0]; [lia|].
        destruct (lookup_lt_is_Some_2 (mBlock src) 1) as [src1 H1]; [lia|].
        destruct (lookup_lt_is_Some_2 (mBlock src) (m - 2)) as [pen H2];
          [lia|].
        destruct (lookup_lt_is_Some_2 (mBlock src) (m - 1)) as [last H3];
          [lia|].
        wp_block H0 Hposs src0f Hb0. wp_block H1 Hposs src1f Hb1.
        wp_block H2 Hposs penf Hb2. wp_block H3 Hposs lastf Hb3.
        set (M := take (m - 4) (drop 2 (mBlock src))).
        assert (HF1 : sumLen (take 2 (mBlock src))
                      = blockLen src0 + blockLen src1).
        { rewrite (sumLen_take_S _ 1 src1 H1), (sumLen_take_S _ 0 src0 H0).
          done. }
        pose proof (chained_start _ _ _ _ Hcs H2) as Hpen.
        assert (HL2 : sumLen (drop (m - 2) (mBlock src))
                      = blockLen pen + blockLen last).
        { pose proof (sumLen_take_drop (mBlock src) (m - 2)) as E1.
          pose proof (sumLen_take_S _ _ _ H2) as E2.
          pose proof (sumLen_take_S _ _ _ H3) as E3.
          replace (S (m - 2)) with (m - 1)%nat in E2 by lia.
          replace (S (m - 1)) with m in E3 by lia.
          unfold m in E3 at 1. rewrite firstn_all in E3. lia. }
        pose proof (split_ends (mBlock src) ltac:(fold m; lia)) as Hdec.
        fold m M in Hdec.
        pose proof (f_equal sumLen Hdec) as HsumM.
        rewrite !sumLen_app in HsumM.
        pose proof (sumLen_take_drop (mBlock src) (m - 2)) as Hsum2.
        pose proof (sumLen_nonneg M) as HnnM.
        set (F1 := blockLen src0 + blockLen src1) in *.
        set (L2 := blockLen pen + blockLen last) in *.
        assert (HF1p : 0 < F1) by (unfold F1; lia).
        assert (HL2p : 0 < L2) by (unfold L2; lia).
        set (S1 := samplesOf convert (mSampleFormat (this w))
                     (take 2 (mBlock src))).
        set (S3 := samplesOf convert (mSampleFormat (this w))
                     (drop (m - 2) (mBlock src))).
        assert (HlS1 : Z.of_nat (length S1) = F1)
          by (unfold S1; rewrite length_samplesOf; lia).
        assert (HlS3 : Z.of_nat (length S3) = L2)
          by (unfold S3; rewrite length_samplesOf; lia).
        set (buffer0 := SampleBuffer _).
        assert (Hbuf0 : sp + F1 <= Z.of_nat (length buffer0) /\
                        blockLen blk - sp + L2 <= Z.of_nat (length buffer0)).
        { unfold buffer0. rewrite length_SampleBuffer. lia. }
        eapply okM_liftL; [done|apply Read_spec; lia| |].
        { intros _. split; [done|]. lia. }
        intros buffer1 n1 (_ & _ & _ & _ & ->). fold B A.
        assert (Hl1 : length (overlay buffer0 0 A) = length buffer0)
          by (apply length_overlay; lia).
        assert (Htake : take (Z.to_nat F1)
                          (samplesOf convert (mSampleFormat (this w))
                             (drop 0 (mBlock src))) = S1).
        { rewrite drop_0, <- HF1. apply take_samplesOf_take. }
        eapply okM_liftL;
          [done
          |apply Get_spec; [done|by apply Forall_positive_some|lia|lia|done]
          | |].
        { intros _. rewrite drop_0. lia. }
        intros buffer2 n2 (_ & ->). rewrite Htake.
        set (buffer2 := overlay _ sp S1).
        assert (Hl2 : length buffer2 = length buffer0)
          by (unfold buffer2; rewrite length_overlay; lia).
        eapply okM_liftL; [done|apply Blockify_spec|intros _; lia|].
        intros out1 n3 Hout1.
        destruct (Z.leb_spec (sp + F1) 0) as [|_]; [lia|].
        destruct Hout1 as [_ ->].
        eapply okM_liftL; [done|apply Paste_copy_middle_spec|done|].
        intros out2 n4 ->.
        eapply okM_liftL;
          [done
          |apply Get_spec; [done|by apply Forall_positive_some|lia|lia|lia]
          | |].
        { intros _. lia. }
        intros buffer3 n5 (_ & ->). fold S3.
        rewrite (take_ge S3) by lia.
        assert (Hl3 : length (overlay buffer2 0 S3) = length buffer0)
          by (rewrite length_overlay; lia).
        eapply okM_liftL; [done|apply Read_spec; lia| |].
        { intros _. split; [done|]. lia. }
        intros buffer4 n6 (_ & _ & _ & _ & ->). fold B C.
        set (buffer4 := overlay _ L2 C).
        assert (Hl4 : length buffer4 = length buffer0)
          by (unfold buffer4; rewrite length_overlay; lia).
        eapply okM_liftL_tail; [done|apply Blockify_spec|intros _; lia|].
        intros out Hout. split; [done|].
        destruct (Z.leb_spec (blockLen blk - sp + L2) 0) as [|_]; [lia|].
        destruct Hout as [_ ->].
        destruct (Blockify_pieces_structure (mMaxSamples (this w))
                    (mSampleFormat (this w)) (SeqBlock_start blk) buffer2
                    (sp + F1)) as (Hx1 & Hx2 & Hx3); [lia|done|].
        destruct (Blockify_pieces_structure (mMaxSamples (this w))
                    (mSampleFormat (this w)) (s + SeqBlock_start pen) buffer4
                    (blockLen blk - sp + L2)) as (Hq1 & Hq2 & Hq3);
          [lia|done|].
        set (P1 := Blockify_pieces _ _ (SeqBlock_start blk) _ _) in *.
        set (P2 := Blockify_pieces _ _ (s + SeqBlock_start pen) _ _) in *.
        assert (HcM : chained F1 M).
        { unfold M. apply chained_take. rewrite <- HF1.
          by apply (chained_drop 0). }
        assert (HposM : Forall (fun x => 0 < blockLen x) M)
          by (unfold M; by apply Forall_take, Forall_drop).
        exists (P1 ++ map (fun x => Plus x s) M ++ P2).
        split; [by rewrite <- !app_assoc|].
        split; [|split; [|split; [|split]]].
        -- rewrite !chained_app. split; [done|]. rewrite Hx2. split.
           ++ replace (SeqBlock_start blk + (sp + F1)) with (F1 + s) by lia.
              by apply chained_Plus.
           ++ rewrite sumLen_Plus.
              replace (SeqBlock_start blk + (sp + F1) + sumLen M)
                with (s + SeqBlock_start pen) by lia.
              done.
        -- rewrite !sumLen_app, sumLen_Plus. lia.
        -- rewrite !Forall_app. split; [|split].
           ++ eapply Forall_impl; [exact Hx3|]. unfold goodBlock. intros x. cbn. lia.
           ++ by apply Forall_Plus.
           ++ eapply Forall_impl; [exact Hq3|]. unfold goodBlock. intros x. cbn. lia.
        -- intros Hid. rewrite !samplesOf_app, samplesOf_Plus. unfold P1, P2.
           rewrite !(Blockify_pieces_samples Hid); [|lia|done|lia|lia|done|lia].
           unfold buffer4. rewrite (overlay2_at buffer2 S3 C) by lia.
           unfold buffer2. rewrite (overlay2_at buffer0 A S1) by lia.
           assert (HSRC : SRC = S1 ++ samplesOf convert
                                        (mSampleFormat (this w)) M ++ S3).
           { unfold SRC, S1, S3. rewrite <- !samplesOf_app.
             by rewrite <- Hdec. }
           rewrite HSRC. by rewrite <- !app_assoc.
        -- intros (_ & _ & _ & Hfits). rewrite !Forall_app. split; [|split].
           ++ eapply Forall_impl; [exact Hx3|]. unfold goodBlock. intros x. cbn. lia.
           ++ apply Forall_Plus; [done|]. unfold M.
              by apply Forall_take, Forall_drop.
           ++ eapply Forall_impl; [exact Hq3|]. unfold goodBlock. intros x. cbn. lia.
Qed.

(** ** Delete *)

Lemma slice_drop (l : list Sample) (a n : Z) :
  0 <= a -> 0 <= n -> slice l a n ++ drop (Z.to_nat (a + n)) l
                      = drop (Z.to_nat a) l.
Proof.
  intros Ha Hn. unfold slice. rewrite Z2Nat.inj_add by lia.
  rewrite <- drop_drop. apply take_drop.
Qed.

Lemma slice_samples_at (format : sampleFormat) (bl : BlockArray) (i : nat)
    (b : SeqBlock) (p n : Z) :
  chained 0 bl -> bl !! i = Some b -> 0 <= p -> 0 <= n ->
  p + n <= blockLen b ->
  slice (samplesOf convert format bl) (SeqBlock_start b + p) n
  = slice (blockSamples convert format b) p n.
Proof.
  intros Hc Hb Hp Hn Hpn. unfold slice at 1.
  rewrite (drop_samples_at format bl i b p Hc Hb) by lia.
  rewrite take_app_le.
  - unfold slice. rewrite take_take. f_equal. lia.
  - pose proof (length_blockSamples format b).
    pose proof (length_slice (blockSamples convert format b) p
                  (blockLen b - p)). lia.
Qed.

Lemma Delete_rebuild (t : Sequence) (start len : Z) (k : nat) (bk : SeqBlock)
    (M : BlockArray) :
  Invariants t -> mBlock t !! k = Some bk -> 0 <= start -> 0 <= len ->
  start + len <= SeqBlock_start bk + blockLen bk ->
  chained 0 M -> sumLen M = SeqBlock_start bk + blockLen bk - len ->
  Forall (fun x => 0 < blockLen x) M ->
  (same_format_copy convert ->
   samplesOf convert (mSampleFormat t) M
   = take (Z.to_nat start) (samples convert t)
     ++ slice (samples convert t) (start + len)
          (SeqBlock_start bk + blockLen bk - (start + len))) ->
  let newBlock :=
    M ++ map (fun x => Plus x (- len)) (drop (k + 1) (mBlock t)) in
  let numSamples := mNumSamples t - len in
  (Forall (fun x => blockLen x <= mMaxSamples t) M ->
   consistent newBlock (mMaxSamples t) 0 numSamples) /\
  (consistent newBlock (mMaxSamples t) 0 numSamples ->
   deletePost convert start len t
     (set_mNumSamples numSamples (set_mBlock newBlock t))).
Proof.
  intros HI Hk Hs Hl He HcM HsM HpM Hcontent. cbv zeta.
  replace (k + 1)%nat with (S k) by lia.
  set (newBlock := M ++ _). set (numSamples := mNumSamples t - len).
  pose proof (Invariants_positive t HI) as Hpos.
  apply Invariants_chain in HI as (Hc & Hn & HG).
  pose proof (chained_start _ _ _ _ Hc Hk) as Hst.
  pose proof (sumLen_take_S _ _ _ Hk) as HS.
  pose proof (sumLen_take_drop (mBlock t) (S k)) as Hsplit.
  pose proof (chained_drop 0 (mBlock t) (S k) Hc) as Hcd.
  assert (HposN : Forall (fun x => 0 < blockLen x) newBlock).
  { unfold newBlock. rewrite Forall_app. split; [done|].
    apply Forall_Plus; [done|]. by apply Forall_drop. }
  assert (Hsum : sumLen newBlock = numSamples).
  { unfold newBlock, numSamples. rewrite sumLen_app, sumLen_Plus. lia. }
  split.
  - intros Hmax. unfold consistent. split; [|split; [lia|]].
    + unfold newBlock. rewrite chained_app. split; [done|].
      replace (0 + sumLen M) with (0 + sumLen (take (S k) (mBlock t)) + - len)
        by lia.
      by apply chained_Plus.
    + unfold newBlock. rewrite Forall_app. split.
      * apply Forall_and. split; [by apply Forall_positive_some|done].
      * apply Forall_Plus; [done|]. apply Forall_drop, Forall_and.
        split; [by apply Forall_positive_some|].
        eapply Forall_impl; [exact HG|]. unfold goodBlock. intros x. cbn. lia.
  - intros Hcons. unfold deletePost. split.
    { apply Invariants_consistent. done. }
    do 4 (split; [done|]). intros Hid. unfold samples.
    cbn [mSampleFormat mBlock set_mNumSamples set_mBlock].
    unfold newBlock. rewrite samplesOf_app, samplesOf_Plus, (Hcontent Hid).
    unfold samples. rewrite <- app_assoc. f_equal.
    pose proof (drop_samples_at (mSampleFormat t) (mBlock t) k bk
                  (blockLen bk) Hc Hk) as Hd.
    pose proof (blockLen_nonneg bk).
    rewrite Z.sub_diag in Hd. unfold slice at 1 in Hd. cbn [Z.to_nat] in Hd.
    rewrite take_0 in Hd. cbn [app] in Hd. rewrite <- Hd by lia.
    set (S0 := samplesOf convert (mSampleFormat t) (mBlock t)).
    replace (SeqBlock_start bk + blockLen bk)
      with (start + len + (SeqBlock_start bk + blockLen bk - (start + len)))
      at 2 by lia.
    apply slice_drop; lia.
Qed.

(** [Delete] on a sequence that satisfies the invariants: when it returns,
    the invariants hold again and the samples [start .. start + len - 1]
    are gone; when it throws, the sequence is as it was; for a range inside
    the sequence it throws only on a fault of the block store. *)
Lemma Delete_spec (start len : Z) (w : World) :
  Invariants (this w) ->
  wp (Delete convert io_fails guess_offset start len) w
    (okM io_fails (this w) (deleteValid start len (this w))
       (fun _ t' => deletePost convert start len (this w) t')).
Proof.
  intros HI. unfold Delete.
  destruct (Z.eqb_spec len 0) as [->|Hlen0].
  { apply wp_ret. cbn. unfold deletePost. split; [done|].
    do 3 (split; [done|]). split; [lia|]. intros _.
    rewrite Z.add_0_r. by rewrite take_drop. }
  apply wp_getThis_bind.
  destruct (Z.ltb_spec len 0) as [Hl0|Hl0].
  { cbn. split; [done|]. unfold deleteValid. lia. }
  destruct (Z.ltb_spec start 0) as [Hs0|Hs0].
  { cbn. split; [done|]. unfold deleteValid. lia. }
  destruct (Z.leb_spec (mNumSamples (this w)) start) as [Hs1|Hs1].
  { cbn. split; [done|]. unfold deleteValid. lia. }
  cbn [orb]. cbv zeta.
  pose proof HI as HI'. apply Invariants_chain in HI' as (Hc & Hn & HG).
  pose proof (Invariants_positive _ HI) as Hpos.
  assert (Hsome : Forall (fun x => is_Some (SeqBlock_f x)) (mBlock (this w)))
    by (by apply Forall_positive_some).
  destruct (holds_exists 0 (mBlock (this w)) start Hc ltac:(lia))
    as [b0 Hh0].
  assert (Hr0 : 0 <= start < mNumSamples (this w)) by lia.
  rewrite (FindBlock_holds _ _ b0 Hc Hn Hpos Hr0 Hh0).
  apply wp_liftR_bind.
  destruct (Z.lt_ge_cases (start + len - 1) (mNumSamples (this w)))
    as [Hend|Hend].
  2: { unfold FindBlock.
       replace ((0 <=? start + len - 1)
                && (start + len - 1 <? mNumSamples (this w))) with false
         by (symmetry; apply andb_false_iff; right; lia).
       apply wp_liftR_bind. cbn. unfold deleteValid. lia. }
  destruct (holds_exists 0 (mBlock (this w)) (start + len - 1) Hc ltac:(lia))
    as [b1 Hh1].
  assert (Hr1 : 0 <= start + len - 1 < mNumSamples (this w)) by lia.
  rewrite (FindBlock_holds _ _ b1 Hc Hn Hpos Hr1 Hh1).
  apply wp_liftR_bind.
  destruct Hh0 as (blk0 & Hb0 & Hin0). destruct Hh1 as (blk1 & Hb1 & Hin1).
  assert (Hle : (b0 <= b1)%nat).
  { destruct (Nat.le_gt_cases b0 b1) as [|Hgt]; [done|].
    pose proof (chained_ordered _ _ _ _ _ _ Hc Hgt Hb1 Hb0). lia. }
  pose proof (Forall_lookup_1 _ _ _ _ HG Hb0) as Hg0.
  pose proof (Forall_lookup_1 _ _ _ _ HG Hb1) as Hg1.
  unfold goodBlock in Hg0, Hg1.
  pose proof (Forall_lookup_1 _ _ _ _ Hsome Hb0) as Hsm0.
  pose proof (Forall_lookup_1 _ _ _ _ Hsome Hb1) as Hsm1.
  cbn beta in Hsm0, Hsm1.
  set (S0 := samples convert (this w)).
  set (fmt := mSampleFormat (this w)) in *.
  set (B0 := blockSamples convert fmt blk0).
  set (B1 := blockSamples convert fmt blk1).
  assert (HlB0 : Z.of_nat (length B0) = blockLen blk0)
    by apply length_blockSamples.
  assert (HlB1 : Z.of_nat (length B1) = blockLen blk1)
    by apply length_blockSamples.
  set (scratchSize := mMaxSamples (this w) + mMinSamples (this w)).
  pose proof (length_SampleBuffer scratchSize) as Hscr.
  eapply (wp_bind _ _ _ _).
  match goal with
  | |- wp ?m w _ =>
      assert (Hen : exists c, m w = (Ret c, w) /\
                (c = true -> b0 = b1 /\
                   mMinSamples (this w) <= blockLen blk0 - len))
  end.
  { destruct (Nat.eqb_spec b0 b1) as [Heq|Hne]; [|by exists false].
    unfold bind, at_index, deref, ret. rewrite Hb0. cbn.
    destruct (Forall_lookup_1 _ _ _ _ Hsome Hb0) as [f0 Hf0].
    rewrite Hf0. cbn. eexists. split; [done|]. intros Ht.
    split; [done|]. unfold blockLen. rewrite Hf0. lia. }
  destruct Hen as (c & Hen & Hct). unfold wp at 1. rewrite Hen.
  cbn [fst snd]. clear Hen. destruct c.
  - (* the samples are cut out of one block *)
    destruct (Hct eq_refl) as [<- Hmin]. clear Hct.
    rewrite Hb0 in Hb1. injection Hb1 as <-.
    wp_block Hb0 Hpos bf Hbl.
    apply wp_as_size_t_bind; [lia|]. intros _.
    set (pos := start - SeqBlock_start blk0).
    apply wp_wxASSERT_bind.
    { intros Hfalse. apply Z.ltb_ge in Hfalse. cbn. unfold deleteValid. lia. }
    intros Hlt. apply Z.ltb_lt in Hlt.
    apply wp_as_size_t_bind; [lia|]. intros _.
    eapply okM_liftL; [done|apply Read_spec; lia| |].
    { unfold deleteValid. intros (_ & _ & _ & Hv). split; [done|]. lia. }
    intros buffer1 n1 (_ & _ & _ & Hfit1 & ->). fold B0.
    apply wp_as_size_t_bind; [lia|]. intros _.
    eapply okM_liftL; [done|apply Read_spec; lia| |].
    { unfold deleteValid. intros (_ & _ & _ & Hv). split; [done|].
      rewrite length_overlay; [lia|lia|].
      rewrite length_slice; lia. }
    intros buffer2 n2 (_ & _ & _ & Hfit2 & ->). fold B0.
    eapply okM_liftL; [done|apply NewSimpleBlockFile_spec|done|].
    intros file n3 ->.
    apply wp_modifyThis_bind, wp_modifyThis_bind, wp_modifyThis_bind.
    apply wp_getThis_bind. cbn [this calls mBlock mNumSamples mMaxSamples
      set_mBlock set_mNumSamples].
    rewrite shift_from_insert by (by eapply lookup_lt_Some).
    set (newLen := blockLen blk0 - len) in *.
    set (buffer2 := overlay _ pos _) in *.
    set (nb := mkSeqBlock _ (SeqBlock_start blk0)).
    assert (Hnbl : blockLen nb = newLen) by (apply blockLen_resized; lia).
    pose proof (chained_start _ _ _ _ Hc Hb0) as Hst0.
    assert (HlA : Z.of_nat (length (slice B0 0 pos)) = pos)
      by (apply length_slice; lia).
    assert (HlC : Z.of_nat (length (slice B0 (pos + len) (newLen - pos)))
                  = newLen - pos) by (apply length_slice; lia).
    assert (Hl1 : length (overlay (SampleBuffer scratchSize) 0
                            (slice B0 0 pos))
                  = length (SampleBuffer scratchSize))
      by (apply length_overlay; lia).
    assert (Hlen2 : newLen <= Z.of_nat (length buffer2)).
    { unfold buffer2. rewrite length_overlay; lia. }
    destruct (Delete_rebuild (this w) start len b0 blk0
                (take b0 (mBlock (this w)) ++ [nb]) HI Hb0)
      as [Hcons Hpost]; [lia|lia|lia| | | | |].
    { rewrite chained_app. split; [by apply chained_take|]. cbn. lia. }
    { rewrite sumLen_app.
      change (sumLen [nb]) with (blockLen nb + 0). lia. }
    { rewrite Forall_app. split; [by apply Forall_take|].
      apply Forall_singleton. lia. }
    { intros Hid. rewrite samplesOf_app, samplesOf_cons.
      unfold samplesOf at 2.
      cbn [map concat]. rewrite app_nil_r. fold fmt S0. unfold nb.
      rewrite (blockSamples_new Hid) by lia.
      unfold buffer2. rewrite (overlay2_at _ (slice B0 0 pos)) by lia.
      rewrite app_assoc. f_equal.
      - replace start with (SeqBlock_start blk0 + pos) by (unfold pos; lia).
        unfold S0, samples. fold fmt.
        by rewrite (take_samples_at fmt _ b0 blk0 pos Hc Hb0) by lia.
      - replace (start + len) with (SeqBlock_start blk0 + (pos + len))
          by (unfold pos; lia).
        unfold S0, samples. fold fmt.
        rewrite (slice_samples_at fmt _ b0 blk0) by (done || lia).
        fold B0. f_equal. unfold newLen, pos. lia. }
    rewrite (cons_middle nb), app_assoc.
    replace (S b0) with (b0 + 1)%nat by lia.
    assert (Hmaxnb : Forall (fun x => blockLen x <= mMaxSamples (this w))
                       (take b0 (mBlock (this w)) ++ [nb])).
    { rewrite Forall_app. split.
      - apply Forall_take. eapply Forall_impl; [exact HG|].
        unfold goodBlock. intros x. cbn. lia.
      - apply Forall_singleton. lia. }
    specialize (Hcons Hmaxnb).
    apply ConsistencyCheck_0 in Hcons as Hcheck.
    unfold liftR, ConsistencyCheck, wp. rewrite Hcheck. cbn.
    by apply Hpost.
  - (* the general case: a new array is made *)
    clear Hct.
    set (blocks := mBlock (this w)) in *.
    set (maxS := mMaxSamples (this w)) in *.
    set (minS := mMinSamples (this w)) in *.
    apply wp_at_index_bind; [by rewrite Hb0|].
    intros x Hx. rewrite Hb0 in Hx. injection Hx as <-.
    apply wp_as_size_t_bind; [lia|]. intros _.
    set (pre := start - SeqBlock_start blk0).
    pose proof (chained_start _ _ _ _ Hc Hb0) as Hst0.
    pose proof (chained_start _ _ _ _ Hc Hb1) as Hst1.
    assert (HGle : Forall (fun x => blockLen x <= maxS) blocks).
    { eapply Forall_impl; [exact HG|]. unfold goodBlock. intros x. cbn. lia. }
    set (Ppre := fun r : BlockArray * option (list Sample) =>
      chained 0 (fst r) /\ sumLen (fst r) = start /\
      Forall (goodBlock maxS) (fst r) /\
      (same_format_copy convert ->
       samplesOf convert fmt (fst r) = take (Z.to_nat start) S0) /\
      (forall buf, snd r = Some buf ->
         Z.of_nat (length buf) = Z.max 0 scratchSize)).
    apply (okM_bind _ _ _ _ _ Ppre).
    { destruct (Z.eqb_spec pre 0) as [Hpre0|Hpre0]; cbn [negb].
      { apply wp_ret. cbn. split; [done|]. unfold Ppre. cbn [fst snd].
        split; [by apply chained_take|]. split; [unfold pre in Hpre0; lia|].
        split; [by apply Forall_take|]. split; [|done]. intros _.
        replace start with (SeqBlock_start blk0 + 0)
          by (unfold pre in Hpre0; lia).
        unfold S0, samples. fold fmt blocks.
        rewrite (take_samples_at fmt _ b0 blk0 0 Hc Hb0) by lia.
        unfold slice. cbn [Z.to_nat]. by rewrite take_0, app_nil_r. }
      destruct ((minS <=? pre) || (b0 =? 0)%nat) eqn:Hown.
      - (* the samples before the cut make a block of their own *)
        eapply okM_liftL; [done|apply Read_spec; lia| |].
        { unfold deleteValid. intros (_ & _ & _ & Hv). split; [done|].
          fold minS in Hv. unfold pre. lia. }
        intros buffer1 n1 (_ & _ & _ & Hfit1 & ->). fold B0.
        eapply okM_liftL; [done|apply NewSimpleBlockFile_spec|done|].
        intros file n2 ->. apply wp_ret. cbn. split; [done|].
        unfold Ppre. cbn [fst snd].
        set (nb := mkSeqBlock _ (SeqBlock_start blk0)).
        assert (Hnbl : blockLen nb = pre) by (apply blockLen_resized; lia).
        assert (HlA : Z.of_nat (length (slice B0 0 pre)) = pre)
          by (apply length_slice; lia).
        assert (Hl1 : length (overlay (SampleBuffer scratchSize) 0
                                (slice B0 0 pre))
                      = length (SampleBuffer scratchSize))
          by (apply length_overlay; lia).
        split; [|split; [|split; [|split]]].
        + rewrite chained_app. split; [by apply chained_take|]. cbn.
          fold blocks. lia.
        + rewrite sumLen_app. change (sumLen [nb]) with (blockLen nb + 0).
          fold blocks. unfold pre in *. lia.
        + rewrite Forall_app. split; [by apply Forall_take|].
          apply Forall_singleton. unfold goodBlock. lia.
        + intros Hid. rewrite samplesOf_app, samplesOf_cons.
          unfold samplesOf at 2.
          cbn [map concat]. rewrite app_nil_r. unfold nb.
          rewrite (blockSamples_new Hid) by lia.
          rewrite (overlay1_at _ (slice B0 0 pre)) by lia.
          replace start with (SeqBlock_start blk0 + pre) at 1
            by (unfold pre; lia).
          unfold S0, samples. fold fmt blocks.
          by rewrite (take_samples_at fmt _ b0 blk0 pre Hc Hb0) by lia.
        + intros buf [= <-]. rewrite Hl1. done.
      - (* they are joined with the block before *)
        apply orb_false_iff in Hown as [Hsmall Hnz].
        apply Z.leb_gt in Hsmall. apply Nat.eqb_neq in Hnz.
        destruct (lookup_lt_is_Some_2 blocks (b0 - 1)) as [bpp Hbpp].
        { apply lookup_lt_Some in Hb0. lia. }
        wp_block Hbpp Hpos ppf Hlpp.
        assert (Hsmpp : is_Some (SeqBlock_f bpp)) by (by eexists).
        pose proof (chained_start _ _ _ _ Hc Hbpp) as Hstpp.
        pose proof (sumLen_take_S _ _ _ Hbpp) as HSpp.
        replace (S (b0 - 1)) with b0 in HSpp by lia.
        pose proof (Forall_lookup_1 _ _ _ _ HGle Hbpp) as Hgpp.
        cbn beta in Hgpp.
        set (Bpp := blockSamples convert fmt bpp).
        assert (HlBpp : Z.of_nat (length Bpp) = blockLen bpp)
          by apply length_blockSamples.
        eapply okM_liftL; [done|apply Read_spec; lia| |].
        { unfold deleteValid. intros (_ & _ & _ & Hv). split; [done|].
          fold minS in Hv. lia. }
        intros buffer1 n1 (_ & _ & _ & Hfit1 & ->). fold Bpp.
        rewrite (slice_0_all Bpp) by lia.
        assert (Hl1 : length (overlay (SampleBuffer scratchSize) 0 Bpp)
                      = length (SampleBuffer scratchSize))
          by (apply length_overlay; lia).
        eapply okM_liftL; [done|apply Read_spec; lia| |].
        { unfold deleteValid. intros (_ & _ & _ & Hv). split; [done|].
          fold minS in Hv. lia. }
        intros buffer2 n2 (_ & _ & _ & Hfit2 & ->). fold B0.
        assert (HlA : Z.of_nat (length (slice B0 0 pre)) = pre)
          by (apply length_slice; lia).
        set (buffer2 := overlay _ (blockLen bpp) _).
        assert (Hl2 : length buffer2 = length (SampleBuffer scratchSize))
          by (unfold buffer2; rewrite length_overlay; lia).
        eapply okM_liftL; [done|apply Blockify_spec|intros _; lia|].
        intros out n3 Hout.
        destruct (Z.leb_spec (blockLen bpp + pre) 0) as [|_]; [lia|].
        destruct Hout as [_ ->]. apply wp_ret. cbn. split; [done|].
        unfold Ppre. cbn [fst snd].
        rewrite length_take, take_take.
        replace ((b0 `min` length blocks - 1) `min` b0)%nat with (b0 - 1)%nat
          by (apply lookup_lt_Some in Hb0; lia).
        destruct (Blockify_pieces_structure maxS fmt (SeqBlock_start bpp)
                    buffer2 (blockLen bpp + pre)) as (Hx1 & Hx2 & Hx3);
          [lia|lia|].
        split; [|split; [|split; [|split]]].
        + rewrite chained_app. split; [by apply chained_take|].
          by rewrite <- Hstpp.
        + rewrite sumLen_app, Hx2. unfold pre. lia.
        + rewrite Forall_app. split; [by apply Forall_take|done].
        + intros Hid. rewrite samplesOf_app.
          rewrite (Blockify_pieces_samples Hid) by lia.
          unfold buffer2. rewrite (overlay2_at _ Bpp (slice B0 0 pre)) by lia.
          replace start with (SeqBlock_start blk0 + pre) at 1
            by (unfold pre; lia).
          unfold S0, samples. fold fmt blocks.
          rewrite (take_samples_at fmt _ b0 blk0 pre Hc Hb0) by lia.
          fold B0. rewrite app_assoc. f_equal.
          replace b0 with (S (b0 - 1)) at 2 by lia.
          rewrite (take_S_r _ _ _ Hbpp), samplesOf_app.
          f_equal. unfold samplesOf. cbn. by rewrite app_nil_r.
        + intros buf [= <-]. rewrite Hl2. done. }
    intros [newBlock scratch] w1 Hw1 (Hq1 & Hq2 & Hq3 & Hq4 & Hq5).
    cbn [fst snd] in *.
    wp_block Hb1 Hpos postf Hlpost.
    apply wp_as_size_t_bind; [lia|]. intros _.
    set (postLen := SeqBlock_start blk1 + blockLen blk1 - (start + len)).
    set (pos1 := start + len - SeqBlock_start blk1).
    set (Ppost := fun r : BlockArray * nat =>
      exists bk, blocks !! snd r = Some bk /\
        start + len <= SeqBlock_start bk + blockLen bk /\
        chained 0 (fst r) /\
        sumLen (fst r) = SeqBlock_start bk + blockLen bk - len /\
        Forall (goodBlock maxS) (fst r) /\
        (same_format_copy convert ->
         samplesOf convert fmt (fst r)
         = take (Z.to_nat start) S0
           ++ slice S0 (start + len)
                (SeqBlock_start bk + blockLen bk - (start + len)))).
    apply (okM_bind _ _ _ _ _ Ppost).
    2: { intros [M k] w2 Hw2 (bk & Hk & He & Hm1 & Hm2 & Hm3 & Hm4).
         cbn [fst snd] in *.
         destruct (Delete_rebuild (this w) start len k bk M HI Hk)
           as [Hcons Hpost]; [lia|lia|lia|done|done| |done|].
         { eapply Forall_impl; [exact Hm3|]. unfold goodBlock.
           intros x. cbn. lia. }
         apply okM_commit; [done| |done].
         intros _. apply Hcons. eapply Forall_impl; [exact Hm3|].
         unfold goodBlock. intros x. cbn. lia. }
    destruct (Z.eqb_spec postLen 0) as [Hpost0|Hpost0]; cbn [negb].
    { apply wp_ret. cbn. split; [done|]. exists blk1. cbn [fst snd].
      split; [done|]. split; [unfold postLen in Hpost0; lia|].
      split; [done|]. split; [unfold postLen in Hpost0; lia|].
      split; [done|]. intros Hid. fold postLen. rewrite Hpost0, (Hq4 Hid).
      unfold slice. cbn [Z.to_nat]. by rewrite take_0, app_nil_r. }
    assert (Hpostp : 0 < postLen) by (unfold postLen in *; lia).
    assert (Hslice1 : forall n, 0 <= n -> n <= postLen ->
              slice S0 (start + len) n = slice B1 pos1 n).
    { intros n Hn0 Hn1.
      replace (start + len) with (SeqBlock_start blk1 + pos1)
        by (unfold pos1; lia).
      unfold S0, samples. fold fmt blocks.
      apply (slice_samples_at fmt _ b1 blk1); try done;
        unfold pos1, postLen in *; lia. }
    destruct ((minS <=? postLen) || (b1 =? length blocks - 1)%nat) eqn:Hown.
    + (* the samples after the cut make a block of their own *)
      set (scratch1 := match scratch with
                       | Some buf => buf
                       | None => SampleBuffer postLen
                       end).
      assert (Hscr1 : deleteValid start len (this w) ->
                postLen <= Z.of_nat (length scratch1)).
      { unfold deleteValid. intros (_ & _ & _ & Hv). fold minS in Hv.
        unfold scratch1. destruct scratch as [buf|].
        - rewrite (Hq5 buf eq_refl). unfold scratchSize, postLen. lia.
        - rewrite length_SampleBuffer. lia. }
      apply wp_as_size_t_bind; [unfold postLen in *; lia|]. intros _.
      fold pos1.
      eapply okM_liftL; [done|apply Read_spec; unfold pos1; lia| |].
      { intros Hv. split; [done|]. specialize (Hscr1 Hv).
        unfold pos1, postLen in *. lia. }
      intros buffer1 n1 (_ & _ & _ & Hfit1 & ->). fold B1.
      eapply okM_liftL; [done|apply NewSimpleBlockFile_spec|done|].
      intros file n2 ->. apply wp_ret. cbn. split; [done|].
      exists blk1. cbn [fst snd]. fold postLen.
      set (nb := mkSeqBlock _ start).
      assert (Hnbl : blockLen nb = postLen) by (apply blockLen_resized; lia).
      assert (HlA : Z.of_nat (length (slice B1 pos1 postLen)) = postLen)
        by (apply length_slice; unfold pos1, postLen in *; lia).
      assert (Hl1 : length (overlay scratch1 0 (slice B1 pos1 postLen))
                    = length scratch1) by (apply length_overlay; lia).
      split; [done|]. split; [lia|]. split; [|split; [|split]].
      * rewrite chained_app. split; [done|]. cbn. lia.
      * rewrite sumLen_app. change (sumLen [nb]) with (blockLen nb + 0).
        unfold postLen in *. lia.
      * rewrite Forall_app. split; [done|]. apply Forall_singleton.
        unfold goodBlock, postLen in *. lia.
      * intros Hid. rewrite samplesOf_app, (Hq4 Hid). f_equal.
        rewrite samplesOf_cons.
        unfold samplesOf. cbn [map concat]. rewrite app_nil_r. unfold nb.
        rewrite (blockSamples_new Hid) by lia.
        rewrite (overlay1_at _ (slice B1 pos1 postLen)) by lia.
        symmetry. apply Hslice1; lia.
    + (* they are joined with the block after *)
      apply orb_false_iff in Hown as [Hsmall Hnl].
      apply Z.leb_gt in Hsmall. apply Nat.eqb_neq in Hnl.
      destruct (lookup_lt_is_Some_2 blocks (b1 + 1)) as [bpp Hbpp].
      { apply lookup_lt_Some in Hb1. lia. }
      wp_block Hbpp Hpos ppf Hlpp.
      assert (Hsmpp : is_Some (SeqBlock_f bpp)) by (by eexists).
      pose proof (chained_start _ _ _ _ Hc Hbpp) as Hstpp.
      pose proof (sumLen_take_S _ _ _ Hb1) as HSpp.
      replace (S b1) with (b1 + 1)%nat in HSpp by lia.
      pose proof (Forall_lookup_1 _ _ _ _ HGle Hbpp) as Hgpp.
      cbn beta in Hgpp.
      set (Bpp := blockSamples convert fmt bpp).
      assert (HlBpp : Z.of_nat (length Bpp) = blockLen bpp)
        by apply length_blockSamples.
      set (sum := blockLen bpp + postLen).
      set (scratch1 := match scratch with
                       | Some buf => buf
                       | None => SampleBuffer sum
                       end).
      assert (Hscr1 : deleteValid start len (this w) ->
                sum <= Z.of_nat (length scratch1)).
      { unfold deleteValid. intros (_ & _ & _ & Hv). fold minS in Hv.
        unfold scratch1. destruct scratch as [buf|].
        - rewrite (Hq5 buf eq_refl). unfold scratchSize, sum. lia.
        - rewrite length_SampleBuffer. lia. }
      apply wp_as_size_t_bind; [unfold postLen in *; lia|]. intros _.
      fold pos1.
      eapply okM_liftL; [done|apply Read_spec; unfold pos1; lia| |].
      { intros Hv. split; [done|]. specialize (Hscr1 Hv).
        unfold pos1, postLen, sum in *. lia. }
      intros buffer1 n1 (_ & _ & _ & Hfit1 & ->). fold B1.
      assert (HlA : Z.of_nat (length (slice B1 pos1 postLen)) = postLen)
        by (apply length_slice; unfold pos1, postLen in *; lia).
      assert (Hl1 : length (overlay scratch1 0 (slice B1 pos1 postLen))
                    = length scratch1) by (apply length_overlay; lia).
      eapply okM_liftL; [done|apply Read_spec; lia| |].
      { intros Hv. split; [done|]. specialize (Hscr1 Hv).
        unfold sum in *. lia. }
      intros buffer2 n2 (_ & _ & _ & Hfit2 & ->). fold Bpp.
      rewrite (slice_0_all Bpp) by lia.
      set (buffer2 := overlay _ postLen Bpp).
      assert (Hl2 : length buffer2 = length scratch1)
        by (unfold buffer2; rewrite length_overlay; lia).
      eapply okM_liftL; [done|apply Blockify_spec|intros _; lia|].
      intros out n3 Hout. fold sum in Hout.
      destruct (Z.leb_spec sum 0) as [|_]; [unfold sum in *; lia|].
      destruct Hout as [_ ->]. apply wp_ret. cbn. split; [done|].
      exists bpp. cbn [fst snd].
      destruct (Blockify_pieces_structure maxS fmt start buffer2 sum)
        as (Hx1 & Hx2 & Hx3); [unfold sum; lia|lia|].
      assert (Hepp : SeqBlock_start bpp + blockLen bpp - (start + len)
                     = postLen + blockLen bpp)
        by (unfold postLen; lia).
      split; [done|]. split; [lia|]. split; [|split; [|split]].
      * rewrite chained_app. split; [done|]. by rewrite Hq2.
      * rewrite sumLen_app, Hx2. unfold sum, postLen. lia.
      * rewrite Forall_app. split; done.
      * intros Hid. rewrite samplesOf_app, (Hq4 Hid). f_equal.
        rewrite (Blockify_pieces_samples Hid) by (unfold sum in *; lia).
        unfold buffer2.
        rewrite (overlay2_at _ (slice B1 pos1 postLen) Bpp)
          by (unfold sum in *; lia).
        rewrite Hepp, <- slice_app by lia. f_equal.
        -- symmetry. apply Hslice1; lia.
        -- replace (start + len + postLen) with (SeqBlock_start bpp + 0)
            by (unfold postLen; lia).
          unfold S0, samples. fold fmt blocks.
          rewrite (slice_samples_at fmt _ (b1 + 1) bpp) by (done || lia).
          fold Bpp. symmetry. apply slice_0_all. lia.
Qed.

(** ** Paste, then delete *)

Lemma paste_delete_samples (S SRC : list Sample) (offset n : Z) :
  0 <= offset <= Z.of_nat (length S) -> Z.of_nat (length SRC) = n ->
  let S1 := take (Z.to_nat offset) S ++ SRC ++ drop (Z.to_nat offset) S in
  take (Z.to_nat offset) S1 ++ drop (Z.to_nat (offset + n)) S1 = S.
Proof.
  intros Ho Hn. cbv zeta.
  rewrite take_app_length' by (rewrite length_take; lia).
  rewrite (app_assoc _ SRC).
  rewrite drop_app_length' by (rewrite length_app, length_take; lia).
  apply take_drop.
Qed.

(** C4: on a sequence [this] that satisfies the invariants, with an offset
    [0 <= offset <= numSamples] and a source of the same format that
    satisfies the invariants and whose samples do not make the count
    overflow, [Paste(offset, src)] followed by
    [Delete(offset, src.numSamples)], when it returns, leaves a sequence
    with the samples (and the sample count) of the original one at every
    position, and with the invariants.  The pair of calls returns unless
    the block store fails, when the blocks of the source fit the block
    size of [this] and the minimum block size is positive.  Samples are
    compared as read in the format of the sequence, a copy between equal
    formats leaving them unchanged. *)
Theorem Paste_then_Delete_restores (offset : Z) (src : Sequence) (w : World) :
  same_format_copy convert ->
  Invariants (this w) -> Invariants src ->
  0 <= offset <= mNumSamples (this w) ->
  mSampleFormat src = mSampleFormat (this w) ->
  mNumSamples (this w) + mNumSamples src <= 2 ^ 63 - 1 ->
  let r := (Paste convert io_fails guess_offset offset src;;
            Delete convert io_fails guess_offset offset (mNumSamples src)) w in
  (forall v, fst r = Ret v ->
     samples convert (this (snd r)) = samples convert (this w) /\
     mNumSamples (this (snd r)) = mNumSamples (this w) /\
     Invariants (this (snd r))) /\
  (0 < mMinSamples (this w) ->
   Forall (fun b => blockLen b <= mMaxSamples (this w)) (mBlock src) ->
   fst r = Ret tt \/ (fst r = Throw FileException /\ has_fault io_fails)).
Proof.
  intros Hid HI HIs Ho Hfmt Hsum. cbv zeta.
  pose proof (Paste_spec offset src w HI HIs) as HP.
  unfold bind. unfold wp in HP.
  destruct (Paste convert io_fails guess_offset offset src w)
    as [[[]|e|] w1]; cbn [fst snd] in *.
  - destruct HP as (HI1 & Hf1 & Hmin1 & Hmax1 & Hn1 & HS1).
    specialize (HS1 Hid).
    pose proof (Delete_spec offset (mNumSamples src) w1 HI1) as HD.
    unfold wp in HD.
    pose proof (Invariants_chain src) as [Hsrc _].
    destruct (Hsrc HIs) as (_ & Hns & _).
    pose proof (sumLen_nonneg (mBlock src)) as Hnn.
    assert (Hv : 0 < mMinSamples (this w) ->
                 deleteValid offset (mNumSamples src) (this w1)).
    { intros Hm. unfold deleteValid. lia. }
    destruct (Delete convert io_fails guess_offset offset (mNumSamples src) w1)
      as [[[]|e|] w2]; cbn [fst snd] in *.
    + destruct HD as (HI2 & _ & _ & _ & Hn2 & HS2). specialize (HS2 Hid).
      split; [|by left]. intros v _. split; [|split; [lia|done]].
      rewrite HS2, HS1.
      pose proof (length_samplesOf (mSampleFormat (this w)) (mBlock (this w)))
        as HlS.
      pose proof (length_samplesOf (mSampleFormat src) (mBlock src)) as HlR.
      pose proof (Invariants_chain (this w)) as [Ht _].
      destruct (Ht HI) as (_ & Hnt & _).
      apply paste_delete_samples; unfold samples; lia.
    + destruct HD as [_ HD]. split; [done|]. intros Hm _. right.
      destruct (HD (Hv Hm)) as [He Hfault]. by rewrite He.
    + split; [done|]. intros Hm _. exfalso. by apply HD, Hv.
  - destruct HP as [_ HP]. split; [done|]. intros Hm Hfit. right.
    destruct HP as [He Hfault]; [unfold pasteValid; done|]. by rewrite He.
  - split; [done|]. intros Hm Hfit. exfalso. apply HP. unfold pasteValid. done.
Qed.

End Properties.

(** * Further properties of the operations *)

Section More.

Variable SAMPLE_SIZE : sampleFormat -> Z.
Variable convert : sampleFormat -> sampleFormat -> Sample -> Sample.
Variable sMaxDiskBlockSize : Z.
Variable io_fails : nat -> bool.
Variable guess_offset : Z -> Z -> nat -> nat.

Set Default Proof Using "Type".
Set Proof Using Clear Unused.

(** The step [block[i]] followed by [block[i].f->GetLength()], for a block
    that is known to be there. *)
Ltac wp_block Hlk HF f Hlen :=
  apply wp_at_index_bind; [by rewrite Hlk|];
  let x := fresh in
  let Hx := fresh in
  intros x Hx; rewrite Hlk in Hx; injection Hx as <-;
  let Hp := fresh "Hp" in
  pose proof (Forall_lookup_1 _ _ _ _ HF Hlk) as Hp; cbn beta in Hp;
  apply wp_deref_bind;
  [let Hn := fresh in
   intros Hn; unfold blockLen in Hp; rewrite Hn in Hp; lia|];
  let Hf := fresh "Hf" in
  intros f Hf;
  match type of Hlk with
  | _ = Some ?blk =>
      assert (Hlen : blockLen blk = GetLength f)
        by (unfold blockLen; by rewrite Hf)
  end;
  rewrite <- ?Hlen.

(** ** The consistency check and the commit *)

(** X1: the consistency check of a sequence passes exactly when I1 to I4
    hold and no block file is missing; it does not look for empty blocks
    (I5).  When it fails it throws [InconsistencyException], or has no
    defined outcome (an assertion) when it may not throw. *)
Theorem ConsistencyCheck_passes (s : Sequence) (mayThrow : bool) :
  let ok := I1 s /\ I2 s /\ I3 s /\ I4 s /\
            Forall (fun b => is_Some (SeqBlock_f b)) (mBlock s) in
  let r := ConsistencyCheck (mBlock s) (mMaxSamples s) 0 (mNumSamples s)
             mayThrow in
  (r = Ret tt <-> ok) /\
  (~ ok ->
   r = if mayThrow then Throw InconsistencyException else Undefined).
Proof.
  cbv zeta. unfold ConsistencyCheck.
  pose proof (ConsistencyCheck_0 (mBlock s) (mMaxSamples s) (mNumSamples s))
    as H.
  assert (Hiff : consistent (mBlock s) (mMaxSamples s) 0 (mNumSamples s) <->
                 I1 s /\ I2 s /\ I3 s /\ I4 s /\
                 Forall (fun b => is_Some (SeqBlock_f b)) (mBlock s)).
  { unfold consistent, I1, I2, I3, I4. rewrite chained_lookup_iff.
    rewrite Forall_and, Z.add_0_l, !Forall_forall. tauto. }
  rewrite <- Hiff.
  destruct (ConsistencyCheck_bError _ _ _ _).
  - split; [|done]. split; [by destruct mayThrow|].
    intros Hc. apply H in Hc. done.
  - split; [|intros Hn; exfalso; by apply Hn, H]. split; [|done].
    intros _. by apply H.
Qed.

(** X2: [CommitChangesIfConsistent] is all or nothing: when the new array
    and count are consistent (starts chained from 0, lengths adding up to
    the count, no missing file, no block above [maxSamples]) they replace
    the old ones; otherwise [InconsistencyException] is thrown and the
    sequence is as before. *)
Theorem CommitChangesIfConsistent_all_or_nothing (newBlock : BlockArray)
    (numSamples : Z) (w : World) :
  let r := CommitChangesIfConsistent newBlock numSamples w in
  (consistent newBlock (mMaxSamples (this w)) 0 numSamples /\
   r = (Ret tt,
        mkWorld (set_mNumSamples numSamples (set_mBlock newBlock (this w)))
          (calls w))) \/
  (~ consistent newBlock (mMaxSamples (this w)) 0 numSamples /\
   r = (Throw InconsistencyException, w)).
Proof.
  cbv zeta. unfold CommitChangesIfConsistent, bind, getThis, liftR,
    modifyThis, ConsistencyCheck.
  pose proof (ConsistencyCheck_0 newBlock (mMaxSamples (this w)) numSamples)
    as H.
  destruct (ConsistencyCheck_bError _ _ _ _).
  - right. split; [|done]. intros Hc. apply H in Hc. done.
  - left. split; [by apply H|done].
Qed.

(** X3: [AppendBlocksIfConsistent] with nothing to add changes nothing;
    otherwise, when it returns, the new blocks follow the old ones (or
    replace the last one) and the count is the new one, and when the check
    throws, the array is cut back and the last block it took off is put
    back: the sequence is as before. *)
Theorem AppendBlocksIfConsistent_restores (additional : BlockArray)
    (replaceLast : bool) (numSamples : Z) (w : World) :
  let t := this w in
  let init := if replaceLast then take (length (mBlock t) - 1) (mBlock t)
              else mBlock t in
  let r := AppendBlocksIfConsistent additional replaceLast numSamples w in
  (additional = [] -> r = (Ret tt, w)) /\
  (additional <> [] -> fst r = Ret tt ->
   this (snd r) = set_mNumSamples numSamples
                    (set_mBlock (init ++ additional) t)) /\
  (forall e, fst r = Throw e ->
     e = InconsistencyException /\ this (snd r) = t) /\
  fst r <> Undefined.
Proof.
  cbv zeta. destruct additional as [|a additional]; [done|].
  split; [done|]. destruct w as [[f mi ma bl num eo] n].
  assert (Hlast : forall (l : BlockArray) x,
            take (length (l ++ [x]) - 1) (l ++ [x]) = l).
  { intros l x. rewrite length_app. cbn [length].
    replace (length l + 1 - 1)%nat with (length l) by lia.
    apply take_app_length. }
  unfold AppendBlocksIfConsistent, bind, getThis, finally, modifyThis, liftR,
    ret, ConsistencyCheck.
  cbn [this calls mBlock set_mBlock fst snd].
  destruct replaceLast; [destruct bl as [|x l _] using rev_ind|].
  - cbn [last length Nat.sub take this calls mBlock set_mBlock mMaxSamples
         app fst snd].
    destruct (ConsistencyCheck_bError _ _ _ _);
      cbn [fst snd completed this calls mBlock set_mBlock take length];
      repeat split; try done; congruence.
  - rewrite last_snoc.
    cbn [this calls mBlock set_mBlock mMaxSamples fst snd].
    rewrite !Hlast.
    destruct (ConsistencyCheck_bError _ _ _ _);
      cbn [fst snd completed this calls mBlock set_mBlock];
      repeat split; try done; try congruence;
      by rewrite take_app_length.
  - cbn [this calls mBlock set_mBlock mMaxSamples fst snd].
    destruct (ConsistencyCheck_bError _ _ _ _);
      cbn [fst snd completed this calls mBlock set_mBlock];
      repeat split; try done; try congruence;
      by rewrite take_app_length.
Qed.

(** ** Paste *)

(** X4: on sequences that satisfy the invariants and whose counts sum
    to at most [2^63 - 1], a [Paste] that returns has put the samples of
    the source at offset [s], between the samples before and after it;
    the count is the sum of the two counts, the invariants hold again
    and the format and the block sizes are kept.  Samples are read in
    the format of the sequence, a copy between equal formats leaving
    them unchanged. *)
Theorem Paste_inserts (s : Z) (src : Sequence) (w w' : World) :
  same_format_copy convert ->
  Invariants (this w) -> Invariants src ->
  mNumSamples (this w) + mNumSamples src <= 2 ^ 63 - 1 ->
  Paste convert io_fails guess_offset s src w = (Ret tt, w') ->
  samples convert (this w')
  = take (Z.to_nat s) (samples convert (this w)) ++ samples convert src
    ++ drop (Z.to_nat s) (samples convert (this w)) /\
  mNumSamples (this w') = mNumSamples (this w) + mNumSamples src /\
  Invariants (this w') /\
  mSampleFormat (this w') = mSampleFormat (this w) /\
  mMinSamples (this w') = mMinSamples (this w) /\
  mMaxSamples (this w') = mMaxSamples (this w).
Proof.
  intros Hid HI HIs _ Hrun.
  pose proof (Paste_spec convert io_fails guess_offset s src w HI HIs) as H.
  unfold wp in H. rewrite Hrun in H. cbn in H.
  destruct H as (H1 & H2 & H3 & H4 & H5 & H6).
  split; [by apply H6|]. done.
Qed.

(** X5: [Paste] gives the strong guarantee: when it throws, the sequence
    is as it was.  With an offset inside the sequence, equal formats, a
    sum of the counts that fits 63 bits and source blocks not longer than
    [maxSamples], it returns, or throws [FileException] because the block
    store failed: it throws no [InconsistencyException] and fails no
    assertion. *)
Theorem Paste_strong_guarantee (s : Z) (src : Sequence) (w : World) :
  Invariants (this w) -> Invariants src ->
  let r := Paste convert io_fails guess_offset s src w in
  (forall e, fst r = Throw e -> this (snd r) = this w) /\
  (0 <= s <= mNumSamples (this w) ->
   mSampleFormat src = mSampleFormat (this w) ->
   mNumSamples (this w) + mNumSamples src <= 2 ^ 63 - 1 ->
   Forall (fun b => blockLen b <= mMaxSamples (this w)) (mBlock src) ->
   fst r = Ret tt \/ (fst r = Throw FileException /\ has_fault io_fails)).
Proof.
  intros HI HIs. cbv zeta.
  pose proof (Paste_spec convert io_fails guess_offset s src w HI HIs) as H.
  unfold wp in H.
  destruct (Paste convert io_fails guess_offset s src w) as [[[]|e|] w'];
    cbn [fst snd okM] in *.
  - split; [done|]. by left.
  - destruct H as [Ht Hv]. split; [done|]. intros H1 H2 H3 H4. right.
    destruct Hv as [He Hf]; [by unfold pasteValid|]. by rewrite He.
  - split; [done|]. intros H1 H2 H3 H4. exfalso. apply H.
    by unfold pasteValid.
Qed.

(** X6: the guards of [Paste]: an offset outside [0 .. numSamples] or a
    source of another format is rejected with [InconsistencyException] and
    the sequence unchanged; a source without samples or without blocks
    makes the call a no-op. *)
Theorem Paste_rejects (s : Z) (src : Sequence) (w : World) :
  (s < 0 \/ mNumSamples (this w) < s \/
   mSampleFormat src <> mSampleFormat (this w) ->
   Paste convert io_fails guess_offset s src w
   = (Throw InconsistencyException, w)) /\
  (0 <= s <= mNumSamples (this w) ->
   mSampleFormat src = mSampleFormat (this w) ->
   0 <= mNumSamples src ->
   mNumSamples (this w) + mNumSamples src <= 2 ^ 63 - 1 ->
   mNumSamples src = 0 \/ mBlock src = [] ->
   Paste convert io_fails guess_offset s src w = (Ret tt, w)).
Proof.
  unfold Paste, bind, getThis, throw, ret. cbn [this]. split.
  - intros H.
    destruct (Z.ltb_spec s 0); [done|].
    destruct (Z.ltb_spec (mNumSamples (this w)) s); [done|]. cbn [orb].
    destruct (Overflows _); [done|].
    destruct (Z.eqb_spec (mSampleFormat src) (mSampleFormat (this w)));
      [lia|done].
  - intros Hs Hf Hn Hsum He.
    destruct (Z.ltb_spec s 0); [lia|].
    destruct (Z.ltb_spec (mNumSamples (this w)) s); [lia|]. cbn [orb].
    rewrite Overflows_false by lia.
    destruct (Z.eqb_spec (mSampleFormat src) (mSampleFormat (this w)));
      [|done]. cbn [negb].
    destruct He as [He|He].
    + rewrite He. done.
    + rewrite He. cbn [length Nat.eqb]. by rewrite orb_true_r.
Qed.

(** ** Delete *)

(** X7: on a sequence that satisfies the invariants, a [Delete] that
    returns has taken out the samples [start .. start + len - 1] and
    nothing else; the count is smaller by [len], the invariants hold again
    and the format and the block sizes are kept. *)
Theorem Delete_removes (start len : Z) (w w' : World) :
  same_format_copy convert ->
  Invariants (this w) ->
  Delete convert io_fails guess_offset start len w = (Ret tt, w') ->
  samples convert (this w')
  = take (Z.to_nat start) (samples convert (this w))
    ++ drop (Z.to_nat (start + len)) (samples convert (this w)) /\
  mNumSamples (this w') = mNumSamples (this w) - len /\
  Invariants (this w') /\
  mSampleFormat (this w') = mSampleFormat (this w) /\
  mMinSamples (this w') = mMinSamples (this w) /\
  mMaxSamples (this w') = mMaxSamples (this w).
Proof.
  intros Hid HI Hrun.
  pose proof (Delete_spec convert io_fails guess_offset start len w HI) as H.
  unfold wp in H. rewrite Hrun in H. cbn in H.
  destruct H as (H1 & H2 & H3 & H4 & H5 & H6).
  split; [by apply H6|]. done.
Qed.

(** X8: [Delete] gives the strong guarantee: when it throws, the sequence
    is as it was.  For a range inside the sequence, with a positive
    minimum block size, it returns, or throws [FileException] because the
    block store failed. *)
Theorem Delete_strong_guarantee (start len : Z) (w : World) :
  Invariants (this w) ->
  let r := Delete convert io_fails guess_offset start len w in
  (forall e, fst r = Throw e -> this (snd r) = this w) /\
  (0 <= start -> 0 <= len -> start + len <= mNumSamples (this w) ->
   0 < mMinSamples (this w) ->
   fst r = Ret tt \/ (fst r = Throw FileException /\ has_fault io_fails)).
Proof.
  intros HI. cbv zeta.
  pose proof (Delete_spec convert io_fails guess_offset start len w HI) as H.
  unfold wp in H.
  destruct (Delete convert io_fails guess_offset start len w)
    as [[[]|e|] w']; cbn [fst snd okM] in *.
  - split; [done|]. by left.
  - destruct H as [Ht Hv]. split; [done|]. intros H1 H2 H3 H4. right.
    destruct Hv as [He Hf]; [by unfold deleteValid|]. by rewrite He.
  - split; [done|]. intros H1 H2 H3 H4. exfalso. apply H.
    by unfold deleteValid.
Qed.

(** X9: the guard of [Delete]: a zero length is a no-op whatever [start]
    is; a negative length, a negative start or a start at or past the end
    is rejected with [InconsistencyException] and the sequence unchanged.
    The end of the range is not part of the guard. *)
Theorem Delete_rejects (start len : Z) (w : World) :
  (len = 0 ->
   Delete convert io_fails guess_offset start len w = (Ret tt, w)) /\
  (len < 0 \/ (len <> 0 /\ (start < 0 \/ mNumSamples (this w) <= start)) ->
   Delete convert io_fails guess_offset start len w
   = (Throw InconsistencyException, w)).
Proof.
  destruct (Delete_guard convert io_fails guess_offset start len w)
    as [H1 H2].
  split; [done|]. intros H. apply H2; lia.
Qed.

(** ** Block sizes for the callers *)

(** X10: on a sequence that satisfies the invariants, [GetBlockStart] of
    a position inside the sequence is the start of the block that holds
    it: the result is at most the position, and the position is before
    the end of the block that starts there. *)
Theorem GetBlockStart_holds (s : Sequence) (position : Z) :
  Invariants s -> 0 <= position < mNumSamples s ->
  exists i b, mBlock s !! i = Some b /\
    GetBlockStart guess_offset s position = Ret (SeqBlock_start b) /\
    SeqBlock_start b <= position < SeqBlock_start b + blockLen b.
Proof.
  intros HI Hpos. pose proof (Invariants_positive s HI) as Hp.
  apply Invariants_chain in HI as (Hc & Hn & HG).
  destruct (holds_exists 0 (mBlock s) position Hc ltac:(lia)) as [i Hi].
  pose proof Hi as (b & Hb & Hr). exists i, b. split; [done|].
  split; [|done]. unfold GetBlockStart.
  rewrite (FindBlock_holds guess_offset s position i Hc Hn Hp Hpos Hi).
  cbn. unfold at_indexR. by rewrite Hb.
Qed.

Lemma GetBestBlockSize_loop_spec (rest : BlockArray)
    (minSamples maxSamples result pos : Z) :
  chained pos rest -> Forall (fun b => 0 < blockLen b) rest ->
  0 < result <= maxSamples ->
  exists r, GetBestBlockSize_loop rest minSamples maxSamples result = Ret r /\
    result <= r <= maxSamples /\
    exists k, (k <= length rest)%nat /\
      r = result + sumLen (take k rest) /\
      (r < minSamples -> forall b, rest !! k = Some b ->
         maxSamples < blockLen b + r).
Proof.
  revert result pos. induction rest as [|next rest IH];
    intros result pos Hc HF Hr; cbn [GetBestBlockSize_loop].
  - exists result. split; [by destruct (result <? minSamples)|].
    split; [lia|]. exists 0%nat. cbn. split; [done|]. split; [lia|]. done.
  - destruct Hc as [Hs Hc]. apply Forall_cons in HF as [Hn HF].
    destruct (Z.ltb_spec result minSamples) as [Hlt|Hge].
    2:{ exists result. split; [done|]. split; [lia|]. exists 0%nat.
        cbn. split; [lia|]. split; [lia|]. lia. }
    unfold blockLen in Hn. destruct (SeqBlock_f next) as [f|] eqn:Hf; [|lia].
    cbn [derefR res_bind].
    destruct (Z.leb_spec (GetLength f + result) maxSamples) as [Hfit|Hbig].
    + destruct (IH (result + GetLength f) (pos + blockLen next) Hc HF
                  ltac:(lia)) as (r & Hrun & Hb & k & Hk & Hsum & Hstop).
      exists r. split; [done|]. split; [lia|]. exists (S k).
      cbn [length take lookup]. rewrite sumLen_cons.
      unfold blockLen at 1. rewrite Hf.
      split; [lia|]. split; [lia|]. done.
    + exists result. split; [done|]. split; [lia|]. exists 0%nat.
      cbn [length take lookup]. split; [lia|]. split; [cbn; lia|].
      intros _ b [= <-]. unfold blockLen. rewrite Hf. lia.
Qed.

(** X11: on a sequence that satisfies the invariants, [GetBestBlockSize]
    of a position inside the sequence is positive, at most [maxSamples],
    and leads from [start] to the end of a block; it stops before
    [minSamples] is reached only at the end of the sequence or where the
    next block would make it larger than [maxSamples].  For a position
    outside the sequence the result is [maxSamples]. *)
Theorem GetBestBlockSize_bounds (s : Sequence) (start : Z) :
  Invariants s ->
  (start < 0 \/ mNumSamples s <= start ->
   GetBestBlockSize guess_offset s start = Ret (mMaxSamples s)) /\
  (0 <= start < mNumSamples s ->
   exists r, GetBestBlockSize guess_offset s start = Ret r /\
     0 < r <= mMaxSamples s /\ start + r <= mNumSamples s /\
     (exists i b, mBlock s !! i = Some b /\
        start + r = SeqBlock_start b + blockLen b /\
        (r < mMinSamples s -> forall b', mBlock s !! S i = Some b' ->
           mMaxSamples s < blockLen b' + r))).
Proof.
  intros HI. unfold GetBestBlockSize. split.
  - intros H. destruct (Z.ltb_spec start 0); [done|].
    destruct (Z.leb_spec (mNumSamples s) start); [done|lia].
  - intros Hpos. destruct (Z.ltb_spec start 0); [lia|].
    destruct (Z.leb_spec (mNumSamples s) start); [lia|]. cbn [orb].
    pose proof (Invariants_positive s HI) as Hp.
    apply Invariants_chain in HI as (Hc & Hn & HG).
    destruct (holds_exists 0 (mBlock s) start Hc ltac:(lia)) as [i Hi].
    pose proof Hi as (b & Hb & Hr).
    rewrite (FindBlock_holds guess_offset s start i Hc Hn Hp Hpos Hi).
    cbn [res_bind]. unfold at_indexR. rewrite Hb. cbn [res_bind].
    pose proof (Forall_lookup_1 _ _ _ _ HG Hb) as Hg. unfold goodBlock in Hg.
    assert (Hbl := Hg). unfold blockLen in Hbl.
    destruct (SeqBlock_f b) as [f|] eqn:Hf; [|lia]. cbn [derefR res_bind].
    assert (Hlen : blockLen b = GetLength f)
      by (unfold blockLen; by rewrite Hf).
    rewrite <- Hlen. unfold as_size_tR.
    destruct (Z.leb_spec 0 (SeqBlock_start b + blockLen b - start)); [|lia].
    cbn [res_bind].
    set (r0 := SeqBlock_start b + blockLen b - start).
    pose proof (chained_start _ _ _ _ Hc Hb) as Hst.
    pose proof (sumLen_take_S _ _ _ Hb) as HS.
    pose proof (chained_drop 0 (mBlock s) (S i) Hc) as Hcd.
    replace (i + 1)%nat with (S i) by lia.
    destruct (GetBestBlockSize_loop_spec (drop (S i) (mBlock s))
                (mMinSamples s) (mMaxSamples s) r0 _ Hcd)
      as (r & Hrun & Hb' & k & Hk & Hsum & Hstop).
    { by apply Forall_drop. }
    { unfold r0. lia. }
    rewrite Hrun. cbn [res_bind].
    replace ((0 <? r) && (r <=? mMaxSamples s)) with true
      by (symmetry; apply andb_true_iff; lia).
    cbn [assertR res_bind]. exists r. split; [done|].
    split; [unfold r0 in *; lia|].
    rewrite take_drop_commute in Hsum.
    pose proof (sumLen_take_drop (take (S i + k) (mBlock s)) (S i)) as Hsd.
    rewrite take_take in Hsd.
    replace (S i `min` (S i + k))%nat with (S i) in Hsd by lia.
    pose proof (sumLen_take_le (mBlock s) (S i + k) (length (mBlock s))
                  ltac:(rewrite length_drop in Hk;
                        apply lookup_lt_Some in Hb; lia)) as Hle.
    rewrite firstn_all in Hle.
    split; [unfold r0 in *; lia|].
    destruct k as [|k].
    + exists i, b. split; [done|]. rewrite Nat.add_0_r in Hsum, Hsd.
      split; [unfold r0 in *; lia|].
      intros Hlt b2 Hb2. apply Hstop; [done|].
      rewrite lookup_drop. by rewrite Nat.add_0_r.
    + destruct (lookup_lt_is_Some_2 (mBlock s) (S i + k)) as [bk Hbk].
      { rewrite length_drop in Hk. lia. }
      exists (S i + k)%nat, bk. split; [done|].
      pose proof (chained_start _ _ _ _ Hc Hbk) as Hstk.
      pose proof (sumLen_take_S _ _ _ Hbk) as HSk.
      replace (S (S i + k)) with (S i + S k)%nat in HSk by lia.
      split; [unfold r0 in *; lia|].
      intros Hlt b2 Hb2. apply Hstop; [done|].
      rewrite lookup_drop. rewrite <- Hb2. f_equal. lia.
Qed.

(** X12: on a sequence that satisfies the invariants, with a positive
    [maxSamples], [GetIdealAppendLen] is positive and at most
    [maxSamples]: [maxSamples] for a sequence without blocks or with a
    full last block, and else what the last block lacks to be full. *)
Theorem GetIdealAppendLen_bounds (s : Sequence) :
  Invariants s -> 0 < mMaxSamples s ->
  exists r, GetIdealAppendLen s = Ret r /\ 0 < r <= mMaxSamples s /\
    (mBlock s = [] -> r = mMaxSamples s) /\
    (forall b, last (mBlock s) = Some b ->
       if blockLen b =? mMaxSamples s then r = mMaxSamples s
       else blockLen b + r = mMaxSamples s).
Proof.
  intros HI Hmax. apply Invariants_chain in HI as (_ & _ & HG).
  unfold GetIdealAppendLen, GetMaxBlockSize.
  destruct (mBlock s) as [|x l _] using rev_ind.
  { exists (mMaxSamples s). cbn. split; [done|]. split; [lia|]. done. }
  rewrite length_app. cbn [length].
  replace (length l + 1 =? 0)%nat with false by (symmetry; apply Nat.eqb_neq; lia).
  unfold at_indexR.
  replace (length l + 1 - 1)%nat with (length l) by lia.
  rewrite list_lookup_middle by done. cbn [res_bind].
  apply Forall_app in HG as [_ HG]. apply Forall_cons in HG as [Hx _].
  unfold goodBlock in Hx. assert (Hbl := Hx). unfold blockLen in Hbl.
  destruct (SeqBlock_f x) as [f|] eqn:Hf; [|lia]. cbn [derefR res_bind].
  assert (Hlen : blockLen x = GetLength f) by (unfold blockLen; by rewrite Hf).
  rewrite <- Hlen.
  destruct (Z.eqb_spec (blockLen x) (mMaxSamples s)) as [He|He].
  - exists (mMaxSamples s). split; [done|]. split; [lia|].
    split; [by destruct l|]. intros b. rewrite last_snoc. intros [= <-].
    by rewrite He, Z.eqb_refl.
  - exists (mMaxSamples s - blockLen x). split; [done|]. split; [lia|].
    split; [by destruct l|]. intros b. rewrite last_snoc. intros [= <-].
    destruct (Z.eqb_spec (blockLen x) (mMaxSamples s)); lia.
Qed.

(** ** Appending a block file *)

(** X13: [AppendBlockFile] puts the file behind the last block, at start
    [numSamples], and adds its length to the 64-bit count, without a call
    into the block store.  It makes no check.  When the sum is at most
    [2^63 - 1] the new count is the sum, and the invariants are kept
    when the file is not empty and not longer than [maxSamples].  A
    longer file is appended all the same, which breaks I4, and a sum
    above [2^63 - 1] wraps, which breaks I3. *)
Theorem AppendBlockFile_appends (f : BlockFile) (w : World) :
  Invariants (this w) ->
  let t' := set_mNumSamples (wrap64 (mNumSamples (this w) + GetLength f))
              (set_mBlock
                 (mBlock (this w)
                  ++ [mkSeqBlock (Some f) (mNumSamples (this w))])
                 (this w)) in
  AppendBlockFile (Some f) w = (Ret tt, mkWorld t' (calls w)) /\
  samples convert t'
  = samples convert (this w) ++ block_data convert f (mSampleFormat (this w)) /\
  (mNumSamples (this w) + GetLength f <= 2 ^ 63 - 1 ->
   mNumSamples t' = mNumSamples (this w) + GetLength f /\
   (0 < GetLength f <= mMaxSamples (this w) -> Invariants t')) /\
  (mMaxSamples (this w) < GetLength f -> ~ I4 t') /\
  (2 ^ 63 - 1 < mNumSamples (this w) + GetLength f -> ~ I3 t').
Proof.
  intros HI. cbv zeta. split; [done|]. split; [|split; [|split]].
  - unfold samples. cbn [mSampleFormat mBlock set_mBlock set_mNumSamples].
    rewrite samplesOf_app. f_equal. unfold samplesOf. cbn.
    by rewrite app_nil_r.
  - intros Hfit. apply Invariants_chain in HI as (Hc & Hn & HG).
    pose proof (sumLen_nonneg (mBlock (this w))) as H0.
    pose proof (GetLength_nonneg f) as Hf0.
    cbn [mNumSamples set_mNumSamples]. rewrite wrap64_small by lia.
    split; [done|]. intros Hlen.
    apply Invariants_chain.
    cbn [mBlock mNumSamples mMaxSamples set_mBlock set_mNumSamples].
    split; [|split].
    + apply chained_app. split; [done|]. cbn. lia.
    + rewrite sumLen_app. cbn. lia.
    + apply Forall_app. split; [done|]. apply Forall_singleton.
      unfold goodBlock. cbn. lia.
  - intros Hlong H4. unfold I4 in H4.
    specialize (H4 (mkSeqBlock (Some f) (mNumSamples (this w)))).
    cbn in H4. assert (GetLength f <= mMaxSamples (this w)); [|lia].
    apply H4. apply elem_of_app. right. constructor.
  - intros Hbig H3. unfold I3 in H3.
    apply Invariants_chain in HI as (_ & Hn & _).
    cbn [mBlock mNumSamples set_mBlock set_mNumSamples] in H3.
    rewrite sumLen_app in H3. cbn in H3.
    pose proof (wrap64_range (mNumSamples (this w) + GetLength f)). lia.
Qed.

(** ** The copy constructor *)

(** X14: the copy constructor, on a sequence that satisfies the
    invariants and whose count fits 63 bits, makes a sequence with the
    same samples, count, format and block sizes, which satisfies the
    invariants; it fails only with [FileException], when the block store
    fails. *)
Theorem Sequence_copy_same (orig : Sequence) (n : nat) :
  Invariants orig -> mNumSamples orig <= 2 ^ 63 - 1 ->
  let r := Sequence_copy convert io_fails guess_offset orig n in
  (forall c, fst r = Ret c ->
     (same_format_copy convert -> samples convert c = samples convert orig) /\
     mNumSamples c = mNumSamples orig /\ Invariants c /\
     mSampleFormat c = mSampleFormat orig /\
     mMinSamples c = mMinSamples orig /\ mMaxSamples c = mMaxSamples orig) /\
  ((exists c, fst r = Ret c) \/
   (fst r = Throw FileException /\ has_fault io_fails)).
Proof.
  intros HI Hnum. cbv zeta. unfold Sequence_copy, bind, on_object, ret.
  set (obj := {| mSampleFormat := mSampleFormat orig;
                 mMinSamples := mMinSamples orig;
                 mMaxSamples := mMaxSamples orig;
                 mBlock := []; mNumSamples := 0; mErrorOpening := false |}).
  assert (HIo : Invariants obj).
  { apply Invariants_chain. cbn. split; [done|]. split; [done|]. constructor. }
  pose proof (Paste_spec convert io_fails guess_offset 0 orig (mkWorld obj n)
                HIo HI) as H.
  unfold wp in H. cbn [this] in H.
  assert (Hv : pasteValid 0 orig obj).
  { unfold pasteValid. cbn. split; [lia|]. split; [done|]. split; [lia|].
    apply Invariants_chain in HI as (_ & _ & HG).
    eapply Forall_impl; [exact HG|]. unfold goodBlock. intros x. cbn. lia. }
  destruct (Paste convert io_fails guess_offset 0 orig (mkWorld obj n))
    as [[[]|e|] w']; cbn [fst snd okM] in *.
  - split; [|left; by eexists]. intros c [= <-].
    destruct H as (H1 & H2 & H3 & H4 & H5 & H6). cbn in *.
    split; [|done]. intros Hid. by rewrite (H6 Hid), app_nil_r.
  - split; [done|]. right. destruct H as [_ H].
    destruct (H Hv) as [-> Hf]. done.
  - done.
Qed.

(** ** Blockify *)

(** X15: the blocks that [Blockify] appends hold the first [len] samples
    of the buffer, in order: read in the format they were written in,
    the samples of the new array are those of the old one followed by
    the buffer.  This is for [1 <= maxSamples <= 2^31 - 1], so that the
    length of a piece fits the [int] that holds it, and a product
    [num * len] that fits the 64-bit [size_t].  With [len <= 0] the
    array is returned as it is, without a call into the block store. *)
Theorem Blockify_contents (maxSamples : Z) (format : sampleFormat)
    (blist : BlockArray) (start : Z) (buffer : list Sample) (len : Z)
    (n : nat) :
  (len <= 0 ->
   Blockify io_fails maxSamples format blist start buffer len n
   = (Ret blist, n)) /\
  (same_format_copy convert ->
   0 < len <= Z.of_nat (length buffer) -> 1 <= maxSamples <= 2 ^ 31 - 1 ->
   len * ((len + (maxSamples - 1)) / maxSamples) <= 2 ^ 64 - 1 ->
   forall out n',
     Blockify io_fails maxSamples format blist start buffer len n
     = (Ret out, n') ->
     samplesOf convert format out
     = samplesOf convert format blist ++ take (Z.to_nat len) buffer).
Proof.
  split.
  - intros H. unfold Blockify. by destruct (Z.leb_spec len 0); [|lia].
  - intros Hid Hlen Hmax _ out n' Hrun.
    pose proof (Blockify_spec io_fails maxSamples format blist start buffer
                  len n) as H.
    unfold wp in H. rewrite Hrun in H. cbn in H.
    destruct (Z.leb_spec len 0); [lia|]. destruct H as [_ ->].
    rewrite samplesOf_app. f_equal.
    apply (Blockify_pieces_samples convert Hid); lia.
Qed.

(** ** Append: the samples *)

Lemma CopySamples_app (f g : sampleFormat) (a b : list Sample) :
  CopySamples convert f g (a ++ b)
  = CopySamples convert f g a ++ CopySamples convert f g b.
Proof. unfold CopySamples. apply map_app. Qed.

Lemma length_CopySamples (f g : sampleFormat) (a : list Sample) :
  length (CopySamples convert f g a) = length a.
Proof. unfold CopySamples. apply length_map. Qed.

Lemma Append_loop_contents (fuel : nat) (t : Sequence) (buffer : list Sample)
    (format : sampleFormat) (buffer2 : list Sample) (newBlock : BlockArray)
    (newNumSamples len : Z) (n : nat) :
  0 <= len <= Z.of_nat (length buffer) -> 1 <= mMaxSamples t ->
  mMaxSamples t <= Z.of_nat (length buffer2) -> (Z.to_nat len <= fuel)%nat ->
  wp (Append_loop convert io_fails fuel t buffer format buffer2 newBlock
        newNumSamples len) n
    (okL io_fails True
       (fun r => exists added,
          fst r = newBlock ++ added /\ chained newNumSamples added /\
          snd r = newNumSamples + len /\ sumLen added = len /\
          Forall (goodBlock (mMaxSamples t)) added /\
          (len <> 0 -> added <> []) /\
          (same_format_copy convert ->
           samplesOf convert (mSampleFormat t) added
           = CopySamples convert format (mSampleFormat t)
               (take (Z.to_nat len) buffer)))).
Proof.
  intros Hlen Hmax. revert buffer buffer2 newBlock newNumSamples len n Hlen.
  induction fuel as [|fuel IH];
    intros buffer buffer2 newBlock newNumSamples len n Hlen Hb2 Hfuel;
    cbn [Append_loop]; (destruct (Z.eqb_spec len 0) as [Hz|Hz];
      [apply wp_ret; cbn; exists []; rewrite app_nil_r, Hz; cbn;
       repeat split; try done; lia|]); [lia|].
  unfold GetIdealBlockSize.
  set (addedLen := Z.min (mMaxSamples t) len).
  assert (Ha : 1 <= addedLen <= len /\ addedLen <= mMaxSamples t)
    by (unfold addedLen; lia).
  clearbody addedLen.
  eapply okL_bind
    with (pre := True)
         (post := fun pf : BlockFilePtr * list Sample =>
            Z.of_nat (length (snd pf)) = Z.of_nat (length buffer2) /\
            exists data, fst pf = Some (SimpleBlockFile (mSampleFormat t) data)
              /\ Z.of_nat (length data) = addedLen
              /\ (same_format_copy convert ->
                  data = CopySamples convert format (mSampleFormat t)
                           (take (Z.to_nat addedLen) buffer)));
    [|done|].
  { destruct (Z.eqb_spec format (mSampleFormat t)) as [Hf|Hf].
    - eapply okL_bind; [apply NewSimpleBlockFile_spec|done|].
      intros file n1 ->. apply wp_ret. cbn [okL fst snd]. split; [done|].
      eexists. split; [done|]. rewrite length_resize. split; [lia|].
      intros Hid. rewrite Hf, (CopySamples_same convert Hid).
      apply resize_le. lia.
    - assert (Hld : Z.of_nat (length (CopySamples convert format
                       (mSampleFormat t) (resize (Z.to_nat addedLen) 0 buffer)))
                    = addedLen)
        by (rewrite length_CopySamples, length_resize; lia).
      apply wp_buf_store_bind; [intros Hn; cbn; intros _; apply Hn; lia|].
      intros _ Hfit.
      eapply okL_bind; [apply NewSimpleBlockFile_spec|done|].
      intros file n1 ->. apply wp_ret. cbn [okL fst snd].
      split; [by rewrite length_overlay by lia|].
      eexists. split; [done|]. rewrite length_resize. split; [lia|].
      intros _. rewrite resize_le by (rewrite length_overlay; lia).
      rewrite overlay1_at by lia. by rewrite resize_le by lia. }
  intros pf n1 (Hl2 & data & Hpf & Hld & Hdata).
  eapply okL_conseq;
    [apply (IH (drop (Z.to_nat addedLen) buffer)); [|lia|lia]|done|].
  { rewrite length_drop. lia. }
  intros r (added & H1 & H2 & H3 & H4 & H5 & _ & H6).
  exists (mkSeqBlock (fst pf) newNumSamples :: added).
  assert (Hbl : blockLen (mkSeqBlock (fst pf) newNumSamples) = addedLen)
    by (unfold blockLen; cbn; rewrite Hpf; cbn; lia).
  rewrite H1, <- app_assoc. split; [done|]. cbn [chained SeqBlock_start].
  rewrite sumLen_cons, Hbl. split; [done|]. split; [lia|]. split; [lia|].
  split; [|split; [done|]].
  - apply Forall_cons. split; [|done]. unfold goodBlock. lia.
  - intros Hid. rewrite samplesOf_cons, (H6 Hid).
    unfold blockSamples at 1. cbn [SeqBlock_f]. rewrite Hpf.
    cbn [block_data]. rewrite (CopySamples_same convert Hid), (Hdata Hid).
    rewrite <- CopySamples_app. f_equal.
    replace (Z.to_nat len)
      with (Z.to_nat addedLen + Z.to_nat (len - addedLen))%nat by lia.
    apply take_take_drop.
Qed.

Lemma AppendBlocksIfConsistent_run (additional : BlockArray)
    (replaceLast : bool) (numSamples : Z) (w : World) :
  additional <> [] ->
  let t := this w in
  let init := if replaceLast then take (length (mBlock t) - 1) (mBlock t)
              else mBlock t in
  AppendBlocksIfConsistent additional replaceLast numSamples w
  = if ConsistencyCheck_bError (init ++ additional) (mMaxSamples t)
         (length init) numSamples
    then (Throw InconsistencyException, w)
    else (Ret tt,
          mkWorld (set_mNumSamples numSamples
                     (set_mBlock (init ++ additional) t)) (calls w)).
Proof.
  intros Hne. cbv zeta. destruct additional as [|a additional]; [done|].
  destruct w as [[f mi ma bl num eo] n].
  assert (Hlast : forall (l : BlockArray) x,
            take (length (l ++ [x]) - 1) (l ++ [x]) = l).
  { intros l x. rewrite length_app. cbn [length].
    replace (length l + 1 - 1)%nat with (length l) by lia.
    apply take_app_length. }
  unfold AppendBlocksIfConsistent, bind, getThis, finally, modifyThis, liftR,
    ret, ConsistencyCheck.
  cbn [this calls mBlock set_mBlock fst snd].
  destruct replaceLast; [destruct bl as [|x l _] using rev_ind|].
  - cbn [last length Nat.sub take this calls mBlock set_mBlock mMaxSamples
         app fst snd].
    by destruct (ConsistencyCheck_bError _ _ _ _).
  - rewrite last_snoc.
    cbn [this calls mBlock set_mBlock mMaxSamples fst snd].
    rewrite !Hlast.
    destruct (ConsistencyCheck_bError _ _ _ _);
      cbn [fst snd completed this calls mBlock set_mBlock]; [|done].
    by rewrite take_app_length.
  - cbn [this calls mBlock set_mBlock mMaxSamples fst snd].
    destruct (ConsistencyCheck_bError _ _ _ _);
      cbn [fst snd completed this calls mBlock set_mBlock]; [|done].
    by rewrite take_app_length.
Qed.

Lemma appended_check (init additional : BlockArray) (maxSamples p num : Z) :
  additional <> [] -> chained 0 init -> p = sumLen init ->
  chained p additional -> Forall (goodBlock maxSamples) additional ->
  num = p + sumLen additional ->
  ConsistencyCheck_bError (init ++ additional) maxSamples (length init) num
  = false.
Proof.
  intros Hne Hci Hp Hca HG Hnum.
  assert (Hcons : consistent additional maxSamples p num).
  { split; [done|]. split; [done|]. eapply Forall_impl; [exact HG|].
    unfold goodBlock. intros x Hx. cbn. split; [|lia].
    unfold blockLen in Hx. destruct (SeqBlock_f x); [by eexists|lia]. }
  destruct additional as [|a additional]; [done|].
  destruct init as [|i0 init].
  - cbn [app length]. apply ConsistencyCheck_0. cbn in Hp. by rewrite <- Hp.
  - apply (ConsistencyCheck_from _ _ _ _ a); [done| |].
    + by rewrite list_lookup_middle.
    + rewrite drop_app_length. destruct Hca as [-> _]. done.
Qed.

(** [Append], with the samples. *)
Lemma Append_full_spec (buffer : list Sample) (format : sampleFormat)
    (len : Z) (w : World) :
  Invariants (this w) -> 0 <= len <= Z.of_nat (length buffer) ->
  wp (Append convert io_fails buffer format len) w
    (okM io_fails (this w)
       (mNumSamples (this w) + len <= 2 ^ 63 - 1 /\
        1 <= mMaxSamples (this w))
       (fun _ t' =>
          Invariants t' /\
          mSampleFormat t' = mSampleFormat (this w) /\
          mMinSamples t' = mMinSamples (this w) /\
          mMaxSamples t' = mMaxSamples (this w) /\
          mNumSamples t' = mNumSamples (this w) + len /\
          (same_format_copy convert ->
           samples convert t'
           = samples convert (this w)
             ++ CopySamples convert format (mSampleFormat (this w))
                  (take (Z.to_nat len) buffer)))).
Proof.
  intros HI Hlen. unfold Append.
  destruct (Z.eqb_spec len 0) as [Hz|Hne].
  { apply wp_ret. cbn. split; [done|]. do 3 (split; [done|]). split; [lia|].
    intros _. rewrite Hz. cbn. by rewrite app_nil_r. }
  apply wp_getThis_bind.
  pose proof HI as HI'. apply Invariants_chain in HI' as (Hc & Hn & HG).
  pose proof (Invariants_positive _ HI) as Hpos.
  pose proof (sumLen_nonneg (mBlock (this w))) as Hnn.
  destruct (Overflows _) eqn:Hov.
  { cbn. split; [done|]. intros [Hsum _].
    rewrite Overflows_false in Hov; [done|lia..]. }
  set (t := this w) in *.
  set (fmt := mSampleFormat t) in *.
  set (maxS := mMaxSamples t) in *.
  pose proof (length_SampleBuffer maxS) as Hb2.
  (* the commit of the new blocks *)
  assert (Hcommit : forall (init additional : BlockArray)
                      (replaceLast : bool) (w' : World) (p : Z),
    this w' = t ->
    init = (if replaceLast then take (length (mBlock t) - 1) (mBlock t)
            else mBlock t) ->
    additional <> [] -> chained 0 init -> p = sumLen init ->
    Forall (goodBlock maxS) init ->
    chained p additional -> Forall (goodBlock maxS) additional ->
    sumLen init + sumLen additional = mNumSamples t + len ->
    (same_format_copy convert ->
     samplesOf convert fmt init ++ samplesOf convert fmt additional
     = samples convert t
       ++ CopySamples convert format fmt (take (Z.to_nat len) buffer)) ->
    wp (AppendBlocksIfConsistent additional replaceLast (mNumSamples t + len))
      w'
      (okM io_fails t (mNumSamples t + len <= 2 ^ 63 - 1 /\ 1 <= maxS)
         (fun _ t' =>
            Invariants t' /\ mSampleFormat t' = fmt /\
            mMinSamples t' = mMinSamples t /\ mMaxSamples t' = maxS /\
            mNumSamples t' = mNumSamples t + len /\
            (same_format_copy convert ->
             samples convert t'
             = samples convert t
               ++ CopySamples convert format fmt
                    (take (Z.to_nat len) buffer))))).
  { intros init additional replaceLast w' p Hw' Hinit Hadd Hci Hp HGi Hca HGa
      Hsum Hcontent.
    unfold wp.
    rewrite (AppendBlocksIfConsistent_run additional replaceLast _ w' Hadd).
    cbv zeta. rewrite Hw', <- Hinit.
    rewrite (appended_check init additional maxS p) by (done || lia).
    cbn [fst snd okM this]. split.
    { apply Invariants_chain.
      cbn [mBlock mNumSamples mMaxSamples set_mBlock set_mNumSamples].
      split; [|split].
      - apply chained_app. split; [done|]. rewrite Z.add_0_l. by rewrite <- Hp.
      - rewrite sumLen_app. lia.
      - apply Forall_app. done. }
    do 4 (split; [done|]). intros Hid. unfold samples at 1.
    cbn [mBlock mSampleFormat set_mBlock set_mNumSamples].
    rewrite samplesOf_app. by apply Hcontent. }
  destruct (Z.le_gt_cases maxS 0) as [Hmax0|Hmax1].
  { assert (Hemp : mBlock t = []).
    { destruct (mBlock t) as [|x l]; [done|].
      apply Forall_cons in HG as [Hx _]. unfold goodBlock in Hx. lia. }
    rewrite Hemp. cbn [length Nat.ltb Nat.leb]. unfold bind at 1, ret at 1.
    cbn iota beta.
    eapply okM_liftL; [done|apply Append_loop_stuck; lia| |].
    - intros [_ Hv]. lia.
    - intros r n' []. }
  eapply (wp_bind _ _ _ _).
  match goal with
  | |- wp ?m w _ =>
      assert (Hen : exists c, m w = (Ret c, w) /\
                (c = true -> exists lastBlock lf,
                   mBlock t !! (length (mBlock t) - 1)%nat = Some lastBlock /\
                   SeqBlock_f lastBlock = Some lf /\
                   GetLength lf < mMinSamples t))
  end.
  { destruct (Nat.ltb_spec 0 (length (mBlock t))) as [Hl|Hl];
      [|by exists false].
    unfold bind, at_index, deref, ret.
    destruct (lookup_lt_is_Some_2 (mBlock t) (length (mBlock t) - 1))
      as [bk Hbk]; [lia|].
    rewrite Hbk. cbn.
    pose proof (Forall_lookup_1 _ _ _ _ Hpos Hbk) as Hp. cbn in Hp.
    unfold blockLen in Hp. destruct (SeqBlock_f bk) as [lf|] eqn:Hlf; [|lia].
    cbn. eexists. split; [done|]. intros Ht. exists bk, lf.
    split; [done|]. split; [done|]. lia. }
  destruct Hen as (c & Hen & Hct). unfold wp at 1. rewrite Hen.
  cbn [fst snd]. clear Hen. destruct c.
  - (* the last block is enlarged *)
    destruct (Hct eq_refl) as (lastBlock & lf & Hlast & Hlf & Hsmall).
    clear Hct.
    wp_block Hlast Hpos lf' Hbl.
    rewrite Hlf in Hf. injection Hf as <-.
    assert (Hsm : is_Some (SeqBlock_f lastBlock)) by (by eexists).
    pose proof (Forall_lookup_1 _ _ _ _ HG Hlast) as Hgl.
    unfold goodBlock in Hgl. fold maxS in Hgl.
    set (L0 := blockLen lastBlock) in *.
    set (addLen := Z.min (maxS - L0) len).
    assert (Hal : 0 <= addLen <= len /\ L0 + addLen <= maxS)
      by (unfold addLen; lia).
    clearbody addLen.
    set (B := blockSamples convert fmt lastBlock).
    assert (HlB : Z.of_nat (length B) = L0) by apply length_blockSamples.
    assert (Hbl' : mBlock t = take (length (mBlock t) - 1) (mBlock t)
                              ++ [lastBlock]).
    { rewrite <- (take_drop (length (mBlock t) - 1) (mBlock t)) at 1.
      f_equal. apply lookup_lt_Some in Hlast as Hlt.
      rewrite (drop_S _ _ _ Hlast). by rewrite drop_ge by lia. }
    set (init := take (length (mBlock t) - 1) (mBlock t)) in *.
    pose proof (chained_start _ _ _ _ Hc Hlast) as Hst. fold init in Hst.
    pose proof (f_equal sumLen Hbl') as Hsl.
    rewrite sumLen_app in Hsl. change (sumLen [lastBlock]) with (L0 + 0) in Hsl.
    eapply okM_liftL; [done|apply Read_spec; lia| |].
    { intros _. split; [done|]. lia. }
    intros buffer1 n1 (_ & _ & _ & _ & ->). fold B.
    rewrite (slice_0_all B) by lia.
    assert (Hl1 : length (overlay (SampleBuffer maxS) 0 B)
                  = length (SampleBuffer maxS))
      by (apply length_overlay; lia).
    set (D := CopySamples convert format fmt
                (resize (Z.to_nat addLen) 0 buffer)).
    assert (HlD : Z.of_nat (length D) = addLen)
      by (unfold D; rewrite length_CopySamples, length_resize; lia).
    assert (HD : D = CopySamples convert format fmt
                       (take (Z.to_nat addLen) buffer))
      by (unfold D; by rewrite resize_le by lia).
    apply wp_buf_store_bind; [intros Hnf; cbn; intros _; apply Hnf; lia|].
    intros _ _.
    set (buffer0 := overlay _ L0 D).
    assert (Hl0 : length buffer0 = length (SampleBuffer maxS))
      by (unfold buffer0; rewrite length_overlay; lia).
    eapply okM_liftL; [done|apply NewSimpleBlockFile_spec|done|].
    intros file n2 ->.
    set (nb := mkSeqBlock _ (SeqBlock_start lastBlock)).
    assert (Hnbl : blockLen nb = L0 + addLen)
      by (apply blockLen_resized; lia).
    eapply okM_liftL; [done|apply Append_loop_contents| |].
    { rewrite length_drop. lia. }
    { fold maxS. lia. }
    { fold maxS. lia. }
    { lia. }
    { done. }
    intros r n3 (added & H1 & H2 & H3 & H4 & H5 & _ & H6).
    rewrite H1, H3.
    replace (mNumSamples t + addLen + (len - addLen))
      with (mNumSamples t + len) by lia.
    apply (Hcommit init _ true _ (SeqBlock_start lastBlock));
      try done.
    + by apply chained_take.
    + by apply Forall_take.
    + cbn [app chained]. split; [done|]. rewrite Hnbl.
      replace (SeqBlock_start lastBlock + (L0 + addLen))
        with (mNumSamples t + addLen) by lia. done.
    + cbn [app]. apply Forall_cons. split; [|done]. unfold goodBlock. lia.
    + cbn [app]. rewrite sumLen_cons. lia.
    + intros Hid. specialize (H6 Hid). fold fmt in H6.
      cbn [app]. rewrite samplesOf_cons, H6.
      unfold samples. fold fmt.
      replace (samplesOf convert fmt (mBlock t))
        with (samplesOf convert fmt init ++ B).
      2:{ rewrite Hbl' at 1. rewrite samplesOf_app. f_equal.
          unfold samplesOf. cbn [map concat]. by rewrite app_nil_r. }
      rewrite <- !app_assoc. f_equal.
      unfold nb. rewrite (blockSamples_new convert Hid) by lia.
      unfold buffer0. rewrite (overlay2_at _ B D) by lia.
      rewrite <- app_assoc. f_equal. rewrite HD, <- CopySamples_app. f_equal.
      replace (Z.to_nat len)
        with (Z.to_nat addLen + Z.to_nat (len - addLen))%nat by lia.
      apply take_take_drop.
  - clear Hct.
    eapply okM_liftL; [done|apply Append_loop_contents| |];
      try done; try (fold maxS; lia).
    intros r n3 (added & H1 & H2 & H3 & H4 & H5 & Hne' & H6).
    cbn [app] in H1. rewrite H1, H3.
    apply (Hcommit (mBlock t) _ false _ (mNumSamples t)); try done.
    + by apply Hne'.
    + lia.
    + intros Hid. specialize (H6 Hid). fold fmt in H6. by rewrite H6.
Qed.
(** X16: on a sequence that satisfies the invariants, an [Append] of the
    first [len] samples of a buffer, with a new count of at most
    [2^63 - 1], that returns has put these samples, converted to the
    format of the sequence, behind the samples that were there; the
    count has grown by [len], the invariants hold again and the format
    and the block sizes are kept. *)
Theorem Append_appends (buffer : list Sample) (format : sampleFormat)
    (len : Z) (w w' : World) :
  same_format_copy convert ->
  Invariants (this w) -> 0 <= len <= Z.of_nat (length buffer) ->
  mNumSamples (this w) + len <= 2 ^ 63 - 1 ->
  Append convert io_fails buffer format len w = (Ret tt, w') ->
  samples convert (this w')
  = samples convert (this w)
    ++ CopySamples convert format (mSampleFormat (this w))
         (take (Z.to_nat len) buffer) /\
  mNumSamples (this w') = mNumSamples (this w) + len /\
  Invariants (this w') /\
  mSampleFormat (this w') = mSampleFormat (this w) /\
  mMinSamples (this w') = mMinSamples (this w) /\
  mMaxSamples (this w') = mMaxSamples (this w).
Proof.
  intros Hid HI Hlen _ Hrun.
  pose proof (Append_full_spec buffer format len w HI Hlen) as H.
  unfold wp in H. rewrite Hrun in H. cbn in H.
  destruct H as (H1 & H2 & H3 & H4 & H5 & H6).
  split; [by apply H6|]. done.
Qed.

(** X17: [Append] gives the strong guarantee: when it throws, the
    sequence is as it was, the last block included.  When the new count
    fits 63 bits and [maxSamples] is positive, it returns, or throws
    [FileException] because the block store failed. *)
Theorem Append_strong_guarantee (buffer : list Sample) (format : sampleFormat)
    (len : Z) (w : World) :
  Invariants (this w) -> 0 <= len <= Z.of_nat (length buffer) ->
  let r := Append convert io_fails buffer format len w in
  (forall e, fst r = Throw e -> this (snd r) = this w) /\
  (mNumSamples (this w) + len <= 2 ^ 63 - 1 -> 1 <= mMaxSamples (this w) ->
   fst r = Ret tt \/ (fst r = Throw FileException /\ has_fault io_fails)).
Proof.
  intros HI Hlen. cbv zeta.
  pose proof (Append_full_spec buffer format len w HI Hlen) as H.
  unfold wp in H.
  destruct (Append convert io_fails buffer format len w) as [[[]|e|] w'];
    cbn [fst snd okM] in *.
  - split; [done|]. by left.
  - destruct H as [Ht Hv]. split; [done|]. intros H1 H2. right.
    destruct Hv as [He Hf]; [done|]. by rewrite He.
  - split; [done|]. intros H1 H2. exfalso. by apply H.
Qed.

(** ** SetSamples: the samples *)

Lemma overlay_app_l (A R W : list Sample) (off : Z) :
  0 <= off ->
  A ++ overlay R off W = overlay (A ++ R) (Z.of_nat (length A) + off) W.
Proof.
  intros Hoff. unfold overlay.
  replace (Z.to_nat (Z.of_nat (length A) + off))
    with (length A + Z.to_nat off)%nat by lia.
  rewrite take_app_add, <- app_assoc. f_equal. f_equal.
  rewrite <- Nat.add_assoc. by rewrite drop_app_add.
Qed.

Lemma overlay_app_fit (B R W : list Sample) (off : Z) :
  0 <= off -> off + Z.of_nat (length W) <= Z.of_nat (length B) ->
  overlay (B ++ R) off W = overlay B off W ++ R.
Proof.
  intros Hoff Hfit. unfold overlay.
  rewrite take_app_le by lia. rewrite drop_app_le by lia.
  by rewrite <- !app_assoc.
Qed.

Lemma overlay_app_span (B R W1 W2 : list Sample) (off : Z) :
  0 <= off -> off + Z.of_nat (length W1) = Z.of_nat (length B) ->
  overlay (B ++ R) off (W1 ++ W2) = overlay B off W1 ++ overlay R 0 W2.
Proof.
  intros Hoff Hfit. unfold overlay.
  rewrite take_app_le by lia. rewrite length_app.
  replace (Z.to_nat off + (length W1 + length W2))%nat
    with (length B + length W2)%nat by lia.
  rewrite drop_app_add.
  replace (Z.to_nat off + length W1)%nat with (length B) by lia.
  rewrite drop_all. change (Z.to_nat 0) with 0%nat. cbn [take Nat.add app].
  by rewrite <- !app_assoc.
Qed.

Lemma take_overlay_over (scratch B W : list Sample) (off : Z) :
  0 <= off -> off + Z.of_nat (length W) <= Z.of_nat (length B) ->
  (length B <= length scratch)%nat ->
  take (length B) (overlay (overlay scratch 0 B) off W) = overlay B off W.
Proof.
  intros Hoff Hfit Hsc.
  assert (H0 : overlay scratch 0 B = B ++ drop (length B) scratch)
    by (unfold overlay; by change (Z.to_nat 0) with 0%nat).
  rewrite H0, overlay_app_fit by lia.
  apply take_app_length'. rewrite length_overlay; lia.
Qed.

Lemma written_split (buffer : option (list Sample)) (f g : sampleFormat)
    (a b : Z) :
  0 <= a -> 0 <= b ->
  written convert buffer f g (a + b)
  = written convert buffer f g a
    ++ written convert (option_map (drop (Z.to_nat a)) buffer) f g b.
Proof.
  intros Ha Hb. unfold written. rewrite Z2Nat.inj_add by lia.
  destruct buffer as [buf|]; cbn [option_map].
  - rewrite <- map_app. f_equal. symmetry. apply take_take_drop.
  - apply replicate_add.
Qed.

Lemma length_written (buffer : option (list Sample)) (f g : sampleFormat)
    (len : Z) :
  0 <= len -> (forall buf, buffer = Some buf -> len <= Z.of_nat (length buf)) ->
  Z.of_nat (length (written convert buffer f g len)) = len.
Proof.
  intros Hlen Hb. unfold written. destruct buffer as [buf|].
  - specialize (Hb buf eq_refl). rewrite length_map, length_take. lia.
  - rewrite length_replicate. lia.
Qed.

Lemma written_0 (buffer : option (list Sample)) (f g : sampleFormat) :
  written convert buffer f g 0 = [].
Proof. unfold written. by destruct buffer. Qed.

Lemma SetSamples_loop_contents (rest : BlockArray) (t : Sequence)
    (buffer : option (list Sample)) (format : sampleFormat)
    (temp scratch : list Sample) (newBlock : BlockArray) (start len p : Z)
    (n : nat) :
  chained p rest -> Forall (goodBlock (mMaxSamples t)) rest ->
  0 <= len ->
  (len <> 0 ->
   p <= start /\ start + len <= p + sumLen rest /\
   forall b, head rest = Some b -> start < p + blockLen b) ->
  mMaxSamples t <= Z.of_nat (length scratch) ->
  (forall buf, buffer = Some buf ->
     len <= Z.of_nat (length buf) /\
     (format <> mSampleFormat t ->
      limitSampleBufferSize (mMaxSamples t) len <= Z.of_nat (length temp))) ->
  wp (SetSamples_loop convert io_fails rest t buffer format temp scratch
        newBlock start len) n
    (okL io_fails True
       (fun out => exists mid,
          out = newBlock ++ mid /\ map shape mid = map shape rest /\
          (same_format_copy convert ->
           samplesOf convert (mSampleFormat t) mid
           = overlay (samplesOf convert (mSampleFormat t) rest) (start - p)
               (written convert buffer format (mSampleFormat t) len)))).
Proof.
  set (fmt := mSampleFormat t). set (maxS := mMaxSamples t).
  revert buffer temp scratch newBlock start len p n.
  induction rest as [|block rest IH];
    intros buffer temp scratch newBlock start len p n Hc HG Hlen Hin Hsc Hbuf;
    cbn [SetSamples_loop].
  - destruct (Z.eqb_spec len 0) as [Hz|Hz].
    + apply wp_ret. cbn. exists []. split; [done|]. split; [done|].
      intros _. by rewrite Hz, written_0, overlay_nil.
    + destruct (Hin Hz) as (H1 & H2 & _). cbn in H2. lia.
  - destruct (Z.eqb_spec len 0) as [Hz|Hz].
    { apply wp_ret. cbn. eexists. split; [done|]. split; [done|].
      intros _. by rewrite Hz, written_0, overlay_nil. }
    destruct (Hin Hz) as (Hp & Hend & Hhd). specialize (Hhd block eq_refl).
    destruct Hc as [Hs Hc]. apply Forall_cons in HG as [Hg HG].
    unfold goodBlock in Hg. rewrite sumLen_cons in Hend.
    apply wp_as_size_t_bind; [lia|]. intros _.
    apply wp_deref_bind.
    { intros Hnone. unfold blockLen in Hg. rewrite Hnone in Hg. lia. }
    intros f Hf.
    assert (Hbl : blockLen block = GetLength f)
      by (unfold blockLen; by rewrite Hf).
    assert (Hsome : is_Some (SeqBlock_f block)) by (by eexists).
    rewrite <- Hbl. rewrite Hs.
    set (FL := blockLen block) in *.
    set (bstart := start - p).
    replace (size_t_sub FL bstart) with (FL - bstart)
      by (unfold size_t_sub, bstart;
          destruct (Z.ltb_spec FL (start - p)); lia).
    set (blen := limitSampleBufferSize (FL - bstart) len).
    assert (Hblen : 1 <= blen <= len /\ bstart + blen <= FL /\
                    (blen < len -> bstart + blen = FL))
      by (unfold blen, limitSampleBufferSize, bstart; lia).
    assert (Hlim : limitSampleBufferSize maxS len >= blen)
      by (unfold limitSampleBufferSize, bstart in *; lia).
    clearbody blen.
    set (B := blockSamples convert fmt block).
    assert (HlB : Z.of_nat (length B) = FL) by apply length_blockSamples.
    set (Wb := written convert buffer format fmt blen).
    assert (HlW : Z.of_nat (length Wb) = blen).
    { apply length_written; [lia|]. intros buf Hb.
      destruct (Hbuf buf Hb). lia. }
    (* the buffer that is used *)
    eapply okL_bind
      with (pre := True)
           (post := fun ub : option (list Sample) * list Sample =>
              length (snd ub) = length temp /\
              match buffer with
              | Some buf => exists u, fst ub = Some u /\
                  blen <= Z.of_nat (length u) /\
                  (same_format_copy convert -> take (Z.to_nat blen) u = Wb)
              | None => fst ub = None
              end); [|done|].
    { destruct buffer as [buf|]; [|by apply wp_ret].
      destruct (Hbuf buf eq_refl) as [Hlb Hlt].
      destruct (Z.eqb_spec format (mSampleFormat t)) as [Hfe|Hfe];
        fold fmt in Hfe |- *; cbn [negb].
      - apply wp_ret. cbn [okL fst snd]. split; [done|]. exists buf.
        split; [done|]. split; [lia|]. intros Hid. unfold Wb, written.
        rewrite Hfe. symmetry. apply (CopySamples_same convert Hid).
      - specialize (Hlt Hfe).
        assert (Hld : Z.of_nat (length (CopySamples convert format fmt
                         (resize (Z.to_nat blen) 0 buf))) = blen)
          by (rewrite length_CopySamples, length_resize; lia).
        apply wp_buf_store_bind.
        { intros Hnf. cbn. intros _. apply Hnf. fold maxS in Hlt. lia. }
        intros _ Hfit. apply wp_ret. cbn [okL fst snd].
        split; [by rewrite length_overlay by lia|]. eexists.
        split; [done|]. split; [rewrite length_overlay; lia|]. intros _.
        rewrite overlay1_at by lia. unfold Wb, written.
        by rewrite resize_le by lia. }
    intros [useBuffer temp'] n1 [Hlt' Hub]. cbn [fst snd] in *.
    replace ((FL <=? mMaxSamples t) && (size_t_add bstart blen <=? FL))
      with true
      by (symmetry; apply andb_true_iff; fold maxS; unfold size_t_add;
          destruct (Z.leb_spec (2 ^ 64) (bstart + blen)); lia).
    cbn [negb].
    (* the new block file *)
    eapply okL_bind
      with (pre := True)
           (post := fun nf : BlockFilePtr * list Sample =>
              length (snd nf) = length scratch /\
              blockLen (mkSeqBlock (fst nf) p) = FL /\
              (same_format_copy convert ->
               blockSamples convert fmt (mkSeqBlock (fst nf) p)
               = overlay B bstart Wb)); [|done|].
    { destruct ((0 <? bstart) || (blen <? FL)) eqn:Hpart.
      - eapply okL_bind; [apply Read_spec; lia| |].
        { intros _. split; [done|]. fold maxS in Hsc. lia. }
        intros scratch1 n2 (_ & _ & _ & _ & ->). fold B.
        rewrite (slice_0_all B) by lia.
        assert (Hl1 : length (overlay scratch 0 B) = length scratch)
          by (apply length_overlay; fold maxS in Hsc; lia).
        eapply okL_bind
          with (pre := True)
               (post := fun s2 : list Sample =>
                  length s2 = length scratch /\
                  (same_format_copy convert ->
                   s2 = overlay (overlay scratch 0 B) bstart Wb)); [|done|].
        { destruct buffer as [buf|].
          - destruct Hub as (u & -> & Hlu & Hu).
            assert (Hlr : Z.of_nat (length (resize (Z.to_nat blen) 0 u))
                          = blen) by (rewrite length_resize; lia).
            apply wp_tail, wp_buf_store_bind.
            { intros Hnf. cbn. intros _. apply Hnf.
              fold maxS in Hsc. unfold bstart in *. lia. }
            intros _ Hfit. apply wp_ret. cbn [okL].
            split; [rewrite length_overlay; lia|]. intros Hid.
            rewrite resize_le by lia. by rewrite (Hu Hid).
          - rewrite Hub. unfold ClearSamples.
            assert (Hlr : Z.of_nat (length (replicate (Z.to_nat blen) 0))
                          = blen) by (rewrite length_replicate; lia).
            apply wp_tail, wp_buf_store_bind.
            { intros Hnf. cbn. intros _. apply Hnf.
              fold maxS in Hsc. unfold bstart in *. lia. }
            intros _ Hfit. apply wp_ret. cbn [okL].
            split; [rewrite length_overlay; lia|]. done. }
        intros scratch2 n3 [Hl2 Hs2].
        eapply okL_bind; [apply NewSimpleBlockFile_spec|done|].
        intros file n4 ->. apply wp_ret. cbn [okL fst snd].
        split; [done|]. split; [apply blockLen_resized; lia|].
        intros Hid. rewrite (blockSamples_new convert Hid)
          by (fold maxS in Hsc; lia).
        rewrite (Hs2 Hid). replace (Z.to_nat FL) with (length B) by lia.
        apply take_overlay_over; [unfold bstart; lia|lia|].
        fold maxS in Hsc. lia.
      - apply orb_false_iff in Hpart as [Hb0 Hfull].
        apply Z.ltb_ge in Hb0, Hfull.
        assert (Hwhole : overlay B bstart Wb = Wb).
        { unfold overlay. replace (Z.to_nat bstart) with 0%nat
            by (unfold bstart in *; lia).
          cbn [take Nat.add app]. rewrite drop_ge by lia.
          apply app_nil_r. }
        rewrite Hwhole. destruct buffer as [buf|].
        + destruct Hub as (u & -> & Hlu & Hu).
          eapply okL_bind; [apply NewSimpleBlockFile_spec|done|].
          intros file n4 ->. apply wp_ret. cbn [okL fst snd].
          split; [done|]. split; [apply blockLen_resized; lia|].
          intros Hid. rewrite (blockSamples_new convert Hid) by lia.
          rewrite <- (Hu Hid). f_equal.
          unfold bstart in *. lia.
        + rewrite Hub. apply wp_ret. cbn [okL fst snd].
          split; [done|]. split; [apply blockLen_silent; lia|].
          intros _. unfold blockSamples, newSilentBlockFile. cbn.
          unfold Wb, written. f_equal. unfold bstart in *. lia. }
    intros [file scratch'] n2 (Hls & Hnbl & Hnb). cbn [fst snd] in *.
    eapply okL_conseq;
      [apply (IH _ _ _ _ _ _ (p + FL)); [done|done|lia| |lia| ]|done|].
    { intros Hz'.
      assert (Hfull : bstart + blen = FL) by lia.
      split; [unfold bstart in *; lia|]. split; [unfold bstart in *; lia|].
      intros b Hb. destruct rest as [|b' rest']; [done|].
      injection Hb as <-. apply Forall_cons in HG as [Hg' _].
      unfold goodBlock in Hg'. unfold bstart in *. lia. }
    { intros buf' Hb'. destruct buffer as [buf|]; [|done].
      injection Hb' as <-. destruct (Hbuf buf eq_refl) as [Hlb Hlt].
      rewrite length_drop. split; [lia|]. intros Hfe.
      specialize (Hlt Hfe). unfold limitSampleBufferSize in *. lia. }
    intros out (mid & -> & Hshape & Hcontent).
    exists (mkSeqBlock file p :: mid).
    rewrite <- app_assoc. split; [done|]. split.
    { cbn [map]. f_equal; [|done]. unfold shape. cbn [SeqBlock_start].
      by rewrite Hnbl, Hs. }
    intros Hid. rewrite !samplesOf_cons, (Hnb Hid), (Hcontent Hid).
    fold B. fold bstart.
    replace len with (blen + (len - blen)) at 2 by lia.
    rewrite written_split by lia. fold Wb.
    destruct (Z.eq_dec (len - blen) 0) as [Hz'|Hz'].
    + rewrite Hz', !written_0, overlay_nil, app_nil_r.
      symmetry. apply overlay_app_fit; [unfold bstart; lia|lia].
    + replace (start + blen - (p + FL)) with 0 by (unfold bstart in *; lia).
      symmetry. apply overlay_app_span; [unfold bstart; lia|].
      unfold bstart in *. lia.
Qed.

(** [SetSamples] with its contents: the samples from [start] on are
    replaced by the ones written. *)
Lemma SetSamples_full_spec (buffer : option (list Sample))
    (format : sampleFormat) (start len : Z) (w : World) :
  Invariants (this w) -> 0 <= len ->
  (forall buf, buffer = Some buf -> len <= Z.of_nat (length buf)) ->
  wp (SetSamples convert io_fails guess_offset buffer format start len) w
    (okM io_fails (this w)
       (0 <= start < mNumSamples (this w) /\
        start + len <= mNumSamples (this w))
       (fun _ t' =>
          Invariants t' /\
          mSampleFormat t' = mSampleFormat (this w) /\
          mMinSamples t' = mMinSamples (this w) /\
          mMaxSamples t' = mMaxSamples (this w) /\
          mNumSamples t' = mNumSamples (this w) /\
          map shape (mBlock t') = map shape (mBlock (this w)) /\
          (same_format_copy convert ->
           samples convert t'
           = overlay (samples convert (this w)) start
               (written convert buffer format (mSampleFormat (this w))
                  len)))).
Proof.
  intros HI Hlen Hbuf. unfold SetSamples. apply wp_getThis_bind.
  set (t := this w) in *.
  destruct (Z.ltb_spec start 0) as [H0|H0]; [cbn; split; [done|lia]|].
  destruct (Z.leb_spec (mNumSamples t) start) as [H1|H1];
    [cbn; split; [done|lia]|].
  destruct (Z.ltb_spec (mNumSamples t) (start + len)) as [H2|H2];
    [cbn; split; [done|lia]|].
  cbn [orb].
  pose proof (Invariants_positive t HI) as Hpos.
  pose proof HI as (Hc & Hn & HG)%Invariants_chain.
  destruct (holds_exists 0 (mBlock t) start Hc ltac:(lia)) as [b Hb].
  apply wp_liftR_bind.
  rewrite (FindBlock_holds guess_offset t start b Hc Hn Hpos ltac:(lia) Hb).
  destruct Hb as (blk & Hblk & Hr).
  pose proof (chained_start 0 _ _ _ Hc Hblk) as Hst.
  set (p := sumLen (take b (mBlock t))) in *.
  assert (Hmax : 1 <= mMaxSamples t).
  { apply (Forall_lookup_1 _ _ _ _ HG) in Hblk. unfold goodBlock in Hblk.
    lia. }
  eapply okM_liftL with (pre := True); [done| |done|].
  { apply (SetSamples_loop_contents _ _ _ _ _ _ _ _ _ p).
    - replace p with (0 + p) by lia. by apply chained_drop.
    - by apply Forall_drop.
    - done.
    - intros _. split; [lia|]. split.
      + rewrite (sumLen_take_drop (mBlock t) b) in Hn. fold p in Hn. lia.
      + intros b0 Hb0. rewrite head_lookup, lookup_drop, Nat.add_0_r in Hb0.
        rewrite Hblk in Hb0. injection Hb0 as <-. lia.
    - rewrite length_SampleBuffer. lia.
    - intros buf Hb. split; [by apply Hbuf|]. intros Hfe.
      apply Z.eqb_neq in Hfe. rewrite Hb, Hfe. cbn [negb].
      rewrite length_SampleBuffer. unfold limitSampleBufferSize. lia. }
  intros newBlock n' (mid & -> & Hmid & Hcontent).
  assert (Hshape : map shape (take b (mBlock t) ++ mid)
                   = map shape (mBlock t))
    by (by rewrite map_app, Hmid, <- map_app, take_drop).
  pose proof (Invariants_same_shape t _ Hshape HI) as HI'.
  apply okM_commit; [done| |].
  { intros _. apply Invariants_consistent in HI'. apply HI'. }
  intros _. split; [done|]. do 5 (split; [done|]).
  intros Hid. unfold samples.
  cbn [mSampleFormat mBlock set_mBlock set_mNumSamples].
  rewrite samplesOf_app, (Hcontent Hid).
  rewrite <- (take_drop b (mBlock t)) at 3. rewrite samplesOf_app.
  rewrite overlay_app_l by lia. f_equal.
  pose proof (length_samplesOf convert (mSampleFormat t) (take b (mBlock t))) as Hl.
  fold p in Hl. lia.
Qed.

(** X18: on a sequence that satisfies the invariants, a [SetSamples] that
    returns has replaced the samples [start .. start + len - 1] by the
    first [len] samples of the buffer, converted to the format of the
    sequence (by silence for a null buffer), and has left the others; the
    count, the starts and lengths of the blocks, the format and the block
    sizes are kept and the invariants hold again. *)
Theorem SetSamples_overwrites (buffer : option (list Sample))
    (format : sampleFormat) (start len : Z) (w w' : World) :
  same_format_copy convert ->
  Invariants (this w) -> 0 <= len ->
  (forall buf, buffer = Some buf -> len <= Z.of_nat (length buf)) ->
  SetSamples convert io_fails guess_offset buffer format start len w
  = (Ret tt, w') ->
  samples convert (this w')
  = take (Z.to_nat start) (samples convert (this w))
    ++ written convert buffer format (mSampleFormat (this w)) len
    ++ drop (Z.to_nat (start + len)) (samples convert (this w)) /\
  mNumSamples (this w') = mNumSamples (this w) /\
  map shape (mBlock (this w')) = map shape (mBlock (this w)) /\
  Invariants (this w') /\
  mSampleFormat (this w') = mSampleFormat (this w) /\
  mMinSamples (this w') = mMinSamples (this w) /\
  mMaxSamples (this w') = mMaxSamples (this w).
Proof.
  intros Hid HI Hlen Hbuf Hrun.
  pose proof (SetSamples_full_spec buffer format start len w HI Hlen Hbuf)
    as H.
  unfold wp in H. rewrite Hrun in H. cbn [fst snd okM] in H.
  destruct H as (H1 & H2 & H3 & H4 & H5 & H6 & H7).
  split; [|done]. rewrite (H7 Hid). unfold overlay. do 2 f_equal.
  assert (Hstart : 0 <= start).
  { unfold SetSamples, bind, getThis, throw in Hrun. cbn [this] in Hrun.
    destruct (Z.ltb_spec start 0); [done|lia]. }
  pose proof (length_written buffer format (mSampleFormat (this w)) len
                Hlen Hbuf).
  f_equal. lia.
Qed.

(** X19: [SetSamples] gives the strong guarantee: when it throws, the
    sequence is as it was.  For a range inside the sequence and a buffer
    that holds [len] samples, it returns, or throws [FileException]
    because the block store failed. *)
Theorem SetSamples_strong_guarantee (buffer : option (list Sample))
    (format : sampleFormat) (start len : Z) (w : World) :
  Invariants (this w) -> 0 <= len ->
  (forall buf, buffer = Some buf -> len <= Z.of_nat (length buf)) ->
  let r := SetSamples convert io_fails guess_offset buffer format start len
             w in
  (forall e, fst r = Throw e -> this (snd r) = this w) /\
  (0 <= start < mNumSamples (this w) ->
   start + len <= mNumSamples (this w) ->
   fst r = Ret tt \/ (fst r = Throw FileException /\ has_fault io_fails)).
Proof.
  intros HI Hlen Hbuf. cbv zeta.
  pose proof (SetSamples_full_spec buffer format start len w HI Hlen Hbuf)
    as H.
  unfold wp in H.
  destruct (SetSamples convert io_fails guess_offset buffer format start len
              w) as [[[]|e|] w']; cbn [fst snd okM] in *.
  - split; [done|]. by left.
  - destruct H as [Ht Hv]. split; [done|]. intros H1 H2. right.
    destruct Hv as [He Hf]; [done|]. by rewrite He.
  - split; [done|]. intros H1 H2. exfalso. by apply H.
Qed.

Lemma wp_okL_then {A B} (m : L A) (k : A -> L B) (n : nat) (pre : Prop)
    (post : A -> Prop) (Q : res B -> nat -> Prop) :
  wp m n (okL io_fails pre post) -> pre ->
  (has_fault io_fails -> forall n', Q (Throw FileException) n') ->
  (forall a n', post a -> wp (k a) n' Q) ->
  wp (bind m k) n Q.
Proof.
  intros Hm Hpre Hf Hk. apply wp_bind. unfold wp in *.
  destruct (m n) as [[a|e|] n']; cbn in *; [by apply Hk| |done].
  destruct (Hm Hpre) as [-> Hfault]. by apply Hf.
Qed.

(** With a negative [len] and a [start] before the next block, the loop
    of [SetSamples] ends at that block: [bstart] is the wrapped
    difference and the test before the write fails.  Without a next
    block the loop reads past the end of the array. *)
Lemma SetSamples_loop_before (rest : BlockArray) (t : Sequence)
    (buffer : option (list Sample)) (format : sampleFormat)
    (temp scratch : list Sample) (newBlock : BlockArray) (start len p : Z)
    (n : nat) :
  chained p rest -> Forall (goodBlock (mMaxSamples t)) rest ->
  len < 0 -> start < p -> p - start <= 2 ^ 63 - 1 ->
  sumLen rest <= 2 ^ 63 - 1 ->
  wp (SetSamples_loop convert io_fails rest t buffer format temp scratch
        newBlock start len) n
    (fun r _ => r = match rest with
                    | [] => Undefined
                    | _ :: _ => Throw InconsistencyException
                    end).
Proof.
  intros Hc HG Hlen Hst Hd Hsum.
  destruct rest as [|block rest]; cbn [SetSamples_loop];
    (destruct (Z.eqb_spec len 0); [lia|]); [done|].
  destruct Hc as [Hs Hc]. apply Forall_cons in HG as [Hg HG].
  unfold goodBlock in Hg. rewrite sumLen_cons in Hsum.
  pose proof (sumLen_nonneg rest) as Hr0.
  apply wp_as_size_t_bind; [|lia]. intros Hneg.
  apply wp_deref_bind.
  { intros Hnone. unfold blockLen in Hg. rewrite Hnone in Hg. lia. }
  intros f Hf.
  assert (Hbl : blockLen block = GetLength f)
    by (unfold blockLen; by rewrite Hf).
  rewrite <- Hbl, Hs.
  replace (limitSampleBufferSize
             (size_t_sub (blockLen block) (start - p + 2 ^ 64)) len) with 0.
  2:{ unfold limitSampleBufferSize, size_t_sub.
      destruct (Z.ltb_spec (blockLen block) (start - p + 2 ^ 64)); lia. }
  replace (size_t_add (start - p + 2 ^ 64) 0) with (start - p + 2 ^ 64).
  2:{ unfold size_t_add.
      destruct (Z.leb_spec (2 ^ 64) (start - p + 2 ^ 64 + 0)); lia. }
  replace (start - p + 2 ^ 64 <=? blockLen block) with false
    by (symmetry; apply Z.leb_gt; lia).
  rewrite andb_false_r. cbn [negb].
  apply wp_bind.
  destruct buffer as [buf|]; [|by apply wp_ret].
  destruct (format =? mSampleFormat t); cbn [negb]; [by apply wp_ret|].
  change (Z.to_nat 0) with 0%nat. rewrite resize_0. cbn [replicate].
  apply wp_buf_store_bind; [|intros; by apply wp_ret].
  intros Hnf. exfalso. apply Hnf. rewrite length_CopySamples.
  cbn [length]. lia.
Qed.

(** With a negative [len] the loop of [SetSamples] writes nothing into
    the block that holds [start] and goes on to the next block, where it
    ends as above. *)
Lemma SetSamples_loop_negative (block : SeqBlock) (rest : BlockArray)
    (t : Sequence) (buffer : option (list Sample)) (format : sampleFormat)
    (temp scratch : list Sample) (newBlock : BlockArray) (start len p : Z)
    (n : nat) :
  chained p (block :: rest) ->
  Forall (goodBlock (mMaxSamples t)) (block :: rest) ->
  len < 0 -> p <= start < p + blockLen block ->
  sumLen (block :: rest) <= 2 ^ 63 - 1 ->
  mMaxSamples t <= Z.of_nat (length scratch) ->
  wp (SetSamples_loop convert io_fails (block :: rest) t buffer format temp
        scratch newBlock start len) n
    (fun r _ =>
       match r with
       | Ret _ => False
       | Throw e =>
           (e = FileException /\ has_fault io_fails) \/
           (e = InconsistencyException /\ rest <> [])
       | Undefined => rest = []
       end).
Proof.
  intros Hc HG Hlen Hhd Hsum Hsc. cbn [SetSamples_loop].
  destruct (Z.eqb_spec len 0); [lia|].
  destruct Hc as [Hs Hc]. apply Forall_cons in HG as [Hg HG].
  unfold goodBlock in Hg. rewrite sumLen_cons in Hsum.
  pose proof (sumLen_nonneg rest) as Hr0.
  apply wp_as_size_t_bind; [lia|]. intros Hb0.
  apply wp_deref_bind.
  { intros Hnone. unfold blockLen in Hg. rewrite Hnone in Hg. lia. }
  intros f Hf.
  assert (Hbl : blockLen block = GetLength f)
    by (unfold blockLen; by rewrite Hf).
  rewrite <- Hbl, Hs.
  replace (limitSampleBufferSize (size_t_sub (blockLen block) (start - p))
             len) with 0.
  2:{ unfold limitSampleBufferSize, size_t_sub.
      destruct (Z.ltb_spec (blockLen block) (start - p)); lia. }
  replace (size_t_add (start - p) 0) with (start - p).
  2:{ unfold size_t_add. destruct (Z.leb_spec (2 ^ 64) (start - p + 0)); lia. }
  change (Z.to_nat 0) with 0%nat.
  eapply wp_okL_then
    with (pre := True)
         (post := fun ub : option (list Sample) * list Sample => True);
    [|done|by left|].
  { destruct buffer as [buf|]; [|by apply wp_ret].
    destruct (format =? mSampleFormat t); cbn [negb]; [by apply wp_ret|].
    apply wp_buf_store_bind; [|intros; by apply wp_ret].
    intros Hnf. cbn. intros _. apply Hnf. split; [done|].
    rewrite length_CopySamples, length_resize. lia. }
  intros [useBuffer temp'] n1 _. cbn [fst snd].
  replace ((blockLen block <=? mMaxSamples t)
           && (start - p <=? blockLen block)) with true
    by (symmetry; apply andb_true_iff; lia).
  replace ((0 <? start - p) || (0 <? blockLen block)) with true
    by (symmetry; apply orb_true_iff; lia).
  cbn [negb].
  eapply wp_okL_then
    with (pre := True)
         (post := fun nf : BlockFilePtr * list Sample => True);
    [|done|by left|].
  { eapply okL_bind; [apply Read_spec; lia| |].
    { intros _. split; [by eexists|]. lia. }
    intros scratch1 n2 (_ & _ & _ & _ & ->).
    assert (Hl1 : length (overlay scratch 0
                            (slice (blockSamples convert (mSampleFormat t)
                                      block) 0 (blockLen block)))
                  = length scratch).
    { apply length_overlay; [lia|]. rewrite length_slice; try lia.
      rewrite length_blockSamples. lia. }
    eapply okL_bind
      with (pre := True)
           (post := fun s2 : list Sample => True);
      [|done|].
    { destruct useBuffer as [u|]; unfold ClearSamples;
        rewrite ?resize_0; change (Z.to_nat 0) with 0%nat;
        cbn [replicate];
        (apply wp_tail, wp_buf_store_bind;
         [intros Hnf; cbn; intros _; apply Hnf; cbn [length]; lia|]);
        intros _ _; by apply wp_ret. }
    intros scratch2 n3 _.
    eapply okL_bind; [apply NewSimpleBlockFile_spec|done|].
    intros file n4 _. by apply wp_ret. }
  intros [file scratch'] n2 _. cbn [fst snd].
  rewrite Z.add_0_r, Z.sub_0_r.
  pose proof (SetSamples_loop_before rest t
                (option_map (drop 0) buffer) format temp' scratch'
                (newBlock ++ [mkSeqBlock file p]) start len
                (p + blockLen block) n2 Hc HG Hlen ltac:(lia) ltac:(lia)
                ltac:(lia)) as HL.
  unfold wp in *. rewrite HL. destruct rest; [done|]. right. done.
Qed.

(** X20: the guard of [SetSamples] does not look at the sign of [len].
    With a negative [len] and a [start] inside the sequence the call is
    not rejected by the guard: the loop writes nothing into the block
    that holds [start] and goes on to the next block.  There [bstart] is
    the difference of [start] and the start of the block, wrapped by
    [as_size_t], and the test before the write throws
    [InconsistencyException]; when [start] lies in the last block there
    is no next block and the loop reads past the end of the block array,
    which has no defined outcome.  A fault of the block store can end
    the call before with [FileException].  The call never returns, and
    the sequence is as it was when it throws. *)
Theorem SetSamples_negative_len_not_rejected (buffer : option (list Sample))
    (format : sampleFormat) (start len : Z) (w : World) :
  Invariants (this w) -> mNumSamples (this w) <= 2 ^ 63 - 1 ->
  0 <= start < mNumSamples (this w) -> - 2 ^ 63 <= len < 0 ->
  let r := SetSamples convert io_fails guess_offset buffer format start len
             w in
  exists (i : nat) b, mBlock (this w) !! i = Some b /\
    SeqBlock_start b <= start < SeqBlock_start b + blockLen b /\
    match fst r with
    | Ret _ => False
    | Throw e =>
        this (snd r) = this w /\
        ((e = FileException /\ has_fault io_fails) \/
         (e = InconsistencyException /\
          (S i < length (mBlock (this w)))%nat))
    | Undefined => S i = length (mBlock (this w))
    end.
Proof.
  intros HI Hfit Hstart Hlen. cbv zeta.
  pose proof (Invariants_positive (this w) HI) as Hpos.
  pose proof HI as (Hc & Hn & HG)%Invariants_chain.
  destruct (holds_exists 0 (mBlock (this w)) start Hc ltac:(lia)) as [b Hb].
  pose proof Hb as (blk & Hblk & Hr).
  exists b, blk. split; [done|]. split; [done|].
  change (wp (SetSamples convert io_fails guess_offset buffer format start
                len) w
            (fun r w' =>
               match r with
               | Ret _ => False
               | Throw e =>
                   this w' = this w /\
                   ((e = FileException /\ has_fault io_fails) \/
                    (e = InconsistencyException /\
                     (S b < length (mBlock (this w)))%nat))
               | Undefined => S b = length (mBlock (this w))
               end)).
  unfold SetSamples. apply wp_getThis_bind. set (t := this w) in *.
  destruct (Z.ltb_spec start 0) as [H0|H0]; [lia|].
  destruct (Z.leb_spec (mNumSamples t) start) as [H1|H1]; [lia|].
  destruct (Z.ltb_spec (mNumSamples t) (start + len)) as [H2|H2]; [lia|].
  cbn [orb].
  apply wp_liftR_bind.
  rewrite (FindBlock_holds guess_offset t start b Hc Hn Hpos ltac:(lia) Hb).
  pose proof (chained_start 0 _ _ _ Hc Hblk) as Hst.
  pose proof (lookup_lt_Some _ _ _ Hblk) as Hlt.
  assert (Hmax : 1 <= mMaxSamples t).
  { apply (Forall_lookup_1 _ _ _ _ HG) in Hblk. unfold goodBlock in Hblk.
    lia. }
  rewrite (drop_S _ _ _ Hblk).
  assert (Hcd : chained (sumLen (take b (mBlock t)))
                  (blk :: drop (S b) (mBlock t))).
  { rewrite <- (drop_S _ _ _ Hblk).
    replace (sumLen (take b (mBlock t)))
      with (0 + sumLen (take b (mBlock t))) by lia.
    by apply chained_drop. }
  assert (HGd : Forall (goodBlock (mMaxSamples t))
                  (blk :: drop (S b) (mBlock t))).
  { rewrite <- (drop_S _ _ _ Hblk). by apply Forall_drop. }
  assert (Hsd : sumLen (blk :: drop (S b) (mBlock t)) <= 2 ^ 63 - 1).
  { rewrite <- (drop_S _ _ _ Hblk).
    pose proof (sumLen_take_drop (mBlock t) b).
    pose proof (sumLen_nonneg (take b (mBlock t))). lia. }
  apply wp_bind, wp_liftL.
  match goal with
  | |- context [SetSamples_loop ?c ?i ?r ?t' ?bu ?f ?te ?sc ?nb ?s ?l] =>
      pose proof (SetSamples_loop_negative blk (drop (S b) (mBlock t)) t' bu
                    f te sc nb s l (sumLen (take b (mBlock t))) (calls w)
                    Hcd HGd ltac:(lia) ltac:(lia) Hsd
                    ltac:(rewrite length_SampleBuffer; lia)) as HL
  end.
  unfold wp in *.
  destruct (SetSamples_loop _ _ _ _ _ _ _ _ _ _ _ (calls w))
    as [[out|e|] n'] eqn:E; cbn [fst snd this] in *; [done| |].
  - split; [done|]. destruct HL as [HL|[-> HL]]; [by left|right].
    split; [done|].
    destruct (drop (S b) (mBlock t)) eqn:Ed; [done|].
    apply (f_equal length) in Ed. rewrite length_drop in Ed. cbn in Ed. lia.
  - apply (f_equal length) in HL. rewrite length_drop in HL. cbn in HL. lia.
Qed.

(** X21: [SetSilence] on a sequence that satisfies the invariants: when
    it returns, silence lies over the samples [s0 .. s0 + len - 1] and the
    others, the count and the starts and lengths of the blocks are as
    they were; when it throws, the sequence is as it was; for a range
    inside the sequence it returns, or throws [FileException] because the
    block store failed. *)
Theorem SetSilence_silences (s0 len : Z) (w : World) :
  Invariants (this w) -> 0 <= len ->
  let r := SetSilence convert io_fails guess_offset s0 len w in
  (fst r = Ret tt ->
   (same_format_copy convert ->
    samples convert (this (snd r))
    = take (Z.to_nat s0) (samples convert (this w))
      ++ replicate (Z.to_nat len) 0
      ++ drop (Z.to_nat (s0 + len)) (samples convert (this w))) /\
   mNumSamples (this (snd r)) = mNumSamples (this w) /\
   map shape (mBlock (this (snd r))) = map shape (mBlock (this w)) /\
   Invariants (this (snd r))) /\
  (forall e, fst r = Throw e -> this (snd r) = this w) /\
  (0 <= s0 < mNumSamples (this w) -> s0 + len <= mNumSamples (this w) ->
   fst r = Ret tt \/ (fst r = Throw FileException /\ has_fault io_fails)).
Proof.
  intros HI Hlen. cbv zeta.
  change (SetSilence convert io_fails guess_offset s0 len w)
    with (SetSamples convert io_fails guess_offset None
            (mSampleFormat (this w)) s0 len w).
  pose proof (SetSamples_full_spec None (mSampleFormat (this w)) s0 len w HI
                Hlen ltac:(done)) as H.
  unfold wp in H.
  assert (Hstart : fst (SetSamples convert io_fails guess_offset None
                          (mSampleFormat (this w)) s0 len w) = Ret tt ->
                   0 <= s0).
  { unfold SetSamples, bind, getThis, throw. cbn [this fst snd].
    destruct (Z.ltb_spec s0 0); [done|lia]. }
  destruct (SetSamples convert io_fails guess_offset None
              (mSampleFormat (this w)) s0 len w) as [[[]|e|] w'];
    cbn [fst snd okM] in *.
  - destruct H as (H1 & H2 & H3 & H4 & H5 & H6 & H7).
    split; [|split; [done|by left]]. intros _. split; [|done].
    intros Hid. rewrite (H7 Hid). unfold overlay, written.
    do 3 f_equal. rewrite length_replicate. specialize (Hstart eq_refl). lia.
  - destruct H as [Ht Hv]. split; [done|]. split; [done|].
    intros H1 H2. right. destruct Hv as [He Hf]; [done|]. by rewrite He.
  - split; [done|]. split; [done|]. intros H1 H2. exfalso. by apply H.
Qed.

Lemma InsertSilence_loop_spec (fuel : nat) (silentFile : BlockFilePtr)
    (idealSamples : Z) (block : BlockArray) (pos len : Z) :
  0 < idealSamples -> 0 <= len -> (Z.to_nat len <= fuel)%nat ->
  (idealSamples <= len -> silentFile = newSilentBlockFile idealSamples) ->
  exists block' len',
    InsertSilence_loop fuel silentFile idealSamples block pos len
    = Ret (block ++ block', pos + sumLen block', len') /\
    0 <= len' < idealSamples /\ sumLen block' + len' = len /\
    chained pos block' /\ Forall (goodBlock idealSamples) block' /\
    forall format,
      samplesOf convert format block' = replicate (Z.to_nat (len - len')) 0.
Proof.
  intros Hi. revert block pos len.
  induction fuel as [|fuel IH]; intros block pos len Hlen Hfuel Hsf;
    cbn [InsertSilence_loop];
    destruct (Z.leb_spec idealSamples len) as [Hle|Hlt]; try lia.
  1,3: exists [], len; rewrite app_nil_r; cbn [sumLen foldr];
       rewrite Z.add_0_r, Z.sub_diag; by repeat split; try lia.
  destruct (IH (block ++ [mkSeqBlock silentFile pos]) (pos + idealSamples)
              (len - idealSamples) ltac:(lia) ltac:(lia) ltac:(by intros _; apply Hsf))
    as (block' & len' & -> & Hl' & Hsum & Hc & HG & Hsamp).
  rewrite (Hsf Hle) in *.
  set (b := mkSeqBlock (newSilentBlockFile idealSamples) pos).
  assert (Hbl : blockLen b = idealSamples)
    by (unfold blockLen, b; cbn; lia).
  exists (b :: block'), len'. rewrite <- app_assoc, sumLen_cons, Hbl.
  split; [do 2 f_equal; cbn [app]; f_equal; lia|].
  split; [done|]. split; [lia|]. split; [by rewrite <- Hbl in Hc|].
  split; [constructor; [unfold goodBlock; lia|done]|].
  intros format. rewrite samplesOf_cons, Hsamp.
  unfold blockSamples, b, newSilentBlockFile. cbn.
  rewrite <- replicate_add. f_equal.
  pose proof (sumLen_nonneg block'). rewrite Z_N_nat. lia.
Qed.

Lemma Paste_src_sizes (s : Z) (src : Sequence) (minSamples maxSamples : Z) :
  Paste convert io_fails guess_offset s src
  = Paste convert io_fails guess_offset s
      (set_mMaxSamples maxSamples (set_mMinSamples minSamples src)).
Proof. reflexivity. Qed.

(** [InsertSilence] with its contents. *)
Lemma InsertSilence_spec (s0 len : Z) (w : World) :
  Invariants (this w) -> 0 < mMaxSamples (this w) ->
  wp (InsertSilence SAMPLE_SIZE convert sMaxDiskBlockSize io_fails guess_offset s0 len) w
    (okM io_fails (this w)
       (0 <= s0 <= mNumSamples (this w) /\ 0 <= len /\
        mNumSamples (this w) + len <= 2 ^ 63 - 1)
       (fun _ t' =>
          Invariants t' /\
          mSampleFormat t' = mSampleFormat (this w) /\
          mMinSamples t' = mMinSamples (this w) /\
          mMaxSamples t' = mMaxSamples (this w) /\
          mNumSamples t' = mNumSamples (this w) + Z.max 0 len /\
          (same_format_copy convert ->
           samples convert t'
           = take (Z.to_nat s0) (samples convert (this w))
             ++ replicate (Z.to_nat len) 0
             ++ drop (Z.to_nat s0) (samples convert (this w))))).
Proof.
  intros HI Hmax. unfold InsertSilence. apply wp_getThis_bind.
  set (t := this w) in *.
  pose proof HI as (Hc & Hn & HG)%Invariants_chain.
  pose proof (sumLen_nonneg (mBlock t)) as Hnn.
  destruct (Overflows _) eqn:Hov.
  { cbn. split; [done|]. intros (_ & Hl & Hsum).
    rewrite Overflows_false in Hov; [done|lia..]. }
  destruct (Z.leb_spec len 0) as [Hle|Hlen].
  { apply wp_ret. cbn [okM]. fold t. split; [done|]. do 3 (split; [done|]).
    split; [lia|]. intros _. replace (Z.to_nat len) with 0%nat by lia.
    cbn [replicate app]. by rewrite take_drop. }
  unfold GetIdealBlockSize. set (ideal := mMaxSamples t) in *.
  replace (ideal =? 0) with false by (symmetry; apply Z.eqb_neq; lia).
  apply wp_bind. cbn [ret wp fst snd].
  apply wp_as_size_t_bind.
  { intros Hneg. exfalso.
    pose proof (Z.div_pos (len + ideal - 1) ideal). lia. }
  intros _.
  destruct (InsertSilence_loop_spec (Z.to_nat len)
              (if ideal <=? len then newSilentBlockFile ideal else None)
              ideal [] 0 len Hmax ltac:(lia) ltac:(lia))
    as (blocks & len' & Hrun & Hl' & Hsum & Hcb & HGb & Hsamp).
  { intros Hle. by destruct (Z.leb_spec ideal len); [|lia]. }
  apply wp_liftR_bind. rewrite Hrun. cbn [fst snd app].
  assert (Hpaste : forall tail,
            chained (0 + sumLen blocks) tail ->
            Forall (goodBlock ideal) tail -> sumLen tail = len' ->
            (forall format,
               samplesOf convert format tail = replicate (Z.to_nat len') 0) ->
            wp (Paste convert io_fails guess_offset s0
                  (set_mNumSamples len
                     (set_mBlock (blocks ++ tail)
                        (Sequence_new SAMPLE_SIZE sMaxDiskBlockSize
                           (mSampleFormat t))))) w
              (okM io_fails t
                 (0 <= s0 <= mNumSamples t /\ 0 <= len /\
                  mNumSamples t + len <= 2 ^ 63 - 1)
                 (fun _ t' =>
                    Invariants t' /\
                    mSampleFormat t' = mSampleFormat t /\
                    mMinSamples t' = mMinSamples t /\
                    mMaxSamples t' = mMaxSamples t /\
                    mNumSamples t' = mNumSamples t + Z.max 0 len /\
                    (same_format_copy convert ->
                     samples convert t'
                     = take (Z.to_nat s0) (samples convert t)
                       ++ replicate (Z.to_nat len) 0
                       ++ drop (Z.to_nat s0) (samples convert t))))).
  { intros tail Hct HGt Hst Hsampt.
    set (sTrack := set_mNumSamples len _).
    rewrite (Paste_src_sizes s0 sTrack (mMinSamples t) (mMaxSamples t)).
    set (src := set_mMaxSamples _ _).
    assert (HIs : Invariants src).
    { apply Invariants_chain. cbn. split; [|split].
      - apply chained_app. by split.
      - rewrite sumLen_app. lia.
      - apply Forall_app. by split. }
    assert (Hsrc : samples convert src = replicate (Z.to_nat len) 0).
    { unfold samples. cbn [src sTrack mSampleFormat mBlock set_mMaxSamples
        set_mMinSamples set_mNumSamples set_mBlock Sequence_new].
      rewrite samplesOf_app, Hsamp, Hsampt.
      rewrite <- replicate_add. f_equal.
      pose proof (sumLen_nonneg blocks). lia. }
    assert (Hfit : Forall (fun b => blockLen b <= mMaxSamples t)
                     (blocks ++ tail)).
    { apply Forall_app. split.
      - eapply Forall_impl; [exact HGb|]. unfold goodBlock. intros b. cbn.
        lia.
      - eapply Forall_impl; [exact HGt|]. unfold goodBlock. intros b. cbn.
        lia. }
    pose proof (Paste_spec convert io_fails guess_offset s0 src w HI HIs)
      as HP.
    unfold wp in *.
    destruct (Paste convert io_fails guess_offset s0 src w)
      as [[[]|e|] w']; cbn [fst snd okM] in *.
    - destruct HP as (H1 & H2 & H3 & H4 & H5 & H6). fold t in H6.
      split; [done|]. do 3 (split; [done|]). split; [cbn in H5; fold t in H5; lia|].
      intros Hid. by rewrite (H6 Hid), Hsrc.
    - destruct HP as [Ht Hv]. split; [done|]. intros (H1 & H2 & H3).
      apply Hv. split; [done|]. split; [done|]. split; [cbn; fold t; lia|done].
    - intros (H1 & H2 & H3). apply HP.
      split; [done|]. split; [done|]. split; [cbn; fold t; lia|done]. }
  destruct (Z.eqb_spec len' 0) as [Hz|Hz]; cbn [negb].
  - apply wp_bind. cbn [ret wp fst snd].
    replace (0 + sumLen blocks) with len by lia.
    rewrite <- (app_nil_r blocks). apply Hpaste; try done.
    all: try (intros format); by rewrite Hz.
  - apply wp_bind, wp_as_size_t_bind; [lia|]. intros _.
    apply wp_ret. cbn [fst snd].
    replace (0 + sumLen blocks + len') with len by lia.
    assert (Hbl : blockLen (mkSeqBlock (newSilentBlockFile len')
                              (0 + sumLen blocks)) = len')
      by (unfold blockLen; cbn; lia).
    apply Hpaste.
    + done.
    + constructor; [unfold goodBlock|done]. lia.
    + cbn [sumLen foldr]. lia.
    + intros format. unfold samplesOf, blockSamples. cbn.
      rewrite app_nil_r. f_equal. lia.
Qed.

(** X22: [InsertSilence] on a sequence that satisfies the invariants,
    with a positive [maxSamples]: when it returns and the new count is
    at most [2^63 - 1], [len] samples of silence lie at offset [s0]
    between the samples that were before and after it (nothing is
    changed for [len <= 0]), the count has grown by [len] and the
    invariants hold again; when it throws, the sequence is as it was;
    with an offset inside the sequence and a new count of at most
    [2^63 - 1] it returns, or throws [FileException] because the block
    store failed. *)
Theorem InsertSilence_inserts (s0 len : Z) (w : World) :
  Invariants (this w) -> 0 < mMaxSamples (this w) ->
  let r := InsertSilence SAMPLE_SIZE convert sMaxDiskBlockSize io_fails
             guess_offset s0 len w in
  (fst r = Ret tt ->
   mNumSamples (this w) + Z.max 0 len <= 2 ^ 63 - 1 ->
   (same_format_copy convert ->
    samples convert (this (snd r))
    = take (Z.to_nat s0) (samples convert (this w))
      ++ replicate (Z.to_nat len) 0
      ++ drop (Z.to_nat s0) (samples convert (this w))) /\
   mNumSamples (this (snd r)) = mNumSamples (this w) + Z.max 0 len /\
   Invariants (this (snd r)) /\
   mSampleFormat (this (snd r)) = mSampleFormat (this w) /\
   mMinSamples (this (snd r)) = mMinSamples (this w) /\
   mMaxSamples (this (snd r)) = mMaxSamples (this w)) /\
  (forall e, fst r = Throw e -> this (snd r) = this w) /\
  (0 <= s0 <= mNumSamples (this w) -> 0 <= len ->
   mNumSamples (this w) + len <= 2 ^ 63 - 1 ->
   fst r = Ret tt \/ (fst r = Throw FileException /\ has_fault io_fails)).
Proof.
  intros HI Hmax. cbv zeta.
  pose proof (InsertSilence_spec s0 len w HI Hmax) as H. unfold wp in H.
  destruct (InsertSilence SAMPLE_SIZE convert sMaxDiskBlockSize io_fails
              guess_offset s0 len w) as [[[]|e|] w'];
    cbn [fst snd okM] in *.
  - destruct H as (H1 & H2 & H3 & H4 & H5 & H6).
    split; [done|]. split; [done|]. intros _ _ _. by left.
  - destruct H as [Ht Hv]. split; [done|]. split; [done|].
    intros H1 H2 H3. right. destruct Hv as [He Hf]; [done|]. by rewrite He.
  - split; [done|]. split; [done|]. intros H1 H2 H3. exfalso. by apply H.
Qed.

(** ** Reading a range *)

Lemma overlay_overlay_next (buffer A B : list Sample) (off : Z) :
  0 <= off ->
  off + Z.of_nat (length A) + Z.of_nat (length B)
  <= Z.of_nat (length buffer) ->
  overlay (overlay buffer off A) (off + Z.of_nat (length A)) B
  = overlay buffer off (A ++ B).
Proof.
  intros Hoff Hfit. unfold overlay. rewrite length_app.
  replace (Z.to_nat (off + Z.of_nat (length A)))
    with (Z.to_nat off + length A)%nat by lia.
  rewrite take_app_ge by (rewrite length_take; lia).
  rewrite length_take.
  replace (Z.to_nat off `min` length buffer)%nat with (Z.to_nat off) by lia.
  rewrite <- !app_assoc. f_equal.
  replace (Z.to_nat off + length A - Z.to_nat off)%nat with (length A)
    by lia.
  rewrite take_app_length. f_equal. f_equal.
  rewrite !drop_app_ge by (rewrite ?length_app, length_take; lia).
  rewrite length_take, drop_drop. f_equal. lia.
Qed.

Lemma slice_app_span (B R : list Sample) (a n : Z) :
  0 <= a <= Z.of_nat (length B) -> Z.of_nat (length B) - a <= n ->
  slice (B ++ R) a n
  = slice B a (Z.of_nat (length B) - a)
    ++ slice R 0 (n - (Z.of_nat (length B) - a)).
Proof.
  intros Ha Hn. unfold slice. change (Z.to_nat 0) with 0%nat. cbn [drop].
  rewrite drop_app_le by lia.
  rewrite take_app_ge by (rewrite length_drop; lia).
  rewrite length_drop. f_equal.
  - rewrite take_ge; [done|]. rewrite length_drop. lia.
  - f_equal. lia.
Qed.

Lemma slice_app_fit (B R : list Sample) (a n : Z) :
  0 <= a -> 0 <= n -> a + n <= Z.of_nat (length B) ->
  slice (B ++ R) a n = slice B a n.
Proof.
  intros Ha Hn Hfit. unfold slice. rewrite drop_app_le by lia.
  apply take_app_le. rewrite length_drop. lia.
Qed.

(** [Get] from a position inside a block. *)
Lemma Get_loop_at (rest : BlockArray) (buffer : list Sample) (off : Z)
    (format : sampleFormat) (p start len : Z) (n : nat) :
  chained p rest -> Forall (fun b => 0 < blockLen b) rest ->
  0 <= off -> 0 <= len ->
  (len <> 0 ->
   p <= start /\ start + len <= p + sumLen rest /\
   forall b, head rest = Some b -> start < p + blockLen b) ->
  off + len <= Z.of_nat (length buffer) ->
  wp (Get_loop convert io_fails rest buffer off format start len) n
    (okL io_fails True
       (fun buffer' =>
          buffer' = overlay buffer off
                      (slice (samplesOf convert format rest) (start - p)
                         len))).
Proof.
  revert buffer off p start len n.
  induction rest as [|block rest IH];
    intros buffer off p start len n Hc HF Hoff Hlen Hin Hfit;
    cbn [Get_loop]; destruct (Z.eqb_spec len 0) as [Hz|Hz].
  1,3: apply wp_ret; cbn; rewrite Hz; unfold slice;
       change (Z.to_nat 0) with 0%nat; cbn [take]; by rewrite overlay_nil.
  { destruct (Hin Hz) as (_ & H & _). cbn in H. lia. }
  destruct (Hin Hz) as (Hp & Hend & Hhd). specialize (Hhd block eq_refl).
  destruct Hc as [Hs Hc]. apply Forall_cons in HF as [Hpos HF].
  rewrite sumLen_cons in Hend.
  apply wp_as_size_t_bind; [intros Hneg; cbn; lia|]. intros _.
  apply wp_deref_bind.
  { intros Hnone. unfold blockLen in Hpos. rewrite Hnone in Hpos. lia. }
  intros f Hf.
  assert (Hbl : blockLen block = GetLength f)
    by (unfold blockLen; by rewrite Hf).
  rewrite <- Hbl, Hs. set (FL := blockLen block) in *.
  set (bstart := start - p).
  set (blen := Z.min len (FL - bstart)).
  assert (Hblen : 1 <= blen <= len /\ bstart + blen <= FL /\
                  (blen < len -> bstart + blen = FL))
    by (unfold blen, bstart; lia).
  clearbody blen.
  set (B := blockSamples convert format block).
  assert (HlB : Z.of_nat (length B) = FL) by apply length_blockSamples.
  eapply okL_bind; [apply Read_spec; unfold bstart; lia| |].
  { intros _. split; [by eexists|]. unfold bstart in *. lia. }
  intros buffer1 n1 (_ & _ & _ & _ & ->). fold B.
  assert (Hls : Z.of_nat (length (slice B bstart blen)) = blen)
    by (apply length_slice; unfold bstart in *; lia).
  eapply okL_conseq;
    [apply (IH _ _ (p + FL)); [done|done|lia|lia| |]|done|].
  { intros Hz'. assert (Hfull : bstart + blen = FL) by lia.
    split; [unfold bstart in *; lia|]. split; [unfold bstart in *; lia|].
    intros b Hb. destruct rest as [|b' rest']; [done|].
    injection Hb as <-. apply Forall_cons in HF as [Hpos' _].
    unfold bstart in *. lia. }
  { rewrite length_overlay; lia. }
  intros out ->. rewrite samplesOf_cons. fold B. fold bstart.
  replace (off + blen)
    with (off + Z.of_nat (length (slice B bstart blen))) by lia.
  assert (Hls2 : Z.of_nat (length (slice (samplesOf convert format rest)
                                     (start + blen - (p + FL)) (len - blen)))
                 <= len - blen)
    by (unfold slice; rewrite length_take; lia).
  rewrite overlay_overlay_next by lia. f_equal.
  destruct (Z.eq_dec (len - blen) 0) as [Hz'|Hz'].
  - rewrite Hz'. unfold slice at 2. change (Z.to_nat 0) with 0%nat.
    cbn [take]. rewrite app_nil_r. replace blen with len by lia.
    symmetry. apply slice_app_fit; unfold bstart in *; lia.
  - assert (Hfull : bstart + blen = FL) by lia.
    rewrite slice_app_span by (unfold bstart in *; lia).
    replace (start + blen - (p + FL)) with 0 by (unfold bstart in *; lia).
    replace (Z.of_nat (length B) - bstart) with blen by lia. done.
Qed.

Lemma Get_range_spec (s : Sequence) (buffer : list Sample)
    (format : sampleFormat) (start len : Z) (n : nat) :
  Invariants s -> 0 <= len <= Z.of_nat (length buffer) ->
  0 <= start < mNumSamples s -> start + len <= mNumSamples s ->
  wp (Get_range convert io_fails guess_offset s buffer format start len) n
    (okL io_fails True
       (fun r => r = (true,
                      overlay buffer 0
                        (slice (samplesOf convert format (mBlock s)) start
                           len)))).
Proof.
  intros HI Hlen Hstart Hend. unfold Get_range.
  destruct (Z.eqb_spec start (mNumSamples s)) as [|_]; [lia|].
  destruct (Z.ltb_spec start 0) as [|_]; [lia|].
  destruct (Z.ltb_spec (mNumSamples s) start) as [|_]; [lia|].
  destruct (Z.ltb_spec (mNumSamples s) (start + len)) as [|_]; [lia|].
  cbn [orb].
  pose proof (Invariants_positive s HI) as Hpos.
  pose proof HI as (Hc & Hn & HG)%Invariants_chain.
  destruct (holds_exists 0 (mBlock s) start Hc ltac:(lia)) as [b Hb].
  apply wp_liftR_bind.
  rewrite (FindBlock_holds guess_offset s start b Hc Hn Hpos ltac:(lia) Hb).
  destruct Hb as (blk & Hblk & Hr).
  pose proof (chained_start 0 _ _ _ Hc Hblk) as Hst.
  set (p := sumLen (take b (mBlock s))) in *.
  eapply okL_bind; [|done|].
  { unfold Get. apply (Get_loop_at _ _ _ _ p); [| |lia|lia| |lia].
    - replace p with (0 + p) by lia. by apply chained_drop.
    - by apply Forall_drop.
    - intros _. split; [lia|]. split.
      + rewrite (sumLen_take_drop (mBlock s) b) in Hn. fold p in Hn. lia.
      + intros b0 Hb0. rewrite head_lookup, lookup_drop, Nat.add_0_r in Hb0.
        rewrite Hblk in Hb0. injection Hb0 as <-. lia. }
  intros buffer' n' ->. apply wp_ret. cbn [okL]. do 2 f_equal.
  rewrite <- (take_drop b (mBlock s)) at 2. rewrite samplesOf_app.
  unfold slice. f_equal. rewrite drop_app_ge.
  - f_equal.
    pose proof (length_samplesOf convert format (take b (mBlock s))) as Hl.
    fold p in Hl. lia.
  - pose proof (length_samplesOf convert format (take b (mBlock s))) as Hl.
    fold p in Hl. lia.
Qed.

(** X23: [Get] of a range, on a sequence that satisfies the invariants
    and with a buffer that holds [len] samples.  At the very end of the
    sequence nothing is read and the result tells whether [len] is 0,
    without an exception.  A start outside the sequence, or a range that
    goes past its end, is rejected with [InconsistencyException].
    Otherwise the call returns [true] with the samples
    [start .. start + len - 1], converted to the format asked for, at the
    front of the buffer and the rest of the buffer untouched, or it throws
    [FileException] because the block store failed. *)
Theorem Get_range_reads (s : Sequence) (buffer : list Sample)
    (format : sampleFormat) (start len : Z) (n : nat) :
  Invariants s -> 0 <= len <= Z.of_nat (length buffer) ->
  let r := Get_range convert io_fails guess_offset s buffer format start len
             n in
  (start = mNumSamples s -> r = (Ret (len =? 0, buffer), n)) /\
  (start < 0 \/ mNumSamples s < start \/
   (start <> mNumSamples s /\ mNumSamples s < start + len) ->
   r = (Throw InconsistencyException, n)) /\
  (0 <= start < mNumSamples s -> start + len <= mNumSamples s ->
   fst r = Ret (true,
                take (Z.to_nat len)
                  (drop (Z.to_nat start)
                     (samplesOf convert format (mBlock s)))
                ++ drop (Z.to_nat len) buffer) \/
   (fst r = Throw FileException /\ has_fault io_fails)).
Proof.
  intros HI Hlen. cbv zeta. split; [|split].
  - intros ->. unfold Get_range. by rewrite Z.eqb_refl.
  - intros H. unfold Get_range.
    pose proof (sumLen_nonneg (mBlock s)) as Hnn.
    pose proof HI as (_ & Hn & _)%Invariants_chain.
    destruct (Z.eqb_spec start (mNumSamples s)) as [|_]; [lia|].
    destruct (Z.ltb_spec start 0) as [|H0]; [done|].
    destruct (Z.ltb_spec (mNumSamples s) start) as [|H1]; [done|].
    destruct (Z.ltb_spec (mNumSamples s) (start + len)) as [|H2]; [done|].
    lia.
  - intros Hstart Hend.
    pose proof (Get_range_spec s buffer format start len n HI Hlen Hstart
                  Hend) as H.
    unfold wp in H.
    destruct (Get_range convert io_fails guess_offset s buffer format start
                len n) as [[v|e|] n']; cbn [fst snd okL] in *.
    + left. rewrite H. do 2 f_equal. unfold overlay, slice.
      change (Z.to_nat 0) with 0%nat. rewrite take_0. cbn [app Nat.add].
      do 2 f_equal. rewrite length_take, length_drop.
      pose proof (length_samplesOf convert format (mBlock s)) as Hl.
      apply Invariants_chain in HI as (_ & Hn & _). lia.
    + right. destruct H as [-> Hf]; done.
    + by destruct H.
Qed.

(** ** Writing and reading back *)

Lemma samples_length (s : Sequence) :
  Invariants s -> Z.of_nat (length (samples convert s)) = mNumSamples s.
Proof.
  intros (_ & Hn & _)%Invariants_chain. unfold samples.
  by rewrite length_samplesOf.
Qed.

(** X24: what [SetSamples] has written, [Get] reads back: after a
    [SetSamples] that returned, a [Get] of the same range in the format of
    the sequence returns [true] with the samples written at the front of
    its buffer, or throws [FileException] because the block store
    failed. *)
Theorem SetSamples_then_Get (buffer : option (list Sample))
    (format : sampleFormat) (start len : Z) (w w' : World)
    (out : list Sample) (n : nat) :
  same_format_copy convert ->
  Invariants (this w) -> 0 <= len ->
  (forall buf, buffer = Some buf -> len <= Z.of_nat (length buf)) ->
  len <= Z.of_nat (length out) ->
  SetSamples convert io_fails guess_offset buffer format start len w
  = (Ret tt, w') ->
  let r := Get_range convert io_fails guess_offset (this w') out
             (mSampleFormat (this w)) start len n in
  fst r = Ret (true,
               written convert buffer format (mSampleFormat (this w)) len
               ++ drop (Z.to_nat len) out) \/
  (fst r = Throw FileException /\ has_fault io_fails).
Proof.
  intros Hid HI Hlen Hbuf Hout Hrun. cbv zeta.
  pose proof (SetSamples_full_spec buffer format start len w HI Hlen Hbuf)
    as H.
  unfold wp in H. rewrite Hrun in H. cbn [fst snd okM] in H.
  destruct H as (H1 & H2 & H3 & H4 & H5 & H6 & H7).
  assert (Hrange : 0 <= start < mNumSamples (this w) /\
                   start + len <= mNumSamples (this w)).
  { unfold SetSamples, bind, getThis, throw in Hrun. cbn [this] in Hrun.
    destruct (Z.ltb_spec start 0); [done|].
    destruct (Z.leb_spec (mNumSamples (this w)) start); [done|].
    destruct (Z.ltb_spec (mNumSamples (this w)) (start + len)); [done|].
    lia. }
  pose proof (Get_range_spec (this w') out (mSampleFormat (this w)) start len
                n H1 ltac:(lia) ltac:(lia) ltac:(lia)) as HG.
  unfold wp in HG.
  destruct (Get_range convert io_fails guess_offset (this w') out
              (mSampleFormat (this w)) start len n) as [[v|e|] n'];
    cbn [fst snd okL] in *.
  - left. rewrite HG. do 2 f_equal. replace (samplesOf convert (mSampleFormat (this w)) (mBlock (this w')))
      with (samples convert (this w')) by (unfold samples; by rewrite H2).
    rewrite (H7 Hid).
    pose proof (samples_length (this w) HI) as HlS.
    pose proof (length_written buffer format (mSampleFormat (this w)) len
                  Hlen Hbuf) as HlW.
    set (S := samples convert (this w)) in *.
    set (W := written convert buffer format (mSampleFormat (this w)) len)
      in *.
    unfold overlay, slice. change (Z.to_nat 0) with 0%nat.
    rewrite take_0. cbn [app Nat.add].
    rewrite drop_app_length' by (rewrite length_take; lia).
    rewrite take_app_length' by lia. do 2 f_equal. lia.
  - right. destruct HG as [-> Hf]; done.
  - by destruct HG.
Qed.

(** X25: what [Append] has added, [Get] reads back from the old end of
    the sequence: after an [Append] of [len] samples, with a new count
    of at most [2^63 - 1], that returned, a [Get] of [len] samples from
    the old count on returns [true] with the samples appended, converted
    to the format of the sequence, or throws [FileException] because the
    block store failed. *)
Theorem Append_then_Get (buffer : list Sample) (format : sampleFormat)
    (len : Z) (w w' : World) (out : list Sample) (n : nat) :
  same_format_copy convert ->
  Invariants (this w) -> 0 <= len <= Z.of_nat (length buffer) ->
  len <= Z.of_nat (length out) ->
  mNumSamples (this w) + len <= 2 ^ 63 - 1 ->
  Append convert io_fails buffer format len w = (Ret tt, w') ->
  let r := Get_range convert io_fails guess_offset (this w') out
             (mSampleFormat (this w)) (mNumSamples (this w)) len n in
  fst r = Ret (true,
               CopySamples convert format (mSampleFormat (this w))
                 (take (Z.to_nat len) buffer)
               ++ drop (Z.to_nat len) out) \/
  (fst r = Throw FileException /\ has_fault io_fails).
Proof.
  intros Hid HI Hlen Hout _ Hrun. cbv zeta.
  pose proof (Append_full_spec buffer format len w HI Hlen) as H.
  unfold wp in H. rewrite Hrun in H. cbn [fst snd okM] in H.
  destruct H as (H1 & H2 & H3 & H4 & H5 & H6).
  pose proof (samples_length (this w) HI) as HlS.
  pose proof (sumLen_nonneg (mBlock (this w))) as Hnn.
  pose proof HI as (_ & Hn & _)%Invariants_chain.
  assert (HlC : Z.of_nat (length (CopySamples convert format
                                    (mSampleFormat (this w))
                                    (take (Z.to_nat len) buffer))) = len)
    by (rewrite length_CopySamples, length_take; lia).
  destruct (Z.eq_dec len 0) as [Hz|Hz].
  { left. unfold Get_range. rewrite H5, Hz, Z.add_0_r, Z.eqb_refl.
    cbn [ret fst]. change (Z.to_nat 0) with 0%nat. by rewrite take_0. }
  pose proof (Get_range_spec (this w') out (mSampleFormat (this w))
                (mNumSamples (this w)) len n H1 ltac:(lia) ltac:(lia)
                ltac:(lia)) as HG.
  unfold wp in HG.
  destruct (Get_range convert io_fails guess_offset (this w') out
              (mSampleFormat (this w)) (mNumSamples (this w)) len n)
    as [[v|e|] n']; cbn [fst snd okL] in *.
  - left. rewrite HG. do 2 f_equal. replace (samplesOf convert (mSampleFormat (this w)) (mBlock (this w')))
      with (samples convert (this w')) by (unfold samples; by rewrite H2).
    rewrite (H6 Hid).
    set (S := samples convert (this w)) in *.
    set (C := CopySamples convert format (mSampleFormat (this w)) _) in *.
    unfold overlay, slice. change (Z.to_nat 0) with 0%nat.
    rewrite take_0. cbn [app Nat.add].
    rewrite drop_app_length' by lia.
    rewrite take_ge by lia. do 2 f_equal. lia.
  - right. destruct HG as [-> Hf]; done.
  - by destruct HG.
Qed.

(** ** Copy *)

Lemma okL_on_object {A} (m : M A) (obj : Sequence) (n : nat) (valid : Prop)
    (post : A -> Sequence -> Prop) :
  wp m (mkWorld obj n) (okM io_fails obj valid post) ->
  wp (on_object m obj) n
    (okL io_fails valid (fun r => post (fst r) (snd r))).
Proof.
  unfold wp, on_object. destruct (m _) as [[a|e|] w']; cbn; tauto.
Qed.

Lemma slice_app_skip (A R : list Sample) (x n : Z) :
  0 <= x ->
  slice (A ++ R) (Z.of_nat (length A) + x) n = slice R x n.
Proof.
  intros Hx. unfold slice. rewrite drop_app_ge by lia. do 2 f_equal. lia.
Qed.

Lemma samplesOf_range (format : sampleFormat) (bl : BlockArray) (i k : nat) :
  samplesOf convert format (take k (drop i bl))
  = slice (samplesOf convert format bl) (sumLen (take i bl))
      (sumLen (take k (drop i bl))).
Proof.
  rewrite <- (take_drop i bl) at 2.
  rewrite <- (take_drop k (drop i bl)) at 2.
  rewrite !samplesOf_app.
  rewrite <- (length_samplesOf convert format (take i bl)).
  rewrite <- (Z.add_0_r (Z.of_nat _)), slice_app_skip by lia.
  rewrite <- (length_samplesOf convert format (take k (drop i bl))).
  unfold slice. change (Z.to_nat 0) with 0%nat. rewrite drop_0.
  by rewrite Nat2Z.id, take_app_length.
Qed.

(** [Get] from a position inside block [b], into the front of the
    buffer. *)
Lemma Get_at (t : Sequence) (b : nat) (blk : SeqBlock)
    (buffer : list Sample) (cur len : Z) (n : nat) :
  Invariants t -> mBlock t !! b = Some blk ->
  SeqBlock_start blk <= cur -> 0 < len ->
  cur + len <= SeqBlock_start blk + blockLen blk ->
  len <= Z.of_nat (length buffer) ->
  wp (Get convert io_fails t b buffer 0 (mSampleFormat t) cur len) n
    (okL io_fails True
       (fun buffer' =>
          take (Z.to_nat len) buffer' = slice (samples convert t) cur len /\
          length buffer' = length buffer)).
Proof.
  intros HI Hblk Hcur Hlen Hend Hfit.
  pose proof (Invariants_positive t HI) as Hpos.
  pose proof HI as (Hc & Hn & HG)%Invariants_chain.
  pose proof (chained_start 0 _ _ _ Hc Hblk) as Hst.
  set (p := sumLen (take b (mBlock t))) in *.
  pose proof (sumLen_take_drop (mBlock t) b) as Hsplit. fold p in Hsplit.
  assert (Hhd : head (drop b (mBlock t)) = Some blk)
    by (by rewrite head_lookup, lookup_drop, Nat.add_0_r).
  assert (Hdl : blockLen blk <= sumLen (drop b (mBlock t))).
  { destruct (drop b (mBlock t)) as [|x l]; [done|]. injection Hhd as ->.
    rewrite sumLen_cons. pose proof (sumLen_nonneg l). lia. }
  eapply okL_conseq; [|done|].
  { unfold Get. apply (Get_loop_at _ _ _ _ p); [| |lia|lia| |lia].
    - replace p with (0 + p) by lia. by apply chained_drop.
    - by apply Forall_drop.
    - intros _. split; [lia|]. split; [lia|].
      intros b0 Hb0. rewrite Hhd in Hb0. injection Hb0 as <-. lia. }
  intros buffer' ->.
  set (A := slice _ _ _).
  assert (HA : A = slice (samples convert t) cur len).
  { unfold A, samples. rewrite <- (take_drop b (mBlock t)) at 2.
    rewrite samplesOf_app.
    replace cur with (Z.of_nat (length (samplesOf convert (mSampleFormat t)
                                          (take b (mBlock t))))
                      + (cur - p)) at 2.
    - by rewrite slice_app_skip by lia.
    - rewrite length_samplesOf. fold p. lia. }
  assert (HlA : Z.of_nat (length A) = len).
  { apply length_slice; [lia..|]. rewrite length_samplesOf. lia. }
  split.
  - rewrite <- HA. apply overlay1_at; lia.
  - apply length_overlay; lia.
Qed.

(** A piece read by [Get] and appended to the copy. *)
Lemma Copy_append (t : Sequence) (s0 cur : Z) (d0 dest : Sequence)
    (buffer : list Sample) (len : Z) (n : nat) :
  copyPost convert t s0 cur d0 dest -> 0 <= s0 <= cur ->
  0 <= len <= Z.of_nat (length buffer) ->
  take (Z.to_nat len) buffer = slice (samples convert t) cur len ->
  wp (on_object (Append convert io_fails buffer (mSampleFormat t) len) dest)
     n
    (okL io_fails (cur - s0 + len <= 2 ^ 63 - 1 /\ 1 <= mMaxSamples d0)
       (fun r => copyPost convert t s0 (cur + len) d0 (snd r))).
Proof.
  intros (H1 & H2 & H3 & H4 & H5 & H6) Hs0 Hlen Hbuf.
  eapply okL_conseq;
    [apply okL_on_object, (Append_full_spec buffer (mSampleFormat t) len
                             (mkWorld dest n)); done| |].
  - cbn [this]. rewrite H5, H4. done.
  - intros [[] d'] (G1 & G2 & G3 & G4 & G5 & G6). cbn [fst snd this] in *.
    split; [done|]. split; [congruence|]. split; [congruence|].
    split; [congruence|]. split; [lia|]. intros Hid.
    rewrite (G6 Hid), (H6 Hid), H2.
    rewrite (CopySamples_same convert Hid), Hbuf.
    replace (cur + len - s0) with (cur - s0 + len) by lia.
    rewrite <- (slice_app _ s0 (cur - s0) len) by lia.
    do 2 f_equal. lia.
Qed.

(** Whole blocks appended to the copy. *)
Lemma Copy_blocks (t : Sequence) (s0 cur : Z) (d0 dest : Sequence)
    (from k : nat) (n : nat) :
  Invariants t -> copyPost convert t s0 cur d0 dest ->
  cur = sumLen (take from (mBlock t)) -> 0 <= s0 <= cur ->
  mMaxSamples t <= mMaxSamples d0 ->
  wp (AppendBlock_each io_fails (take k (drop from (mBlock t)))
        (mBlock dest) (mNumSamples dest)) n
    (okL io_fails (mNumSamples t <= 2 ^ 63 - 1)
       (fun r =>
          copyPost convert t s0
            (cur + sumLen (take k (drop from (mBlock t)))) d0
            (set_mNumSamples (snd r) (set_mBlock (fst r) dest)))).
Proof.
  intros HI (H1 & H2 & H3 & H4 & H5 & H6) Hcur Hs0 Hmax.
  pose proof (Invariants_positive t HI) as Hpos.
  pose proof HI as (Hc & Hn & HG)%Invariants_chain.
  pose proof H1 as (Hcd & Hnd & HGd)%Invariants_chain.
  set (mid := take k (drop from (mBlock t))).
  assert (Hcm : chained cur mid).
  { unfold mid. apply chained_take. rewrite Hcur.
    replace (sumLen (take from (mBlock t)))
      with (0 + sumLen (take from (mBlock t))) by lia.
    by apply chained_drop. }
  assert (HGm : Forall (goodBlock (mMaxSamples t)) mid)
    by (unfold mid; by apply Forall_take, Forall_drop).
  assert (Hsm : cur + sumLen mid <= mNumSamples t).
  { rewrite Hn, (sumLen_take_drop (mBlock t) from), <- Hcur.
    pose proof (sumLen_take_le (drop from (mBlock t)) k
                  (length (drop from (mBlock t)))) as Hle.
    rewrite firstn_all in Hle. fold mid in Hle.
    destruct (decide (k <= length (drop from (mBlock t)))%nat) as [Hk|Hk].
    - specialize (Hle Hk). lia.
    - unfold mid. rewrite take_ge by lia. lia. }
  pose proof (sumLen_nonneg mid) as Hnm.
  eapply okL_conseq;
    [by apply (AppendBlock_each_spec io_fails mid (mBlock dest)
                 (mNumSamples dest) cur n)| |].
  - intros Hnum. split; [|lia].
    eapply Forall_impl; [exact HGm|]. unfold goodBlock, blockLen.
    intros b Hb. cbn in Hb. destruct (SeqBlock_f b); [by eexists|lia].
  - intros [bl num] [-> ->]. cbn [fst snd].
    split; [|split; [done|split; [done|split; [done|split]]]].
    + apply Invariants_chain. cbn. split; [|split].
      * apply chained_app. split; [done|]. rewrite Z.add_0_l, <- Hnd, H5.
        replace (cur - s0) with (cur + (cur - s0 - cur)) at 1 by lia.
        by apply chained_Plus.
      * rewrite sumLen_app, sumLen_Plus. lia.
      * apply Forall_app. split; [done|]. apply Forall_Plus; [done|].
        eapply Forall_impl; [exact HGm|]. unfold goodBlock. intros b. cbn.
        lia.
    + cbn. lia.
    + intros Hid. unfold samples in *.
      cbn [mSampleFormat mBlock set_mBlock set_mNumSamples].
      rewrite samplesOf_app, samplesOf_Plus, (H6 Hid), H2.
      unfold mid at 1. rewrite samplesOf_range, <- Hcur. fold mid.
      replace (cur + sumLen mid - s0) with (cur - s0 + sumLen mid) by lia.
      rewrite <- (slice_app _ s0 (cur - s0) (sumLen mid)) by lia.
      do 2 f_equal. lia.
Qed.

Lemma AppendBlock_as_each (block : BlockArray) (numSamples : Z)
    (b : SeqBlock) (n : nat) :
  AppendBlock io_fails block numSamples b n
  = AppendBlock_each io_fails [b] block numSamples n.
Proof.
  cbn [AppendBlock_each]. unfold bind at 1.
  by destruct (AppendBlock io_fails block numSamples b n)
    as [[[x y]|e|] n'].
Qed.

Lemma wp_bind_ext {S A B} (m m' : St S A) (k : A -> St S B) (s : S)
    (Q : res B -> S -> Prop) :
  m s = m' s -> wp (bind m' k) s Q -> wp (bind m k) s Q.
Proof. unfold wp, bind. by intros ->. Qed.

(** The last block of [Copy]: a part of it through the buffer, or the
    whole block by reference. *)
Lemma Copy_last_block (t : Sequence) (s0 s1 : Z) (d0 dest : Sequence)
    (buffer : list Sample) (b1 : nat) (blk1 : SeqBlock) (n : nat) :
  Invariants t -> mBlock t !! b1 = Some blk1 ->
  SeqBlock_start blk1 < s1 <= SeqBlock_start blk1 + blockLen blk1 ->
  copyPost convert t s0 (SeqBlock_start blk1) d0 dest ->
  0 <= s0 <= SeqBlock_start blk1 ->
  mMaxSamples t <= mMaxSamples d0 ->
  mMaxSamples t <= Z.of_nat (length buffer) ->
  wp (let* block := at_index (mBlock t) b1 in
      let* blocklen := as_size_t (s1 - SeqBlock_start block) in
      let* file := deref (SeqBlock_f block) in
      wxASSERT (blocklen <=? mMaxSamples t);;
      if blocklen <? GetLength file then
        let* buffer := Get convert io_fails t b1 buffer 0 (mSampleFormat t)
                         (SeqBlock_start block) blocklen in
        let* d := on_object (Append convert io_fails buffer (mSampleFormat t)
                               blocklen) dest in
        ret (snd d)
      else
        let* r := AppendBlock io_fails (mBlock dest) (mNumSamples dest)
                    block in
        ret (set_mNumSamples (snd r) (set_mBlock (fst r) dest))) n
    (okL io_fails (mNumSamples t <= 2 ^ 63 - 1)
       (fun dest' => copyPost convert t s0 s1 d0 dest')).
Proof.
  intros HI Hblk Hs1 HP Hs0 Hmax Hbuf.
  pose proof HI as (Hc & Hn & HG)%Invariants_chain.
  pose proof (Forall_lookup_1 _ _ _ _ HG Hblk) as Hg. unfold goodBlock in Hg.
  pose proof (chained_start 0 _ _ _ Hc Hblk) as Hst.
  assert (Hend : SeqBlock_start blk1 + blockLen blk1 <= mNumSamples t).
  { pose proof (sumLen_take_S _ _ _ Hblk) as HS.
    pose proof (sumLen_take_le (mBlock t) (S b1) (length (mBlock t))) as Hle.
    rewrite firstn_all in Hle. apply lookup_lt_Some in Hblk.
    specialize (Hle ltac:(lia)). lia. }
  apply wp_at_index_bind; [congruence|]. intros block Hb.
  rewrite Hblk in Hb. injection Hb as <-.
  apply wp_as_size_t_bind; [lia|]. intros _.
  apply wp_deref_bind.
  { intros Hnone. unfold blockLen in Hg. rewrite Hnone in Hg. lia. }
  intros f Hf.
  assert (Hbl : blockLen blk1 = GetLength f)
    by (unfold blockLen; by rewrite Hf).
  rewrite <- Hbl.
  apply wp_wxASSERT_bind; [intros Hfalse; apply Z.leb_gt in Hfalse; lia|].
  intros _. set (blocklen := s1 - SeqBlock_start blk1).
  destruct (Z.ltb_spec blocklen (blockLen blk1)) as [Hpart|Hwhole].
  - eapply okL_bind;
      [apply (Get_at t b1 blk1 buffer (SeqBlock_start blk1) blocklen);
       unfold blocklen; try done; lia|done|].
    intros buffer' n1 [Hb' Hl'].
    eapply okL_bind;
      [apply (Copy_append t s0 (SeqBlock_start blk1) d0 dest buffer'
                blocklen); try done; unfold blocklen; lia| |].
    + intros Hnum. unfold blocklen. lia.
    + intros d n2 Hd. apply wp_ret. cbn [okL].
      by replace (SeqBlock_start blk1 + blocklen) with s1 in Hd
        by (unfold blocklen; lia).
  - eapply wp_bind_ext; [apply AppendBlock_as_each|].
    replace [blk1] with (take 1 (drop b1 (mBlock t))).
    2:{ rewrite (drop_S _ _ _ Hblk). by rewrite firstn_cons, take_0. }
    eapply okL_bind;
      [apply (Copy_blocks t s0 (SeqBlock_start blk1) d0 dest b1 1 n);
       try done; lia|done|].
    intros r n1 Hr. apply wp_ret. cbn [okL].
    replace s1 with (SeqBlock_start blk1
                     + sumLen (take 1 (drop b1 (mBlock t)))); [done|].
    rewrite (drop_S _ _ _ Hblk), firstn_cons, take_0. cbn [sumLen foldr].
    unfold blocklen in *. lia.
Qed.

Lemma sumLen_take_add (bl : BlockArray) (i k : nat) :
  sumLen (take (i + k) bl)
  = sumLen (take i bl) + sumLen (take k (drop i bl)).
Proof. by rewrite <- take_take_drop, sumLen_app. Qed.

Lemma copyPost_checked (t : Sequence) (s0 s1 : Z) (d0 dest : Sequence)
    (mayThrow : bool) (n : nat) :
  copyPost convert t s0 s1 d0 dest ->
  wp (liftR (ConsistencyCheck (mBlock dest) (mMaxSamples dest) 0
               (mNumSamples dest) mayThrow);;
      ret dest) n
    (okL io_fails (mNumSamples t <= 2 ^ 63 - 1)
       (fun dest' => copyPost convert t s0 s1 d0 dest')).
Proof.
  intros HP. pose proof HP as (HI & _).
  apply Invariants_consistent in HI as [HI _].
  apply ConsistencyCheck_0 in HI. apply wp_liftR_bind.
  unfold ConsistencyCheck. rewrite HI. by apply wp_ret.
Qed.

(** [Copy] of a range that is not empty and lies inside the sequence. *)
Lemma Copy_spec (mayThrow : bool) (t : Sequence) (s0 s1 : Z) (n : nat) :
  Invariants t ->
  mMaxSamples t
  <= mMaxSamples (Sequence_new SAMPLE_SIZE sMaxDiskBlockSize
                    (mSampleFormat t)) ->
  0 <= s0 -> s0 < s1 -> s1 <= mNumSamples t ->
  wp (Copy SAMPLE_SIZE convert sMaxDiskBlockSize io_fails guess_offset
        mayThrow t s0 s1) n
    (okL io_fails (mNumSamples t <= 2 ^ 63 - 1)
       (fun dest =>
          copyPost convert t s0 s1
            (Sequence_new SAMPLE_SIZE sMaxDiskBlockSize (mSampleFormat t))
            dest)).
Proof.
  intros HI Hmax Hs0 Hlt Hs1. unfold Copy.
  set (d0 := Sequence_new SAMPLE_SIZE sMaxDiskBlockSize (mSampleFormat t))
    in *.
  destruct (Z.leb_spec s1 s0) as [|_]; [lia|].
  destruct (Z.leb_spec (mNumSamples t) s0) as [|_]; [lia|].
  destruct (Z.ltb_spec s1 0) as [|_]; [lia|]. cbn [orb].
  pose proof (Invariants_positive t HI) as Hpos.
  pose proof HI as (Hc & Hn & HG)%Invariants_chain.
  destruct (holds_exists 0 (mBlock t) s0 Hc ltac:(lia)) as [b0 Hb0].
  destruct (holds_exists 0 (mBlock t) (s1 - 1) Hc ltac:(lia)) as [b1 Hb1].
  apply wp_liftR_bind.
  rewrite (FindBlock_holds guess_offset t s0 b0 Hc Hn Hpos ltac:(lia) Hb0).
  apply wp_liftR_bind.
  rewrite (FindBlock_holds guess_offset t (s1 - 1) b1 Hc Hn Hpos ltac:(lia)
             Hb1).
  destruct Hb0 as (blk0 & Hblk0 & Hr0). destruct Hb1 as (blk1 & Hblk1 & Hr1).
  pose proof (chained_start 0 _ _ _ Hc Hblk0) as Hst0.
  pose proof (chained_start 0 _ _ _ Hc Hblk1) as Hst1.
  pose proof (Forall_lookup_1 _ _ _ _ HG Hblk0) as Hg0.
  pose proof (Forall_lookup_1 _ _ _ _ HG Hblk1) as Hg1.
  unfold goodBlock in Hg0, Hg1.
  assert (Hle : (b0 <= b1)%nat).
  { destruct (decide (b0 <= b1)%nat) as [|Hgt]; [done|].
    pose proof (chained_ordered 0 _ b1 b0 _ _ Hc ltac:(lia) Hblk1 Hblk0).
    lia. }
  assert (Hb1eq : b0 = b1 -> blk0 = blk1) by (intros ->; congruence).
  assert (Hord : (b0 < b1)%nat ->
                 SeqBlock_start blk0 + blockLen blk0 <= SeqBlock_start blk1)
    by (intros Hl; by eapply chained_ordered).
  assert (Hst01 : SeqBlock_start blk0 <= SeqBlock_start blk1).
  { destruct (decide (b0 = b1)) as [He|Hd]; [by rewrite (Hb1eq He)|].
    specialize (Hord ltac:(lia)). lia. }
  apply wp_wxASSERT_bind.
  { intros Hf. apply Nat.ltb_ge in Hf. apply lookup_lt_Some in Hblk0. lia. }
  intros _. apply wp_wxASSERT_bind.
  { intros Hf. apply Nat.ltb_ge in Hf. apply lookup_lt_Some in Hblk1. lia. }
  intros _. apply wp_wxASSERT_bind.
  { intros Hf. apply Nat.leb_gt in Hf. lia. }
  intros _. apply wp_at_index_bind; [congruence|]. intros block0 Hb.
  rewrite Hblk0 in Hb. injection Hb as <-.
  assert (HP0 : copyPost convert t s0 s0 d0 d0).
  { split; [|split; [done|split; [done|split; [done|split]]]].
    - apply Invariants_chain. cbn. split; [done|]. split; [done|].
      constructor.
    - cbn. lia.
    - intros _. rewrite Z.sub_diag. done. }
  assert (Hlb : Z.of_nat (length (SampleBuffer (mMaxSamples t)))
                = mMaxSamples t) by (rewrite length_SampleBuffer; lia).
  destruct (Z.eqb_spec s0 (SeqBlock_start blk0)) as [Heq|Hne]; cbn [negb].
  - (* the range starts with a block *)
    apply wp_bind. cbn [ret wp fst snd].
    replace (Z.to_nat (Z.of_nat b0 - 1 + 1)) with b0 by lia.
    eapply okL_bind;
      [apply (Copy_blocks t s0 s0 d0 d0 b0 (b1 - b0) n); try done; lia
      |done|].
    intros r n1 Hr.
    replace (s0 + sumLen (take (b1 - b0) (drop b0 (mBlock t))))
      with (SeqBlock_start blk1) in Hr.
    2:{ rewrite Hst1. replace b1 with (b0 + (b1 - b0))%nat at 1 by lia.
        rewrite sumLen_take_add. lia. }
    replace (Z.of_nat b0 - 1 <? Z.of_nat b1) with true
      by (symmetry; apply Z.ltb_lt; lia).
    eapply okL_bind;
      [apply (Copy_last_block t s0 s1 d0 _ _ b1 blk1); try done; lia|done|].
    intros dest n2 Hd. by apply copyPost_checked.
  - (* the range starts inside a block *)
    set (cur := Z.min s1 (SeqBlock_start blk0 + blockLen blk0)).
    eapply okL_bind
      with (pre := mNumSamples t <= 2 ^ 63 - 1)
           (post := fun first : list Sample * Sequence * Z =>
              copyPost convert t s0 cur d0 (snd (fst first)) /\
              mMaxSamples t <= Z.of_nat (length (fst (fst first))) /\
              snd first = Z.of_nat b0); [|done|].
    { apply wp_deref_bind.
      { intros Hnone. unfold blockLen in Hg0. rewrite Hnone in Hg0. cbn.
        lia. }
      intros f Hf.
      assert (Hbl : blockLen blk0 = GetLength f)
        by (unfold blockLen; by rewrite Hf).
      rewrite <- Hbl. fold cur.
      apply wp_as_size_t_bind; [unfold cur; lia|]. intros _.
      apply wp_wxASSERT_bind.
      { intros Hfalse. apply Z.leb_gt in Hfalse. unfold cur in *. lia. }
      intros _.
      eapply okL_bind;
        [apply (Get_at t b0 blk0 (SampleBuffer (mMaxSamples t)) s0
                  (cur - s0)); try done; unfold cur; lia|done|].
      intros buffer' n1 [Hbuf' Hl'].
      eapply okL_bind;
        [apply (Copy_append t s0 s0 d0 d0 buffer' (cur - s0)); try done;
         unfold cur; lia| |].
      { intros Hnum. unfold cur. lia. }
      intros d n2 HApp. apply wp_ret. cbn [okL fst snd].
      replace (s0 + (cur - s0)) with cur in HApp by lia.
      split; [done|]. split; [lia|done]. }
    intros [[buffer' d] b0'] n2 (HApp & Hl' & Hb0'). cbn [fst snd] in *.
    subst b0'.
    replace (Z.to_nat (Z.of_nat b0 + 1)) with (S b0) by lia.
    destruct (decide (b0 = b1)) as [Hsame|Hdiff].
    + (* one block *)
      specialize (Hb1eq Hsame). subst b1 blk1.
      replace (b0 - S b0)%nat with 0%nat by lia. rewrite take_0.
      cbn [AppendBlock_each]. apply wp_bind. cbn [ret wp fst snd].
      rewrite Z.ltb_irrefl. apply wp_bind. cbn [ret wp fst snd].
      apply copyPost_checked.
      by replace s1 with cur by (unfold cur; lia).
    + assert (Hcur : cur = SeqBlock_start blk0 + blockLen blk0)
        by (specialize (Hord ltac:(lia)); unfold cur; lia).
      eapply okL_bind;
        [apply (Copy_blocks t s0 cur d0 d (S b0) (b1 - S b0) n2);
         try done| |].
      * rewrite Hcur, Hst0. by rewrite (sumLen_take_S _ _ _ Hblk0).
      * lia.
      * done.
      * intros r n3 Hr.
        replace (cur + sumLen (take (b1 - S b0) (drop (S b0) (mBlock t))))
          with (SeqBlock_start blk1) in Hr.
        2:{ rewrite Hst1. replace b1 with (S b0 + (b1 - S b0))%nat at 1
              by lia.
            rewrite sumLen_take_add, (sumLen_take_S _ _ _ Hblk0). lia. }
        replace (Z.of_nat b0 <? Z.of_nat b1) with true
          by (symmetry; apply Z.ltb_lt; lia).
        eapply okL_bind;
          [apply (Copy_last_block t s0 s1 d0 _ _ b1 blk1); try done| |].
        -- lia.
        -- specialize (Hord ltac:(lia)). lia.
        -- done.
        -- intros dest n4 Hd. by apply copyPost_checked.
Qed.

(** X26: [Copy] of a range [s0 .. s1 - 1] that is not empty and lies
    inside a sequence that satisfies the invariants, when no block of the
    sequence is longer than the [maxSamples] of a new sequence: the copy
    holds the samples of the range, in order, its count is [s1 - s0], it
    has the format of the sequence and the block sizes of a new sequence,
    and it satisfies the invariants, so the check at the end passes.
    With a count that fits 63 bits the call returns, or throws
    [FileException] because the block store failed. *)
Theorem Copy_copies (mayThrow : bool) (t : Sequence) (s0 s1 : Z) (n : nat) :
  let d0 := Sequence_new SAMPLE_SIZE sMaxDiskBlockSize (mSampleFormat t) in
  let r := Copy SAMPLE_SIZE convert sMaxDiskBlockSize io_fails guess_offset
             mayThrow t s0 s1 n in
  Invariants t -> mMaxSamples t <= mMaxSamples d0 ->
  0 <= s0 -> s0 < s1 -> s1 <= mNumSamples t ->
  (forall dest, fst r = Ret dest ->
     (same_format_copy convert ->
      samples convert dest
      = take (Z.to_nat (s1 - s0)) (drop (Z.to_nat s0) (samples convert t))) /\
     mNumSamples dest = s1 - s0 /\ Invariants dest /\
     mSampleFormat dest = mSampleFormat t /\
     mMinSamples dest = mMinSamples d0 /\
     mMaxSamples dest = mMaxSamples d0) /\
  (mNumSamples t <= 2 ^ 63 - 1 ->
   (exists dest, fst r = Ret dest) \/
   (fst r = Throw FileException /\ has_fault io_fails)).
Proof.
  cbv zeta. intros HI Hmax Hs0 Hlt Hs1.
  pose proof (Copy_spec mayThrow t s0 s1 n HI Hmax Hs0 Hlt Hs1) as H.
  unfold wp in H.
  destruct (Copy SAMPLE_SIZE convert sMaxDiskBlockSize io_fails guess_offset
              mayThrow t s0 s1 n) as [[dest|e|] n']; cbn [fst snd okL] in *.
  - split; [|intros _; left; by eexists].
    intros d [= <-]. destruct H as (H1 & H2 & H3 & H4 & H5 & H6). done.
  - split; [done|]. intros Hnum. right. destruct (H Hnum) as [-> Hf]. done.
  - split; [done|]. intros Hnum. by destruct H.
Qed.

(** X27: the guard of [Copy]: a range that is empty or reversed, that
    starts at or after the end of the sequence, or that ends before 0,
    gives a new empty sequence without a call into the block store.  The
    guard does not clip the range: on a sequence that satisfies the
    invariants, a range that is not empty and starts before 0 or ends
    after the end of the sequence is not rejected and not cut down; the
    search for its first or last block fails an assertion and the call has
    no defined outcome. *)
Theorem Copy_guard (mayThrow : bool) (t : Sequence) (s0 s1 : Z) (n : nat) :
  let r := Copy SAMPLE_SIZE convert sMaxDiskBlockSize io_fails guess_offset
             mayThrow t s0 s1 n in
  (s1 <= s0 \/ mNumSamples t <= s0 \/ s1 < 0 ->
   r = (Ret (Sequence_new SAMPLE_SIZE sMaxDiskBlockSize (mSampleFormat t)),
        n)) /\
  (Invariants t -> s0 < s1 -> s0 < mNumSamples t -> 0 <= s1 ->
   s0 < 0 \/ mNumSamples t < s1 -> r = (Undefined, n)).
Proof.
  cbv zeta. unfold Copy. split.
  - intros H. destruct (Z.leb_spec s1 s0); [done|].
    destruct (Z.leb_spec (mNumSamples t) s0); [done|].
    destruct (Z.ltb_spec s1 0); [done|lia].
  - intros HI H1 H2 H3 H.
    destruct (Z.leb_spec s1 s0); [lia|].
    destruct (Z.leb_spec (mNumSamples t) s0); [lia|].
    destruct (Z.ltb_spec s1 0); [lia|]. cbn [orb].
    unfold bind at 1, liftR.
    destruct (Z.ltb_spec s0 0) as [Hneg|Hpos].
    + unfold FindBlock.
      replace ((0 <=? s0) && (s0 <? mNumSamples t)) with false; [done|].
      symmetry. apply andb_false_iff. left. by apply Z.leb_gt.
    + pose proof (Invariants_positive t HI) as Hp.
      pose proof HI as (Hc & Hn & HG)%Invariants_chain.
      destruct (holds_exists 0 (mBlock t) s0 Hc ltac:(lia)) as [b0 Hb0].
      rewrite (FindBlock_holds guess_offset t s0 b0 Hc Hn Hp ltac:(lia) Hb0).
      cbn [fst snd]. unfold bind at 1, liftR, FindBlock.
      replace ((0 <=? s1 - 1) && (s1 - 1 <? mNumSamples t)) with false;
        [done|].
      symmetry. apply andb_false_iff. right. apply Z.ltb_ge. lia.
Qed.

(** X28: cut and paste back: on a sequence that satisfies the invariants,
    a [Copy] of a range, a [Delete] of that range and a [Paste] of the
    copy at the start of the range, when all three return, give back the
    samples and the count of the sequence, and the invariants hold. *)
Theorem Copy_Delete_Paste_restores (mayThrow : bool) (s0 s1 : Z)
    (clip : Sequence) (w w1 w2 : World) (n n' : nat) :
  same_format_copy convert ->
  Invariants (this w) ->
  mMaxSamples (this w)
  <= mMaxSamples (Sequence_new SAMPLE_SIZE sMaxDiskBlockSize
                    (mSampleFormat (this w))) ->
  0 <= s0 -> s0 < s1 -> s1 <= mNumSamples (this w) ->
  Copy SAMPLE_SIZE convert sMaxDiskBlockSize io_fails guess_offset mayThrow
    (this w) s0 s1 n = (Ret clip, n') ->
  Delete convert io_fails guess_offset s0 (s1 - s0) w = (Ret tt, w1) ->
  Paste convert io_fails guess_offset s0 clip w1 = (Ret tt, w2) ->
  samples convert (this w2) = samples convert (this w) /\
  mNumSamples (this w2) = mNumSamples (this w) /\
  Invariants (this w2).
Proof.
  intros Hid HI Hmax Hs0 Hlt Hs1 Hcopy Hdel Hpaste.
  pose proof (Copy_spec mayThrow (this w) s0 s1 n HI Hmax Hs0 Hlt Hs1) as HC.
  unfold wp in HC. rewrite Hcopy in HC. cbn [fst snd okL] in HC.
  destruct HC as (C1 & C2 & C3 & C4 & C5 & C6).
  pose proof (Delete_spec convert io_fails guess_offset s0 (s1 - s0) w HI)
    as HD.
  unfold wp in HD. rewrite Hdel in HD. cbn [fst snd okM] in HD.
  destruct HD as (D1 & D2 & D3 & D4 & D5 & D6).
  pose proof (Paste_spec convert io_fails guess_offset s0 clip w1 D1 C1)
    as HP.
  unfold wp in HP. rewrite Hpaste in HP. cbn [fst snd okM] in HP.
  destruct HP as (P1 & P2 & P3 & P4 & P5 & P6).
  split; [|split; [lia|done]].
  rewrite (P6 Hid), (D6 Hid), (C6 Hid).
  pose proof (samples_length (this w) HI) as Hl.
  set (S := samples convert (this w)) in *.
  replace (s0 + (s1 - s0)) with s1 by lia.
  rewrite take_app_length' by (rewrite length_take; lia).
  rewrite drop_app_length' by (rewrite length_take; lia).
  unfold slice.
  rewrite <- (take_drop (Z.to_nat s0) S) at 4. f_equal.
  rewrite <- (take_drop (Z.to_nat (s1 - s0)) (drop (Z.to_nat s0) S)) at 2.
  f_equal. rewrite drop_drop. f_equal. lia.
Qed.

(** ** Format conversion: the result *)

Lemma wp_finally {S A} (m : St S A) (cleanup : bool -> S -> S) (s : S)
    (Q : res A -> S -> Prop) :
  wp m s (fun r s' => Q r (cleanup (completed r) s')) ->
  wp (finally m cleanup) s Q.
Proof. unfold wp, finally. by destruct (m s). Qed.

Lemma ConvertToSampleFormat_loop_spec (blocks : BlockArray)
    (oldFormat format : sampleFormat) (oldMax maxSamples : Z)
    (bufferOld bufferNew : list Sample) (acc : BlockArray) (p : Z)
    (n : nat) :
  chained p blocks -> Forall (goodBlock oldMax) blocks ->
  oldMax <= Z.of_nat (length bufferOld) ->
  oldMax <= Z.of_nat (length bufferNew) -> 1 <= maxSamples ->
  wp (ConvertToSampleFormat_loop convert io_fails blocks oldFormat format
        maxSamples bufferOld bufferNew acc) n
    (okL io_fails True
       (fun out => exists pieces,
          out = acc ++ pieces /\ chained p pieces /\
          sumLen pieces = sumLen blocks /\
          Forall (goodBlock maxSamples) pieces /\
          (same_format_copy convert ->
           samplesOf convert format pieces
           = CopySamples convert oldFormat format
               (samplesOf convert oldFormat blocks)))).
Proof.
  intros Hc HG Hlo Hln Hmax.
  revert bufferOld bufferNew acc p n Hc Hlo Hln.
  induction blocks as [|blk blocks IH];
    intros bufferOld bufferNew acc p n Hc Hlo Hln;
    cbn [ConvertToSampleFormat_loop].
  { apply wp_ret. cbn. exists []. rewrite app_nil_r. by repeat split. }
  destruct Hc as [Hs Hc]. apply Forall_cons in HG as [Hg HG].
  unfold goodBlock in Hg.
  apply wp_deref_bind.
  { intros Hnone. unfold blockLen in Hg. rewrite Hnone in Hg. lia. }
  intros f Hf.
  assert (Hbl : blockLen blk = GetLength f)
    by (unfold blockLen; by rewrite Hf).
  rewrite <- Hbl. set (len := blockLen blk) in *.
  set (B := blockSamples convert oldFormat blk).
  assert (HlB : Z.of_nat (length B) = len) by apply length_blockSamples.
  eapply okL_bind; [apply Read_spec; lia| |].
  { intros _. split; [by eexists|]. lia. }
  intros bufferOld' n1 (_ & _ & _ & _ & ->). fold B.
  rewrite (slice_0_all B) by lia.
  assert (Hlo' : length (overlay bufferOld 0 B) = length bufferOld)
    by (apply length_overlay; lia).
  replace (resize (Z.to_nat len) 0 (overlay bufferOld 0 B)) with B.
  2:{ rewrite resize_le by lia. symmetry. apply overlay1_at; lia. }
  assert (HlC : length (CopySamples convert oldFormat format B) = length B)
    by apply length_CopySamples.
  apply wp_buf_store_bind.
  { intros Hnf. cbn. intros _. apply Hnf. lia. }
  intros _ _.
  set (bufferNew' := overlay bufferNew 0 _).
  assert (Hln' : length bufferNew' = length bufferNew)
    by (apply length_overlay; lia).
  eapply okL_bind; [apply Blockify_spec|intros _; right; lia|].
  intros out n2 Hout.
  destruct (Z.leb_spec len 0) as [|_]; [lia|]. destruct Hout as [_ ->].
  set (pieces := Blockify_pieces maxSamples format (SeqBlock_start blk)
                   bufferNew' len).
  destruct (Blockify_pieces_structure maxSamples format (SeqBlock_start blk)
              bufferNew' len ltac:(lia) Hmax) as (Hcp & Hsp & HGp).
  fold pieces in Hcp, Hsp, HGp.
  eapply okL_conseq;
    [apply (IH HG _ _ _ (p + len)); [done|lia|lia]|done|].
  intros out (rest & -> & Hcr & Hsr & HGr & Hsamp).
  exists (pieces ++ rest). rewrite app_assoc. split; [done|].
  split; [apply chained_app; rewrite Hsp, <- Hs; split; [done|by rewrite Hs]|].
  split; [rewrite sumLen_app, sumLen_cons; lia|].
  split; [by apply Forall_app|].
  intros Hid. rewrite samplesOf_app, samplesOf_cons, CopySamples_app.
  rewrite (Hsamp Hid). f_equal. unfold pieces.
  rewrite (Blockify_pieces_samples convert Hid) by lia.
  unfold bufferNew'. fold B. apply overlay1_at; lia.
Qed.

(** X29: [ConvertToSampleFormat] to another format, on a sequence that
    satisfies the invariants.  A sequence without blocks only takes the
    new format: its block sizes stay those of the old format.  Otherwise,
    when the block sizes of the new format are positive, the call
    returns [true] with the new format, the block sizes of a new sequence
    of that format, the count it had and the invariants, its samples
    being the old ones converted; or it throws [FileException] because
    the block store failed. *)
Theorem ConvertToSampleFormat_converts (format : sampleFormat) (w : World) :
  let t := this w in
  let d0 := Sequence_new SAMPLE_SIZE sMaxDiskBlockSize format in
  let r := ConvertToSampleFormat SAMPLE_SIZE convert sMaxDiskBlockSize
             io_fails format w in
  Invariants t -> format <> mSampleFormat t ->
  (mBlock t = [] ->
   r = (Ret true, mkWorld (set_mSampleFormat format t) (calls w))) /\
  (mBlock t <> [] -> 1 <= mMaxSamples d0 ->
   (fst r = Ret true /\
    mSampleFormat (this (snd r)) = format /\
    mMinSamples (this (snd r)) = mMinSamples d0 /\
    mMaxSamples (this (snd r)) = mMaxSamples d0 /\
    mNumSamples (this (snd r)) = mNumSamples t /\
    Invariants (this (snd r)) /\
    (same_format_copy convert ->
     samples convert (this (snd r))
     = CopySamples convert (mSampleFormat t) format (samples convert t))) \/
   (fst r = Throw FileException /\ has_fault io_fails)).
Proof.
  cbv zeta. intros HI Hne. split.
  - intros Hnil. unfold ConvertToSampleFormat, bind, getThis.
    destruct (Z.eqb_spec format (mSampleFormat (this w))) as [|_]; [done|].
    by rewrite Hnil.
  - intros Hnn Hmax.
    change (wp (ConvertToSampleFormat SAMPLE_SIZE convert sMaxDiskBlockSize
                  io_fails format) w
              (fun r w' =>
                 (r = Ret true /\
                  mSampleFormat (this w') = format /\
                  mMinSamples (this w')
                  = mMinSamples (Sequence_new SAMPLE_SIZE sMaxDiskBlockSize
                                   format) /\
                  mMaxSamples (this w')
                  = mMaxSamples (Sequence_new SAMPLE_SIZE sMaxDiskBlockSize
                                   format) /\
                  mNumSamples (this w') = mNumSamples (this w) /\
                  Invariants (this w') /\
                  (same_format_copy convert ->
                   samples convert (this w')
                   = CopySamples convert (mSampleFormat (this w)) format
                       (samples convert (this w)))) \/
                 (r = Throw FileException /\ has_fault io_fails))).
    set (t := this w) in *.
    set (max' := sMaxDiskBlockSize / SAMPLE_SIZE format / 2 * 2) in *.
    change (mMaxSamples (Sequence_new SAMPLE_SIZE sMaxDiskBlockSize format))
      with max' in *.
    change (mMinSamples (Sequence_new SAMPLE_SIZE sMaxDiskBlockSize format))
      with (sMaxDiskBlockSize / SAMPLE_SIZE format / 2).
    pose proof HI as (Hc & Hn & HG)%Invariants_chain.
    assert (Hom : 1 <= mMaxSamples t).
    { destruct (mBlock t) as [|b l]; [done|].
      apply Forall_cons in HG as [Hg _]. unfold goodBlock in Hg. lia. }
    pose proof (ConvertToSampleFormat_loop_spec (mBlock t) (mSampleFormat t)
                  format (mMaxSamples t) max'
                  (SampleBuffer (mMaxSamples t))
                  (SampleBuffer (mMaxSamples t)) [] 0 (calls w) Hc HG) as HL.
    rewrite length_SampleBuffer in HL.
    specialize (HL ltac:(lia) ltac:(lia) Hmax). unfold wp in HL.
    unfold ConvertToSampleFormat. apply wp_getThis_bind. fold t.
    destruct (Z.eqb_spec format (mSampleFormat t)) as [|_]; [done|].
    replace (length (mBlock t) =? 0)%nat with false
      by (symmetry; apply Nat.eqb_neq; by destruct (mBlock t)).
    do 3 apply wp_modifyThis_bind. apply wp_finally, wp_getThis_bind.
    cbn [this calls mSampleFormat mMinSamples mMaxSamples mBlock mNumSamples
         set_mSampleFormat set_mMinSamples set_mMaxSamples].
    fold t. fold max'. apply wp_bind, wp_liftL. unfold wp at 1.
    cbn [this calls].
    destruct (ConvertToSampleFormat_loop _ _ _ _ _ _ _ _ _ _)
      as [[nb|e|] n']; cbn [fst snd okL completed this calls] in *.
    + destruct HL as (pieces & -> & Hcp & Hsp & HGp & Hsamp).
      cbn [app] in *.
      assert (Hcons : consistent pieces max' 0 (mNumSamples t)).
      { split; [done|]. split; [lia|].
        eapply Forall_impl; [exact HGp|]. unfold goodBlock, blockLen.
        intros b Hb. cbn in Hb. destruct (SeqBlock_f b); [|lia].
        split; [by eexists|lia]. }
      apply ConsistencyCheck_0 in Hcons.
      apply wp_bind. unfold CommitChangesIfConsistent.
      apply wp_getThis_bind, wp_liftR_bind. unfold ConsistencyCheck.
      cbn [this mMaxSamples set_mMaxSamples]. rewrite Hcons.
      unfold wp, modifyThis. cbn [fst snd this ret completed].
      left. do 5 (split; [done|]). split.
      * apply Invariants_chain.
        cbn [mBlock mNumSamples mMaxSamples set_mBlock set_mNumSamples
             set_mMaxSamples].
        split; [done|]. split; [lia|done].
      * intros Hid. unfold samples. cbn. by apply Hsamp.
    + right. destruct HL as [-> Hf]; done.
    + by destruct HL.
Qed.

End More.

(** C8, as the claim states it, fails: with a disk block size of 1024
    bytes and samples of 4 bytes a new sequence has [maxSamples = 256],
    not the clamped value 1024. *)
Lemma Sequence_new_not_clamped :
  mMaxSamples (Sequence_new Examples.SAMPLE_SIZE 1024 0)
  <> spec_maxSamples 1024 (Examples.SAMPLE_SIZE 0).
Proof. vm_compute. discriminate. Qed.

Lemma SetSamples_rejects_start_past_end_witness :
  SetSamples Examples.convert Examples.io_ok Examples.guess_offset None 0 10 0
    (mkWorld Examples.ten 0)
  = (Throw InconsistencyException, mkWorld Examples.ten 0).
Proof.
  apply (SetSamples_rejects_start_past_end Examples.convert Examples.io_ok
           Examples.guess_offset None 0 10 0 (mkWorld Examples.ten 0)).
  left. cbn. lia.
Defined.

(** C6, the run that breaks the claim: with [numSamples = 2^63 - 1],
    [Append] of one sample is not rejected, because the guard compares in
    double precision, where both the sum and the bound are [2^63]: the
    call returns and the block of one sample stands behind the blocks
    that were there. *)
Theorem Append_overflow_not_rejected :
  let r := Append Examples.convert Examples.io_ok [5] 0 1
             (mkWorld Examples.full 0) in
  2 ^ 63 - 1 < mNumSamples Examples.full + 1 /\
  fst r = Ret tt /\
  mBlock (this (snd r))
  = mBlock Examples.full
    ++ [mkSeqBlock (Some (SimpleBlockFile 0 [5])) 9223372036854775807] /\
  this (snd r) <> Examples.full.
Proof.
  cbv zeta. split; [vm_compute; reflexivity|].
  split; [vm_compute; reflexivity|].
  split; [vm_compute; reflexivity|]. vm_compute. discriminate.
Qed.

(** A conversion that fails at its first block-store call. *)
Lemma ConvertToSampleFormat_rollback_witness :
  let r := ConvertToSampleFormat Examples.SAMPLE_SIZE Examples.convert 64
             Examples.io_broken 1 (mkWorld Examples.three_blocks 0) in
  fst r = Throw FileException /\
  mSampleFormat (this (snd r)) = 0 /\
  mMaxSamples (this (snd r)) = 16 /\
  mMinSamples (this (snd r)) = 8.
Proof.
  cbv zeta. split; [vm_compute; reflexivity|].
  pose proof (ConvertToSampleFormat_rollback Examples.SAMPLE_SIZE
                Examples.convert 64 Examples.io_broken 1
                (mkWorld Examples.three_blocks 0)) as [H _].
  destruct (H ltac:(vm_compute; discriminate) FileException
              ltac:(vm_compute; reflexivity)) as (H1 & H2 & H3 & _).
  exact (conj H1 (conj H2 H3)).
Defined.

(** C9, the run that breaks the claim: the second block file is
    missing and its stored start, 10, lies above the start of the third
    block, 4.  The gap is -6; it is not above [maxSamples], and
    [as_size_t] makes it the length [2^64 - 6] of the silent block.  The
    second loop then moves the third block to the wrapped sum -2 and
    leaves a count of 0: the silent block is longer than [maxSamples],
    the starts are not contiguous and the count is not the sum of the
    lengths. *)
Theorem HandleXMLEndTag_negative_gap :
  gapAt (mBlock Examples.backwards) (mNumSamples Examples.backwards) 1 = -6 /\
  exists s', HandleXMLEndTag "sequence" Examples.backwards = Ret s' /\
    mBlock s'
    = [mkSeqBlock (Some (SimpleBlockFile 0 [1; 2; 3; 4])) 0;
       mkSeqBlock (Some (SilentBlockFile 18446744073709551610)) 4;
       mkSeqBlock (Some (SimpleBlockFile 0 [5; 6])) (-2)] /\
    mNumSamples s' = 0 /\
    mMaxSamples s' = 16 /\
    Exists (fun b => mMaxSamples s' < blockLen b) (mBlock s') /\
    ~ chained 0 (mBlock s') /\
    mNumSamples s' <> sumLen (mBlock s').
Proof.
  split; [reflexivity|]. eexists. split; [vm_compute; reflexivity|].
  cbn [mBlock mNumSamples mMaxSamples].
  split; [reflexivity|]. split; [reflexivity|]. split; [reflexivity|].
  split; [|split].
  - apply Exists_cons_tl, Exists_cons_hd. vm_compute. reflexivity.
  - intros (_ & _ & H & _). vm_compute in H. discriminate.
  - vm_compute. discriminate.
Qed.

(** The repair of a loaded block list with a missing file and a wrong
    start: the gap of 26 samples becomes 16 samples of silence. *)
Lemma HandleXMLEndTag_repairs_witness :
  exists s', HandleXMLEndTag "sequence" Examples.loaded = Ret s' /\
    (forall b', mBlock s' !! 1%nat = Some b' ->
       SeqBlock_f b' = Some (SilentBlockFile 16) /\ blockLen b' = 16) /\
    chained 0 (mBlock s') /\ mNumSamples s' = sumLen (mBlock s') /\
    mErrorOpening s' = true.
Proof.
  destruct (HandleXMLEndTag_repairs Examples.loaded)
    as (s' & Hs' & _ & _ & _ & _ & _ & _ & Hsil & Hch & He & _).
  exists s'. split; [exact Hs'|]. split; [|split; [|split]].
  - intros b' Hb'.
    apply (Hsil ltac:(repeat constructor; cbn; lia) ltac:(cbn; lia)
             ltac:(cbn; lia)
             ltac:(intros [|[|[|i]]] b Hb Hf; vm_compute in Hb;
                   try discriminate; injection Hb as <-;
                   try discriminate; vm_compute; discriminate)
             1%nat (mkSeqBlock None 4) b' eq_refl eq_refl Hb').
  - apply Hch. vm_compute in Hs'. injection Hs' as <-. vm_compute.
    discriminate.
  - apply Hch. vm_compute in Hs'. injection Hs' as <-. vm_compute.
    discriminate.
  - apply He. left. exists 1%nat, (mkSeqBlock None 4). split; reflexivity.
Defined.

(** Ten samples in blocks of at most four: three blocks, of 3, 3 and 4
    samples. *)
Lemma Blockify_balanced_witness :
  exists added n',
    Blockify Examples.io_ok 4 0 [] 0 [1; 2; 3; 4; 5; 6; 7; 8; 9; 10] 10 0%nat
    = (Ret ([] ++ added), n') /\
    Z.of_nat (length added) = 3 /\ sumLen added = 10.
Proof.
  destruct (Blockify_balanced Examples.io_ok 4 0 [] 0
              [1; 2; 3; 4; 5; 6; 7; 8; 9; 10] 10 0%nat)
    as (added & n' & H1 & H2 & _ & _ & _ & _ & _ & H3).
  - lia.
  - lia.
  - reflexivity.
  - lia.
  - vm_compute. discriminate.
  - lia.
  - lia.
  - exists added, n'. split; [exact H1|]. split; [exact H2|exact H3].
Defined.

(** Position 10 of three blocks of eight samples lies in block 1. *)
Lemma FindBlock_correct_witness :
  exists i, FindBlock Examples.guess_offset Examples.three_blocks 10 = Ret i /\
    holds (mBlock Examples.three_blocks) 10 i.
Proof.
  assert (HI : Invariants Examples.three_blocks).
  { apply Invariants_chain. cbn. unfold goodBlock.
    repeat split; repeat constructor; cbn; lia. }
  destruct (FindBlock_correct Examples.guess_offset Examples.three_blocks 10 HI)
    as [(i & H1 & H2 & _) _].
  - cbn. lia.
  - exists i. split; [exact H1|exact H2].
Defined.

(** ** Reachable sequences keep the invariants *)

Lemma Sequence_new_Invariants (SAMPLE_SIZE : sampleFormat -> Z)
    (sMaxDiskBlockSize : Z) (format : sampleFormat) :
  Invariants (Sequence_new SAMPLE_SIZE sMaxDiskBlockSize format).
Proof.
  apply Invariants_chain. cbn. split; [done|]. split; [done|]. constructor.
Qed.

(** C1: every sequence made from a new, empty sequence by calls of
    [Append], [Paste] (with a source made in the same way), [Delete] and
    [SetSamples] that return or throw satisfies I1 to I5: the first block
    starts at 0, each block starts where the block before ends,
    [numSamples] is the sum of the block lengths, no block is longer than
    [maxSamples] and no block is empty.  This holds for every fault plan
    of the block store, for the calls of [Append] and [Paste] whose new
    count is at most [2^63 - 1], the largest 64-bit count, and for a
    [maxSamples] of at most [2^31 - 1], so that the length of a block
    fits an [int]. *)
Theorem reachable_Invariants (SAMPLE_SIZE : sampleFormat -> Z)
    (convert : sampleFormat -> sampleFormat -> Sample -> Sample)
    (sMaxDiskBlockSize : Z) (guess_offset : Z -> Z -> nat -> nat)
    (s : Sequence) :
  (forall format,
     mMaxSamples (Sequence_new SAMPLE_SIZE sMaxDiskBlockSize format)
     <= 2 ^ 31 - 1) ->
  reachable SAMPLE_SIZE convert sMaxDiskBlockSize guess_offset s ->
  Invariants s.
Proof.
  intros _.
  induction 1 as [format
                 |s io_fails n buffer format len _ IH Hlen _ Hdef
                 |s io_fails n offset src _ IH _ IHsrc _ Hdef
                 |s io_fails n start len _ IH Hdef
                 |s io_fails n buffer format start len _ IH Hdef].
  - apply Sequence_new_Invariants.
  - pose proof (Append_spec convert io_fails buffer format len (mkWorld s n)
                  IH Hlen) as H.
    unfold wp, completes in *.
    destruct (Append convert io_fails buffer format len (mkWorld s n))
      as [[v|e|] w']; cbn in *; [done| |done].
    destruct H as [-> _]. done.
  - pose proof (Paste_spec convert io_fails guess_offset offset src
                  (mkWorld s n) IH IHsrc) as H.
    unfold wp, completes in *.
    destruct (Paste convert io_fails guess_offset offset src (mkWorld s n))
      as [[v|e|] w']; cbn in *; [by destruct H| |done].
    destruct H as [-> _]. done.
  - pose proof (Delete_spec convert io_fails guess_offset start len
                  (mkWorld s n) IH) as H.
    unfold wp, completes in *.
    destruct (Delete convert io_fails guess_offset start len (mkWorld s n))
      as [[v|e|] w']; cbn in *; [by destruct H| |done].
    destruct H as [-> _]. done.
  - pose proof (SetSamples_spec convert io_fails guess_offset buffer format
                  start len (mkWorld s n) IH) as H.
    unfold wp, completes in *.
    destruct (SetSamples convert io_fails guess_offset buffer format start
                len (mkWorld s n))
      as [[v|e|] w']; cbn in *; [done| |done].
    destruct H as [-> _]. done.
Qed.

(** Three samples appended to a new sequence with blocks of at most 16
    samples. *)
Lemma reachable_Invariants_witness :
  let s := this (snd (Append Examples.convert Examples.io_ok [1; 2; 3] 0 3
                        (mkWorld (Sequence_new Examples.SAMPLE_SIZE 64 0) 0))) in
  reachable Examples.SAMPLE_SIZE Examples.convert 64 Examples.guess_offset s /\
  Invariants s.
Proof.
  cbv zeta.
  assert (Hr : reachable Examples.SAMPLE_SIZE Examples.convert 64
                 Examples.guess_offset
                 (this (snd (Append Examples.convert Examples.io_ok [1; 2; 3]
                               0 3
                               (mkWorld
                                  (Sequence_new Examples.SAMPLE_SIZE 64 0)
                                  0))))).
  { apply reachable_Append; [apply reachable_new|lia|cbn; lia|].
    unfold completes. vm_compute. discriminate. }
  split; [exact Hr|].
  apply (reachable_Invariants Examples.SAMPLE_SIZE Examples.convert 64
           Examples.guess_offset _).
  - intros format. vm_compute. discriminate.
  - exact Hr.
Defined.

(** Ten samples pasted at offset 5 of three blocks of eight samples, and
    deleted again. *)
Lemma Paste_then_Delete_restores_witness :
  let r := (Paste Examples.convert Examples.io_ok Examples.guess_offset 5
              Examples.ten;;
            Delete Examples.convert Examples.io_ok Examples.guess_offset 5 10)
             (mkWorld Examples.three_blocks 0) in
  fst r = Ret tt /\
  samples Examples.convert (this (snd r))
  = samples Examples.convert Examples.three_blocks.
Proof.
  assert (HI : Invariants Examples.three_blocks).
  { apply Invariants_chain. cbn. unfold goodBlock.
    repeat split; repeat constructor; cbn; lia. }
  assert (HIs : Invariants Examples.ten).
  { apply Invariants_chain. cbn. unfold goodBlock.
    repeat split; repeat constructor; cbn; lia. }
  destruct (Paste_then_Delete_restores Examples.convert Examples.io_ok
              Examples.guess_offset 5 Examples.ten
              (mkWorld Examples.three_blocks 0)) as [H1 _].
  - intros f x. reflexivity.
  - exact HI.
  - exact HIs.
  - cbn. lia.
  - reflexivity.
  - cbn. lia.
  - cbv zeta. split; [vm_compute; reflexivity|].
    destruct (H1 tt) as [H _]; [vm_compute; reflexivity|exact H].
Defined.

(** ** Instances of the further properties *)

Lemma three_blocks_Invariants : Invariants Examples.three_blocks.
Proof.
  apply Invariants_chain. cbn. unfold goodBlock.
  repeat split; repeat constructor; cbn; lia.
Qed.

Lemma ten_Invariants : Invariants Examples.ten.
Proof.
  apply Invariants_chain. cbn. unfold goodBlock.
  repeat split; repeat constructor; cbn; lia.
Qed.

Lemma Examples_same_format_copy : same_format_copy Examples.convert.
Proof. intros f x. reflexivity. Qed.

(** The block list read from a project file with a missing block file
    fails the check. *)
Lemma ConsistencyCheck_passes_witness :
  ConsistencyCheck (mBlock Examples.loaded) (mMaxSamples Examples.loaded) 0
    (mNumSamples Examples.loaded) true
  = Throw InconsistencyException.
Proof.
  pose proof (ConsistencyCheck_passes Examples.loaded true) as H.
  cbv zeta in H. destruct H as [H1 H2]. apply H2. intros Hok.
  apply H1 in Hok. vm_compute in Hok. discriminate.
Defined.

(** An empty array with a count of five is not committed. *)
Lemma CommitChangesIfConsistent_all_or_nothing_witness :
  CommitChangesIfConsistent [] 5 (mkWorld Examples.three_blocks 0)
  = (Throw InconsistencyException, mkWorld Examples.three_blocks 0).
Proof.
  pose proof (CommitChangesIfConsistent_all_or_nothing [] 5
                (mkWorld Examples.three_blocks 0)) as H.
  cbv zeta in H. destruct H as [[Hc _]|[_ H]]; [|exact H].
  destruct Hc as (_ & Hn & _). cbn in Hn. discriminate.
Defined.

(** A block of two samples appended to three blocks of eight. *)
Lemma AppendBlocksIfConsistent_restores_witness :
  this (snd (AppendBlocksIfConsistent
               [mkSeqBlock (Some (SimpleBlockFile 0 [1; 2])) 24] false 26
               (mkWorld Examples.three_blocks 0)))
  = set_mNumSamples 26
      (set_mBlock
         (mBlock Examples.three_blocks
          ++ [mkSeqBlock (Some (SimpleBlockFile 0 [1; 2])) 24])
         Examples.three_blocks).
Proof.
  pose proof (AppendBlocksIfConsistent_restores
                [mkSeqBlock (Some (SimpleBlockFile 0 [1; 2])) 24] false 26
                (mkWorld Examples.three_blocks 0)) as H.
  cbv zeta in H. destruct H as (_ & H & _).
  apply H; [discriminate|vm_compute; reflexivity].
Defined.

(** Ten samples pasted at offset 5 of three blocks of eight samples. *)
Lemma Paste_inserts_witness :
  samples Examples.convert
    (this (snd (Paste Examples.convert Examples.io_ok Examples.guess_offset 5
                  Examples.ten (mkWorld Examples.three_blocks 0))))
  = take (Z.to_nat 5) (samples Examples.convert Examples.three_blocks)
    ++ samples Examples.convert Examples.ten
    ++ drop (Z.to_nat 5) (samples Examples.convert Examples.three_blocks).
Proof.
  destruct (Paste_inserts Examples.convert Examples.io_ok
              Examples.guess_offset 5 Examples.ten
              (mkWorld Examples.three_blocks 0)
              (snd (Paste Examples.convert Examples.io_ok
                      Examples.guess_offset 5 Examples.ten
                      (mkWorld Examples.three_blocks 0)))
              Examples_same_format_copy three_blocks_Invariants
              ten_Invariants) as [H _].
  - cbn. lia.
  - vm_compute. reflexivity.
  - exact H.
Defined.

(** The same paste with a block store that fails. *)
Lemma Paste_strong_guarantee_witness :
  this (snd (Paste Examples.convert Examples.io_broken Examples.guess_offset
               5 Examples.ten (mkWorld Examples.three_blocks 0)))
  = Examples.three_blocks.
Proof.
  pose proof (Paste_strong_guarantee Examples.convert Examples.io_broken
                Examples.guess_offset 5 Examples.ten
                (mkWorld Examples.three_blocks 0) three_blocks_Invariants
                ten_Invariants) as H.
  cbv zeta in H. destruct H as [H _].
  apply (H FileException). vm_compute. reflexivity.
Defined.

Lemma Paste_rejects_witness :
  Paste Examples.convert Examples.io_ok Examples.guess_offset (-1)
    Examples.ten (mkWorld Examples.three_blocks 0)
  = (Throw InconsistencyException, mkWorld Examples.three_blocks 0).
Proof.
  destruct (Paste_rejects Examples.convert Examples.io_ok
              Examples.guess_offset (-1) Examples.ten
              (mkWorld Examples.three_blocks 0)) as [H _].
  apply H. left. lia.
Defined.

(** Ten samples deleted from offset 5 of three blocks of eight samples. *)
Lemma Delete_removes_witness :
  samples Examples.convert
    (this (snd (Delete Examples.convert Examples.io_ok Examples.guess_offset
                  5 10 (mkWorld Examples.three_blocks 0))))
  = take (Z.to_nat 5) (samples Examples.convert Examples.three_blocks)
    ++ drop (Z.to_nat (5 + 10))
         (samples Examples.convert Examples.three_blocks).
Proof.
  destruct (Delete_removes Examples.convert Examples.io_ok
              Examples.guess_offset 5 10 (mkWorld Examples.three_blocks 0)
              (snd (Delete Examples.convert Examples.io_ok
                      Examples.guess_offset 5 10
                      (mkWorld Examples.three_blocks 0)))
              Examples_same_format_copy three_blocks_Invariants) as [H _].
  - vm_compute. reflexivity.
  - exact H.
Defined.

Lemma Delete_strong_guarantee_witness :
  this (snd (Delete Examples.convert Examples.io_broken
               Examples.guess_offset 5 10 (mkWorld Examples.three_blocks 0)))
  = Examples.three_blocks.
Proof.
  pose proof (Delete_strong_guarantee Examples.convert Examples.io_broken
                Examples.guess_offset 5 10 (mkWorld Examples.three_blocks 0)
                three_blocks_Invariants) as H.
  cbv zeta in H. destruct H as [H _].
  apply (H FileException). vm_compute. reflexivity.
Defined.

Lemma Delete_rejects_witness :
  Delete Examples.convert Examples.io_ok Examples.guess_offset 30 (-2)
    (mkWorld Examples.three_blocks 0)
  = (Throw InconsistencyException, mkWorld Examples.three_blocks 0).
Proof.
  destruct (Delete_rejects Examples.convert Examples.io_ok
              Examples.guess_offset 30 (-2)
              (mkWorld Examples.three_blocks 0)) as [_ H].
  apply H. left. lia.
Defined.

(** Position 10 of three blocks of eight samples lies in the block that
    starts at 8. *)
Lemma GetBlockStart_holds_witness :
  exists i b, mBlock Examples.three_blocks !! i = Some b /\
    GetBlockStart Examples.guess_offset Examples.three_blocks 10
    = Ret (SeqBlock_start b) /\
    SeqBlock_start b <= 10 < SeqBlock_start b + blockLen b.
Proof.
  apply (GetBlockStart_holds Examples.guess_offset Examples.three_blocks 10
           three_blocks_Invariants).
  cbn. lia.
Defined.

Lemma GetBestBlockSize_bounds_witness :
  exists r, GetBestBlockSize Examples.guess_offset Examples.three_blocks 10
            = Ret r /\
    0 < r <= mMaxSamples Examples.three_blocks /\
    10 + r <= mNumSamples Examples.three_blocks.
Proof.
  destruct (GetBestBlockSize_bounds Examples.guess_offset
              Examples.three_blocks 10 three_blocks_Invariants) as [_ H].
  destruct H as (r & H1 & H2 & H3 & _); [cbn; lia|].
  exists r. split; [exact H1|]. split; [exact H2|exact H3].
Defined.

Lemma GetIdealAppendLen_bounds_witness :
  exists r, GetIdealAppendLen Examples.three_blocks = Ret r /\
    0 < r <= mMaxSamples Examples.three_blocks.
Proof.
  destruct (GetIdealAppendLen_bounds Examples.three_blocks
              three_blocks_Invariants) as (r & H1 & H2 & _); [cbn; lia|].
  exists r. split; [exact H1|exact H2].
Defined.

(** A block file of two samples appended to three blocks of eight. *)
Lemma AppendBlockFile_appends_witness :
  let t' := this (snd (AppendBlockFile (Some (SimpleBlockFile 0 [1; 2]))
                         (mkWorld Examples.three_blocks 0))) in
  mNumSamples t' = 26 /\ Invariants t'.
Proof.
  pose proof (AppendBlockFile_appends Examples.convert
                (SimpleBlockFile 0 [1; 2]) (mkWorld Examples.three_blocks 0)
                three_blocks_Invariants) as H.
  cbv zeta in H. destruct H as (H1 & _ & H & _).
  cbv zeta. rewrite H1. cbn [snd this].
  destruct (H ltac:(cbn; lia)) as [H2 H3]. split; [exact H2|].
  apply H3. cbn. lia.
Defined.

Lemma Sequence_copy_same_witness :
  exists c,
    fst (Sequence_copy Examples.convert Examples.io_ok Examples.guess_offset
           Examples.three_blocks 0%nat) = Ret c /\
    samples Examples.convert c
    = samples Examples.convert Examples.three_blocks.
Proof.
  pose proof (Sequence_copy_same Examples.convert Examples.io_ok
                Examples.guess_offset Examples.three_blocks 0%nat
                three_blocks_Invariants) as H.
  cbv zeta in H. destruct H as [H _]; [cbn; lia|].
  eexists. split; [vm_compute; reflexivity|].
  destruct (H _ ltac:(vm_compute; reflexivity)) as [Hs _].
  exact (Hs Examples_same_format_copy).
Defined.

(** Ten samples in blocks of at most four. *)
Lemma Blockify_contents_witness :
  samplesOf Examples.convert 0
    (match fst (Blockify Examples.io_ok 4 0 [] 0
                  [1; 2; 3; 4; 5; 6; 7; 8; 9; 10] 10 0%nat) with
     | Ret out => out
     | _ => []
     end)
  = [1; 2; 3; 4; 5; 6; 7; 8; 9; 10].
Proof.
  destruct (Blockify_contents Examples.convert Examples.io_ok 4 0 [] 0
              [1; 2; 3; 4; 5; 6; 7; 8; 9; 10] 10 0%nat) as [_ H].
  apply (H Examples_same_format_copy ltac:(cbn; lia) ltac:(lia)
           ltac:(vm_compute; discriminate) _ 3%nat).
  vm_compute. reflexivity.
Defined.

(** Three samples appended to three blocks of eight. *)
Lemma Append_appends_witness :
  samples Examples.convert
    (this (snd (Append Examples.convert Examples.io_ok [1; 2; 3] 0 3
                  (mkWorld Examples.three_blocks 0))))
  = samples Examples.convert Examples.three_blocks
    ++ CopySamples Examples.convert 0 (mSampleFormat Examples.three_blocks)
         (take (Z.to_nat 3) [1; 2; 3]).
Proof.
  destruct (Append_appends Examples.convert Examples.io_ok [1; 2; 3] 0 3
              (mkWorld Examples.three_blocks 0)
              (snd (Append Examples.convert Examples.io_ok [1; 2; 3] 0 3
                      (mkWorld Examples.three_blocks 0)))
              Examples_same_format_copy three_blocks_Invariants) as [H _].
  - cbn. lia.
  - cbn. lia.
  - vm_compute. reflexivity.
  - exact H.
Defined.

Lemma Append_strong_guarantee_witness :
  this (snd (Append Examples.convert Examples.io_broken [1; 2; 3] 0 3
               (mkWorld Examples.three_blocks 0)))
  = Examples.three_blocks.
Proof.
  pose proof (Append_strong_guarantee Examples.convert Examples.io_broken
                [1; 2; 3] 0 3 (mkWorld Examples.three_blocks 0)
                three_blocks_Invariants ltac:(cbn; lia)) as H.
  cbv zeta in H. destruct H as [H _].
  apply (H FileException). vm_compute. reflexivity.
Defined.

(** Four samples written over the end of the first block and the start
    of the second. *)
Lemma SetSamples_overwrites_witness :
  samples Examples.convert
    (this (snd (SetSamples Examples.convert Examples.io_ok
                  Examples.guess_offset (Some [7; 7; 7; 7]) 0 6 4
                  (mkWorld Examples.three_blocks 0))))
  = take (Z.to_nat 6) (samples Examples.convert Examples.three_blocks)
    ++ written Examples.convert (Some [7; 7; 7; 7]) 0
         (mSampleFormat Examples.three_blocks) 4
    ++ drop (Z.to_nat (6 + 4))
         (samples Examples.convert Examples.three_blocks).
Proof.
  destruct (SetSamples_overwrites Examples.convert Examples.io_ok
              Examples.guess_offset (Some [7; 7; 7; 7]) 0 6 4
              (mkWorld Examples.three_blocks 0)
              (snd (SetSamples Examples.convert Examples.io_ok
                      Examples.guess_offset (Some [7; 7; 7; 7]) 0 6 4
                      (mkWorld Examples.three_blocks 0)))
              Examples_same_format_copy three_blocks_Invariants) as [H _].
  - lia.
  - intros buf [= <-]. cbn. lia.
  - vm_compute. reflexivity.
  - exact H.
Defined.

Lemma SetSamples_strong_guarantee_witness :
  this (snd (SetSamples Examples.convert Examples.io_broken
               Examples.guess_offset (Some [7; 7; 7; 7]) 0 6 4
               (mkWorld Examples.three_blocks 0)))
  = Examples.three_blocks.
Proof.
  pose proof (SetSamples_strong_guarantee Examples.convert Examples.io_broken
                Examples.guess_offset (Some [7; 7; 7; 7]) 0 6 4
                (mkWorld Examples.three_blocks 0) three_blocks_Invariants
                ltac:(lia) ltac:(intros buf [= <-]; cbn; lia)) as H.
  cbv zeta in H. destruct H as [H _].
  apply (H FileException). vm_compute. reflexivity.
Defined.

(** A length of -1 at position 6 of three blocks of eight samples: the
    loop goes on to the second block and throws there. *)
Lemma SetSamples_negative_len_not_rejected_witness :
  fst (SetSamples Examples.convert Examples.io_ok Examples.guess_offset
         (Some [7; 7; 7; 7]) 0 6 (-1) (mkWorld Examples.three_blocks 0))
  = Throw InconsistencyException.
Proof.
  pose proof (SetSamples_negative_len_not_rejected Examples.convert
                Examples.io_ok Examples.guess_offset (Some [7; 7; 7; 7]) 0 6
                (-1) (mkWorld Examples.three_blocks 0)
                three_blocks_Invariants ltac:(cbn; lia) ltac:(cbn; lia)
                ltac:(lia)) as H.
  cbv zeta in H. destruct H as (i & b & Hb & Hr & H).
  destruct (fst (SetSamples Examples.convert Examples.io_ok
                   Examples.guess_offset (Some [7; 7; 7; 7]) 0 6 (-1)
                   (mkWorld Examples.three_blocks 0))) as [v|e|].
  - destruct H.
  - destruct H as [_ [[_ [k Hk]]|[-> _]]]; [discriminate Hk|reflexivity].
  - cbn in H. injection H as ->. cbn in Hb. injection Hb as <-.
    cbn in Hr. lia.
Defined.

Lemma SetSilence_silences_witness :
  samples Examples.convert
    (this (snd (SetSilence Examples.convert Examples.io_ok
                  Examples.guess_offset 6 4
                  (mkWorld Examples.three_blocks 0))))
  = take (Z.to_nat 6) (samples Examples.convert Examples.three_blocks)
    ++ replicate (Z.to_nat 4) 0
    ++ drop (Z.to_nat (6 + 4))
         (samples Examples.convert Examples.three_blocks).
Proof.
  pose proof (SetSilence_silences Examples.convert Examples.io_ok
                Examples.guess_offset 6 4 (mkWorld Examples.three_blocks 0)
                three_blocks_Invariants ltac:(lia)) as H.
  cbv zeta in H. destruct H as [H _].
  destruct H as [H _]; [vm_compute; reflexivity|].
  exact (H Examples_same_format_copy).
Defined.

(** Twenty samples of silence inserted at offset 5. *)
Lemma InsertSilence_inserts_witness :
  samples Examples.convert
    (this (snd (InsertSilence Examples.SAMPLE_SIZE Examples.convert 64
                  Examples.io_ok Examples.guess_offset 5 20
                  (mkWorld Examples.three_blocks 0))))
  = take (Z.to_nat 5) (samples Examples.convert Examples.three_blocks)
    ++ replicate (Z.to_nat 20) 0
    ++ drop (Z.to_nat 5) (samples Examples.convert Examples.three_blocks).
Proof.
  pose proof (InsertSilence_inserts Examples.SAMPLE_SIZE Examples.convert 64
                Examples.io_ok Examples.guess_offset 5 20
                (mkWorld Examples.three_blocks 0) three_blocks_Invariants
                ltac:(cbn; lia)) as H.
  cbv zeta in H. destruct H as [H _].
  destruct H as [H _]; [vm_compute; reflexivity|cbn; lia|].
  exact (H Examples_same_format_copy).
Defined.

(** Four samples read from position 6 into a buffer of six. *)
Lemma Get_range_reads_witness :
  fst (Get_range Examples.convert Examples.io_ok Examples.guess_offset
         Examples.three_blocks [0; 0; 0; 0; 0; 0] 0 6 4 0%nat)
  = Ret (true, [7; 8; 11; 12; 0; 0]).
Proof.
  pose proof (Get_range_reads Examples.convert Examples.io_ok
                Examples.guess_offset Examples.three_blocks
                [0; 0; 0; 0; 0; 0] 0 6 4 0%nat three_blocks_Invariants
                ltac:(cbn; lia)) as H.
  cbv zeta in H. destruct H as (_ & _ & H).
  destruct H as [H|[H _]]; [cbn; lia|cbn; lia| |].
  - rewrite H. vm_compute. reflexivity.
  - vm_compute in H. discriminate.
Defined.

Lemma SetSamples_then_Get_witness :
  fst (Get_range Examples.convert Examples.io_ok Examples.guess_offset
         (this (snd (SetSamples Examples.convert Examples.io_ok
                       Examples.guess_offset (Some [7; 7; 7; 7]) 0 6 4
                       (mkWorld Examples.three_blocks 0))))
         [0; 0; 0; 0; 0; 0] (mSampleFormat Examples.three_blocks) 6 4 2%nat)
  = Ret (true, [7; 7; 7; 7; 0; 0]).
Proof.
  pose proof (SetSamples_then_Get Examples.convert Examples.io_ok
                Examples.guess_offset (Some [7; 7; 7; 7]) 0 6 4
                (mkWorld Examples.three_blocks 0)
                (snd (SetSamples Examples.convert Examples.io_ok
                        Examples.guess_offset (Some [7; 7; 7; 7]) 0 6 4
                        (mkWorld Examples.three_blocks 0)))
                [0; 0; 0; 0; 0; 0] 2%nat Examples_same_format_copy
                three_blocks_Invariants ltac:(lia)
                ltac:(intros buf [= <-]; cbn; lia) ltac:(cbn; lia)
                ltac:(vm_compute; reflexivity)) as H.
  cbv zeta in H. destruct H as [H|[H _]].
  - exact H.
  - vm_compute in H. discriminate.
Defined.

Lemma Append_then_Get_witness :
  fst (Get_range Examples.convert Examples.io_ok Examples.guess_offset
         (this (snd (Append Examples.convert Examples.io_ok [1; 2; 3] 0 3
                       (mkWorld Examples.three_blocks 0))))
         [0; 0; 0; 0] (mSampleFormat Examples.three_blocks)
         (mNumSamples Examples.three_blocks) 3 1%nat)
  = Ret (true, [1; 2; 3; 0]).
Proof.
  pose proof (Append_then_Get Examples.convert Examples.io_ok
                Examples.guess_offset [1; 2; 3] 0 3
                (mkWorld Examples.three_blocks 0)
                (snd (Append Examples.convert Examples.io_ok [1; 2; 3] 0 3
                        (mkWorld Examples.three_blocks 0)))
                [0; 0; 0; 0] 1%nat Examples_same_format_copy
                three_blocks_Invariants ltac:(cbn; lia) ltac:(cbn; lia)
                ltac:(cbn; lia) ltac:(vm_compute; reflexivity)) as H.
  cbv zeta in H. destruct H as [H|[H _]].
  - exact H.
  - vm_compute in H. discriminate.
Defined.

(** The samples 5 to 19 of three blocks of eight samples. *)
Lemma Copy_copies_witness :
  exists dest,
    fst (Copy Examples.SAMPLE_SIZE Examples.convert 64 Examples.io_ok
           Examples.guess_offset true Examples.three_blocks 5 20 0%nat)
    = Ret dest /\
    samples Examples.convert dest
    = take (Z.to_nat (20 - 5))
        (drop (Z.to_nat 5) (samples Examples.convert Examples.three_blocks)) /\
    Invariants dest.
Proof.
  pose proof (Copy_copies Examples.SAMPLE_SIZE Examples.convert 64
                Examples.io_ok Examples.guess_offset true
                Examples.three_blocks 5 20 0%nat) as H.
  cbv zeta in H.
  destruct (H three_blocks_Invariants ltac:(vm_compute; discriminate)
              ltac:(lia) ltac:(lia) ltac:(cbn; lia)) as [H1 _].
  eexists. split; [vm_compute; reflexivity|].
  destruct (H1 _ ltac:(vm_compute; reflexivity)) as (Hs & _ & HI & _).
  split; [exact (Hs Examples_same_format_copy)|exact HI].
Defined.

Lemma Copy_guard_witness :
  Copy Examples.SAMPLE_SIZE Examples.convert 64 Examples.io_ok
    Examples.guess_offset true Examples.three_blocks 5 30 0%nat
  = (Undefined, 0%nat).
Proof.
  pose proof (Copy_guard Examples.SAMPLE_SIZE Examples.convert 64
                Examples.io_ok Examples.guess_offset true
                Examples.three_blocks 5 30 0%nat) as H.
  cbv zeta in H. destruct H as [_ H].
  apply H; [exact three_blocks_Invariants|lia|cbn; lia|lia|right; cbn; lia].
Defined.

(** The samples 5 to 19 cut out and pasted back. *)
Lemma Copy_Delete_Paste_restores_witness :
  exists clip w2,
    fst (Copy Examples.SAMPLE_SIZE Examples.convert 64 Examples.io_ok
           Examples.guess_offset true Examples.three_blocks 5 20 0%nat)
    = Ret clip /\
    Paste Examples.convert Examples.io_ok Examples.guess_offset 5 clip
      (snd (Delete Examples.convert Examples.io_ok Examples.guess_offset 5
              (20 - 5) (mkWorld Examples.three_blocks 0)))
    = (Ret tt, w2) /\
    samples Examples.convert (this w2)
    = samples Examples.convert Examples.three_blocks.
Proof.
  eexists _, _. split; [vm_compute; reflexivity|].
  split; [vm_compute; reflexivity|].
  eapply (Copy_Delete_Paste_restores Examples.SAMPLE_SIZE Examples.convert 64
            Examples.io_ok Examples.guess_offset true 5 20 _
            (mkWorld Examples.three_blocks 0) _ _ 0%nat).
  - exact Examples_same_format_copy.
  - exact three_blocks_Invariants.
  - vm_compute. discriminate.
  - lia.
  - lia.
  - cbn. lia.
  - vm_compute. reflexivity.
  - vm_compute. reflexivity.
  - vm_compute. reflexivity.
Defined.

(** Three blocks of eight samples converted to another format. *)
Lemma ConvertToSampleFormat_converts_witness :
  let r := ConvertToSampleFormat Examples.SAMPLE_SIZE Examples.convert 64
             Examples.io_ok 1 (mkWorld Examples.three_blocks 0) in
  fst r = Ret true /\ mSampleFormat (this (snd r)) = 1 /\
  samples Examples.convert (this (snd r))
  = CopySamples Examples.convert 0 1
      (samples Examples.convert Examples.three_blocks).
Proof.
  pose proof (ConvertToSampleFormat_converts Examples.SAMPLE_SIZE
                Examples.convert 64 Examples.io_ok 1
                (mkWorld Examples.three_blocks 0)) as H.
  cbv zeta in *.
  destruct (H three_blocks_Invariants ltac:(cbn; lia)) as [_ H2].
  destruct H2 as [(H1 & H3 & _ & _ & _ & _ & H4)|[H1 _]].
  - discriminate.
  - vm_compute. discriminate.
  - split; [exact H1|]. split; [exact H3|].
    exact (H4 Examples_same_format_copy).
  - vm_compute in H1. discriminate.
Defined.
